(** * karel_trace: trace decoder, trace encoder and late-pooling code decoder

    A shallow embedding of [program_synthesis/models/modules/karel_trace.py].

    - Python exceptions are an error type [exn] and fallible code returns
      [result].
    - Tensors (torch) and arrays (numpy) are a shape and the row-major list
      of their elements; the elements themselves are never inspected except
      by the max-pooling of the code decoder, so the element type is a
      parameter.
    - The learned layers (embeddings, LSTMs, attention, linear projections)
      and the Karel runtime are not part of the file: they are parameters.
    - The numpy field array of the trace decoder is mutated in place by the
      Karel runtime, so it lives in a store of arrays addressed by location. *)

From Stdlib Require Import ZArith List String Ascii Bool Lia.
From stdpp Require Import base option list gmap strings.

Local Open Scope string_scope.
Local Open Scope Z_scope.

(** ** Python values and exceptions *)

Module Py.

Inductive exn : Set :=
  | TypeError | IndexError | RuntimeError | AssertionError
  | ValueError | KeyError | AttributeError.

Inductive result (X : Type) : Type :=
  | Ok (x : X)
  | Raise (e : exn).
Arguments Ok {X} x.
Arguments Raise {X} e.

Definition bind {X Y : Type} (m : result X) (k : X -> result Y) : result Y :=
  match m with
  | Ok x => k x
  | Raise e => Raise e
  end.

Definition assert (b : bool) : result unit :=
  if b then Ok tt else Raise AssertionError.

Definition is_ok {X : Type} (m : result X) : Prop :=
  match m with Ok _ => True | Raise _ => False end.

(** [s.split(sep)] for a one-character separator. *)
Fixpoint split (sep : ascii) (s : string) : list string :=
  match s with
  | EmptyString => [EmptyString]
  | String ch rest =>
      if Ascii.eqb ch sep then EmptyString :: split sep rest
      else match split sep rest with
           | [] => [String ch EmptyString]
           | w :: ws => String ch w :: ws
           end
  end.

(** [l.remove(x)] once [x in l] is known: the first occurrence goes. *)
Fixpoint list_remove (x : string) (l : list string) : list string :=
  match l with
  | [] => []
  | y :: l' => if String.eqb x y then l' else y :: list_remove x l'
  end.

Definition list_mem (x : string) (l : list string) : bool :=
  existsb (String.eqb x) l.

(** A slice bound as [slice.indices] clips it: [a[:k]] keeps
    [slice_stop n k] leading items of [n]. *)
Definition slice_stop (n : nat) (k : Z) : nat :=
  if k <? 0 then Z.to_nat (Z.max 0 (Z.of_nat n + k))
  else Z.to_nat (Z.min k (Z.of_nat n)).

(** An integer index into an axis of length [n]; negative indices count
    from the end. *)
Definition norm_index (n : nat) (i : Z) : result nat :=
  if (0 <=? i) && (i <? Z.of_nat n) then Ok (Z.to_nat i)
  else if (- Z.of_nat n <=? i) && (i <? 0) then Ok (Z.to_nat (i + Z.of_nat n))
  else Raise IndexError.

#[export] Instance result_ret : MRet result := @Ok.
#[export] Instance result_bind : MBind result := fun X Y k m => Py.bind m k.

End Py.
Export Py.

(** ** Action vocabulary *)

Definition action_to_id : gmap string Z :=
  <["<s>" := 0]> (<["</s>" := 1]> (<["move" := 2]> (<["turnLeft" := 3]>
  (<["turnRight" := 4]> (<["putMarker" := 5]> (<["pickMarker" := 6]> ∅)))))).

Definition id_to_action : gmap Z string :=
  <[0 := "<s>"]> (<[1 := "</s>"]> (<[2 := "move"]> (<[3 := "turnLeft"]>
  (<[4 := "turnRight"]> (<[5 := "putMarker"]> (<[6 := "pickMarker"]> ∅)))))).

(** The test of [TraceDecoder.decode_token] that skips the world step. *)
Definition ignored_action (action_id : Z) : bool := action_id <? 2.


(** ** Tensors and arrays

    A torch tensor or numpy array is its shape and its elements in row-major
    order.  Only the operations the file uses are given, each with the errors
    the library raises. *)

Module Tensor.

Local Close Scope string_scope.
Local Open Scope nat_scope.

Record tensor (A : Type) : Type := Tensor { shape : list nat; data : list A }.
Arguments Tensor {A} shape data.
Arguments shape {A} t.
Arguments data {A} t.

Definition numel (s : list nat) : nat := foldr Nat.mul 1 s.

(** [t.shape[0]] of a tensor that has a leading axis. *)
Definition dim0 {A} (t : tensor A) : nat := hd 0 (shape t).

(** [l.shape[i]], 0 past the end. *)
Definition dim (s : list nat) (i : nat) : nat := nth i s 0.

(** The [i]-th block of [sz] consecutive elements. *)
Definition chunk {A} (sz i : nat) (l : list A) : list A :=
  take sz (drop (i * sz) l).

(** Row [i] along the leading axis, as the elements it holds. *)
Definition row {A} (t : tensor A) (i : nat) : list A :=
  chunk (numel (tail (shape t))) i (data t).

(** The elements at position [j] of axis 1 inside block [l] of axis 0. *)
Definition row1 {A} (t : tensor A) (l j : nat) : list A :=
  chunk (numel (drop 2 (shape t))) (l * dim (shape t) 1 + j) (data t).

Definition wf {A} (t : tensor A) : Prop := length (data t) = numel (shape t).

Fixpoint traverse {X Y : Type} (f : X -> result Y) (l : list X)
  : result (list Y) :=
  match l with
  | [] => Ok []
  | x :: l' => y ← f x; ys ← traverse f l'; Ok (y :: ys)
  end.

(** The shape [view] and [reshape] settle on for [total] elements: one
    argument may be -1 and is then inferred. *)
Definition infer_shape (e : exn) (total : nat) (dims : list Z)
  : result (list nat) :=
  if existsb (fun d => (d <? -1)%Z) dims then Raise e
  else
    let known :=
      numel (map Z.to_nat (List.filter (fun d => negb (d =? -1)%Z) dims)) in
    match length (List.filter (fun d => (d =? -1)%Z) dims) with
    | 0 => if known =? total then Ok (map Z.to_nat dims) else Raise e
    | 1 => if known =? 0 then Raise e
           else if total mod known =? 0
           then Ok (map (fun d => if (d =? -1)%Z then total / known
                                  else Z.to_nat d) dims)
           else Raise e
    | _ => Raise e
    end.

(** [t.view(dims...)] *)
Definition view {A} (t : tensor A) (dims : list Z) : result (tensor A) :=
  s ← infer_shape RuntimeError (numel (shape t)) dims;
  Ok (Tensor s (data t)).

(** [a.reshape(dims...)] of numpy *)
Definition reshape {A} (t : tensor A) (dims : list Z) : result (tensor A) :=
  s ← infer_shape ValueError (numel (shape t)) dims;
  Ok (Tensor s (data t)).

(** [t.view_as(other)] *)
Definition view_as {A} (t other : tensor A) : result (tensor A) :=
  view t (map Z.of_nat (shape other)).

(** [t.unsqueeze(0)] *)
Definition unsqueeze0 {A} (t : tensor A) : tensor A :=
  Tensor (1 :: shape t) (data t).

(** [t.squeeze(0)] *)
Definition squeeze0 {A} (t : tensor A) : tensor A :=
  match shape t with
  | 1 :: rest => Tensor rest (data t)
  | _ => t
  end.

(** [t[:k]] *)
Definition slice0 {A} (t : tensor A) (k : Z) : result (tensor A) :=
  match shape t with
  | [] => Raise IndexError
  | n :: rest =>
      let m := slice_stop n k in
      Ok (Tensor (m :: rest) (take (m * numel rest) (data t)))
  end.

(** [t[:, :k]] *)
Definition slice1 {A} (t : tensor A) (k : Z) : result (tensor A) :=
  match shape t with
  | n0 :: n1 :: rest =>
      let m := slice_stop n1 k in
      Ok (Tensor (n0 :: m :: rest)
            (concat (map (fun l => take (m * numel rest)
                                     (drop (l * (n1 * numel rest)) (data t)))
                         (seq 0 n0))))
  | _ => Raise IndexError
  end.

(** [t[offset:offset + bs]] with both bounds non-negative. *)
Definition slice_rows {A} (t : tensor A) (offset bs : nat) : result (tensor A) :=
  match shape t with
  | [] => Raise IndexError
  | n :: rest =>
      let lo := Nat.min offset n in
      let hi := Nat.min (offset + bs) n in
      Ok (Tensor ((hi - lo) :: rest)
            (take ((hi - lo) * numel rest) (drop (lo * numel rest) (data t))))
  end.

(** The index tensor of [select_for_beams]: a 2 x K array of integers, given
    by its two rows (originating example, chosen beam). *)
Definition indices : Set := (list Z * list Z)%type.

(** [tuple(indices.data.numpy())]: the two rows, as two index arrays.  A
    torch tensor indexed with the array [indices.data.numpy()] itself takes
    the same two rows: torch treats a short sequence whose items are
    sequences as the tuple of its items. *)
Definition as_tuple (ix : indices) : list (Z * Z) := zip (fst ix) (snd ix).

(** Index pairs that name an example below [n0] and a beam below [n1]. *)
Definition in_range (n0 n1 : nat) (ix : list (Z * Z)) : Prop :=
  Forall (fun p => (0 <= fst p < Z.of_nat n0)%Z /\ (0 <= snd p < Z.of_nat n1)%Z)
    ix.

(** The position of the pair [p] in the example-major order. *)
Definition offset_of (n1 : nat) (p : Z * Z) : nat :=
  Z.to_nat (fst p) * n1 + Z.to_nat (snd p).

(** Indexing with a tuple of two integer arrays on the axes [d] and [d + 1]
    ([t[i0, i1]] for [d = 0], [t[:, i0, i1]] for [d = 1]): entry [j] of the
    result is the block at ([i0[j]], [i1[j]]); the two axes are replaced by
    one axis of length K. *)
Definition index_tuple {A} (d : nat) (t : tensor A) (ix : list (Z * Z))
  : result (tensor A) :=
  match drop d (shape t) with
  | n0 :: n1 :: rest =>
      offs ← traverse (fun '(i0, i1) =>
                         k0 ← norm_index n0 i0;
                         k1 ← norm_index n1 i1;
                         Ok (k0 * n1 + k1)) ix;
      Ok (Tensor (take d (shape t) ++ length ix :: rest)
            (concat (map (fun l =>
                       concat (map (fun k => chunk (numel rest)
                                               (l * (n0 * n1) + k) (data t))
                                   offs))
                     (seq 0 (numel (take d (shape t)))))))
  | _ => Raise IndexError
  end.

(** [t[l]] for a list of integers [l]: the listed rows, in that order. *)
Definition index_list {A} (t : tensor A) (l : list Z) : result (tensor A) :=
  match shape t with
  | [] => Raise IndexError
  | n :: rest =>
      ks ← traverse (norm_index n) l;
      Ok (Tensor (length l :: rest)
            (concat (map (fun k => chunk (numel rest) k (data t)) ks)))
  end.

Definition shape_eqb (s1 s2 : list nat) : bool :=
  bool_decide (s1 = s2).

(** [torch.cat((x, y), dim=d)] *)
Definition cat2 {A} (d : nat) (x y : tensor A) : result (tensor A) :=
  if (d <? length (shape x))
     && shape_eqb (take d (shape x)) (take d (shape y))
     && shape_eqb (drop (S d) (shape x)) (drop (S d) (shape y))
  then
    let cx := numel (drop d (shape x)) in
    let cy := numel (drop d (shape y)) in
    Ok (Tensor (take d (shape x) ++ (dim (shape x) d + dim (shape y) d)
                  :: drop (S d) (shape x))
          (concat (map (fun o => chunk cx o (data x) ++ chunk cy o (data y))
                       (seq 0 (numel (take d (shape x)))))))
  else Raise RuntimeError.

Fixpoint cat_onto {A} (d : nat) (acc : tensor A) (ts : list (tensor A))
  : result (tensor A) :=
  match ts with
  | [] => Ok acc
  | t :: ts' => acc' ← cat2 d acc t; cat_onto d acc' ts'
  end.

(** [torch.cat(ts, dim=d)] *)
Definition cat {A} (d : nat) (ts : list (tensor A)) : result (tensor A) :=
  match ts with
  | [] => Raise RuntimeError
  | t :: ts' => cat_onto d t ts'
  end.

(** [torch.zeros(sizes...)] *)
Definition zeros {A} (zero : A) (sizes : list Z) : result (tensor A) :=
  if existsb (fun d => (d <? 0)%Z) sizes then Raise RuntimeError
  else let s := map Z.to_nat sizes in Ok (Tensor s (replicate (numel s) zero)).

(** [t.unsqueeze(1).expand(-1, p, -1)] of a 2-D tensor: each row repeated
    along a new axis 1. *)
Definition expand_pairs {A} (t : tensor A) (p : Z) : result (tensor A) :=
  match shape t with
  | [n; w] =>
      if (p <? -1)%Z then Raise RuntimeError
      else
        let p := if (p =? -1)%Z then 1 else Z.to_nat p in
        Ok (Tensor [n; p; w]
              (concat (map (fun i => concat (replicate p (chunk w i (data t))))
                           (seq 0 n))))
  | _ => Raise RuntimeError
  end.

(** The vectors of one block of a 3-D tensor, one per position of axis 1. *)
Definition vectors {A} (p w : nat) (block : list A) : list (list A) :=
  map (fun k => chunk w k block) (seq 0 p).

(** Elementwise maximum of a non-empty list of vectors. *)
Definition max_vectors {A} (emax : A -> A -> A) (vs : list (list A))
  : option (list A) :=
  match vs with
  | [] => None
  | v :: vs' => Some (foldl (zip_with emax) v vs')
  end.

(** The values of [t.max(dim=1)] for a 3-D tensor. *)
Definition max_dim1 {A} (emax : A -> A -> A) (t : tensor A)
  : result (tensor A) :=
  match shape t with
  | [n; p; w] =>
      if p =? 0 then Raise RuntimeError
      else
        Ok (Tensor [n; w]
              (concat (map (fun i =>
                         default []
                           (max_vectors emax
                              (vectors p w (chunk (p * w) i (data t)))))
                       (seq 0 n))))
  | _ => Raise RuntimeError
  end.

End Tensor.
Export Tensor.

(** ** Helpers of [karel_modules] and [karel_common] used by this file *)

Module karel_modules.

(** Modelled from the spec: [karel_modules.set_pop] is not among the sources.
    It is called on a set ([IndividualTraceEncoder]) and on a list
    ([LatePoolingCodeDecoder]); it removes [value] when present and tells
    whether it was.  Here on a set. *)
Definition set_pop (s : gset string) (value : string) : bool * gset string :=
  if decide (value ∈ s) then (true, s ∖ {[ value ]}) else (false, s).

(** Modelled from the spec: [karel_modules.set_pop] on a list, where
    [remove] drops the first occurrence only. *)
Definition set_pop_list (s : list string) (value : string)
  : bool * list string :=
  if list_mem value s then (true, list_remove value s) else (false, s).

(** Modelled from the spec: [karel_modules.maybe_concat] is not among the
    sources.  It concatenates, along [dim], the items that are not [None], in
    the order given, and gives [None] when every item is [None]. *)
Definition maybe_concat {A} (items : list (option (tensor A))) (dim : nat)
  : result (option (tensor A)) :=
  match omap id items with
  | [] => Ok None
  | to_concat => t ← cat dim to_concat; Ok (Some t)
  end.

(** Modelled from the spec: [karel_modules.flatten] is not among the
    sources.  As the comments at its call sites say, [flatten(v, k)] merges
    the axes [k] and [k + 1] of [v]. *)
Definition flatten {A} (v : tensor A) (k : nat) : result (tensor A) :=
  view v (map Z.of_nat (take k (shape v)) ++ [-1]
            ++ map Z.of_nat (drop (k + 2) (shape v)))%list.

(** Modelled from the spec: [karel_modules.lstm_init] is not among the
    sources.  It gives the initial hidden and cell state of an LSTM, zeros of
    shape [num_layers x batch_sizes... x hidden_size]. *)
Definition lstm_init {A} (zero : A) (cuda : bool) (num_layers hidden_size : Z)
  (batch_sizes : list Z) : result (tensor A * tensor A) :=
  init ← zeros zero ((num_layers :: batch_sizes) ++ [hidden_size])%list;
  Ok (init, init).

End karel_modules.


(** ** Command-line arguments and layer descriptions *)

Record Args : Set := {
  cuda : bool;
  karel_trace_grid_enc : string;
  karel_trace_cond_enc : string;
  karel_trace_enc : string;
  karel_trace_action_enc : string;
  karel_trace_usage : string;
  karel_io_enc : string;
  num_placeholders : Z;
}.

(** What a constructor stores in an attribute: the sentinel
    [karel_common.none_fn] or a layer with the sizes it was built with. *)
Inductive layer : Set :=
  | none_fn
  | LGRLGridEncoder
  | PResNetGridEncoder
  | Embedding (num_embeddings embedding_dim : Z)
  | MultiEmbedding (sizes dims : list Z) (combiner : string)
  | Linear (in_features out_features : Z)
  | Sequential (first second : layer)
  | LSTM (input_size hidden_size num_layers : Z) (bidirectional : bool)
  | SimpleSDPAttention (query_size values_size : Z).

(** A Python number: [/] on two integers is the true division, which gives
    a float. *)
Inductive number : Set :=
  | Int (n : Z)
  | Float (numerator denominator : Z).

Definition truediv (a b : Z) : number := Float a b.

(** A size given to the constructor of a layer: [nn.Embedding] makes its
    weight of [num_embeddings x embedding_dim] elements and refuses a float
    with [TypeError]. *)
Definition as_size (x : number) : result Z :=
  match x with
  | Int n => Ok n
  | Float _ _ => Raise TypeError
  end.

(** Tokens of a vocabulary of [vocab] entries: what an embedding of [vocab]
    rows can look up. *)
Definition tokens_below (vocab : nat) (tokens : list Z) : Prop :=
  Forall (fun tok => 0 <= tok < Z.of_nat vocab) tokens.

(** [x is karel_common.none_fn] *)
Definition is_none_fn (x : layer) : bool :=
  match x with none_fn => true | _ => false end.

(** Reading an attribute that [__init__] never assigned. *)
Definition getattr {X : Type} (attr : option X) : result X :=
  match attr with Some x => Ok x | None => Raise AttributeError end.

(** ** IndividualTraceEncoder *)

Module IndividualTraceEncoder.

Record t : Set := {
  grid_encoder : layer;
  cond_embed : layer;
  action_embed : layer;
  interleave : bool;
  encoder : layer;
}.

Definition make_grid_encoder (args : Args) : result layer :=
  if String.eqb (karel_trace_grid_enc args) "lgrl" then Ok LGRLGridEncoder
  else if String.eqb (karel_trace_grid_enc args) "presnet"
       then Ok PResNetGridEncoder
  else if String.eqb (karel_trace_grid_enc args) "none" then Ok none_fn
  else Raise ValueError.

(** [MultiEmbedding(sizes, dims, combiner)], which builds one
    [nn.Embedding(size, dim)] for each pair of [zip(sizes, dims)]. *)
Definition new_MultiEmbedding (sizes dims : list number) (combiner : string)
  : result layer :=
  sizes ← traverse as_size sizes;
  dims ← traverse as_size dims;
  Ok (MultiEmbedding sizes dims combiner).

(** The conditionals; [256 / 4] is the float [64.0]. *)
Definition make_cond_embed (args : Args) : result layer :=
  if String.eqb (karel_trace_cond_enc args) "concat"
  then new_MultiEmbedding (replicate 4 (Int 2)) (replicate 4 (truediv 256 4))
         "cat"
  else if String.eqb (karel_trace_cond_enc args) "sum"
  then new_MultiEmbedding (replicate 4 (Int 2)) (replicate 4 (Int 256)) "sum"
  else if String.eqb (karel_trace_cond_enc args) "none" then Ok none_fn
  else Raise ValueError.

(** The attribute is assigned for ['emb'] and ['none'] only. *)
Definition make_action_embed (args : Args) : option layer :=
  if String.eqb (karel_trace_action_enc args) "emb"
  then Some (Embedding (Z.of_nat (size action_to_id)) 512)
  else if String.eqb (karel_trace_action_enc args) "none" then Some none_fn
  else None.

(** The width of the concatenated input in the mode that is not
    interleaved, before the assertion on it. *)
Definition concat_input_size (action grid cond : layer) : Z :=
  let enc_input_size := 0 in
  let enc_input_size :=
    if negb (is_none_fn action) then enc_input_size + 512 else enc_input_size in
  let enc_input_size :=
    if negb (is_none_fn grid) then enc_input_size + 256 else enc_input_size in
  let enc_input_size :=
    if negb (is_none_fn cond) then enc_input_size + 256 else enc_input_size in
  enc_input_size.

Definition __init__ (args : Args) : result t :=
  grid ← make_grid_encoder args;
  cond ← make_cond_embed args;
  let trace_enc_options : gset string :=
    list_to_set (tail (split ":" (karel_trace_enc args))) in
  let '(interleave, trace_enc_options) :=
    karel_modules.set_pop trace_enc_options "interleave" in
  let '(concat, trace_enc_options) :=
    karel_modules.set_pop trace_enc_options "concat" in
  _ ← assert (xorb interleave concat);
  _ ← assert (bool_decide (trace_enc_options = ∅));
  let interleave := interleave && negb concat in
  let action := make_action_embed args in
  if interleave then
    action ← getattr action;
    _ ← assert (negb (is_none_fn action));
    let enc_input_size := 512 in
    cond ← (if is_none_fn grid
            then _ ← assert (negb (is_none_fn cond));
                 Ok (Sequential cond (Linear 256 512))
            else Ok cond);
    grid ← (if is_none_fn cond
            then _ ← assert (negb (is_none_fn grid));
                 Ok (Sequential grid (Linear 256 512))
            else Ok grid);
    Ok {| grid_encoder := grid; cond_embed := cond; action_embed := action;
          interleave := interleave;
          encoder := LSTM enc_input_size 256 2 true |}
  else
    action ← getattr action;
    let enc_input_size := concat_input_size action grid cond in
    _ ← assert (negb (enc_input_size =? 0));
    Ok {| grid_encoder := grid; cond_embed := cond; action_embed := action;
          interleave := interleave;
          encoder := LSTM enc_input_size 256 2 true |}.

(** The [input_size] the encoder LSTM was built with. *)
Definition enc_input_size (e : t) : Z :=
  match encoder e with
  | LSTM input_size _ _ _ => input_size
  | _ => 0
  end.

End IndividualTraceEncoder.

(** ** Collaborators of the code decoder *)

(** Modelled from the spec: [base.MaskedMemory] is not among the sources.
    It pairs the padded trace memory with its attention mask, and [apply]
    maps a function over both. *)
Module MaskedMemory.

Record t (A : Type) : Type := {
  memory : tensor A;
  attn_mask : tensor bool;
}.
Arguments Build_t {A} _ _.
Arguments memory {A} _.
Arguments attn_mask {A} _.

Definition apply {A} (fn : forall X, tensor X -> result (tensor X)) (m : t A)
  : result (t A) :=
  mem ← fn A (memory m);
  mask ← fn bool (attn_mask m);
  Ok (Build_t mem mask).

End MaskedMemory.

(** Modelled from the spec: [prepare_spec.PackedSequencePlus] is not among
    the sources.  [ps_data] is the packed data ([ps.data]), timestep-major;
    [batch_sizes] is the number of active sequences at each timestep
    ([ps.batch_sizes]). *)
Record PackedSequencePlus (X : Type) : Type := {
  ps_data : X;
  batch_sizes : list nat;
  orig_to_sort : list Z;
}.
Arguments Build_PackedSequencePlus {X} _ _ _.
Arguments ps_data {X} _.
Arguments batch_sizes {X} _.
Arguments orig_to_sort {X} _.

Definition PackedSequencePlus_apply {X Y} (fn : X -> result Y)
  (p : PackedSequencePlus X) : result (PackedSequencePlus Y) :=
  d ← fn (ps_data p);
  Ok (Build_PackedSequencePlus d (batch_sizes p) (orig_to_sort p)).

(** [t.shape[-1]] *)
Definition last_dim {A} (t : tensor A) : result Z :=
  match last (shape t) with
  | Some n => Ok (Z.of_nat n)
  | None => Raise IndexError
  end.

(** ** LatePoolingCodeDecoder *)

Module LatePoolingCodeDecoder.

Record Memory (A : Type) : Type := {
  io : option (tensor A);
  trace : option (MaskedMemory.t A);
}.
Arguments Build_Memory {A} _ _.
Arguments io {A} _.
Arguments trace {A} _.

Record State (A : Type) : Type := {
  pairs_per_example : Z;
  context : option (tensor A);
  h : tensor A;
  c : tensor A;
}.
Arguments Build_State {A} _ _ _ _.
Arguments pairs_per_example {A} _.
Arguments context {A} _.
Arguments h {A} _.
Arguments c {A} _.

(** The learned layers, which the module owns but this file does not define:
    the token embedding, the 2-layer LSTM, the attention over the trace
    (its context output only) and the output projection; with the zero and
    the maximum of the element type. *)
Record Weights (A : Type) : Type := {
  zero : A;
  emax : A -> A -> A;
  code_embed_fn : list Z -> result (tensor A);
  decoder_fn : tensor A -> tensor A * tensor A
               -> result (tensor A * (tensor A * tensor A));
  trace_attention_fn : tensor A -> tensor A -> tensor bool -> result (tensor A);
  out_fn : tensor A -> result (tensor A);
}.
Arguments zero {A} _.
Arguments emax {A} _.
Arguments code_embed_fn {A} _.
Arguments decoder_fn {A} _.
Arguments trace_attention_fn {A} _.
Arguments out_fn {A} _.

Record t (A : Type) : Type := {
  _cuda : bool;
  use_trace_memory : bool;
  use_trace_state : bool;
  use_io_embed : bool;
  trace_attention : option layer;
  code_embed : layer;
  decoder : layer;
  out : layer;
  weights : Weights A;
}.
Arguments _cuda {A} _.
Arguments use_trace_memory {A} _.
Arguments use_trace_state {A} _.
Arguments use_io_embed {A} _.
Arguments trace_attention {A} _.
Arguments code_embed {A} _.
Arguments decoder {A} _.
Arguments out {A} _.
Arguments weights {A} _.

Section Decoder.
Context {A : Type}.

(** [State.select_for_beams]: the context is indexed with the array
    [indices.data.numpy()], which torch takes for the tuple of its two
    rows. *)
Definition select_for_beams (self : State A) (batch_size : Z)
  (indices : indices) : result (State A) :=
  context' ←
    match context self with
    | None => Ok None
    | Some ctx =>
        v ← view ctx (batch_size :: -1 :: map Z.of_nat (tail (shape ctx)));
        r ← index_tuple 0 v (as_tuple indices);
        Ok (Some r)
    end;
  h' ← (v ← view (h self)
              (2 :: batch_size :: -1 :: map Z.of_nat (drop 2 (shape (h self))));
        index_tuple 1 v (as_tuple indices));
  c' ← (v ← view (c self)
              (2 :: batch_size :: -1 :: map Z.of_nat (drop 2 (shape (c self))));
        index_tuple 1 v (as_tuple indices));
  Ok (Build_State (pairs_per_example self) context' h' c').

(** [State.truncate]: [self.context[:k]] is evaluated first, and subscripting
    [None] is a [TypeError]. *)
Definition truncate (self : State A) (k : Z) : result (State A) :=
  context' ←
    match context self with
    | None => Raise TypeError
    | Some ctx => slice0 ctx k
    end;
  h' ← slice1 (h self) k;
  c' ← slice1 (c self) k;
  Ok (Build_State (pairs_per_example self) (Some context') h' c').

(** The invariant of the specification: every field that is not [None] has
    [n] rows along its batch axis, which is axis 0 of the context and axis 1
    of [h] and [c]. *)
Definition batch_dimension (n : nat) (s : State A) : Prop :=
  dim (shape (h s)) 1 = n /\ dim (shape (c s)) 1 = n /\
  forall ctx, context s = Some ctx -> dim (shape ctx) 0 = n.

(** [__init__]; [w] stands for the weights the layers are created with. *)
Definition __init__ (w : Weights A) (vocab_size : Z) (args : Args)
  : result (t A) :=
  _ ← assert (num_placeholders args =? 0);
  let trace_usage := split "," (karel_trace_usage args) in
  let '(use_trace_memory, trace_usage) :=
    karel_modules.set_pop_list trace_usage "memory" in
  let '(use_trace_state, trace_usage) :=
    karel_modules.set_pop_list trace_usage "state" in
  let '(none, trace_usage) := karel_modules.set_pop_list trace_usage "none" in
  let use_trace_memory := if none then false else use_trace_memory in
  let use_trace_state := if none then false else use_trace_state in
  _ ← assert (match trace_usage with [] => true | _ => false end);
  _ ← assert (negb use_trace_state);
  let use_io_embed := negb (String.eqb (karel_io_enc args) "none") in
  Ok {| _cuda := cuda args;
        use_trace_memory := use_trace_memory;
        use_trace_state := use_trace_state;
        use_io_embed := use_io_embed;
        trace_attention :=
          if use_trace_memory then Some (SimpleSDPAttention 256 512) else None;
        code_embed := Embedding vocab_size 256;
        decoder :=
          LSTM (256 + (if use_io_embed then 512 else 0)
                + (if use_trace_memory then 512 else 0)) 256 2 false;
        out := Linear (256 + (if use_trace_memory then 512 else 0)) vocab_size;
        weights := w |}.

(** [init_state] *)
Definition init_state (self : t A) (batch_size pairs_per_example : Z)
  : result (State A) :=
  context ←
    (if use_trace_memory self
     then ctx ← zeros (zero (weights self)) [batch_size; pairs_per_example; 512];
          Ok (Some ctx)
     else Ok None);
  '(h0, c0) ← karel_modules.lstm_init (zero (weights self)) (_cuda self) 2 256
                [batch_size; pairs_per_example];
  Ok (Build_State pairs_per_example context h0 c0).

(** The padded trace memory and its mask, as [trace_memory.mem.pad] and
    [base.get_attn_mask] give them; both are outside this file and their
    results are taken as the input. *)
Definition padded_trace : Type := (tensor A * tensor bool)%type.

(** [prepare_memory] *)
Definition prepare_memory (self : t A) (batch_size pairs_per_example : Z)
  (io_embed : option (tensor A)) (trace_memory : option padded_trace)
  : result (Memory A) :=
  trace_memory ←
    match use_trace_memory self, trace_memory with
    | true, Some (trace_memory, trace_mask) =>
        trace_memory ← view trace_memory
          (batch_size :: pairs_per_example
             :: map Z.of_nat (tail (shape trace_memory)));
        trace_mask ← view trace_mask
          (batch_size :: pairs_per_example
             :: map Z.of_nat (tail (shape trace_mask)));
        Ok (Some (MaskedMemory.Build_t trace_memory trace_mask))
    | _, _ => Ok None
    end;
  Ok (Build_Memory io_embed trace_memory).

(** The pooling of [compute_next_token_logits]: the rows of [emb_for_logits]
    are grouped by [pairs_per_example] and reduced by the maximum. *)
Definition pool (emax : A -> A -> A) (pairs_per_example : Z)
  (emb_for_logits : tensor A) : result (tensor A) :=
  d ← last_dim emb_for_logits;
  v ← view emb_for_logits [-1; pairs_per_example; d];
  max_dim1 emax v.

(** The pooling in the words of the specification: the elementwise maximum,
    over the [p] pairs of example [i], of the rows of [emb]; the rows of one
    example are consecutive. *)
Definition max_over_pairs (emax : A -> A -> A) (emb : tensor A) (p i : nat)
  : list A :=
  foldl (zip_with emax) (row emb (i * p))
    (map (fun k => row emb (i * p + k)%nat) (seq 1 (p - 1))).

(** [compute_next_token_logits]; [self.trace_attention] is an attribute
    only when [__init__] found the trace memory in use. *)
Definition compute_next_token_logits (self : t A) (state : State A)
  (memory : Memory A) (last_token_emb : tensor A)
  : result (State A * tensor A) :=
  let pairs_per_example := pairs_per_example state in
  dec_input ← karel_modules.maybe_concat
                [Some last_token_emb; io memory; context state] 2;
  dec_input ← getattr dec_input;
  d ← last_dim dec_input;
  dec_input ← view dec_input [-1; d];
  h0 ← karel_modules.flatten (h state) 1;
  c0 ← karel_modules.flatten (c state) 1;
  '(dec_output, (h1, c1)) ←
    decoder_fn (weights self) (unsqueeze0 dec_input) (h0, c0);
  h1 ← view_as h1 (h state);
  c1 ← view_as c1 (c state);
  let dec_output := squeeze0 dec_output in
  new_context ←
    match trace memory with
    | Some tr =>
        _ ← getattr (trace_attention self);
        m ← karel_modules.flatten (MaskedMemory.memory tr) 0;
        mask ← karel_modules.flatten (MaskedMemory.attn_mask tr) 0;
        ctx ← trace_attention_fn (weights self) dec_output m mask;
        Ok (Some ctx)
    | None => Ok None
    end;
  emb_for_logits ← karel_modules.maybe_concat [new_context; Some dec_output] 1;
  emb_for_logits ← getattr emb_for_logits;
  emb_for_logits ← pool (emax (weights self)) pairs_per_example emb_for_logits;
  logits ← out_fn (weights self) emb_for_logits;
  context' ←
    match new_context with
    | None => Ok None
    | Some nc => d ← last_dim nc;
                 v ← view nc [-1; pairs_per_example; d];
                 Ok (Some v)
    end;
  Ok (Build_State pairs_per_example context' h1 c1, logits).

(** [decode_token] *)
Definition decode_token (self : t A) (token : list Z) (state : State A)
  (memory : Memory A) : result (State A * tensor A) :=
  let pairs_per_example := pairs_per_example state in
  token_emb ← code_embed_fn (weights self) token;
  last_token_emb ← expand_pairs token_emb pairs_per_example;
  compute_next_token_logits self state memory last_token_emb.

(** One timestep of the loop of [forward]: the slice of the packed input, the
    truncation when the batch shrinks, and the decoder step. *)
Definition forward_step (self : t A) (pairs_per_example : Z)
  (io_embed : option (tensor A)) (trace_memory : option (MaskedMemory.t A))
  (input_data : tensor A) (offset last_bs bs : nat)
  (memory : Memory A) (state : State A)
  : result (Memory A * State A * tensor A) :=
  dec_data_slice ← slice_rows input_data offset bs;
  dec_data_slice ← expand_pairs dec_data_slice pairs_per_example;
  '(memory, state) ←
    (if (bs <? last_bs)%nat then
       io_embed_slice ←
         match io_embed with
         | Some io_embed => s ← slice0 io_embed (Z.of_nat bs); Ok (Some s)
         | None => Ok (io memory)
         end;
       trace_memory_slice ←
         match trace_memory with
         | Some trace_memory =>
             s ← MaskedMemory.apply
                   (fun X t => slice0 t (Z.of_nat bs)) trace_memory;
             Ok (Some s)
         | None => Ok (trace memory)
         end;
       state ← truncate state (Z.of_nat bs);
       Ok (Build_Memory io_embed_slice trace_memory_slice, state)
     else Ok (memory, state));
  '(state, logits_for_t) ←
    compute_next_token_logits self state memory dec_data_slice;
  Ok (memory, state, logits_for_t).

(** The loop of [forward] over [input_code.ps.batch_sizes]; [logits] collects
    the per-timestep logits in order. *)
Fixpoint forward_loop (self : t A) (pairs_per_example : Z)
  (io_embed : option (tensor A)) (trace_memory : option (MaskedMemory.t A))
  (input_data : tensor A) (sizes : list nat) (offset last_bs : nat)
  (memory : Memory A) (state : State A) (logits : list (tensor A))
  : result (list (tensor A)) :=
  match sizes with
  | [] => Ok logits
  | bs :: sizes' =>
      '(memory, state, logits_for_t) ←
        forward_step self pairs_per_example io_embed trace_memory input_data
          offset last_bs bs memory state;
      forward_loop self pairs_per_example io_embed trace_memory input_data
        sizes' (offset + bs)%nat bs memory state (logits ++ [logits_for_t])%list
  end.

(** [forward]: teacher-forced decoding of a packed batch. *)
Definition forward (self : t A) (batch_size pairs_per_example : Z)
  (io_embed : option (tensor A)) (trace_memory : option padded_trace)
  (input_code output_code : PackedSequencePlus (list Z))
  : result (tensor A * list Z) :=
  input_code ← PackedSequencePlus_apply (code_embed_fn (weights self)) input_code;
  state ← init_state self batch_size pairs_per_example;
  memory ← prepare_memory self batch_size pairs_per_example io_embed
             trace_memory;
  io_embed ←
    match io memory with
    | Some io => s ← index_list io (orig_to_sort input_code); Ok (Some s)
    | None => Ok None
    end;
  trace_memory ←
    match trace memory with
    | Some tr =>
        s ← MaskedMemory.apply
              (fun X t => index_list t (orig_to_sort input_code)) tr;
        Ok (Some s)
    | None => Ok None
    end;
  let memory := Build_Memory io_embed trace_memory in
  logits ← forward_loop self pairs_per_example io_embed trace_memory
             (ps_data input_code) (batch_sizes input_code) 0 0 memory state [];
  logits ← cat 0 logits;
  let labels := ps_data output_code in
  Ok (logits, labels).

(** What the theorems on whole decoding steps assume of the learned layers:
    each accepts a well-formed input of the shape it was built for and keeps
    the number of rows.  The embedding is asked to look up the tokens of its
    vocabulary only, and the attention to attend to a memory and a mask of
    as many rows as the query.  [din] is the input width of the LSTM,
    [vocab] the size of the vocabulary, which is the width of the logits. *)
Definition layers_accept (w : Weights A) (din vocab : nat) : Prop :=
  (forall tokens,
     tokens_below vocab tokens ->
     exists e,
       code_embed_fn w tokens = Ok e /\
       shape e = [length tokens; 256%nat] /\ wf e) /\
  (forall x h0 c0 n,
     shape x = [1%nat; n; din] -> wf x ->
     shape h0 = [2%nat; n; 256%nat] -> wf h0 ->
     shape c0 = [2%nat; n; 256%nat] -> wf c0 ->
     exists o h1 c1,
       decoder_fn w x (h0, c0) = Ok (o, (h1, c1)) /\
       shape o = [1%nat; n; 256%nat] /\ wf o /\
       shape h1 = [2%nat; n; 256%nat] /\ wf h1 /\
       shape c1 = [2%nat; n; 256%nat] /\ wf c1) /\
  (forall query mem mask n len,
     shape query = [n; 256%nat] -> wf query ->
     shape mem = [n; len; 512%nat] -> wf mem ->
     shape mask = [n; len] -> wf mask ->
     exists ctx,
       trace_attention_fn w query mem mask = Ok ctx /\
       shape ctx = [n; 512%nat] /\ wf ctx) /\
  (forall x n,
     shape x = [n; 768%nat] -> wf x ->
     exists y, out_fn w x = Ok y /\ shape y = [n; vocab] /\ wf y).

(** A state of [n] rows and [p] pairs with a context: the states of the
    configuration with trace memory. *)
Definition state_rows (n p : nat) (s : State A) : Prop :=
  pairs_per_example s = Z.of_nat p /\
  (exists ctx, context s = Some ctx /\
               shape ctx = [n; p; 512%nat] /\ wf ctx) /\
  shape (h s) = [2%nat; n; p; 256%nat] /\ wf (h s) /\
  shape (c s) = [2%nat; n; p; 256%nat] /\ wf (c s).

(** A memory of [n] rows and [p] pairs with a trace of [len] steps, and
    with an io embedding exactly when [with_io]. *)
Definition memory_rows (with_io : bool) (n p len : nat) (m : Memory A)
  : Prop :=
  match io m with
  | Some t => with_io = true /\ shape t = [n; p; 512%nat] /\ wf t
  | None => with_io = false
  end /\
  exists tr,
    trace m = Some tr /\
    shape (MaskedMemory.memory tr) = [n; p; len; 512%nat] /\
    wf (MaskedMemory.memory tr) /\
    shape (MaskedMemory.attn_mask tr) = [n; p; len] /\
    wf (MaskedMemory.attn_mask tr).

(** Batch sizes that never grow, starting below [last]. *)
Fixpoint shrinking (last : nat) (sizes : list nat) : Prop :=
  match sizes with
  | [] => True
  | bs :: sizes' => (bs <= last)%nat /\ shrinking bs sizes'
  end.

(** The input width of the LSTM for these memories. *)
Definition decoder_input_size (with_io : bool) : nat :=
  (256 + (if with_io then 512 else 0) + 512)%nat.

End Decoder.

End LatePoolingCodeDecoder.

(** ** The store of numpy arrays

    The field array of a [TraceDecoderState] is a numpy array that the Karel
    runtime updates in place, so states hold its location and the arrays
    live in a store.  A computation takes the store and gives its outcome
    (a value or an exception) with the store it leaves behind. *)

Module Store.

Definition loc : Set := nat.

#[export] Instance tensor_inhabited {A} : Inhabited (tensor A) :=
  populate (Tensor [0%nat] []).

Definition ST (A X : Type) : Type :=
  gmap loc (tensor A) -> result X * gmap loc (tensor A).

Definition ret {A X} (x : X) : ST A X := fun σ => (Ok x, σ).

Definition bind {A X Y} (m : ST A X) (k : X -> ST A Y) : ST A Y :=
  fun σ =>
    match m σ with
    | (Ok x, σ') => k x σ'
    | (Raise e, σ') => (Raise e, σ')
    end.

(** A pure computation, which leaves the store alone. *)
Definition lift {A X} (m : result X) : ST A X := fun σ => (m, σ).

(** A new array: a location outside the store. *)
Definition alloc {A} (t : tensor A) : ST A loc :=
  fun σ => let l := fresh (dom σ) in (Ok l, <[l := t]> σ).

Definition read {A} (l : loc) : ST A (tensor A) :=
  fun σ => (Ok (σ !!! l), σ).

Definition write {A} (l : loc) (t : tensor A) : ST A unit :=
  fun σ => (Ok tt, <[l := t]> σ).

End Store.
Export Store.

Notation "x ←ₛ m ; k" := (Store.bind m (fun x => k))
  (at level 20, m at level 100, k at level 200, only parsing).
Notation "' p ←ₛ m ; k" := (Store.bind m (fun p => k))
  (at level 20, p pattern, m at level 100, k at level 200, only parsing).

(** The array with the cells of row [i] replaced: what an update in place
    through the view [a[i]] leaves in [a]. *)
Definition set_row {A} (t : tensor A) (i : nat) (cells : list A) : tensor A :=
  let sz := numel (tail (shape t)) in
  Tensor (shape t)
    (take (i * sz) (data t) ++ cells ++ drop ((i + 1) * sz) (data t))%list.

(** The view [a[i]] as an array of its own. *)
Definition get_row {A} (t : tensor A) (i : nat) : tensor A :=
  Tensor (tail (shape t)) (row t i).

(** ** TraceDecoderState *)

Module TraceDecoderState.

Record t (A : Type) : Type := {
  field : loc;
  h : tensor A;
  c : tensor A;
}.
Arguments Build_t {A} _ _ _.
Arguments field {A} _.
Arguments h {A} _.
Arguments c {A} _.

(** [select_for_beams]: the reshaped field is a view, indexing it with the
    two index arrays makes a new array. *)
Definition select_for_beams {A} (self : t A) (batch_size : Z)
  (indices : indices) : ST A (t A) :=
  field_arr ←ₛ read (field self);
  selected_field ←ₛ lift (
    v ← reshape field_arr
          (batch_size :: -1 :: map Z.of_nat (tail (shape field_arr)));
    index_tuple 0 v (as_tuple indices));
  field' ←ₛ alloc selected_field;
  h' ←ₛ lift (
    v ← view (h self)
          (2 :: batch_size :: -1 :: map Z.of_nat (drop 2 (shape (h self))));
    index_tuple 1 v (as_tuple indices));
  c' ←ₛ lift (
    v ← view (c self)
          (2 :: batch_size :: -1 :: map Z.of_nat (drop 2 (shape (c self))));
    index_tuple 1 v (as_tuple indices));
  ret (Build_t field' h' c').

End TraceDecoderState.

(** ** TraceDecoder *)

Module TraceDecoder.

(** The learned layers and the simulator, which this file does not define.

    Modelled from the spec: [karel_runtime.KarelRuntime] is not among the
    sources.  [init_from_array(field)] attaches the runtime to the array and
    the method named after an action advances the world by that action,
    writing into the array; [karel_runtime name field] is the array after
    the action [name]. *)
Record Weights (A : Type) : Type := {
  grid_encoder_fn : tensor A -> result (tensor A);
  action_embed_fn : list Z -> result (tensor A);
  decoder_fn : tensor A -> tensor A * tensor A
               -> result (tensor A * (tensor A * tensor A));
  out_fn : tensor A -> result (tensor A);
  karel_runtime : string -> tensor A -> tensor A;
}.
Arguments grid_encoder_fn {A} _.
Arguments action_embed_fn {A} _.
Arguments decoder_fn {A} _.
Arguments out_fn {A} _.
Arguments karel_runtime {A} _.

Record t (A : Type) : Type := {
  _cuda : bool;
  grid_encoder : option layer;
  decoder : layer;
  action_embed : layer;
  out : layer;
  weights : Weights A;
}.
Arguments _cuda {A} _.
Arguments grid_encoder {A} _.
Arguments decoder {A} _.
Arguments action_embed {A} _.
Arguments out {A} _.
Arguments weights {A} _.

(** What [decode_token] reads of the memory: [memory.value]. *)
Record Memory (A : Type) : Type := { value : tensor A }.
Arguments Build_Memory {A} _.
Arguments value {A} _.

Section Decoder.
Context {A : Type}.

(** [__init__] *)
Definition __init__ (w : Weights A) (args : Args) : result (t A) :=
  grid_encoder ←
    (if String.eqb (karel_trace_grid_enc args) "lgrl"
     then Ok (Some LGRLGridEncoder)
     else if String.eqb (karel_trace_grid_enc args) "presnet"
     then Ok (Some PResNetGridEncoder)
     else if String.eqb (karel_trace_grid_enc args) "none" then Ok None
     else Raise ValueError);
  let num_actions := 7 in
  Ok {| _cuda := cuda args;
        grid_encoder := grid_encoder;
        decoder :=
          LSTM (256 + (match grid_encoder with Some _ => 256 | None => 0 end) + 512)
            256 2 false;
        action_embed := Embedding num_actions 256;
        out := Linear 256 num_actions;
        weights := w |}.

(** One round of the loop over [zip(fields, token)]: beam [i] with its
    input token [action_id]. *)
Definition advance_beam (self : t A) (fields : loc) (i : nat) (action_id : Z)
  : ST A unit :=
  if action_id <? 2 then ret tt
  else
    name ←ₛ lift (match id_to_action !! action_id with
                  | Some name => Ok name
                  | None => Raise KeyError
                  end);
    arr ←ₛ read fields;
    write fields
      (set_row arr i (data (karel_runtime (weights self) name (get_row arr i)))).

Fixpoint advance_beams (self : t A) (fields : loc) (beams : list (nat * Z))
  : ST A unit :=
  match beams with
  | [] => ret tt
  | (i, action_id) :: beams' =>
      _ ←ₛ advance_beam self fields i action_id;
      advance_beams self fields beams'
  end.

(** The numeric part of [decode_token], from the embedding of the token to
    the logits. *)
Definition decode_step (self : t A) (token : list Z)
  (grid_embed : option (tensor A)) (io_embed : tensor A)
  (state_h state_c : tensor A)
  : result (tensor A * tensor A * tensor A) :=
  action_embed ← action_embed_fn (weights self) token;
  dec_input ← karel_modules.maybe_concat
                [Some action_embed; grid_embed; Some io_embed] 1;
  dec_input ← getattr dec_input;
  '(dec_output, (h', c')) ←
    decoder_fn (weights self) (unsqueeze0 dec_input) (state_h, state_c);
  let dec_output := squeeze0 dec_output in
  logits ← out_fn (weights self) dec_output;
  Ok (h', c', logits).

(** The first part of [decode_token], "advance the grids with the last
    action": with a grid encoder the field array is copied, the copy is
    advanced beam by beam and encoded; without one the state's own array is
    passed on. *)
Definition advance_grids (self : t A) (token : list Z)
  (state : TraceDecoderState.t A) : ST A (loc * option (tensor A)) :=
  match grid_encoder self with
  | Some _ =>
      arr ←ₛ read (TraceDecoderState.field state);
      fields ←ₛ alloc arr;
      _ ←ₛ (match shape arr with
            | [] => lift (Raise TypeError)
            | n :: _ => advance_beams self fields (zip (seq 0 n) token)
            end);
      fields_t ←ₛ read fields;
      grid_embed ←ₛ lift (grid_encoder_fn (weights self) fields_t);
      ret (fields, Some grid_embed)
  | None => ret (TraceDecoderState.field state, None)
  end.

(** [decode_token] *)
Definition decode_token (self : t A) (token : list Z)
  (state : TraceDecoderState.t A) (memory : Memory A)
  : ST A (TraceDecoderState.t A * tensor A) :=
  let io_embed := value memory in
  '(fields, grid_embed) ←ₛ advance_grids self token state;
  '(h', c', logits) ←ₛ
    lift (decode_step self token grid_embed io_embed
            (TraceDecoderState.h state) (TraceDecoderState.c state));
  ret (TraceDecoderState.Build_t fields h' c', logits).

(** What the world step leaves of beam [j] whose input token is [a] (no
    token when the token tensor is shorter than the field array): the start
    and end markers keep the row, another action replaces it by the
    runtime's result on it. *)
Definition beam_advanced (self : t A) (before after : tensor A) (j : nat)
  (a : option Z) : Prop :=
  match a with
  | None => row after j = row before j
  | Some a =>
      if a <? 2 then row after j = row before j
      else exists name,
             id_to_action !! a = Some name /\
             row after j
             = data (karel_runtime (weights self) name (get_row before j))
  end.

(** [init_state] *)
Definition init_state (zero : A) (self : t A) (sizes : list Z)
  : result (tensor A * tensor A) :=
  karel_modules.lstm_init zero (_cuda self) 2 256 sizes.

End Decoder.

End TraceDecoder.

(** ** MultiEmbedding *)

Module MultiEmbedding.

Local Close Scope string_scope.
Local Open Scope nat_scope.

(** [t[:, i]]: position [i] of axis 1. *)
Definition select1 {X} (t : tensor X) (i : Z) : result (tensor X) :=
  match shape t with
  | n0 :: n1 :: rest =>
      k ← norm_index n1 i;
      Ok (Tensor (n0 :: rest)
            (concat (map (fun l => chunk (numel rest) (l * n1 + k) (data t))
                         (seq 0 n0))))
  | _ => Raise IndexError
  end.

(** An [nn.Embedding] with the weight [w], of shape [size x dim], applied to
    a tensor of indices: the rows of [w] the indices name.  An index outside
    [0, size) fails the lookup in the weight, which torch reports as a
    [RuntimeError]. *)
Definition embedding {A} (w : tensor A) (input : tensor Z)
  : result (tensor A) :=
  match shape w with
  | [size; dim] =>
      ks ← traverse (fun i => if ((0 <=? i) && (i <? Z.of_nat size))%Z
                              then Ok (Z.to_nat i) else Raise RuntimeError)
             (data input);
      Ok (Tensor (shape input ++ [dim])
            (concat (map (fun k => chunk dim k (data w)) ks)))
  | _ => Raise RuntimeError
  end.

(** [torch.stack(ts)]: a new leading axis over tensors of one shape. *)
Definition stack {A} (ts : list (tensor A)) : result (tensor A) :=
  match ts with
  | [] => Raise RuntimeError
  | t :: ts' =>
      if forallb (fun u => shape_eqb (shape u) (shape t)) ts'
      then Ok (Tensor (length ts :: shape t) (concat (map data ts)))
      else Raise RuntimeError
  end.

(** [torch.sum(t, dim=0)]: the blocks of the leading axis added up,
    element by element, from zero. *)
Definition sum_dim0 {A} (zero : A) (add : A -> A -> A) (t : tensor A)
  : result (tensor A) :=
  match shape t with
  | [] => Raise IndexError
  | m :: rest =>
      Ok (Tensor rest
            (foldl (zip_with add) (replicate (numel rest) zero)
               (map (fun i => chunk (numel rest) i (data t)) (seq 0 m))))
  end.

(** The bound method [__init__] stores in [self.combiner]. *)
Inductive combiner : Set := _sum | _cat.

(** [embeddings] holds the weight of each [nn.Embedding] of
    [self.embeddings]. *)
Record t (A : Type) : Type := {
  embeddings : list (tensor A);
  combine : combiner;
}.
Arguments Build_t {A} _ _.
Arguments embeddings {A} _.
Arguments combine {A} _.

Section Layer.
Context {A : Type}.
Variable zero : A.
Variable add : A -> A -> A.

(** [__init__]; [new_embedding size dim] stands for [nn.Embedding(size, dim)],
    which creates the weight. *)
Definition __init__ (new_embedding : Z -> Z -> result (tensor A))
  (sizes dims : list Z) (combiner : string) : result (t A) :=
  embeddings ← traverse (fun '(size, dim) => new_embedding size dim)
                  (zip sizes dims);
  if String.eqb combiner "sum" then Ok (Build_t embeddings _sum)
  else if String.eqb combiner "cat" then Ok (Build_t embeddings _cat)
  else Raise ValueError.

Definition sum_values (values : list (tensor A)) : result (tensor A) :=
  stacked ← stack values;
  sum_dim0 zero add stacked.

Definition cat_values (values : list (tensor A)) : result (tensor A) :=
  cat 1 values.

(** [forward] *)
Definition forward (self : t A) (inputs : tensor Z) : result (tensor A) :=
  values ← traverse (fun '(i, embedding_i) =>
                       column ← select1 inputs (Z.of_nat i);
                       embedding embedding_i column)
             (zip (seq 0 (length (embeddings self))) (embeddings self));
  match combine self with
  | _sum => sum_values values
  | _cat => cat_values values
  end.

End Layer.

(** [inputs[r, i]] of a 2-D tensor of indices. *)
Definition entry (inputs : tensor Z) (r i : nat) : Z :=
  default 0%Z (data inputs !! (r * dim (shape inputs) 1 + i)).

(** [w.shape[1]]: the width of an embedding. *)
Definition width {A} (w : tensor A) : nat := dim (shape w) 1.

End MultiEmbedding.


(** ** Concrete instances

    Small stand-ins for the learned layers and the simulator, over integer
    elements, used to run the definitions on concrete inputs. *)

Module Examples.

Import Tensor.

(** Each row cut or padded with zeros to [w] elements. *)
Definition fit_rows (w : nat) (t : tensor Z) : tensor Z :=
  let n := dim0 t in
  let rw := numel (tail (shape t)) in
  Tensor [n; w]
    (concat (map (fun i => take w (chunk rw i (data t) ++ replicate w 0)%list)
                 (seq 0 n))).

(** The weight of an embedding of [vocab] tokens and width [w]: the row of
    the token [k] holds [k] at every place. *)
Definition embed_weight (vocab w : nat) : tensor Z :=
  Tensor [vocab; w]
    (concat (map (fun k => replicate w (Z.of_nat k)) (seq 0 vocab))).

(** [nn.Embedding(vocab, w)] with that weight, on a tensor of tokens. *)
Definition embed (vocab w : nat) (token : list Z) : result (tensor Z) :=
  MultiEmbedding.embedding (embed_weight vocab w)
    (Tensor [length token] token).

Definition lstm (input : tensor Z) (state : tensor Z * tensor Z)
  : result (tensor Z * (tensor Z * tensor Z)) :=
  match shape input with
  | [1%nat; n; _] =>
      Ok (unsqueeze0 (fit_rows 256 (squeeze0 input)), state)
  | _ => Raise RuntimeError
  end.

Definition code_weights (vocab_size : nat) : LatePoolingCodeDecoder.Weights Z :=
  {| LatePoolingCodeDecoder.zero := 0;
     LatePoolingCodeDecoder.emax := Z.max;
     LatePoolingCodeDecoder.code_embed_fn := embed vocab_size 256;
     LatePoolingCodeDecoder.decoder_fn := lstm;
     LatePoolingCodeDecoder.trace_attention_fn :=
       fun query _ _ => Ok (fit_rows 512 query);
     LatePoolingCodeDecoder.out_fn := fun x => Ok (fit_rows vocab_size x) |}.

Definition args_with (usage : string) : Args :=
  {| cuda := false;
     karel_trace_grid_enc := "none";
     karel_trace_cond_enc := "none";
     karel_trace_enc := "none";
     karel_trace_action_enc := "none";
     karel_trace_usage := usage;
     karel_io_enc := "none";
     num_placeholders := 0 |}.

(** Two token sequences of lengths 3 and 2, packed timestep-major: the
    inputs [0; 5; 6] and [0; 7], the targets [5; 6; 1] and [7; 1]. *)
Definition input_code : PackedSequencePlus (list Z) :=
  Build_PackedSequencePlus [0; 0; 5; 7; 6] [2; 2; 1]%nat [0; 1].

Definition output_code : PackedSequencePlus (list Z) :=
  Build_PackedSequencePlus [5; 7; 6; 1; 1] [2; 2; 1]%nat [0; 1].

(** A padded trace memory for 2 examples with 1 pair each, 3 steps long. *)
Definition trace_memory : tensor Z * tensor bool :=
  (Tensor [2; 3; 512]%nat (map Z.of_nat (seq 0 (2 * 3 * 512))),
   Tensor [2; 3]%nat (replicate 6 true)).

(** A state of 2 examples x 2 beams with 1 pair per example, every element
    distinct. *)
Definition beam_state : LatePoolingCodeDecoder.State Z :=
  LatePoolingCodeDecoder.Build_State 1
    (Some (Tensor [4; 1; 512]%nat (map Z.of_nat (seq 0 (4 * 512)))))
    (Tensor [2; 4; 1; 256]%nat (map (fun i => 10000 + Z.of_nat i) (seq 0 (2 * 4 * 256))))
    (Tensor [2; 4; 1; 256]%nat (map (fun i => 20000 + Z.of_nat i) (seq 0 (2 * 4 * 256)))).

(** Beam 0 of example 0, beam 1 of example 0, beam 0 of example 1. *)
Definition beam_indices : indices := ([0; 0; 1], [0; 1; 0]).

(** Four rows of width 3: two examples with two pairs each. *)
Definition small_emb : tensor Z :=
  Tensor [4; 3]%nat [1; 2; 3; 4; 5; 0; 7; 8; 9; 10; 11; 12].

(** The decoder [LatePoolingCodeDecoder(8, args_with "none")] builds. *)
Definition small_decoder : LatePoolingCodeDecoder.t Z :=
  {| LatePoolingCodeDecoder._cuda := false;
     LatePoolingCodeDecoder.use_trace_memory := false;
     LatePoolingCodeDecoder.use_trace_state := false;
     LatePoolingCodeDecoder.use_io_embed := false;
     LatePoolingCodeDecoder.trace_attention := None;
     LatePoolingCodeDecoder.code_embed := Embedding 8 256;
     LatePoolingCodeDecoder.decoder := LSTM 256 256 2 false;
     LatePoolingCodeDecoder.out := Linear 256 8;
     LatePoolingCodeDecoder.weights := code_weights 8 |}.

(** The decoder [LatePoolingCodeDecoder(8, args_with "memory")] builds. *)
Definition memory_decoder : LatePoolingCodeDecoder.t Z :=
  {| LatePoolingCodeDecoder._cuda := false;
     LatePoolingCodeDecoder.use_trace_memory := true;
     LatePoolingCodeDecoder.use_trace_state := false;
     LatePoolingCodeDecoder.use_io_embed := false;
     LatePoolingCodeDecoder.trace_attention := Some (SimpleSDPAttention 256 512);
     LatePoolingCodeDecoder.code_embed := Embedding 8 256;
     LatePoolingCodeDecoder.decoder := LSTM (256 + 0 + 512) 256 2 false;
     LatePoolingCodeDecoder.out := Linear (256 + 512) 8;
     LatePoolingCodeDecoder.weights := code_weights 8 |}.

(** A state of one beam with one pair and hidden width 1. *)
Definition small_state : LatePoolingCodeDecoder.State Z :=
  LatePoolingCodeDecoder.Build_State 1 None
    (Tensor [2; 1; 1; 1]%nat [0; 0]) (Tensor [2; 1; 1; 1]%nat [0; 0]).

(** The logits of [small_decoder] in [small_state] for the token embedding
    [5; 6]. *)
Definition small_logits : tensor Z :=
  Tensor [1; 8]%nat [5; 6; 0; 0; 0; 0; 0; 0].

(** A stand-in for the Karel runtime: [move] adds one to every cell,
    [turnLeft] negates every cell, the other actions leave the array as it
    is. *)
Definition toy_runtime (name : string) (field : tensor Z) : tensor Z :=
  if String.eqb name "move"
  then Tensor (shape field) (map (Z.add 1) (data field))
  else if String.eqb name "turnLeft"
  then Tensor (shape field) (map Z.opp (data field))
  else field.

Definition trace_weights : TraceDecoder.Weights Z :=
  {| TraceDecoder.grid_encoder_fn := fun fields => Ok (fit_rows 256 fields);
     TraceDecoder.action_embed_fn := embed 7 256;
     TraceDecoder.decoder_fn := lstm;
     TraceDecoder.out_fn := fun x => Ok (fit_rows 7 x);
     TraceDecoder.karel_runtime := toy_runtime |}.

(** The decoder [TraceDecoder(args)] builds, by its grid encoder. *)
Definition trace_decoder (grid_encoder : option layer) : TraceDecoder.t Z :=
  {| TraceDecoder._cuda := false;
     TraceDecoder.grid_encoder := grid_encoder;
     TraceDecoder.decoder :=
       LSTM (256 + (match grid_encoder with Some _ => 256 | None => 0 end) + 512)
         256 2 false;
     TraceDecoder.action_embed := Embedding 7 256;
     TraceDecoder.out := Linear 256 7;
     TraceDecoder.weights := trace_weights |}.

(** A store with one field array, of three beams with two cells each, and a
    state that holds it. *)
Definition trace_store : gmap loc (tensor Z) :=
  {[ 0%nat := Tensor [3; 2]%nat [10; 11; 20; 21; 30; 31] ]}.

Definition trace_state : TraceDecoderState.t Z :=
  TraceDecoderState.Build_t 0%nat
    (Tensor [2; 3; 1]%nat [0; 0; 0; 0; 0; 0])
    (Tensor [2; 3; 1]%nat [0; 0; 0; 0; 0; 0]).

Definition trace_memory_value : TraceDecoder.Memory Z :=
  TraceDecoder.Build_Memory (Tensor [3; 2]%nat [1; 2; 3; 4; 5; 6]).

Definition trace_enc_args (grid cond action : string) : Args :=
  {| cuda := false;
     karel_trace_grid_enc := grid;
     karel_trace_cond_enc := cond;
     karel_trace_enc := "indiv:concat";
     karel_trace_action_enc := action;
     karel_trace_usage := "memory";
     karel_io_enc := "lgrl";
     num_placeholders := 0 |}.

(** The encoder [IndividualTraceEncoder(trace_enc_args "lgrl" "none" "none")]
    builds. *)
Definition encoder_grid_only : IndividualTraceEncoder.t :=
  {| IndividualTraceEncoder.grid_encoder := LGRLGridEncoder;
     IndividualTraceEncoder.cond_embed := none_fn;
     IndividualTraceEncoder.action_embed := none_fn;
     IndividualTraceEncoder.interleave := false;
     IndividualTraceEncoder.encoder := LSTM 256 256 2 true |}.

End Examples.

(** ** Index tensors of the beam search *)

(** Every (example, beam) of [B] examples with [W] beams each, in the
    example-major order: the index tensor that selects every row in its
    place. *)
Definition all_beams (B W : nat) : indices :=
  (map (fun k => Z.of_nat (k / W)) (seq 0 (B * W)),
   map (fun k => Z.of_nat (k mod W)) (seq 0 (B * W))).


(** ** The widths of the layers

    What a layer takes and what it gives along the last axis, read off the
    sizes it was built with.  The grid encoders of [karel_common] give
    vectors of width 256, as the comments of [forward] say. *)

Definition in_width (l : layer) : nat :=
  match l with
  | LSTM input_size _ _ _ => Z.to_nat input_size
  | Linear in_features _ => Z.to_nat in_features
  | SimpleSDPAttention query_size _ => Z.to_nat query_size
  | _ => 0%nat
  end.

(** The number of rows of an embedding: the size of its vocabulary. *)
Definition num_embeddings (l : layer) : nat :=
  match l with
  | Embedding num_embeddings _ => Z.to_nat num_embeddings
  | _ => 0%nat
  end.

Fixpoint out_width (l : layer) : nat :=
  match l with
  | none_fn => 0%nat
  | LGRLGridEncoder | PResNetGridEncoder => 256%nat
  | Embedding _ embedding_dim => Z.to_nat embedding_dim
  | MultiEmbedding _ dims combiner =>
      if String.eqb combiner "cat" then Z.to_nat (foldr Z.add 0 dims)
      else Z.to_nat (hd 0 dims)
  | Linear _ out_features => Z.to_nat out_features
  | Sequential _ second => out_width second
  | LSTM _ hidden_size _ bidirectional =>
      Z.to_nat (if bidirectional then 2 * hidden_size else hidden_size)
  | SimpleSDPAttention _ values_size => Z.to_nat values_size
  end.

(** ** TraceDecoder.forward *)

Section TraceDecoderForward.
Context {A : Type}.

(** [self.decoder] applied to a packed sequence: [decoder_packed data
    batch_sizes] stands for the data of the packed output. *)
Variable decoder_packed : tensor A -> list nat -> result (tensor A).

(** [TraceDecoder.forward]: teacher-forced decoding of packed traces. *)
Definition TraceDecoder_forward (self : TraceDecoder.t A)
  (io_embed : tensor A) (trace_grids : PackedSequencePlus (tensor A))
  (input_actions output_actions : PackedSequencePlus (list Z))
  (io_embed_indices : list Z) : result (tensor A * list Z) :=
  input_actions ←
    PackedSequencePlus_apply
      (TraceDecoder.action_embed_fn (TraceDecoder.weights self)) input_actions;
  dec_input ←
    match TraceDecoder.grid_encoder self with
    | Some _ =>
        trace_grids ←
          PackedSequencePlus_apply
            (TraceDecoder.grid_encoder_fn (TraceDecoder.weights self))
            trace_grids;
        PackedSequencePlus_apply
          (fun d => io ← index_list io_embed io_embed_indices;
                    cat 1 [d; ps_data trace_grids; io])
          input_actions
    | None =>
        PackedSequencePlus_apply
          (fun d => io ← index_list io_embed io_embed_indices;
                    cat 1 [d; io])
          input_actions
    end;
  dec_output ← decoder_packed (ps_data dec_input) (batch_sizes dec_input);
  logits ← TraceDecoder.out_fn (TraceDecoder.weights self) dec_output;
  Ok (logits, ps_data output_actions).

(** What the theorems on whole passes assume of the learned layers of a
    trace decoder: each accepts a well-formed input of the width it was
    built for and gives the width it was built for, keeping the rows; the
    embedding is asked to look up the actions of its vocabulary only. *)
Definition TraceDecoder_layers_accept (self : TraceDecoder.t A) : Prop :=
  (forall tokens,
     tokens_below (num_embeddings (TraceDecoder.action_embed self)) tokens ->
     exists e,
       TraceDecoder.action_embed_fn (TraceDecoder.weights self) tokens = Ok e /\
       shape e = [length tokens; out_width (TraceDecoder.action_embed self)] /\
       wf e) /\
  (forall enc fields n rest,
     TraceDecoder.grid_encoder self = Some enc ->
     shape fields = n :: rest -> wf fields ->
     exists g,
       TraceDecoder.grid_encoder_fn (TraceDecoder.weights self) fields = Ok g /\
       shape g = [n; out_width enc] /\ wf g) /\
  (forall x h0 c0 n,
     shape x = [1%nat; n; in_width (TraceDecoder.decoder self)] -> wf x ->
     shape h0 = [2%nat; n; out_width (TraceDecoder.decoder self)] -> wf h0 ->
     shape c0 = [2%nat; n; out_width (TraceDecoder.decoder self)] -> wf c0 ->
     exists o h1 c1,
       TraceDecoder.decoder_fn (TraceDecoder.weights self) x (h0, c0)
       = Ok (o, (h1, c1)) /\
       shape o = [1%nat; n; out_width (TraceDecoder.decoder self)] /\ wf o /\
       shape h1 = shape h0 /\ wf h1 /\ shape c1 = shape c0 /\ wf c1) /\
  (forall x sizes n,
     shape x = [n; in_width (TraceDecoder.decoder self)] -> wf x ->
     exists o,
       decoder_packed x sizes = Ok o /\
       shape o = [n; out_width (TraceDecoder.decoder self)] /\ wf o) /\
  (forall x n,
     shape x = [n; in_width (TraceDecoder.out self)] -> wf x ->
     exists y,
       TraceDecoder.out_fn (TraceDecoder.weights self) x = Ok y /\
       shape y = [n; out_width (TraceDecoder.out self)] /\ wf y).

End TraceDecoderForward.

(** ** CodeFromTraces *)

Module CodeFromTraces.

(** The arguments [CodeFromTraces] reads: those of [Args] and
    [karel_code_dec]. *)
Record CodeArgs : Set := {
  args : Args;
  karel_code_dec : string;
}.

(** What [__init__] stores in [self.io_encoder]. *)
Inductive io_encoder_layer : Set :=
  | LGRLTaskEncoder
  | io_none_fn.

(** The encoders, which this file does not define: [io_encoder_fn] stands
    for the [LGRLTaskEncoder] and [trace_encoder_fn] for the forward pass of
    the [IndividualTraceEncoder], on inputs of type [G]. *)
Record Weights (A G : Type) : Type := {
  io_encoder_fn : G -> G -> result (tensor A);
  trace_encoder_fn : G -> G -> G -> G -> result (PackedSequencePlus (tensor A));
  decoder_weights : LatePoolingCodeDecoder.Weights A;
}.
Arguments io_encoder_fn {A G} _.
Arguments trace_encoder_fn {A G} _.
Arguments decoder_weights {A G} _.

(** [trace_encoder] is [None] for [karel_common.none_fn]. *)
Record t (A G : Type) : Type := {
  io_encoder : io_encoder_layer;
  trace_encoder : option IndividualTraceEncoder.t;
  decoder : LatePoolingCodeDecoder.t A;
  weights : Weights A G;
}.
Arguments io_encoder {A G} _.
Arguments trace_encoder {A G} _.
Arguments decoder {A G} _.
Arguments weights {A G} _.

Section Model.
Context {A G : Type}.

(** [__init__] *)
Definition __init__ (w : Weights A G) (vocab_size : Z) (cargs : CodeArgs)
  : result (t A G) :=
  io_encoder ←
    (if String.eqb (karel_io_enc (args cargs)) "lgrl" then Ok LGRLTaskEncoder
     else if String.eqb (karel_io_enc (args cargs)) "none" then Ok io_none_fn
     else Raise ValueError);
  trace_encoder ←
    (if String.prefix "indiv" (karel_trace_enc (args cargs))
     then e ← IndividualTraceEncoder.__init__ (args cargs); Ok (Some e)
     else if String.eqb (karel_trace_enc (args cargs)) "none" then Ok None
     else Raise ValueError);
  decoder ←
    (if String.prefix "latepool" (karel_code_dec cargs)
     then LatePoolingCodeDecoder.__init__ (decoder_weights w) vocab_size
            (args cargs)
     else Raise ValueError);
  Ok {| io_encoder := io_encoder; trace_encoder := trace_encoder;
        decoder := decoder; weights := w |}.

(** [encode]: [none_fn] gives [None]. *)
Definition encode (self : t A G)
  (input_grids output_grids trace_grids conds actions interleave : G)
  : result (option (tensor A) * option (PackedSequencePlus (tensor A))) :=
  io_embed ←
    match io_encoder self with
    | LGRLTaskEncoder =>
        e ← io_encoder_fn (weights self) input_grids output_grids; Ok (Some e)
    | io_none_fn => Ok None
    end;
  trace_memory ←
    match trace_encoder self with
    | Some _ =>
        m ← trace_encoder_fn (weights self) trace_grids conds actions
              interleave;
        Ok (Some m)
    | None => Ok None
    end;
  Ok (io_embed, trace_memory).

End Model.

End CodeFromTraces.

(** ** The code decoder as built, and without trace memory *)

Section CodeDecoderLayers.
Context {A : Type}.

(** What the theorems on a code decoder as [__init__] builds it assume of
    its learned layers: each accepts a well-formed input of the width it was
    built for and gives the width it was built for, keeping the rows; the
    embedding is asked to look up the tokens of its vocabulary only, and the
    attention to attend to a memory and a mask of as many rows as the
    query. *)
Definition CodeDecoder_layers_accept (self : LatePoolingCodeDecoder.t A)
  : Prop :=
  let w := LatePoolingCodeDecoder.weights self in
  (forall tokens,
     tokens_below (num_embeddings (LatePoolingCodeDecoder.code_embed self))
       tokens ->
     exists e,
       LatePoolingCodeDecoder.code_embed_fn w tokens = Ok e /\
       shape e = [length tokens;
                  out_width (LatePoolingCodeDecoder.code_embed self)] /\
       wf e) /\
  (forall x h0 c0 n,
     shape x = [1%nat; n; in_width (LatePoolingCodeDecoder.decoder self)] ->
     wf x ->
     shape h0 = [2%nat; n; out_width (LatePoolingCodeDecoder.decoder self)] ->
     wf h0 ->
     shape c0 = [2%nat; n; out_width (LatePoolingCodeDecoder.decoder self)] ->
     wf c0 ->
     exists o h1 c1,
       LatePoolingCodeDecoder.decoder_fn w x (h0, c0) = Ok (o, (h1, c1)) /\
       shape o = [1%nat; n; out_width (LatePoolingCodeDecoder.decoder self)] /\
       wf o /\
       shape h1 = shape h0 /\ wf h1 /\ shape c1 = shape c0 /\ wf c1) /\
  (forall att query mem mask n len,
     LatePoolingCodeDecoder.trace_attention self = Some att ->
     shape query = [n; in_width att] -> wf query ->
     shape mem = [n; len; out_width att] -> wf mem ->
     shape mask = [n; len] -> wf mask ->
     exists ctx,
       LatePoolingCodeDecoder.trace_attention_fn w query mem mask = Ok ctx /\
       shape ctx = [n; out_width att] /\ wf ctx) /\
  (forall x n,
     shape x = [n; in_width (LatePoolingCodeDecoder.out self)] -> wf x ->
     exists y,
       LatePoolingCodeDecoder.out_fn w x = Ok y /\
       shape y = [n; out_width (LatePoolingCodeDecoder.out self)] /\ wf y).

(** A state of [n] rows and [p] pairs without context: the states of the
    configuration without trace memory. *)
Definition plain_state_rows (n p : nat) (s : LatePoolingCodeDecoder.State A)
  : Prop :=
  LatePoolingCodeDecoder.pairs_per_example s = Z.of_nat p /\
  LatePoolingCodeDecoder.context s = None /\
  shape (LatePoolingCodeDecoder.h s) = [2%nat; n; p; 256%nat] /\
  wf (LatePoolingCodeDecoder.h s) /\
  shape (LatePoolingCodeDecoder.c s) = [2%nat; n; p; 256%nat] /\
  wf (LatePoolingCodeDecoder.c s).

(** A memory of [n] rows and [p] pairs without trace, and with an io
    embedding exactly when [with_io]. *)
Definition plain_memory_rows (with_io : bool) (n p : nat)
  (m : LatePoolingCodeDecoder.Memory A) : Prop :=
  match LatePoolingCodeDecoder.io m with
  | Some t => with_io = true /\ shape t = [n; p; 512%nat] /\ wf t
  | None => with_io = false
  end /\
  LatePoolingCodeDecoder.trace m = None.

(** The states a decoder works on: [n] rows and [p] pairs, with a context
    exactly when the decoder uses the trace memory. *)
Definition decoder_state (self : LatePoolingCodeDecoder.t A) (n p : nat)
  (s : LatePoolingCodeDecoder.State A) : Prop :=
  if LatePoolingCodeDecoder.use_trace_memory self
  then LatePoolingCodeDecoder.state_rows n p s
  else plain_state_rows n p s.

(** The memories a decoder works on: [n] rows and [p] pairs, with an io
    embedding exactly when the decoder was built for one, and with a trace
    of [len] steps exactly when the decoder uses the trace memory. *)
Definition decoder_memory (self : LatePoolingCodeDecoder.t A)
  (n p len : nat) (m : LatePoolingCodeDecoder.Memory A) : Prop :=
  if LatePoolingCodeDecoder.use_trace_memory self
  then LatePoolingCodeDecoder.memory_rows
         (LatePoolingCodeDecoder.use_io_embed self) n p len m
  else plain_memory_rows (LatePoolingCodeDecoder.use_io_embed self) n p m.

End CodeDecoderLayers.

(** ** Memory.expand_by_beam *)

Section ExpandByBeam.

(** Modelled from the spec: [karel_modules.expand] is not among the sources.
    [expand(v, k)] repeats every row of [v] [k] times, the copies of a row
    next to each other, so [d1] rows become [d1 * k] rows. *)
Definition expand {X} (v : tensor X) (k : Z) : result (tensor X) :=
  match shape v with
  | [] => Raise IndexError
  | n :: rest =>
      if k <? 0 then Raise RuntimeError
      else
        Ok (Tensor ((n * Z.to_nat k)%nat :: rest)
              (concat (map (fun i => concat (replicate (Z.to_nat k)
                                               (chunk (numel rest) i (data v))))
                           (seq 0 n))))
  end.

(** Modelled from the spec: [MaskedMemory.expand_by_beam] is not among the
    sources.  It expands the memory and its mask alike. *)
Definition MaskedMemory_expand_by_beam {A} (m : MaskedMemory.t A)
  (beam_size : Z) : result (MaskedMemory.t A) :=
  MaskedMemory.apply (fun X t => expand t beam_size) m.

(** [LatePoolingCodeDecoder.Memory.expand_by_beam] *)
Definition Memory_expand_by_beam {A} (self : LatePoolingCodeDecoder.Memory A)
  (beam_size : Z) : result (LatePoolingCodeDecoder.Memory A) :=
  io_exp ←
    match LatePoolingCodeDecoder.io self with
    | None => Ok None
    | Some io => e ← expand io beam_size; Ok (Some e)
    end;
  trace_exp ←
    match LatePoolingCodeDecoder.trace self with
    | None => Ok None
    | Some trace => e ← MaskedMemory_expand_by_beam trace beam_size; Ok (Some e)
    end;
  Ok (LatePoolingCodeDecoder.Build_Memory io_exp trace_exp).

End ExpandByBeam.

(** ** Teacher forcing, in the words of the specification

    The specification (4.6) has the teacher-forced decoding walk the packed
    timesteps in order and keep the leading dimension of the state and of
    the memory equal to [batch_sizes[t]]: the timestep of batch size [bs]
    decodes the [bs] rows of the packed input that follow the rows of the
    timesteps before it, from the state the timestep before it left and
    from the memory, both restricted to their first [bs] rows. *)

Section TeacherForcing.
Context {A : Type}.

(** The state restricted to its first [k] rows; a context that is [None]
    stays [None]. *)
Definition State_first_rows (s : LatePoolingCodeDecoder.State A) (k : nat)
  : result (LatePoolingCodeDecoder.State A) :=
  context' ←
    match LatePoolingCodeDecoder.context s with
    | None => Ok None
    | Some ctx => r ← slice0 ctx (Z.of_nat k); Ok (Some r)
    end;
  h' ← slice1 (LatePoolingCodeDecoder.h s) (Z.of_nat k);
  c' ← slice1 (LatePoolingCodeDecoder.c s) (Z.of_nat k);
  Ok (LatePoolingCodeDecoder.Build_State
        (LatePoolingCodeDecoder.pairs_per_example s) context' h' c').

(** The memory restricted to its first [k] rows. *)
Definition Memory_first_rows (m : LatePoolingCodeDecoder.Memory A) (k : nat)
  : result (LatePoolingCodeDecoder.Memory A) :=
  io' ←
    match LatePoolingCodeDecoder.io m with
    | None => Ok None
    | Some io => r ← slice0 io (Z.of_nat k); Ok (Some r)
    end;
  trace' ←
    match LatePoolingCodeDecoder.trace m with
    | None => Ok None
    | Some tr =>
        r ← MaskedMemory.apply (fun X t => slice0 t (Z.of_nat k)) tr;
        Ok (Some r)
    end;
  Ok (LatePoolingCodeDecoder.Build_Memory io' trace').

(** The rows of the memory that [order] lists, in that order: the memory
    in the sorted order of a packed batch. *)
Definition Memory_rows_at (m : LatePoolingCodeDecoder.Memory A)
  (order : list Z) : result (LatePoolingCodeDecoder.Memory A) :=
  io' ←
    match LatePoolingCodeDecoder.io m with
    | None => Ok None
    | Some io => r ← index_list io order; Ok (Some r)
    end;
  trace' ←
    match LatePoolingCodeDecoder.trace m with
    | None => Ok None
    | Some tr =>
        r ← MaskedMemory.apply (fun X t => index_list t order) tr;
        Ok (Some r)
    end;
  Ok (LatePoolingCodeDecoder.Build_Memory io' trace').

(** [steps] holds the logits of the timesteps of batch sizes [sizes], which
    decode the rows of [input_data] from row [offset] on, starting from
    [state]. *)
Fixpoint teacher_forced (self : LatePoolingCodeDecoder.t A)
  (pairs_per_example : Z) (memory : LatePoolingCodeDecoder.Memory A)
  (input_data : tensor A) (offset : nat)
  (state : LatePoolingCodeDecoder.State A) (sizes : list nat)
  (steps : list (tensor A)) : Prop :=
  match sizes, steps with
  | [], [] => True
  | bs :: sizes', logits_for_t :: steps' =>
      exists tokens emb state_t memory_t state',
        slice_rows input_data offset bs = Ok tokens /\
        expand_pairs tokens pairs_per_example = Ok emb /\
        State_first_rows state bs = Ok state_t /\
        Memory_first_rows memory bs = Ok memory_t /\
        LatePoolingCodeDecoder.compute_next_token_logits self state_t
          memory_t emb = Ok (state', logits_for_t) /\
        teacher_forced self pairs_per_example memory input_data
          (offset + bs)%nat state' sizes' steps'
  | _, _ => False
  end.

(** [decode_sequence] of the specification: [logits] are the logits of the
    timesteps of the packed [input_code], one after the other, decoded from
    the initial state, the embedded input tokens and the prepared memory in
    the sorted order of the batch. *)
Definition decode_sequence (self : LatePoolingCodeDecoder.t A)
  (batch_size pairs_per_example : Z) (io_embed : option (tensor A))
  (trace_memory : option LatePoolingCodeDecoder.padded_trace)
  (input_code : PackedSequencePlus (list Z)) (logits : tensor A) : Prop :=
  exists emb state memory sorted steps,
    LatePoolingCodeDecoder.code_embed_fn (LatePoolingCodeDecoder.weights self)
      (ps_data input_code) = Ok emb /\
    LatePoolingCodeDecoder.init_state self batch_size pairs_per_example
    = Ok state /\
    LatePoolingCodeDecoder.prepare_memory self batch_size pairs_per_example
      io_embed trace_memory = Ok memory /\
    Memory_rows_at memory (orig_to_sort input_code) = Ok sorted /\
    teacher_forced self pairs_per_example sorted emb 0 state
      (batch_sizes input_code) steps /\
    cat 0 steps = Ok logits.

End TeacherForcing.

(** ** More concrete instances *)

Module MoreExamples.

(** The state [init_state(2, 1)] of [Examples.memory_decoder]. *)
Definition memory_state : LatePoolingCodeDecoder.State Z :=
  LatePoolingCodeDecoder.Build_State 1
    (Some (Tensor [2; 1; 512]%nat (replicate 1024 0)))
    (Tensor [2; 2; 1; 256]%nat (replicate 1024 0))
    (Tensor [2; 2; 1; 256]%nat (replicate 1024 0)).

(** The memory [prepare_memory(2, 1, None, Examples.trace_memory)] of
    [Examples.memory_decoder]. *)
Definition grouped_memory : LatePoolingCodeDecoder.Memory Z :=
  LatePoolingCodeDecoder.Build_Memory None
    (Some (MaskedMemory.Build_t
             (Tensor [2; 1; 3; 512]%nat (data (fst Examples.trace_memory)))
             (Tensor [2; 1; 3]%nat (data (snd Examples.trace_memory))))).

(** Two embeddings of two entries each, of widths 2 and 1, and two of
    width 2. *)
Definition cat_embeddings : list (tensor Z) :=
  [Tensor [2; 2]%nat [10; 11; 20; 21]; Tensor [2; 1]%nat [5; 6]].

Definition sum_embeddings : list (tensor Z) :=
  [Tensor [2; 2]%nat [10; 11; 20; 21]; Tensor [2; 2]%nat [1; 2; 3; 4]].

(** Two rows of two indices. *)
Definition small_inputs : tensor Z := Tensor [2; 2]%nat [1; 0; 0; 1].

(** Stand-ins for the trace decoder's LSTM on a packed sequence, an io
    embedding of two examples, three packed grids and three packed
    actions. *)
Definition packed_lstm (x : tensor Z) (batch_sizes : list nat)
  : result (tensor Z) :=
  Ok (Examples.fit_rows 256 x).

Definition io_embed : tensor Z := Tensor [2; 512]%nat (replicate 1024 1).

Definition packed_grids : PackedSequencePlus (tensor Z) :=
  Build_PackedSequencePlus (Tensor [3; 2]%nat [10; 11; 20; 21; 30; 31])
    [2; 1]%nat [0; 1].

Definition packed_input_actions : PackedSequencePlus (list Z) :=
  Build_PackedSequencePlus [0; 0; 2] [2; 1]%nat [0; 1].

Definition packed_output_actions : PackedSequencePlus (list Z) :=
  Build_PackedSequencePlus [2; 1; 1] [2; 1]%nat [0; 1].

(** A state and a memory of three beams, of the widths the trace decoder
    is built with. *)
Definition step_state : TraceDecoderState.t Z :=
  TraceDecoderState.Build_t 0%nat
    (Tensor [2; 3; 256]%nat (replicate 1536 0))
    (Tensor [2; 3; 256]%nat (replicate 1536 0)).

Definition step_memory : TraceDecoder.Memory Z :=
  TraceDecoder.Build_Memory (Tensor [3; 512]%nat (replicate 1536 1)).

(** Two token sequences of length 2, packed timestep-major. *)
Definition even_input_code : PackedSequencePlus (list Z) :=
  Build_PackedSequencePlus [0; 0; 5; 7] [2; 2]%nat [0; 1].

Definition even_output_code : PackedSequencePlus (list Z) :=
  Build_PackedSequencePlus [5; 7; 1; 1] [2; 2]%nat [0; 1].

(** A memory of two examples: an io embedding of width 1, a trace of two
    steps and its mask. *)
Definition tiny_memory : LatePoolingCodeDecoder.Memory Z :=
  LatePoolingCodeDecoder.Build_Memory
    (Some (Tensor [2; 1]%nat [7; 8]))
    (Some (MaskedMemory.Build_t (Tensor [2; 2]%nat [1; 2; 3; 4])
             (Tensor [2; 2]%nat [true; true; true; false]))).

End MoreExamples.

Lemma action_to_id_spec (a : string) (i : Z) :
  action_to_id !! a = Some i <->
  (a = "<s>" /\ i = 0) \/ (a = "</s>" /\ i = 1) \/ (a = "move" /\ i = 2) \/
  (a = "turnLeft" /\ i = 3) \/ (a = "turnRight" /\ i = 4) \/
  (a = "putMarker" /\ i = 5) \/ (a = "pickMarker" /\ i = 6).
Proof.
  unfold action_to_id.
  repeat rewrite lookup_insert_Some. rewrite lookup_empty.
  split.
  - intros H. 
    repeat match goal with
    | H : _ \/ _ |- _ => destruct H as [H | H]
    | H : _ /\ _ |- _ => destruct H
    end; subst; try discriminate; tauto.
  - intros H.
    repeat match goal with
    | H : _ \/ _ |- _ => destruct H as [H | H]
    | H : _ /\ _ |- _ => destruct H
    end; subst.
    all: repeat first [ left; split; reflexivity | right; split; [ discriminate | ] ].
Qed.

Lemma id_to_action_spec (i : Z) (a : string) :
  id_to_action !! i = Some a <->
  (a = "<s>" /\ i = 0) \/ (a = "</s>" /\ i = 1) \/ (a = "move" /\ i = 2) \/
  (a = "turnLeft" /\ i = 3) \/ (a = "turnRight" /\ i = 4) \/
  (a = "putMarker" /\ i = 5) \/ (a = "pickMarker" /\ i = 6).
Proof.
  unfold id_to_action.
  repeat rewrite lookup_insert_Some. rewrite lookup_empty.
  split.
  - intros H.
    repeat match goal with
    | H : _ \/ _ |- _ => destruct H as [H | H]
    | H : _ /\ _ |- _ => destruct H
    end; subst; try discriminate; tauto.
  - intros H.
    repeat match goal with
    | H : _ \/ _ |- _ => destruct H as [H | H]
    | H : _ /\ _ |- _ => destruct H
    end; subst.
    all: repeat first [ left; split; reflexivity | right; split; [ discriminate | ] ].
Qed.

Lemma action_maps_inverse (a : string) (i : Z) :
  action_to_id !! a = Some i <-> id_to_action !! i = Some a.
Proof. rewrite action_to_id_spec, id_to_action_spec. reflexivity. Qed.

(** C10.  [action_to_id] and [id_to_action] are mutually inverse bijections
    between the seven action tokens and the ids 0..6: looking a token's id up
    in [id_to_action] gives the token back, looking an id's token up in
    [action_to_id] gives the id back, and the ids that [decode_token] skips
    ([action_id < 2]) are, among the ids of the vocabulary, exactly the ids
    of [<s>] and [</s>]. *)
Theorem action_ids_inverse_bijection :
  dom action_to_id
    = ({[ "<s>"; "</s>"; "move"; "turnLeft"; "turnRight"; "putMarker";
          "pickMarker" ]} : gset string) /\
  dom id_to_action = ({[ 0; 1; 2; 3; 4; 5; 6 ]} : gset Z) /\
  (forall a : string, a ∈ dom action_to_id ->
     exists i, action_to_id !! a = Some i /\ id_to_action !! i = Some a) /\
  (forall i : Z, 0 <= i <= 6 ->
     exists a, id_to_action !! i = Some a /\ action_to_id !! a = Some i) /\
  (forall (i : Z) (a : string), id_to_action !! i = Some a ->
     (ignored_action i = true <-> a = "<s>" \/ a = "</s>")).
Proof.
  split; [| split; [| split; [| split]]].
  - unfold action_to_id. repeat rewrite dom_insert_L. rewrite dom_empty_L.
    set_solver.
  - unfold id_to_action. repeat rewrite dom_insert_L. rewrite dom_empty_L.
    set_solver.
  - intros a Ha. apply elem_of_dom in Ha as [i Hi]. exists i. split; [exact Hi|].
    apply action_maps_inverse, Hi.
  - intros i Hi.
    assert (i = 0 \/ i = 1 \/ i = 2 \/ i = 3 \/ i = 4 \/ i = 5 \/ i = 6)
      as Hc by lia.
    repeat destruct Hc as [-> | Hc]; try subst i;
      eexists; (split; [ reflexivity | reflexivity ]).
  - intros i a Hi. apply id_to_action_spec in Hi. unfold ignored_action.
    repeat destruct Hi as [[-> ->] | Hi]; try destruct Hi as [-> ->];
      cbn; split; intros H; try discriminate; try reflexivity;
      try (left; reflexivity); try (right; reflexivity);
      destruct H as [H | H]; discriminate.
Qed.

Lemma action_ids_inverse_bijection_witness :
  (exists i, action_to_id !! "move" = Some i /\ id_to_action !! i = Some "move") /\
  (exists a, id_to_action !! 5 = Some a /\ action_to_id !! a = Some 5) /\
  (ignored_action 1 = true <-> "</s>" = "<s>" \/ "</s>" = "</s>").
Proof.
  destruct action_ids_inverse_bijection as (Hd & _ & Hab & Hba & Hig).
  split; [| split].
  - apply Hab. rewrite Hd. set_solver.
  - apply Hba. lia.
  - apply Hig. reflexivity.
Defined.

(** ** Constructors *)

Lemma bind_Ok {X Y} (m : result X) (k : X -> result Y) (y : Y) :
  (m ≫= k) = Ok y -> exists x, m = Ok x /\ k x = Ok y.
Proof. destruct m; cbn; intros H; [eauto | discriminate]. Qed.

Lemma bind_Ok_eq {X Y} (m : result X) (k : X -> result Y) (x : X) :
  m = Ok x -> (m ≫= k) = k x.
Proof. intros ->. reflexivity. Qed.

Lemma list_mem_remove_ne (x y : string) (l : list string) :
  x <> y -> list_mem x (list_remove y l) = list_mem x l.
Proof.
  intros Hne. unfold list_mem. induction l as [| z l IH]; [reflexivity |].
  simpl. destruct (String.eqb y z) eqn:Eyz.
  - apply String.eqb_eq in Eyz as <-.
    apply String.eqb_neq in Hne. rewrite Hne. reflexivity.
  - simpl. rewrite IH. reflexivity.
Qed.

Lemma set_pop_list_other (x y : string) (l : list string) :
  x <> y ->
  list_mem x (snd (karel_modules.set_pop_list l y)) = list_mem x l.
Proof.
  intros Hne. unfold karel_modules.set_pop_list.
  destruct (list_mem y l); cbn; [apply list_mem_remove_ne, Hne | reflexivity].
Qed.

(** C8.  With the grid encoding, the conditional embedding and the action
    embedding all set to ['none'], constructing the trace encoder fails with
    an assertion error, whatever the other options are: in the mode that is
    not interleaved the concatenated input would have width 0 and the
    assertion on [enc_input_size] fails.  Every configuration the constructor
    accepts has at least one input source that is not [none_fn], and an
    encoder input width that is positive. *)
Theorem trace_encoder_needs_an_input_source :
  (forall args : Args,
     karel_trace_grid_enc args = "none" ->
     karel_trace_cond_enc args = "none" ->
     karel_trace_action_enc args = "none" ->
     IndividualTraceEncoder.__init__ args = Raise AssertionError) /\
  IndividualTraceEncoder.concat_input_size none_fn none_fn none_fn = 0 /\
  (forall (args : Args) (e : IndividualTraceEncoder.t),
     IndividualTraceEncoder.__init__ args = Ok e ->
     (is_none_fn (IndividualTraceEncoder.action_embed e) = false \/
      is_none_fn (IndividualTraceEncoder.grid_encoder e) = false \/
      is_none_fn (IndividualTraceEncoder.cond_embed e) = false) /\
     0 < IndividualTraceEncoder.enc_input_size e).
Proof.
  split; [| split; [reflexivity |]].
  - intros args Hg Hc Ha.
    unfold IndividualTraceEncoder.__init__,
      IndividualTraceEncoder.make_grid_encoder,
      IndividualTraceEncoder.make_cond_embed,
      IndividualTraceEncoder.make_action_embed.
    rewrite Hg, Hc, Ha. cbn.
    destruct (karel_modules.set_pop _ "interleave") as [i o1].
    destruct (karel_modules.set_pop o1 "concat") as [cc o2].
    destruct (xorb i cc); cbn; [| reflexivity].
    destruct (bool_decide (o2 = ∅)); cbn; [| reflexivity].
    destruct (i && negb cc); cbn; reflexivity.
  - intros args e H. unfold IndividualTraceEncoder.__init__ in H.
    apply bind_Ok in H as (grid & _ & H).
    apply bind_Ok in H as (cond & _ & H).
    destruct (karel_modules.set_pop _ "interleave") as [i o1].
    destruct (karel_modules.set_pop o1 "concat") as [cc o2].
    apply bind_Ok in H as (u1 & _ & H).
    apply bind_Ok in H as (u2 & _ & H).
    destruct (i && negb cc).
    + apply bind_Ok in H as (action & _ & H).
      apply bind_Ok in H as (u3 & Hact & H).
      apply bind_Ok in H as (cond' & _ & H).
      apply bind_Ok in H as (grid' & _ & H).
      injection H as <-. unfold IndividualTraceEncoder.enc_input_size. cbn.
      destruct action; cbn in Hact; try discriminate;
        (split; [left; reflexivity | lia]).
    + apply bind_Ok in H as (action & _ & H).
      apply bind_Ok in H as (u3 & Hsz & H).
      injection H as <-. unfold IndividualTraceEncoder.enc_input_size. cbn.
      unfold assert in Hsz.
      destruct (IndividualTraceEncoder.concat_input_size action grid cond =? 0)
        eqn:E; [discriminate |].
      apply Z.eqb_neq in E.
      unfold IndividualTraceEncoder.concat_input_size in *.
      destruct (is_none_fn action), (is_none_fn grid), (is_none_fn cond);
        cbn in *; try lia; split; auto; lia.
Qed.

Lemma trace_encoder_needs_an_input_source_witness :
  IndividualTraceEncoder.__init__ (Examples.trace_enc_args "none" "none" "none")
    = Raise AssertionError /\
  (is_none_fn (IndividualTraceEncoder.action_embed Examples.encoder_grid_only)
     = false \/
   is_none_fn (IndividualTraceEncoder.grid_encoder Examples.encoder_grid_only)
     = false \/
   is_none_fn (IndividualTraceEncoder.cond_embed Examples.encoder_grid_only)
     = false) /\
  0 < IndividualTraceEncoder.enc_input_size Examples.encoder_grid_only.
Proof.
  destruct trace_encoder_needs_an_input_source as (Hnone & _ & Hok).
  split.
  - apply Hnone; reflexivity.
  - apply (Hok (Examples.trace_enc_args "lgrl" "none" "none")).
    vm_compute. reflexivity.
Defined.

(** C9.  A usage selects the state mode when it lists ['state'] and does
    not list ['none'], which switches both trace modes off.  Constructing
    the decoder with such a usage fails with an assertion error, whatever
    the other arguments are, and no decoder that the constructor returns
    has the state mode on: the mode is rejected, not ignored.  The usages
    ['memory'] and ['none'] are accepted, the first with the trace memory
    switched on and the second with both trace modes off; the constructor
    asks of the other arguments that [num_placeholders] is 0. *)
Theorem state_usage_is_rejected {A : Type}
  (w : LatePoolingCodeDecoder.Weights A) (vocab_size : Z) (args : Args) :
  (list_mem "state" (split "," (karel_trace_usage args)) = true ->
   list_mem "none" (split "," (karel_trace_usage args)) = false ->
   LatePoolingCodeDecoder.__init__ w vocab_size args = Raise AssertionError) /\
  (forall d,
     LatePoolingCodeDecoder.__init__ w vocab_size args = Ok d ->
     LatePoolingCodeDecoder.use_trace_state d = false) /\
  (karel_trace_usage args = "memory" -> num_placeholders args = 0 ->
   exists d, LatePoolingCodeDecoder.__init__ w vocab_size args = Ok d /\
             LatePoolingCodeDecoder.use_trace_memory d = true /\
             LatePoolingCodeDecoder.use_trace_state d = false) /\
  (karel_trace_usage args = "none" -> num_placeholders args = 0 ->
   exists d, LatePoolingCodeDecoder.__init__ w vocab_size args = Ok d /\
             LatePoolingCodeDecoder.use_trace_memory d = false /\
             LatePoolingCodeDecoder.use_trace_state d = false).
Proof.
  split; [| split; [| split]].
  - intros Hstate Hnone. unfold LatePoolingCodeDecoder.__init__.
    destruct (num_placeholders args =? 0); cbn; [| reflexivity].
    destruct (karel_modules.set_pop_list
                (split "," (karel_trace_usage args)) "memory")
      as [m tu1] eqn:E1.
    assert (Hs : list_mem "state" tu1 = true).
    { pose proof (set_pop_list_other "state" "memory"
                    (split "," (karel_trace_usage args))) as H0.
      rewrite E1 in H0. simpl snd in H0. rewrite H0 by discriminate.
      exact Hstate. }
    assert (Hn : list_mem "none" tu1 = false).
    { pose proof (set_pop_list_other "none" "memory"
                    (split "," (karel_trace_usage args))) as H0.
      rewrite E1 in H0. simpl snd in H0. rewrite H0 by discriminate.
      exact Hnone. }
    destruct (karel_modules.set_pop_list tu1 "state") as [st tu2] eqn:E2.
    assert (Hn2 : list_mem "none" tu2 = false).
    { pose proof (set_pop_list_other "none" "state" tu1) as H0.
      rewrite E2 in H0. simpl snd in H0. rewrite H0 by discriminate.
      exact Hn. }
    unfold karel_modules.set_pop_list in E2. rewrite Hs in E2.
    injection E2 as <- <-.
    unfold karel_modules.set_pop_list. rewrite Hn2.
    destruct (list_remove "state" tu1); reflexivity.
  - intros d H. unfold LatePoolingCodeDecoder.__init__ in H.
    apply bind_Ok in H as (u1 & _ & H).
    destruct (karel_modules.set_pop_list _ "memory") as [b1 l1].
    destruct (karel_modules.set_pop_list l1 "state") as [b2 l2].
    destruct (karel_modules.set_pop_list l2 "none") as [b3 l3].
    apply bind_Ok in H as (u2 & _ & H).
    apply bind_Ok in H as (u3 & Hst & H).
    injection H as <-. cbn [LatePoolingCodeDecoder.use_trace_state].
    destruct (if b3 then false else b2); [discriminate Hst | reflexivity].
  - intros Hu Hp. unfold LatePoolingCodeDecoder.__init__.
    rewrite Hu, Hp. cbn. eexists. split; [reflexivity |]. split; reflexivity.
  - intros Hu Hp. unfold LatePoolingCodeDecoder.__init__.
    rewrite Hu, Hp. cbn. eexists. split; [reflexivity |]. split; reflexivity.
Qed.

Lemma state_usage_is_rejected_witness :
  LatePoolingCodeDecoder.__init__ (Examples.code_weights 5) 5
    (Examples.args_with "state") = Raise AssertionError /\
  LatePoolingCodeDecoder.__init__ (Examples.code_weights 5) 5
    (Examples.args_with "memory,state") = Raise AssertionError /\
  (exists d, LatePoolingCodeDecoder.__init__ (Examples.code_weights 5) 5
               (Examples.args_with "memory") = Ok d /\
             LatePoolingCodeDecoder.use_trace_memory d = true /\
             LatePoolingCodeDecoder.use_trace_state d = false) /\
  (exists d, LatePoolingCodeDecoder.__init__ (Examples.code_weights 5) 5
               (Examples.args_with "none") = Ok d /\
             LatePoolingCodeDecoder.use_trace_memory d = false /\
             LatePoolingCodeDecoder.use_trace_state d = false).
Proof.
  split; [| split; [| split]].
  - apply (state_usage_is_rejected (Examples.code_weights 5) 5
             (Examples.args_with "state")); reflexivity.
  - apply (state_usage_is_rejected (Examples.code_weights 5) 5
             (Examples.args_with "memory,state")); reflexivity.
  - apply (state_usage_is_rejected (Examples.code_weights 5) 5
             (Examples.args_with "memory")); reflexivity.
  - apply (state_usage_is_rejected (Examples.code_weights 5) 5
             (Examples.args_with "none")); reflexivity.
Defined.

(** ** Facts about tensors *)

Section TensorFacts.
Context {A : Type}.
Implicit Types (l : list A) (t : tensor A).
Local Close Scope string_scope.
Local Open Scope nat_scope.

Lemma numel_app (s1 s2 : list nat) : numel (s1 ++ s2) = numel s1 * numel s2.
Proof.
  induction s1 as [| n s1 IH]; [unfold numel; simpl; lia |].
  change (numel ((n :: s1) ++ s2)) with (n * numel (s1 ++ s2)).
  change (numel (n :: s1)) with (n * numel s1). rewrite IH. lia.
Qed.

Lemma length_chunk sz i l :
  (i + 1) * sz <= length l -> length (chunk sz i l) = sz.
Proof.
  intros H. unfold chunk. rewrite length_take, length_drop. lia.
Qed.

Lemma chunk_concat sz (ls : list (list A)) j x :
  Forall (fun l => length l = sz) ls -> ls !! j = Some x ->
  chunk sz j (concat ls) = x.
Proof.
  intros Hall. revert j x.
  induction Hall as [| y ls Hy Hall IH]; intros j x Hj.
  - discriminate.
  - destruct j as [| j]; cbn in Hj.
    + injection Hj as ->. unfold chunk.
      rewrite Nat.mul_0_l, drop_0. cbn [concat].
      apply take_app_length'. symmetry. exact Hy.
    + unfold chunk. cbn [concat].
      replace (S j * sz) with (length y + j * sz) by (rewrite Hy; lia).
      rewrite drop_app_add. apply IH, Hj.
Qed.

Lemma chunk_chunk w p i k l :
  k < p -> chunk w k (chunk (p * w) i l) = chunk w (i * p + k) l.
Proof.
  intros Hk. unfold chunk.
  rewrite (take_drop_commute l (p * w) (i * (p * w))).
  rewrite drop_drop.
  rewrite (take_drop_commute (take _ l)).
  rewrite take_take.
  rewrite (take_drop_commute l w).
  f_equal; [nia |]. f_equal. nia.
Qed.

Lemma concat_chunks sz n l :
  length l = n * sz ->
  concat (map (fun i => chunk sz i l) (seq 0 n)) = l.
Proof.
  revert l. induction n as [| n IH]; intros l Hl.
  - destruct l; [reflexivity | discriminate].
  - rewrite seq_S, map_app, concat_app.
    assert (H1 : concat (map (fun i => chunk sz i l) (seq 0 n))
                 = take (n * sz) l).
    { transitivity
        (concat (map (fun i => chunk sz i (take (n * sz) l)) (seq 0 n))).
      - f_equal. apply map_ext_in. intros i Hi. apply in_seq in Hi.
        unfold chunk.
        rewrite (take_drop_commute (take _ l)), take_take.
        rewrite (take_drop_commute l). f_equal. f_equal. nia.
      - apply IH. rewrite length_take. lia. }
    assert (H2 : concat (map (fun i => chunk sz i l) [0 + n])
                 = drop (n * sz) l).
    { cbn [map concat]. rewrite app_nil_r. unfold chunk.
      apply take_ge. rewrite length_drop. cbn. lia. }
    rewrite H1, H2. apply take_drop.
Qed.


Lemma existsb_of_nat (f : Z -> bool) (l : list nat) :
  (forall n : nat, f (Z.of_nat n) = false) ->
  existsb f (map Z.of_nat l) = false.
Proof.
  intros Hf. induction l as [| n l IH]; [reflexivity |].
  cbn [map existsb]. rewrite Hf, IH. reflexivity.
Qed.

Lemma filter_of_nat_all (f : Z -> bool) (l : list nat) :
  (forall n : nat, f (Z.of_nat n) = true) ->
  List.filter f (map Z.of_nat l) = map Z.of_nat l.
Proof.
  intros Hf. induction l as [| n l IH]; [reflexivity |].
  cbn [map List.filter]. rewrite Hf, IH. reflexivity.
Qed.

Lemma filter_of_nat_none (f : Z -> bool) (l : list nat) :
  (forall n : nat, f (Z.of_nat n) = false) ->
  List.filter f (map Z.of_nat l) = [].
Proof.
  intros Hf. induction l as [| n l IH]; [reflexivity |].
  cbn [map List.filter]. rewrite Hf, IH. reflexivity.
Qed.

Lemma to_nat_of_nat_list (l : list nat) : map Z.to_nat (map Z.of_nat l) = l.
Proof.
  induction l as [| n l IH]; [reflexivity |].
  cbn [map]. rewrite Nat2Z.id, IH. reflexivity.
Qed.

Lemma fill_hole_of_nat (q : nat) (l : list nat) :
  map (fun d => if (d =? -1)%Z then q else Z.to_nat d) (map Z.of_nat l) = l.
Proof.
  induction l as [| n l IH]; [reflexivity |].
  cbn [map]. rewrite IH, Nat2Z.id.
  destruct (Z.eqb_spec (Z.of_nat n) (-1)); [lia | reflexivity].
Qed.

(** A shape with one inferred axis, between the axes [pre] and [post]. *)
Lemma infer_shape_hole (e : exn) (total : nat) (pre post : list nat) :
  numel pre * numel post <> 0 ->
  total mod (numel pre * numel post) = 0 ->
  infer_shape e total (map Z.of_nat pre ++ (-1)%Z :: map Z.of_nat post)
  = Ok (pre ++ total / (numel pre * numel post) :: post).
Proof.
  intros Hk Hm. unfold infer_shape.
  rewrite existsb_app. cbn [existsb].
  rewrite !existsb_of_nat by (intros n; apply Z.ltb_ge; lia).
  rewrite Z.ltb_irrefl. cbn [orb].
  rewrite !List.filter_app. cbn [List.filter].
  rewrite !Z.eqb_refl. cbn [negb].
  rewrite !(filter_of_nat_all (fun d => negb (d =? -1)%Z))
    by (intros n; destruct (Z.eqb_spec (Z.of_nat n) (-1)); [lia | reflexivity]).
  rewrite !(filter_of_nat_none (fun d => (d =? -1)%Z))
    by (intros n; destruct (Z.eqb_spec (Z.of_nat n) (-1)); [lia | reflexivity]).
  rewrite <- map_app, to_nat_of_nat_list, numel_app. cbn [app length].
  destruct (Nat.eqb_spec (numel pre * numel post) 0) as [E | _]; [contradiction |].
  rewrite Hm. cbn [Nat.eqb].
  rewrite map_app. cbn [map]. rewrite Z.eqb_refl, !fill_hole_of_nat. reflexivity.
Qed.

(** A shape given in full. *)
Lemma infer_shape_full (e : exn) (total : nat) (s : list nat) :
  numel s = total -> infer_shape e total (map Z.of_nat s) = Ok s.
Proof.
  intros Hs. unfold infer_shape.
  rewrite existsb_of_nat by (intros n; apply Z.ltb_ge; lia).
  rewrite (filter_of_nat_all (fun d => negb (d =? -1)%Z))
    by (intros n; destruct (Z.eqb_spec (Z.of_nat n) (-1)); [lia | reflexivity]).
  rewrite (filter_of_nat_none (fun d => (d =? -1)%Z))
    by (intros n; destruct (Z.eqb_spec (Z.of_nat n) (-1)); [lia | reflexivity]).
  rewrite !to_nat_of_nat_list. cbn [length].
  rewrite Hs, Nat.eqb_refl. reflexivity.
Qed.


Lemma length_foldl_zip_with (f : A -> A -> A) (w : nat) (vs : list (list A)) v :
  length v = w -> Forall (fun x => length x = w) vs ->
  length (foldl (zip_with f) v vs) = w.
Proof.
  intros Hv Hvs. revert v Hv.
  induction Hvs as [| x vs Hx Hvs IH]; intros v Hv; [exact Hv |].
  cbn [foldl]. apply IH. rewrite length_zip_with. lia.
Qed.

Lemma view_hole (t : tensor A) (pre post : list nat) :
  numel pre * numel post <> 0 ->
  numel (shape t) mod (numel pre * numel post) = 0 ->
  view t (map Z.of_nat pre ++ (-1)%Z :: map Z.of_nat post)
  = Ok (Tensor (pre ++ numel (shape t) / (numel pre * numel post) :: post)
          (data t)).
Proof.
  intros Hk Hm. unfold view. rewrite infer_shape_hole by assumption.
  reflexivity.
Qed.

Lemma numel_cons (n : nat) (s : list nat) : numel (n :: s) = n * numel s.
Proof. reflexivity. Qed.

Lemma numel_nil : numel [] = 1.
Proof. reflexivity. Qed.

Lemma length_concat_uniform (w : nat) (ls : list (list A)) :
  Forall (fun l => length l = w) ls -> length (concat ls) = length ls * w.
Proof.
  induction 1 as [| x ls Hx _ IH]; [reflexivity |].
  cbn [concat length]. rewrite length_app, IH, Hx. lia.
Qed.

Lemma block_bound (i k n p w : nat) :
  i < n -> k < p -> (i * p + k + 1) * w <= n * p * w.
Proof.
  intros Hi Hk. apply Nat.mul_le_mono_r.
  assert (i * p + p <= n * p) by nia. lia.
Qed.

Lemma pool_rows (emax : A -> A -> A) (p n w : nat) (emb : tensor A) :
  shape emb = [n * p; w] -> wf emb -> 1 <= p -> 1 <= w ->
  exists pooled,
    LatePoolingCodeDecoder.pool emax (Z.of_nat p) emb = Ok pooled /\
    shape pooled = [n; w] /\ wf pooled /\
    forall i, i < n -> row pooled i = LatePoolingCodeDecoder.max_over_pairs emax emb p i.
Proof.
  intros Hs Hwf Hp Hw. destruct emb as [s d]. cbn in Hs. subst s.
  unfold wf in Hwf. cbn [shape data] in Hwf.
  rewrite !numel_cons, numel_nil in Hwf.
  assert (Hlen : length d = n * p * w) by lia. clear Hwf.
  unfold LatePoolingCodeDecoder.pool, last_dim.
  cbn [shape last mbind result_bind Py.bind].
  change [(-1)%Z; Z.of_nat p; Z.of_nat w]
    with (map Z.of_nat [] ++ (-1)%Z :: map Z.of_nat [p; w]).
  rewrite view_hole; cbn [shape data app];
    rewrite ?numel_cons, ?numel_nil.
  2: nia.
  2: { replace (n * p * (w * 1)) with (n * (1 * (p * (w * 1)))) by lia.
       apply Nat.Div0.mod_mul. }
  replace (n * p * (w * 1) / (1 * (p * (w * 1)))) with n.
  2: { replace (n * p * (w * 1)) with (n * (1 * (p * (w * 1)))) by lia.
       symmetry. apply Nat.div_mul. nia. }
  cbn [mbind result_bind Py.bind]. unfold max_dim1. cbn [shape data].
  destruct (Nat.eqb_spec p 0) as [E | _]; [lia |].
  eexists. split; [reflexivity |].
  set (g := fun i : nat =>
              default [] (max_vectors emax (vectors p w (chunk (p * w) i d)))).
  assert (Hg : forall i, i < n ->
             g i = LatePoolingCodeDecoder.max_over_pairs emax {| shape := [n * p; w]; data := d |} p i
             /\ length (g i) = w).
  { intros i Hi. unfold g, vectors, LatePoolingCodeDecoder.max_over_pairs, row.
    cbn [shape data tail]. rewrite numel_cons, numel_nil, Nat.mul_1_r.
    replace (seq 0 p) with (0 :: seq 1 (p - 1))
      by (destruct p; [lia |]; cbn; rewrite Nat.sub_0_r; reflexivity).
    cbn [map max_vectors default].
    rewrite chunk_chunk by lia. rewrite Nat.add_0_r.
    assert (Hm : map (fun k => chunk w k (chunk (p * w) i d)) (seq 1 (p - 1))
                 = map (fun k => chunk w (i * p + k) d) (seq 1 (p - 1))).
    { apply map_ext_in. intros k Hk. apply in_seq in Hk.
      apply chunk_chunk. lia. }
    rewrite Hm. split; [reflexivity |].
    apply length_foldl_zip_with.
    - apply length_chunk. rewrite Hlen.
      replace (i * p + 1) with (i * p + 0 + 1) by lia.
      apply block_bound; lia.
    - apply Forall_forall. intros x Hx. apply list_elem_of_In in Hx.
      apply in_map_iff in Hx as (k & <- & Hk). apply in_seq in Hk.
      apply length_chunk. rewrite Hlen. apply block_bound; lia. }
  assert (Hall : Forall (fun l => length l = w) (map g (seq 0 n))).
  { apply Forall_forall. intros x Hx. apply list_elem_of_In in Hx.
    apply in_map_iff in Hx as (i & <- & Hi). apply in_seq in Hi.
    apply Hg. lia. }
  split; [reflexivity |]. split.
  - unfold wf. cbn [shape data]. rewrite numel_cons, numel_cons, numel_nil.
    rewrite (length_concat_uniform w) by exact Hall.
    rewrite length_map, length_seq. lia.
  - intros i Hi. unfold row at 1. cbn [shape data tail].
    rewrite numel_cons, numel_nil, Nat.mul_1_r.
    rewrite (chunk_concat w _ i (g i)); [apply Hg, Hi | exact Hall |].
    change (map g (seq 0 n)) with (g <$> seq 0 n).
    rewrite list_lookup_fmap, lookup_seq_lt by exact Hi. reflexivity.
Qed.
End TensorFacts.


(** ** The pooling of the code decoder *)

Section PoolFacts.
Context {A : Type}.
Local Close Scope string_scope.
Local Open Scope nat_scope.

Lemma data_from_rows (t : tensor A) (n : nat) (rest : list nat) :
  shape t = n :: rest -> wf t ->
  data t = concat (map (row t) (seq 0 n)).
Proof.
  intros Hs Hwf. unfold row. rewrite Hs. cbn [tail].
  symmetry. apply concat_chunks.
  unfold wf in Hwf. rewrite Hwf, Hs. reflexivity.
Qed.

Lemma tensor_eq_rows (t1 t2 : tensor A) (n : nat) (rest : list nat) :
  shape t1 = n :: rest -> shape t2 = n :: rest -> wf t1 -> wf t2 ->
  (forall i, i < n -> row t1 i = row t2 i) -> t1 = t2.
Proof.
  intros H1 H2 W1 W2 Hrows.
  destruct t1 as [s1 d1], t2 as [s2 d2]. cbn [shape] in H1, H2. subst s1 s2.
  f_equal.
  pose proof (data_from_rows {| shape := n :: rest; data := d1 |} n rest
                eq_refl W1) as E1.
  pose proof (data_from_rows {| shape := n :: rest; data := d2 |} n rest
                eq_refl W2) as E2.
  cbn [data] in E1, E2. rewrite E1, E2.
  f_equal. apply map_ext_in. intros i Hi. apply in_seq in Hi.
  apply Hrows. lia.
Qed.

Lemma pool_single (emax : A -> A -> A) (n w : nat) (emb : tensor A) :
  shape emb = [n; w] -> wf emb -> 1 <= w ->
  LatePoolingCodeDecoder.pool emax 1 emb = Ok emb.
Proof.
  intros Hs Hwf Hw.
  destruct (pool_rows emax 1 n w emb) as (pooled & Hp & Hps & Hpw & Hrows);
    [rewrite Nat.mul_1_r; exact Hs | exact Hwf | lia | exact Hw |].
  change (Z.of_nat 1) with 1%Z in Hp. rewrite Hp. f_equal.
  apply (tensor_eq_rows pooled emb n [w]); try assumption.
  intros i Hi. rewrite Hrows by exact Hi.
  unfold LatePoolingCodeDecoder.max_over_pairs. cbn [seq map foldl Nat.sub].
  rewrite Nat.mul_1_r. reflexivity.
Qed.

Lemma pool_zero (emax : A -> A -> A) (emb : tensor A) :
  shape emb <> [] ->
  LatePoolingCodeDecoder.pool emax 0 emb = Raise RuntimeError.
Proof.
  intros Hne.
  unfold LatePoolingCodeDecoder.pool, last_dim.
  destruct (last (shape emb)) as [d |] eqn:El.
  - cbn [mbind result_bind Py.bind]. unfold view, infer_shape.
    cbn [existsb List.filter].
    replace (Z.of_nat d <? -1)%Z with false by (symmetry; apply Z.ltb_ge; lia).
    replace (Z.of_nat d =? -1)%Z with false by (symmetry; apply Z.eqb_neq; lia).
    cbn. reflexivity.
  - apply last_None in El. contradiction.
Qed.

(** The steps of [compute_next_token_logits] that lead to the logits, read
    off a call that returned. *)
Lemma compute_next_token_logits_pools (self : LatePoolingCodeDecoder.t A)
  (state : LatePoolingCodeDecoder.State A)
  (memory : LatePoolingCodeDecoder.Memory A)
  (last_token_emb : tensor A)
  (state' : LatePoolingCodeDecoder.State A) (logits : tensor A) :
  LatePoolingCodeDecoder.compute_next_token_logits self state memory
    last_token_emb = Ok (state', logits) ->
  exists dec_input d flat h0 c0 dec_output h1 c1 emb pooled,
    karel_modules.maybe_concat
      [Some last_token_emb; LatePoolingCodeDecoder.io memory;
       LatePoolingCodeDecoder.context state] 2 = Ok (Some dec_input) /\
    last_dim dec_input = Ok d /\
    view dec_input [(-1)%Z; d] = Ok flat /\
    karel_modules.flatten (LatePoolingCodeDecoder.h state) 1 = Ok h0 /\
    karel_modules.flatten (LatePoolingCodeDecoder.c state) 1 = Ok c0 /\
    LatePoolingCodeDecoder.decoder_fn (LatePoolingCodeDecoder.weights self)
      (unsqueeze0 flat) (h0, c0) = Ok (dec_output, (h1, c1)) /\
    match LatePoolingCodeDecoder.trace memory with
    | Some tr =>
        exists m mask ctx,
          LatePoolingCodeDecoder.trace_attention self <> None /\
          karel_modules.flatten (MaskedMemory.memory tr) 0 = Ok m /\
          karel_modules.flatten (MaskedMemory.attn_mask tr) 0 = Ok mask /\
          LatePoolingCodeDecoder.trace_attention_fn
            (LatePoolingCodeDecoder.weights self) (squeeze0 dec_output) m mask
          = Ok ctx /\
          cat2 1 ctx (squeeze0 dec_output) = Ok emb
    | None => emb = squeeze0 dec_output
    end /\
    LatePoolingCodeDecoder.pool
      (LatePoolingCodeDecoder.emax (LatePoolingCodeDecoder.weights self))
      (LatePoolingCodeDecoder.pairs_per_example state) emb = Ok pooled /\
    LatePoolingCodeDecoder.out_fn (LatePoolingCodeDecoder.weights self) pooled
      = Ok logits.
Proof.
  unfold LatePoolingCodeDecoder.compute_next_token_logits. intros H.
  apply bind_Ok in H as (di0 & Hdi0 & H).
  apply bind_Ok in H as (di1 & Hdi1 & H).
  apply bind_Ok in H as (d & Hd & H).
  apply bind_Ok in H as (di2 & Hdi2 & H).
  apply bind_Ok in H as (h0 & Hh0 & H).
  apply bind_Ok in H as (c0 & Hc0 & H).
  apply bind_Ok in H as ([dec_output [h1 c1]] & Hdec & H).
  apply bind_Ok in H as (h1' & _ & H).
  apply bind_Ok in H as (c1' & _ & H).
  apply bind_Ok in H as (new_context & Hctx & H).
  apply bind_Ok in H as (emb0 & Hcat & H).
  apply bind_Ok in H as (emb & Hemb & H).
  apply bind_Ok in H as (pooled & Hpool & H).
  apply bind_Ok in H as (lg & Hout & H).
  apply bind_Ok in H as (ctx' & _ & H).
  injection H as _ <-.
  destruct di0 as [di0 |]; [| discriminate Hdi1].
  injection Hdi1 as <-.
  destruct emb0 as [emb0 |]; [| discriminate Hemb].
  injection Hemb as <-.
  exists di0, d, di2, h0, c0, dec_output, h1, c1, emb0, pooled.
  repeat (split; [assumption |]).
  split; [| split; assumption].
  destruct (LatePoolingCodeDecoder.trace memory) as [tr |].
  - apply bind_Ok in Hctx as (att & Hatt & Hctx).
    apply bind_Ok in Hctx as (m & Hm & Hctx).
    apply bind_Ok in Hctx as (mask & Hmask & Hctx).
    apply bind_Ok in Hctx as (ctx & Hattn & Hctx).
    injection Hctx as <-.
    exists m, mask, ctx.
    split.
    { destruct (LatePoolingCodeDecoder.trace_attention self);
        [discriminate | discriminate Hatt]. }
    repeat (split; [assumption |]).
    unfold karel_modules.maybe_concat in Hcat. cbn in Hcat.
    destruct (cat2 1 ctx (squeeze0 dec_output)) as [e |]; [| discriminate Hcat].
    cbn in Hcat. congruence.
  - injection Hctx as <-.
    unfold karel_modules.maybe_concat in Hcat. cbn in Hcat. congruence.
Qed.

End PoolFacts.

(** C6, as stated, fails for zero pairs: the rows cannot be grouped by 0
    and the pooling raises; it does not give its input back.  The first
    tensor is the [emb_for_logits] of a batch of two tokens with
    [pairs_per_example = 0], on which the whole step raises as well. *)
Lemma pooling_of_zero_pairs_raises :
  LatePoolingCodeDecoder.pool Z.max 0 (Tensor [0; 256]%nat [])
    = Raise RuntimeError /\
  LatePoolingCodeDecoder.pool Z.max 0 (Tensor [0; 256]%nat [])
    <> Ok (Tensor [0; 256]%nat []) /\
  (self ← LatePoolingCodeDecoder.__init__ (Examples.code_weights 8) 8
            (Examples.args_with "none");
   state ← LatePoolingCodeDecoder.init_state self 2 0;
   LatePoolingCodeDecoder.decode_token self [3; 4] state
     (LatePoolingCodeDecoder.Build_Memory None None)) = Raise RuntimeError.
Proof.
  split; [reflexivity |]. split; [discriminate |].
  vm_compute. reflexivity.
Qed.


(** ** The world step of the trace decoder *)

Section RowFacts.
Context {A : Type}.
Local Close Scope string_scope.
Local Open Scope nat_scope.

Lemma lookup_chunk (sz j k : nat) (l : list A) :
  chunk sz j l !! k = if decide (k < sz) then l !! (j * sz + k) else None.
Proof.
  unfold chunk. case_decide.
  - rewrite lookup_take_lt, lookup_drop by assumption. reflexivity.
  - apply lookup_take_ge. lia.
Qed.

Lemma shape_set_row (t : tensor A) (i : nat) (cells : list A) :
  shape (set_row t i cells) = shape t.
Proof. reflexivity. Qed.

Lemma length_set_row (t : tensor A) (i : nat) (cells : list A) :
  length cells = numel (tail (shape t)) ->
  (i + 1) * numel (tail (shape t)) <= length (data t) ->
  length (data (set_row t i cells)) = length (data t).
Proof.
  intros Hc Hi. unfold set_row. cbn [data].
  rewrite !length_app, length_take, length_drop. lia.
Qed.

Lemma row_set_row_eq (t : tensor A) (i : nat) (cells : list A) :
  length cells = numel (tail (shape t)) ->
  (i + 1) * numel (tail (shape t)) <= length (data t) ->
  row (set_row t i cells) i = cells.
Proof.
  intros Hc Hi. unfold row, set_row, chunk. cbn [shape data].
  rewrite drop_app_length' by (rewrite length_take; lia).
  apply take_app_length'. symmetry. exact Hc.
Qed.

Lemma row_set_row_ne (t : tensor A) (i j : nat) (cells : list A) :
  length cells = numel (tail (shape t)) ->
  (i + 1) * numel (tail (shape t)) <= length (data t) ->
  i <> j ->
  row (set_row t i cells) j = row t j.
Proof.
  intros Hc Hi Hne. unfold row, set_row. cbn [shape data].
  set (sz := numel (tail (shape t))) in *.
  apply list_eq. intros k. rewrite !lookup_chunk.
  case_decide as Hk; [| reflexivity].
  assert (Hlt : length (take (i * sz) (data t)) = i * sz)
    by (rewrite length_take; lia).
  destruct (Nat.lt_ge_cases j i) as [Hji | Hji].
  - assert (j * sz + k < i * sz) by nia.
    rewrite lookup_app_l by lia. apply lookup_take_lt. lia.
  - assert ((i + 1) * sz <= j * sz + k) by nia.
    rewrite lookup_app_r by lia. rewrite lookup_app_r by lia.
    rewrite lookup_drop. f_equal. lia.
Qed.

Lemma wf_rows_bound (t : tensor A) (n : nat) (rest : list nat) (i : nat) :
  shape t = n :: rest -> wf t -> i < n ->
  (i + 1) * numel (tail (shape t)) <= length (data t).
Proof.
  intros Hs Hwf Hi. unfold wf in Hwf. rewrite Hwf, Hs. cbn [tail].
  rewrite numel_cons. nia.
Qed.

Lemma length_row (t : tensor A) (n : nat) (rest : list nat) (i : nat) :
  shape t = n :: rest -> wf t -> i < n ->
  length (row t i) = numel (tail (shape t)).
Proof.
  intros Hs Hwf Hi. unfold row. apply length_chunk.
  eapply wf_rows_bound; eassumption.
Qed.

End RowFacts.

Section StoreFacts.
Context {A : Type}.
Local Close Scope string_scope.
Local Open Scope nat_scope.

Lemma store_bind_Ok {X Y} (m : ST A X) (k : X -> ST A Y) σ y σ' :
  Store.bind m k σ = (Ok y, σ') ->
  exists x σ1, m σ = (Ok x, σ1) /\ k x σ1 = (Ok y, σ').
Proof.
  unfold Store.bind. destruct (m σ) as [[x | e] σ1]; intros H.
  - eauto.
  - discriminate.
Qed.

(** The world step writes to the array it is given and to no other. *)
Lemma advance_beam_frame (self : TraceDecoder.t A) (l : loc) (i : nat)
  (a : Z) σ r σ' (l' : loc) :
  TraceDecoder.advance_beam self l i a σ = (r, σ') -> l' <> l ->
  σ' !! l' = σ !! l'.
Proof.
  unfold TraceDecoder.advance_beam. intros H Hne.
  destruct (a <? 2)%Z.
  - injection H as _ <-. reflexivity.
  - unfold Store.bind, Store.lift, Store.read, Store.write in H.
    destruct (id_to_action !! a).
    + injection H as _ <-. apply lookup_insert_ne. congruence.
    + injection H as _ <-. reflexivity.
Qed.

Lemma advance_beams_frame (self : TraceDecoder.t A) (l : loc)
  (beams : list (nat * Z)) σ r σ' (l' : loc) :
  TraceDecoder.advance_beams self l beams σ = (r, σ') -> l' <> l ->
  σ' !! l' = σ !! l'.
Proof.
  revert σ. induction beams as [| [i a] beams IH]; intros σ H Hne.
  - injection H as _ <-. reflexivity.
  - cbn [TraceDecoder.advance_beams] in H. unfold Store.bind in H.
    destruct (TraceDecoder.advance_beam self l i a σ) as [[[] | e] σ1] eqn:E.
    + rewrite (IH _ H Hne). eapply advance_beam_frame; eassumption.
    + injection H as _ <-. eapply advance_beam_frame; eassumption.
Qed.

Section InPlace.
Variable self : TraceDecoder.t A.
Variable l : loc.
Variables (n : nat) (rest : list nat).

(** The runtime updates the array in place, so it keeps its size. *)
Hypothesis runtime_in_place :
  forall (name : string) (field : tensor A),
    length (data (TraceDecoder.karel_runtime (TraceDecoder.weights self)
                    name field))
    = length (data field).

Lemma advance_beams_rows (m : nat) :
  forall (token : list Z) (i0 : nat) (arr : tensor A) σ σ',
    σ !! l = Some arr -> shape arr = n :: rest -> wf arr -> i0 + m <= n ->
    TraceDecoder.advance_beams self l (zip (seq i0 m) token) σ = (Ok tt, σ') ->
    exists arr',
      σ' = <[l := arr']> σ /\ shape arr' = n :: rest /\ wf arr' /\
      (forall j, j < i0 \/ i0 + m <= j -> row arr' j = row arr j) /\
      (forall k, k < m ->
         TraceDecoder.beam_advanced self arr arr' (i0 + k) (token !! k)).
Proof.
  induction m as [| m IH]; intros token i0 arr σ σ' Hl Hs Hwf Hn H.
  - injection H as <-. exists arr. split; [symmetry; apply insert_id, Hl |].
    split; [assumption |]. split; [assumption |].
    split; [reflexivity |]. intros k Hk. lia.
  - destruct token as [| a token].
    + injection H as <-. exists arr.
      split; [symmetry; apply insert_id, Hl |].
      split; [assumption |]. split; [assumption |].
      split; [reflexivity |]. intros k Hk. reflexivity.
    + cbn [seq zip zip_with TraceDecoder.advance_beams] in H.
      apply store_bind_Ok in H as ([] & σ1 & Hstep & H).
      unfold TraceDecoder.advance_beam in Hstep.
      destruct (a <? 2)%Z eqn:Ea.
      * injection Hstep as <-.
        destruct (IH token (S i0) arr σ σ' Hl Hs Hwf ltac:(lia) H)
          as (arr' & -> & Hs' & Hwf' & Hout & Hin).
        exists arr'. split; [reflexivity |].
        split; [assumption |]. split; [assumption |]. split.
        -- intros j Hj. apply Hout. lia.
        -- intros [| k] Hk.
           ++ rewrite Nat.add_0_r. cbn [lookup list_lookup]. 
              unfold TraceDecoder.beam_advanced. rewrite Ea.
              apply Hout. lia.
           ++ replace (i0 + S k) with (S i0 + k) by lia.
              apply Hin. lia.
      * unfold Store.bind, Store.lift, Store.read, Store.write in Hstep.
        destruct (id_to_action !! a) as [name |] eqn:Ename; [| discriminate].
        injection Hstep as <-.
        rewrite (lookup_total_correct _ _ _ Hl) in H.
        set (cells := data (TraceDecoder.karel_runtime
                              (TraceDecoder.weights self) name
                              (get_row arr i0))) in *.
        assert (Hb : (i0 + 1) * numel (tail (shape arr)) <= length (data arr))
          by (eapply wf_rows_bound; [eassumption | assumption | lia]).
        assert (Hc : length cells = numel (tail (shape arr))).
        { unfold cells. rewrite runtime_in_place. cbn [get_row data].
          eapply length_row; [eassumption | assumption | lia]. }
        set (arr1 := set_row arr i0 cells) in *.
        assert (Hwf1 : wf arr1).
        { unfold wf. unfold arr1. rewrite length_set_row by assumption.
          exact Hwf. }
        destruct (IH token (S i0) arr1 (<[l := arr1]> σ) σ'
                    (lookup_insert_eq _ _ _) Hs Hwf1 ltac:(lia) H)
          as (arr' & -> & Hs' & Hwf' & Hout & Hin).
        exists arr'. split; [apply insert_insert_eq |].
        split; [assumption |]. split; [assumption |]. split.
        -- intros j Hj. rewrite Hout by lia.
           apply row_set_row_ne; [assumption | assumption | lia].
        -- intros [| k] Hk.
           ++ rewrite Nat.add_0_r. cbn [lookup list_lookup].
              unfold TraceDecoder.beam_advanced. rewrite Ea.
              exists name. split; [exact Ename |].
              rewrite Hout by lia. apply row_set_row_eq; assumption.
           ++ replace (i0 + S k) with (S i0 + k) by lia.
              specialize (Hin k ltac:(lia)).
              cbn [lookup list_lookup].
              assert (Hrow : row arr1 (S i0 + k) = row arr (S i0 + k))
                by (apply row_set_row_ne; [assumption | assumption | lia]).
              unfold TraceDecoder.beam_advanced in *.
              destruct (token !! k) as [b |]; [| congruence].
              destruct (b <? 2)%Z; [congruence |].
              destruct Hin as (nm & Hnm & Hr). exists nm. split; [exact Hnm |].
              rewrite Hr. unfold get_row. rewrite Hrow. reflexivity.
Qed.

End InPlace.
End StoreFacts.

(** ** [decode_token] of the trace decoder *)

Section DecodeTokenFacts.
Context {A : Type}.
Local Open Scope nat_scope.

Lemma store_bind_eq {X Y} (m : ST A X) (k : X -> ST A Y) σ x σ1 :
  m σ = (Ok x, σ1) -> Store.bind m k σ = k x σ1.
Proof. unfold Store.bind. intros ->. reflexivity. Qed.

Lemma advance_grids_none (self : TraceDecoder.t A) (token : list Z)
  (state : TraceDecoderState.t A) σ :
  TraceDecoder.grid_encoder self = None ->
  TraceDecoder.advance_grids self token state σ
  = (Ok (TraceDecoderState.field state, None), σ).
Proof. intros E. unfold TraceDecoder.advance_grids. rewrite E. reflexivity. Qed.

(** With a grid encoder, the world step works on a new array and leaves
    every array of the store it started from as it was, also when it
    raises. *)
Lemma advance_grids_frame (self : TraceDecoder.t A) (token : list Z)
  (state : TraceDecoderState.t A) σ r σ' :
  TraceDecoder.advance_grids self token state σ = (r, σ') ->
  (forall l, l ∈ dom σ -> σ' !! l = σ !! l) /\
  (forall fields grid_embed, r = Ok (fields, grid_embed) ->
     match TraceDecoder.grid_encoder self with
     | Some _ => fields = fresh (dom σ)
     | None => fields = TraceDecoderState.field state /\ σ' = σ
     end).
Proof.
  unfold TraceDecoder.advance_grids.
  destruct (TraceDecoder.grid_encoder self) as [enc |].
  - unfold Store.bind at 1 2. unfold Store.read at 1. unfold Store.alloc.
    set (arr := σ !!! TraceDecoderState.field state).
    set (l := fresh (dom σ)).
    assert (Hfresh : forall l0, l0 ∈ dom σ -> l0 <> l).
    { intros l0 Hl0 ->. exact (is_fresh (dom σ) Hl0). }
    intros H. unfold Store.bind at 1 in H.
    destruct (match shape arr with
              | [] => Store.lift (Raise TypeError)
              | n :: _ => TraceDecoder.advance_beams self l (zip (seq 0 n) token)
              end (<[l:=arr]> σ)) as [[[] | e] σ1] eqn:Estep.
    + assert (Hσ1 : forall l0, l0 ∈ dom σ -> σ1 !! l0 = σ !! l0).
      { intros l0 Hl0. destruct (shape arr) as [| n s].
        - injection Estep as _ <-. apply lookup_insert_ne.
          specialize (Hfresh l0 Hl0). congruence.
        - rewrite (advance_beams_frame _ _ _ _ _ _ l0 Estep (Hfresh l0 Hl0)).
          apply lookup_insert_ne. specialize (Hfresh l0 Hl0). congruence. }
      unfold Store.bind, Store.read, Store.lift, Store.ret in H.
      destruct (TraceDecoder.grid_encoder_fn (TraceDecoder.weights self)
                  (σ1 !!! l)) as [ge | e]; injection H as <- <-.
      * split; [exact Hσ1 |]. intros fields grid_embed Hr.
        injection Hr as <- _. reflexivity.
      * split; [exact Hσ1 |]. intros fields grid_embed Hr. discriminate.
    + injection H as <- <-. split.
      * intros l0 Hl0. destruct (shape arr) as [| n s].
        -- injection Estep as _ <-. apply lookup_insert_ne.
           specialize (Hfresh l0 Hl0). congruence.
        -- rewrite (advance_beams_frame _ _ _ _ _ _ l0 Estep (Hfresh l0 Hl0)).
           apply lookup_insert_ne. specialize (Hfresh l0 Hl0). congruence.
      * intros fields grid_embed Hr. discriminate.
  - intros H. injection H as <- <-. split; [reflexivity |].
    intros fields grid_embed Hr. injection Hr as <- _. split; reflexivity.
Qed.

Lemma decode_token_inv (self : TraceDecoder.t A) (token : list Z)
  (state : TraceDecoderState.t A) (memory : TraceDecoder.Memory A) σ r σ' :
  TraceDecoder.decode_token self token state memory σ = (r, σ') ->
  exists r1, TraceDecoder.advance_grids self token state σ = (r1, σ') /\
    forall state' logits, r = Ok (state', logits) ->
      exists grid_embed,
        r1 = Ok (TraceDecoderState.field state', grid_embed).
Proof.
  unfold TraceDecoder.decode_token, Store.bind. intros H.
  destruct (TraceDecoder.advance_grids self token state σ)
    as [[[fields ge] | e] σ1] eqn:E.
  - unfold Store.lift, Store.ret in H.
    destruct (TraceDecoder.decode_step self token ge (TraceDecoder.value memory)
                (TraceDecoderState.h state) (TraceDecoderState.c state))
      as [[[h' c'] lg] | e]; injection H as <- <-.
    + eexists. split; [reflexivity |]. intros state' logits Hr.
      injection Hr as <- _. exists ge. reflexivity.
    + eexists. split; [reflexivity |]. intros state' logits Hr. discriminate.
  - injection H as <- <-. eexists. split; [reflexivity |].
    intros state' logits Hr. discriminate.
Qed.


(** The world step does not raise on tokens of the vocabulary. *)
Lemma advance_beams_total (self : TraceDecoder.t A) (l : loc) (m : nat) :
  forall (token : list Z) (i0 : nat) σ,
    (forall a, a ∈ token -> (a <= 6)%Z) ->
    exists σ',
      TraceDecoder.advance_beams self l (zip (seq i0 m) token) σ = (Ok tt, σ').
Proof.
  induction m as [| m IH]; intros token i0 σ Htok.
  - eexists. reflexivity.
  - destruct token as [| a token]; [eexists; reflexivity |].
    cbn [seq zip zip_with TraceDecoder.advance_beams].
    assert (Htok' : forall b, b ∈ token -> (b <= 6)%Z)
      by (intros b Hb; apply Htok; right; exact Hb).
    assert (Ha : (a <= 6)%Z) by (apply Htok; left).
    unfold Store.bind at 1. unfold TraceDecoder.advance_beam.
    destruct (a <? 2)%Z eqn:Ea.
    + cbn. apply IH, Htok'.
    + apply Z.ltb_ge in Ea.
      assert (Hname : exists name, id_to_action !! a = Some name).
      { assert (a = 2 \/ a = 3 \/ a = 4 \/ a = 5 \/ a = 6)%Z as Hc by lia.
        repeat destruct Hc as [-> | Hc]; try subst a; eexists; reflexivity. }
      destruct Hname as (name & Hname).
      unfold Store.bind, Store.lift, Store.read, Store.write.
      rewrite Hname. apply IH, Htok'.
Qed.

End DecodeTokenFacts.

(** C4, as stated, fails without a grid encoder: the state [decode_token]
    returns holds the very array of the input state.  The decoder is the one
    the constructor builds for [karel_trace_grid_enc = 'none']. *)
Lemma decode_token_without_grid_encoder_shares_the_field :
  TraceDecoder.__init__ Examples.trace_weights
    (Examples.trace_enc_args "none" "none" "emb")
    = Ok (Examples.trace_decoder None) /\
  exists state' logits σ',
    TraceDecoder.decode_token (Examples.trace_decoder None) [2; 0; 3]
      Examples.trace_state Examples.trace_memory_value Examples.trace_store
    = (Ok (state', logits), σ') /\
    TraceDecoderState.field state'
    = TraceDecoderState.field Examples.trace_state.
Proof.
  split; [reflexivity |].
  eexists _, _, _. split; [vm_compute; reflexivity |]. reflexivity.
Qed.

(** C4, amended.  [decode_token] leaves every array of the store it is
    called in as it was, the field array of the input state among them, also
    when a beam's action changes the world and also when the call raises.
    With a grid encoder the field array of the returned state is a new
    array, at a location the store did not have; without one the returned
    state holds the input state's own array, and the store is unchanged. *)
Theorem decode_token_replaces_the_state {A : Type} (self : TraceDecoder.t A)
  (token : list Z) (state : TraceDecoderState.t A)
  (memory : TraceDecoder.Memory A) (σ σ' : gmap loc (tensor A))
  (outcome : result (TraceDecoderState.t A * tensor A)) :
  TraceDecoder.decode_token self token state memory σ = (outcome, σ') ->
  (forall l, l ∈ dom σ -> σ' !! l = σ !! l) /\
  (forall state' logits, outcome = Ok (state', logits) ->
     match TraceDecoder.grid_encoder self with
     | Some _ =>
         (TraceDecoderState.field state' ∉ dom σ) /\
         (TraceDecoderState.field state ∈ dom σ ->
          TraceDecoderState.field state' <> TraceDecoderState.field state)
     | None =>
         TraceDecoderState.field state' = TraceDecoderState.field state /\
         σ' = σ
     end).
Proof.
  intros H. apply decode_token_inv in H as (r1 & Hgrids & Hok).
  apply advance_grids_frame in Hgrids as (Hframe & Hfields).
  split; [exact Hframe |].
  intros state' logits Hout. destruct (Hok _ _ Hout) as (ge & ->).
  specialize (Hfields _ _ eq_refl).
  destruct (TraceDecoder.grid_encoder self).
  - rewrite Hfields. split; [apply is_fresh |].
    intros Hin Heq. rewrite <- Heq in Hin. exact (is_fresh _ Hin).
  - exact Hfields.
Qed.

Lemma decode_token_replaces_the_state_witness :
  (forall l, l ∈ dom Examples.trace_store ->
     snd (TraceDecoder.decode_token
            (Examples.trace_decoder (Some LGRLGridEncoder)) [2; 0; 3]
            Examples.trace_state Examples.trace_memory_value
            Examples.trace_store) !! l
     = Examples.trace_store !! l) /\
  exists state' logits,
    fst (TraceDecoder.decode_token
           (Examples.trace_decoder (Some LGRLGridEncoder)) [2; 0; 3]
           Examples.trace_state Examples.trace_memory_value
           Examples.trace_store) = Ok (state', logits) /\
    (TraceDecoderState.field state' ∉ dom Examples.trace_store) /\
    TraceDecoderState.field state'
    <> TraceDecoderState.field Examples.trace_state.
Proof.
  pose proof (decode_token_replaces_the_state
                (Examples.trace_decoder (Some LGRLGridEncoder)) [2; 0; 3]
                Examples.trace_state Examples.trace_memory_value
                Examples.trace_store _ _ (surjective_pairing _))
    as [Hframe Hfresh].
  split; [exact Hframe |].
  assert (Hr : exists state' logits,
             fst (TraceDecoder.decode_token
                    (Examples.trace_decoder (Some LGRLGridEncoder)) [2; 0; 3]
                    Examples.trace_state Examples.trace_memory_value
                    Examples.trace_store) = Ok (state', logits))
    by (eexists _, _; vm_compute; reflexivity).
  destruct Hr as (state' & logits & Hr).
  exists state', logits. split; [exact Hr |].
  destruct (Hfresh state' logits Hr) as [H1 H2].
  split; [exact H1 |]. apply H2. vm_compute. reflexivity.
Defined.


(** C3, as stated, fails without a grid encoder: the beam whose token is
    [move] keeps its grid, although one application of the action changes
    it. *)
Lemma decode_token_without_grid_encoder_skips_the_world_step :
  TraceDecoder.__init__ Examples.trace_weights
    (Examples.trace_enc_args "none" "none" "emb")
    = Ok (Examples.trace_decoder None) /\
  exists state' logits σ',
    TraceDecoder.decode_token (Examples.trace_decoder None) [2; 0; 3]
      Examples.trace_state Examples.trace_memory_value Examples.trace_store
    = (Ok (state', logits), σ') /\
    row (σ' !!! TraceDecoderState.field state') 0 = [10; 11] /\
    data (Examples.toy_runtime "move"
            (get_row (Examples.trace_store
                        !!! TraceDecoderState.field Examples.trace_state) 0))
    = [11; 12].
Proof.
  split; [reflexivity |].
  eexists _, _, _. split; [vm_compute; reflexivity |].
  split; vm_compute; reflexivity.
Qed.

(** C3, amended.  Let the field array of the input state have [n] beams and
    let the runtime update arrays in place.  With a grid encoder, the field
    array of the returned state has, for every beam [j], the row of the
    input state unchanged when the beam's token is below 2 ([<s>], [</s>])
    or missing, and otherwise the runtime's result of the token's action on
    that row; the call returns whenever every token is at most 6 and the
    layers do.  Without a grid encoder the returned state holds the input
    array itself and no beam is advanced, whatever its token. *)
Theorem decode_token_world_step {A : Type} (self : TraceDecoder.t A)
  (token : list Z) (state : TraceDecoderState.t A)
  (memory : TraceDecoder.Memory A) (σ : gmap loc (tensor A))
  (arr : tensor A) (n : nat) (rest : list nat) :
  (forall (name : string) (field : tensor A),
     length (data (TraceDecoder.karel_runtime (TraceDecoder.weights self)
                     name field)) = length (data field)) ->
  σ !! TraceDecoderState.field state = Some arr ->
  shape arr = n :: rest -> wf arr ->
  ((forall a, a ∈ token -> a <= 6) ->
   match TraceDecoder.grid_encoder self with
   | Some _ =>
       forall fields, shape fields = shape arr ->
         is_ok (grid_embed ← TraceDecoder.grid_encoder_fn
                               (TraceDecoder.weights self) fields;
                TraceDecoder.decode_step self token (Some grid_embed)
                  (TraceDecoder.value memory) (TraceDecoderState.h state)
                  (TraceDecoderState.c state))
   | None =>
       is_ok (TraceDecoder.decode_step self token None
                (TraceDecoder.value memory) (TraceDecoderState.h state)
                (TraceDecoderState.c state))
   end ->
   is_ok (fst (TraceDecoder.decode_token self token state memory σ))) /\
  (forall state' logits σ',
     TraceDecoder.decode_token self token state memory σ
     = (Ok (state', logits), σ') ->
     match TraceDecoder.grid_encoder self with
     | Some _ =>
         exists arr',
           σ' !! TraceDecoderState.field state' = Some arr' /\
           shape arr' = shape arr /\
           forall j, (j < n)%nat ->
             TraceDecoder.beam_advanced self arr arr' j (token !! j)
     | None => σ' !! TraceDecoderState.field state' = Some arr
     end).
Proof.
  intros Hkr Hl Hs Hwf. split.
  - intros Htok Hnum.
    assert (Hg : exists fields ge σ1,
               TraceDecoder.advance_grids self token state σ
               = (Ok (fields, ge), σ1) /\
               is_ok (TraceDecoder.decode_step self token ge
                        (TraceDecoder.value memory) (TraceDecoderState.h state)
                        (TraceDecoderState.c state))).
    { unfold TraceDecoder.advance_grids. revert Hnum.
      destruct (TraceDecoder.grid_encoder self) as [enc |]; intros Hnum;
        [| eexists _, _, _; split; [reflexivity | exact Hnum]].
      erewrite store_bind_eq by reflexivity.
      erewrite store_bind_eq by reflexivity.
      rewrite (lookup_total_correct _ _ _ Hl), Hs.
      destruct (advance_beams_total self (fresh (dom σ)) n token 0%nat
                  (<[fresh (dom σ) := arr]> σ) Htok) as (σ1 & Hadv).
      erewrite store_bind_eq by exact Hadv.
      erewrite store_bind_eq by reflexivity.
      cbv beta.
      destruct (advance_beams_rows self (fresh (dom σ)) n rest Hkr n token
                  0%nat arr _ _ (lookup_insert_eq _ _ _) Hs Hwf
                  ltac:(lia) Hadv)
        as (arr' & -> & Hs' & _).
      rewrite lookup_total_insert_eq.
      specialize (Hnum arr' ltac:(congruence)).
      destruct (TraceDecoder.grid_encoder_fn (TraceDecoder.weights self)
                  arr') as [ge |] eqn:Ege; [| contradiction].
      erewrite store_bind_eq by reflexivity.
      eexists _, _, _. split; [reflexivity | exact Hnum]. }
    destruct Hg as (fields & ge & σ1 & Hg & Hstep).
    unfold TraceDecoder.decode_token.
    erewrite store_bind_eq by exact Hg.
    destruct (TraceDecoder.decode_step self token ge
                (TraceDecoder.value memory) (TraceDecoderState.h state)
                (TraceDecoderState.c state)) as [[[h' c'] lg] |] eqn:Estep;
      [| contradiction].
    cbv beta iota.
    erewrite store_bind_eq by (unfold Store.lift; rewrite Estep; reflexivity).
    exact I.
  - intros state' logits σ' H.
    apply decode_token_inv in H as (r1 & Hgrids & Hok).
    destruct (Hok _ _ eq_refl) as (ge & ->). clear Hok.
    unfold TraceDecoder.advance_grids in Hgrids.
    destruct (TraceDecoder.grid_encoder self) as [enc |].
    + apply store_bind_Ok in Hgrids as (arr0 & σ0 & Hread & Hgrids).
      unfold Store.read in Hread. injection Hread as <- <-.
      rewrite (lookup_total_correct _ _ _ Hl) in Hgrids.
      apply store_bind_Ok in Hgrids as (l & σ1 & Halloc & Hgrids).
      unfold Store.alloc in Halloc. injection Halloc as <- <-.
      apply store_bind_Ok in Hgrids as ([] & σ2 & Hadv & Hgrids).
      rewrite Hs in Hadv.
      apply store_bind_Ok in Hgrids as (fields_t & σ3 & Hread & Hgrids).
      unfold Store.read in Hread. injection Hread as <- <-.
      apply store_bind_Ok in Hgrids as (ge' & σ4 & Hlift & Hgrids).
      unfold Store.lift in Hlift. injection Hlift as _ <-.
      unfold Store.ret in Hgrids. injection Hgrids as <- _ <-.
      destruct (advance_beams_rows self (fresh (dom σ)) n rest Hkr n token
                  0%nat arr _ _ (lookup_insert_eq _ _ _) Hs Hwf
                  ltac:(lia) Hadv)
        as (arr' & -> & Hs' & _ & _ & Hin).
      exists arr'. split; [apply lookup_insert_eq |].
      split; [congruence |]. intros j Hj. apply (Hin j Hj).
    + unfold Store.ret in Hgrids. injection Hgrids as Hf _ Hσ.
      rewrite <- Hf, <- Hσ. exact Hl.
Qed.

Lemma toy_runtime_in_place (name : string) (field : tensor Z) :
  length (data (Examples.toy_runtime name field)) = length (data field).
Proof.
  unfold Examples.toy_runtime.
  destruct (String.eqb name "move"); [apply length_map |].
  destruct (String.eqb name "turnLeft"); [apply length_map | reflexivity].
Qed.

Lemma decode_token_world_step_witness :
  is_ok (fst (TraceDecoder.decode_token
                (Examples.trace_decoder (Some LGRLGridEncoder)) [2; 0; 3]
                Examples.trace_state Examples.trace_memory_value
                Examples.trace_store)) /\
  exists state' logits σ' arr',
    TraceDecoder.decode_token
      (Examples.trace_decoder (Some LGRLGridEncoder)) [2; 0; 3]
      Examples.trace_state Examples.trace_memory_value Examples.trace_store
    = (Ok (state', logits), σ') /\
    σ' !! TraceDecoderState.field state' = Some arr' /\
    shape arr' = [3; 2]%nat /\
    forall j, (j < 3)%nat ->
      TraceDecoder.beam_advanced
        (Examples.trace_decoder (Some LGRLGridEncoder))
        (Tensor [3; 2]%nat [10; 11; 20; 21; 30; 31]) arr' j
        ([2; 0; 3] !! j).
Proof.
  destruct (decode_token_world_step
              (Examples.trace_decoder (Some LGRLGridEncoder)) [2; 0; 3]
              Examples.trace_state Examples.trace_memory_value
              Examples.trace_store
              (Tensor [3; 2]%nat [10; 11; 20; 21; 30; 31]) 3%nat [2%nat]
              toy_runtime_in_place eq_refl eq_refl eq_refl)
    as [Hret Hrows].
  split.
  - apply Hret.
    + intros a Ha. repeat (apply elem_of_cons in Ha as [-> | Ha]); try lia.
      inversion Ha.
    + intros [s d] Hs. cbn [shape] in Hs. subst s. exact I.
  - assert (Hr : exists state' logits σ',
               TraceDecoder.decode_token
                 (Examples.trace_decoder (Some LGRLGridEncoder)) [2; 0; 3]
                 Examples.trace_state Examples.trace_memory_value
                 Examples.trace_store = (Ok (state', logits), σ'))
      by (eexists _, _, _; vm_compute; reflexivity).
    destruct Hr as (state' & logits & σ' & Hr).
    destruct (Hrows state' logits σ' Hr) as (arr' & H1 & H2 & H3).
    exists state', logits, σ', arr'. auto.
Defined.

(** ** Slicing and gathering *)

Section SliceFacts.
Context {A : Type}.
Local Close Scope string_scope.
Local Open Scope nat_scope.

Lemma chunk_take (sz j m : nat) (l : list A) :
  j < m -> chunk sz j (take (m * sz) l) = chunk sz j l.
Proof.
  intros Hj. unfold chunk.
  rewrite (take_drop_commute (take _ l)), take_take.
  rewrite (take_drop_commute l). f_equal. f_equal. nia.
Qed.

Lemma chunk_drop (sz j o : nat) (l : list A) :
  chunk sz j (drop (o * sz) l) = chunk sz (o + j) l.
Proof.
  unfold chunk. rewrite drop_drop. f_equal. f_equal. lia.
Qed.

Lemma slice_stop_in_range (n : nat) (k : Z) :
  (0 <= k <= Z.of_nat n)%Z -> slice_stop n k = Z.to_nat k.
Proof.
  intros Hk. unfold slice_stop.
  destruct (Z.ltb_spec k 0); [lia |]. f_equal. lia.
Qed.

(** [t[:k]] keeps the first [k] rows. *)
Lemma slice0_rows (t : tensor A) (n : nat) (rest : list nat) (k : Z) :
  shape t = n :: rest -> wf t -> (0 <= k <= Z.of_nat n)%Z ->
  exists t',
    slice0 t k = Ok t' /\ shape t' = Z.to_nat k :: rest /\ wf t' /\
    forall j, j < Z.to_nat k -> row t' j = row t j.
Proof.
  intros Hs Hwf Hk. unfold slice0. rewrite Hs.
  rewrite slice_stop_in_range by exact Hk.
  eexists. split; [reflexivity |]. split; [reflexivity |].
  unfold wf in *. rewrite Hs in Hwf. rewrite numel_cons in Hwf.
  split.
  - cbn [shape data]. rewrite numel_cons, length_take. nia.
  - intros j Hj. unfold row. cbn [shape data tail]. rewrite Hs. cbn [tail].
    apply chunk_take, Hj.
Qed.

(** [t[:, :k]] keeps the first [k] rows of every block of axis 0. *)
Lemma slice1_rows (t : tensor A) (n0 n1 : nat) (rest : list nat) (k : Z) :
  shape t = n0 :: n1 :: rest -> wf t -> (0 <= k <= Z.of_nat n1)%Z ->
  exists t',
    slice1 t k = Ok t' /\ shape t' = n0 :: Z.to_nat k :: rest /\ wf t' /\
    forall l j, l < n0 -> j < Z.to_nat k -> row1 t' l j = row1 t l j.
Proof.
  intros Hs Hwf Hk. unfold slice1. rewrite Hs.
  rewrite slice_stop_in_range by exact Hk.
  set (m := Z.to_nat k). set (sz := numel rest).
  assert (Hm : m <= n1) by (unfold m; lia).
  unfold wf in Hwf. rewrite Hs, !numel_cons in Hwf. fold sz in Hwf.
  set (block := fun l => take (m * sz) (drop (l * (n1 * sz)) (data t))).
  assert (Hall : Forall (fun b => length b = m * sz) (map block (seq 0 n0))).
  { apply Forall_forall. intros b Hb. apply list_elem_of_In in Hb.
    apply in_map_iff in Hb as (l & <- & Hl). apply in_seq in Hl.
    unfold block. rewrite length_take, length_drop.
    assert ((l + 1) * (n1 * sz) <= n0 * (n1 * sz))
      by (apply Nat.mul_le_mono_r; lia).
    assert (m * sz <= n1 * sz) by (apply Nat.mul_le_mono_r; lia).
    lia. }
  eexists. split; [reflexivity |]. split; [reflexivity |]. split.
  - unfold wf. cbn [shape data]. rewrite !numel_cons. fold sz.
    rewrite (length_concat_uniform (m * sz)) by exact Hall.
    rewrite length_map, length_seq. lia.
  - intros l j Hl Hj. unfold row1. cbn [shape data drop]. rewrite Hs.
    cbn [drop dim nth]. fold sz. fold block.
    rewrite <- (chunk_chunk sz m l j) by exact Hj.
    rewrite (chunk_concat (m * sz) _ l (block l)); [| exact Hall |].
    + unfold block. rewrite chunk_take by exact Hj.
      replace (l * (n1 * sz)) with (l * n1 * sz) by lia.
      rewrite chunk_drop. reflexivity.
    + change (map block (seq 0 n0)) with (block <$> seq 0 n0).
      rewrite list_lookup_fmap, lookup_seq_lt by exact Hl. reflexivity.
Qed.


Lemma norm_index_in_range (n : nat) (i : Z) :
  (0 <= i < Z.of_nat n)%Z -> norm_index n i = Ok (Z.to_nat i).
Proof.
  intros Hi. unfold norm_index.
  destruct (Z.leb_spec 0 i); [| lia].
  destruct (Z.ltb_spec i (Z.of_nat n)); [| lia]. reflexivity.
Qed.

Lemma traverse_offsets (n0 n1 : nat) (ix : list (Z * Z)) :
  in_range n0 n1 ix ->
  traverse (fun '(i0, i1) =>
              k0 ← norm_index n0 i0; k1 ← norm_index n1 i1; Ok (k0 * n1 + k1))
    ix
  = Ok (map (offset_of n1) ix).
Proof.
  induction 1 as [| [i0 i1] ix [H0 H1] _ IH]; [reflexivity |].
  cbn [traverse]. cbn [fst snd] in H0, H1.
  rewrite !norm_index_in_range by assumption.
  cbn [mbind result_bind Py.bind]. rewrite IH. reflexivity.
Qed.

Lemma offset_of_bound (n0 n1 : nat) (p : Z * Z) :
  (0 <= fst p < Z.of_nat n0)%Z -> (0 <= snd p < Z.of_nat n1)%Z ->
  offset_of n1 p < n0 * n1.
Proof. intros H0 H1. unfold offset_of. nia. Qed.

(** [t[i0, i1]]: entry [j] is the block at ([i0[j]], [i1[j]]). *)
Lemma index_tuple0_rows (t : tensor A) (n0 n1 : nat) (rest : list nat)
  (ix : list (Z * Z)) :
  shape t = n0 :: n1 :: rest -> wf t -> in_range n0 n1 ix ->
  exists r,
    index_tuple 0 t ix = Ok r /\ shape r = length ix :: rest /\ wf r /\
    forall j p, ix !! j = Some p ->
      row r j = chunk (numel rest) (offset_of n1 p) (data t).
Proof.
  intros Hs Hwf Hix. unfold index_tuple. rewrite Hs. cbn [drop take].
  rewrite (traverse_offsets n0 n1 ix Hix).
  cbn [mbind result_bind Py.bind app]. rewrite numel_nil. cbn [seq map concat].
  rewrite app_nil_r.
  set (g := fun k => chunk (numel rest) (0 * (n0 * n1) + k) (data t)).
  unfold wf in Hwf. rewrite Hs, !numel_cons in Hwf.
  assert (Hall : Forall (fun b => length b = numel rest)
                   (map g (map (offset_of n1) ix))).
  { apply Forall_forall. intros b Hb. apply list_elem_of_In in Hb.
    apply in_map_iff in Hb as (k & <- & Hk).
    apply in_map_iff in Hk as (p & <- & Hp).
    apply list_elem_of_In in Hp.
    unfold in_range in Hix. rewrite Forall_forall in Hix.
    destruct (Hix p Hp) as [H0 H1].
    pose proof (offset_of_bound n0 n1 p H0 H1) as Hb.
    unfold g. apply length_chunk. rewrite Hwf. nia. }
  eexists. split; [reflexivity |]. split; [reflexivity |]. split.
  - unfold wf. cbn [shape data]. rewrite numel_cons.
    rewrite (length_concat_uniform (numel rest)) by exact Hall.
    rewrite !length_map. reflexivity.
  - intros j p Hj. unfold row. cbn [shape data tail].
    rewrite (chunk_concat (numel rest) _ j (g (offset_of n1 p)));
      [reflexivity | exact Hall |].
    change (map g (map (offset_of n1) ix))
      with (g <$> (offset_of n1 <$> ix)).
    rewrite !list_lookup_fmap, Hj. reflexivity.
Qed.

(** [t[:, i0, i1]]: in every block of axis 0, entry [j] is the block at
    ([i0[j]], [i1[j]]). *)
Lemma index_tuple1_rows (t : tensor A) (n n0 n1 : nat) (rest : list nat)
  (ix : list (Z * Z)) :
  shape t = n :: n0 :: n1 :: rest -> wf t -> in_range n0 n1 ix ->
  exists r,
    index_tuple 1 t ix = Ok r /\ shape r = n :: length ix :: rest /\ wf r /\
    forall l j p, l < n -> ix !! j = Some p ->
      row1 r l j
      = chunk (numel rest) (l * (n0 * n1) + offset_of n1 p) (data t).
Proof.
  intros Hs Hwf Hix. unfold index_tuple. rewrite Hs. cbn [drop take].
  rewrite (traverse_offsets n0 n1 ix Hix).
  cbn [mbind result_bind Py.bind app]. rewrite numel_cons, numel_nil, Nat.mul_1_r.
  set (sz := numel rest).
  set (g := fun l k => chunk sz (l * (n0 * n1) + k) (data t)).
  set (block := fun l => concat (map (g l) (map (offset_of n1) ix))).
  unfold wf in Hwf. rewrite Hs, !numel_cons in Hwf. fold sz in Hwf.
  assert (Hinner : forall l, l < n ->
            Forall (fun b => length b = sz)
              (map (g l) (map (offset_of n1) ix))).
  { intros l Hl. apply Forall_forall. intros b Hb. apply list_elem_of_In in Hb.
    apply in_map_iff in Hb as (k & <- & Hk).
    apply in_map_iff in Hk as (p & <- & Hp).
    apply list_elem_of_In in Hp.
    unfold in_range in Hix. rewrite Forall_forall in Hix.
    destruct (Hix p Hp) as [H0 H1].
    pose proof (offset_of_bound n0 n1 p H0 H1) as Hb.
    unfold g. apply length_chunk. rewrite Hwf.
    assert ((l + 1) * (n0 * n1) <= n * (n0 * n1))
      by (apply Nat.mul_le_mono_r; lia).
    replace (n * (n0 * (n1 * sz))) with (n * (n0 * n1) * sz) by lia.
    apply Nat.mul_le_mono_r. lia. }
  assert (Hall : Forall (fun b => length b = length ix * sz)
                   (map block (seq 0 n))).
  { apply Forall_forall. intros b Hb. apply list_elem_of_In in Hb.
    apply in_map_iff in Hb as (l & <- & Hl). apply in_seq in Hl.
    unfold block. rewrite (length_concat_uniform sz) by (apply Hinner; lia).
    rewrite !length_map. reflexivity. }
  eexists. split; [reflexivity |]. split; [reflexivity |]. split.
  - unfold wf. cbn [shape data]. rewrite !numel_cons. fold sz.
    rewrite (length_concat_uniform (length ix * sz)) by exact Hall.
    rewrite length_map, length_seq. reflexivity.
  - intros l j p Hl Hj. unfold row1. cbn [shape data drop dim nth]. fold sz.
    assert (Hjlt : j < length ix) by (eapply lookup_lt_Some; exact Hj).
    rewrite <- (chunk_chunk sz (length ix) l j) by exact Hjlt.
    rewrite (chunk_concat (length ix * sz) _ l (block l)); [| exact Hall |].
    + unfold block.
      rewrite (chunk_concat sz _ j (g l (offset_of n1 p)));
        [reflexivity | apply Hinner, Hl |].
      change (map (g l) (map (offset_of n1) ix))
        with (g l <$> (offset_of n1 <$> ix)).
      rewrite !list_lookup_fmap, Hj. reflexivity.
    + change (map block (seq 0 n)) with (block <$> seq 0 n).
      rewrite list_lookup_fmap, lookup_seq_lt by exact Hl. reflexivity.
Qed.

End SliceFacts.

(** ** Truncating and selecting beam states *)

Section BeamFacts.
Context {A : Type}.
Local Close Scope string_scope.
Local Open Scope nat_scope.

Lemma reshape_hole (t : tensor A) (pre post : list nat) :
  numel pre * numel post <> 0 ->
  numel (shape t) mod (numel pre * numel post) = 0 ->
  Tensor.reshape t (map Z.of_nat pre ++ (-1)%Z :: map Z.of_nat post)
  = Ok (Tensor (pre ++ numel (shape t) / (numel pre * numel post) :: post)
          (data t)).
Proof.
  intros Hk Hm. unfold Tensor.reshape. rewrite infer_shape_hole by assumption.
  reflexivity.
Qed.

(** The example-major view [B x W x rest] of [B * W] rows. *)
Lemma beams_quotient (pre B W r : nat) :
  1 <= pre -> 1 <= B -> 1 <= r ->
  pre * (B * 1) * r <> 0 /\
  (pre * (B * W * r)) mod (pre * (B * 1) * r) = 0 /\
  (pre * (B * W * r)) / (pre * (B * 1) * r) = W.
Proof.
  intros Hp HB Hr.
  assert (Hk : pre * (B * 1) * r <> 0) by nia.
  replace (pre * (B * W * r)) with (W * (pre * (B * 1) * r)) by lia.
  split; [exact Hk |]. split.
  - apply Nat.Div0.mod_mul.
  - apply Nat.div_mul, Hk.
Qed.


(** Both [view] and [reshape] to [pre x B x -1 x rest] of a tensor of shape
    [pre x (B * W) x rest] give the shape [pre x B x W x rest] over the same
    elements. *)
Lemma view_beams (t : tensor A) (pre : list nat) (B W : nat) (rest : list nat) :
  shape t = pre ++ B * W :: rest -> 1 <= numel pre -> 1 <= B ->
  1 <= numel rest ->
  view t (map Z.of_nat pre ++ Z.of_nat B :: (-1)%Z :: map Z.of_nat rest)
  = Ok (Tensor (pre ++ B :: W :: rest) (data t)) /\
  Tensor.reshape t
    (map Z.of_nat pre ++ Z.of_nat B :: (-1)%Z :: map Z.of_nat rest)
  = Ok (Tensor (pre ++ B :: W :: rest) (data t)).
Proof.
  intros Hs Hp HB Hr.
  replace (map Z.of_nat pre ++ Z.of_nat B :: (-1)%Z :: map Z.of_nat rest)
    with (map Z.of_nat (pre ++ [B]) ++ (-1)%Z :: map Z.of_nat rest)
    by (rewrite map_app, <- app_assoc; reflexivity).
  destruct (beams_quotient (numel pre) B W (numel rest) Hp HB Hr)
    as (Hk & Hm & Hq).
  assert (Hn : numel (shape t) = numel pre * (B * W * numel rest))
    by (rewrite Hs, numel_app, numel_cons; lia).
  assert (Hpre : numel (pre ++ [B]) = numel pre * (B * 1))
    by (rewrite numel_app, numel_cons, numel_nil; reflexivity).
  rewrite view_hole, reshape_hole; rewrite ?Hpre, ?Hn; try assumption.
  rewrite Hq, <- app_assoc. split; reflexivity.
Qed.

End BeamFacts.


(** X1.  [State.truncate] of a state with a context keeps the first [k] rows of
    every field and carries [pairs_per_example]. *)
Theorem truncate_keeps_the_first_rows {A : Type}
  (s : LatePoolingCodeDecoder.State A) (ctx : tensor A) (n layers : nat)
  (rest_ctx rest_h rest_c : list nat) (k : Z) :
  LatePoolingCodeDecoder.context s = Some ctx ->
  shape ctx = n :: rest_ctx -> wf ctx ->
  shape (LatePoolingCodeDecoder.h s) = layers :: n :: rest_h ->
  wf (LatePoolingCodeDecoder.h s) ->
  shape (LatePoolingCodeDecoder.c s) = layers :: n :: rest_c ->
  wf (LatePoolingCodeDecoder.c s) ->
  0 <= k <= Z.of_nat n ->
  exists s' ctx',
    LatePoolingCodeDecoder.truncate s k = Ok s' /\
    LatePoolingCodeDecoder.pairs_per_example s'
    = LatePoolingCodeDecoder.pairs_per_example s /\
    LatePoolingCodeDecoder.context s' = Some ctx' /\
    shape ctx' = Z.to_nat k :: rest_ctx /\
    shape (LatePoolingCodeDecoder.h s') = layers :: Z.to_nat k :: rest_h /\
    shape (LatePoolingCodeDecoder.c s') = layers :: Z.to_nat k :: rest_c /\
    (forall j, (j < Z.to_nat k)%nat -> row ctx' j = row ctx j) /\
    (forall l j, (l < layers)%nat -> (j < Z.to_nat k)%nat ->
       row1 (LatePoolingCodeDecoder.h s') l j
       = row1 (LatePoolingCodeDecoder.h s) l j /\
       row1 (LatePoolingCodeDecoder.c s') l j
       = row1 (LatePoolingCodeDecoder.c s) l j).
Proof.
  intros Hctx Hsc Hwc Hsh Hwh Hscc Hwcc Hk.
  destruct (slice0_rows ctx n rest_ctx k Hsc Hwc Hk)
    as (ctx' & E0 & S0 & _ & R0).
  destruct (slice1_rows _ layers n rest_h k Hsh Hwh Hk)
    as (h' & E1 & S1 & _ & R1).
  destruct (slice1_rows _ layers n rest_c k Hscc Hwcc Hk)
    as (c' & E2 & S2 & _ & R2).
  unfold LatePoolingCodeDecoder.truncate. rewrite Hctx, E0, E1, E2.
  eexists _, ctx'. split; [reflexivity |]. cbn.
  repeat (split; [solve [reflexivity | assumption] |]).
  intros l j Hl Hj. split; [apply R1 | apply R2]; assumption.
Qed.

Lemma truncate_keeps_the_first_rows_witness :
  exists s' ctx',
    LatePoolingCodeDecoder.truncate Examples.beam_state 3 = Ok s' /\
    LatePoolingCodeDecoder.pairs_per_example s' = 1 /\
    LatePoolingCodeDecoder.context s' = Some ctx' /\
    shape ctx' = [3; 1; 512]%nat /\
    shape (LatePoolingCodeDecoder.h s') = [2; 3; 1; 256]%nat /\
    shape (LatePoolingCodeDecoder.c s') = [2; 3; 1; 256]%nat.
Proof.
  destruct (truncate_keeps_the_first_rows Examples.beam_state
              (Tensor [4; 1; 512]%nat (map Z.of_nat (seq 0 (4 * 512))))
              4%nat 2%nat [1; 512]%nat [1; 256]%nat [1; 256]%nat 3
              eq_refl eq_refl eq_refl eq_refl eq_refl eq_refl eq_refl
              ltac:(lia))
    as (s' & ctx' & H1 & H2 & H3 & H4 & H5 & H6 & _).
  exists s', ctx'.
  split; [exact H1 |]. split; [exact H2 |]. split; [exact H3 |].
  split; [exact H4 |]. split; [exact H5 | exact H6].
Defined.


Section GatherFacts.
Context {A : Type}.
Local Open Scope nat_scope.

(** The gather of [select_for_beams] on a field of [B * W] rows:
    [t.reshape(B, -1, rest...)[i0, i1]]. *)
Lemma gather_field (t : tensor A) (B W : nat) (rest : list nat)
  (ix : list (Z * Z)) :
  shape t = B * W :: rest -> wf t -> 1 <= B -> 1 <= numel rest ->
  in_range B W ix ->
  exists r,
    (v ← Tensor.reshape t (Z.of_nat B :: (-1)%Z :: map Z.of_nat (tail (shape t)));
     index_tuple 0 v ix) = Ok r /\
    (v ← view t (Z.of_nat B :: (-1)%Z :: map Z.of_nat (tail (shape t)));
     index_tuple 0 v ix) = Ok r /\
    shape r = length ix :: rest /\ wf r /\
    forall j p, ix !! j = Some p -> row r j = row t (offset_of W p).
Proof.
  intros Hs Hwf HB Hr Hix.
  destruct (view_beams t [] B W rest Hs ltac:(rewrite numel_nil; lia) HB Hr)
    as [Hview Hreshape].
  cbn [map app] in Hview, Hreshape. rewrite Hs. cbn [tail].
  rewrite Hview, Hreshape. cbn [mbind result_bind Py.bind].
  destruct (index_tuple0_rows (Tensor (B :: W :: rest) (data t)) B W rest ix
              eq_refl) as (r & E & S & Wr & R).
  { unfold wf in *. cbn [shape data]. rewrite Hwf, Hs, !numel_cons. lia. }
  { exact Hix. }
  exists r. split; [exact E |]. split; [exact E |]. split; [exact S |].
  split; [exact Wr |].
  intros j p Hj. rewrite (R j p Hj). unfold row. rewrite Hs. reflexivity.
Qed.

(** The gather of [select_for_beams] on a recurrent state of 2 layers and
    [B * W] rows: [v.view(2, B, -1, rest...)[:, i0, i1]]. *)
Lemma gather_layers (t : tensor A) (B W : nat) (rest : list nat)
  (ix : list (Z * Z)) :
  shape t = 2 :: B * W :: rest -> wf t -> 1 <= B -> 1 <= numel rest ->
  in_range B W ix ->
  exists r,
    (v ← view t (2%Z :: Z.of_nat B :: (-1)%Z
                   :: map Z.of_nat (drop 2 (shape t)));
     index_tuple 1 v ix) = Ok r /\
    shape r = 2 :: length ix :: rest /\ wf r /\
    forall l j p, l < 2 -> ix !! j = Some p ->
      row1 r l j = row1 t l (offset_of W p).
Proof.
  intros Hs Hwf HB Hr Hix.
  destruct (view_beams t [2] B W rest Hs
              ltac:(rewrite numel_cons, numel_nil; lia) HB Hr)
    as [Hview _].
  cbn [map app] in Hview. rewrite Hs. cbn [drop].
  change (Z.of_nat 2) with 2%Z in Hview. rewrite drop_0.
  rewrite Hview. cbn [mbind result_bind Py.bind].
  destruct (index_tuple1_rows (Tensor (2 :: B :: W :: rest) (data t))
              2 B W rest ix eq_refl) as (r & E & S & Wr & R).
  { unfold wf in *. cbn [shape data]. rewrite Hwf, Hs, !numel_cons. lia. }
  { exact Hix. }
  exists r. split; [exact E |]. split; [exact S |]. split; [exact Wr |].
  intros l j p Hl Hj. rewrite (R l j p Hl Hj). unfold row1. rewrite Hs.
  cbn [drop dim nth data]. reflexivity.
Qed.

End GatherFacts.

(** X2.  [TraceDecoderState.select_for_beams] on a state of [B * W] rows, for
    indices that name examples below [B] and beams below [W]: every field
    comes back with one row per index column, in the order of the columns,
    row [j] equal to the source row at (example, beam) in the example-major
    order; the field array is a new array of the store. *)
Theorem trace_state_select_for_beams {A : Type}
  (self : TraceDecoderState.t A) (σ : gmap loc (tensor A)) (arr : tensor A)
  (B W : nat) (rest_f rest_h rest_c : list nat) (ix : indices) :
  σ !! TraceDecoderState.field self = Some arr ->
  shape arr = (B * W)%nat :: rest_f -> wf arr ->
  shape (TraceDecoderState.h self) = 2%nat :: (B * W)%nat :: rest_h ->
  wf (TraceDecoderState.h self) ->
  shape (TraceDecoderState.c self) = 2%nat :: (B * W)%nat :: rest_c ->
  wf (TraceDecoderState.c self) ->
  (1 <= B)%nat -> (1 <= numel rest_f)%nat -> (1 <= numel rest_h)%nat ->
  (1 <= numel rest_c)%nat ->
  in_range B W (as_tuple ix) ->
  exists s' arr',
    TraceDecoderState.select_for_beams self (Z.of_nat B) ix σ
    = (Ok s', <[TraceDecoderState.field s' := arr']> σ) /\
    (TraceDecoderState.field s' ∉ dom σ) /\
    shape arr' = length (as_tuple ix) :: rest_f /\
    shape (TraceDecoderState.h s') = 2%nat :: length (as_tuple ix) :: rest_h /\
    shape (TraceDecoderState.c s') = 2%nat :: length (as_tuple ix) :: rest_c /\
    forall j p, as_tuple ix !! j = Some p ->
      row arr' j = row arr (offset_of W p) /\
      forall l, (l < 2)%nat ->
        row1 (TraceDecoderState.h s') l j
        = row1 (TraceDecoderState.h self) l (offset_of W p) /\
        row1 (TraceDecoderState.c s') l j
        = row1 (TraceDecoderState.c self) l (offset_of W p).
Proof.
  intros Hl Hsf Hwf Hsh Hwh Hsc Hwc HB Hrf Hrh Hrc Hix.
  destruct (gather_field arr B W rest_f (as_tuple ix) Hsf Hwf HB Hrf Hix)
    as (f' & Ef & _ & Sf & _ & Rf).
  destruct (gather_layers _ B W rest_h (as_tuple ix) Hsh Hwh HB Hrh Hix)
    as (h' & Eh & Sh & _ & Rh).
  destruct (gather_layers _ B W rest_c (as_tuple ix) Hsc Hwc HB Hrc Hix)
    as (c' & Ec & Sc & _ & Rc).
  exists (TraceDecoderState.Build_t (fresh (dom σ)) h' c'), f'.
  split.
  - unfold TraceDecoderState.select_for_beams.
    erewrite store_bind_eq by reflexivity.
    rewrite (lookup_total_correct _ _ _ Hl).
    erewrite store_bind_eq by (unfold Store.lift; rewrite Ef; reflexivity).
    erewrite store_bind_eq by reflexivity.
    erewrite store_bind_eq by (unfold Store.lift; rewrite Eh; reflexivity).
    erewrite store_bind_eq by (unfold Store.lift; rewrite Ec; reflexivity).
    reflexivity.
  - cbn [TraceDecoderState.field TraceDecoderState.h TraceDecoderState.c].
    split; [apply is_fresh |]. split; [exact Sf |]. split; [exact Sh |].
    split; [exact Sc |]. intros j p Hj. split; [apply Rf, Hj |].
    intros l Hlt. split; [apply Rh | apply Rc]; assumption.
Qed.


(** X3.  [LatePoolingCodeDecoder.State.select_for_beams] on a state of [B * W]
    rows, for indices that name examples below [B] and beams below [W]: the
    call returns, [pairs_per_example] is carried, a context that is [None]
    stays [None], and the context, [h] and [c] come back with one row per
    index column, row [j] equal to the source row at (example, beam) in the
    example-major order. *)
Theorem code_state_select_for_beams {A : Type}
  (self : LatePoolingCodeDecoder.State A) (B W : nat)
  (rest_ctx rest_h rest_c : list nat) (ix : indices) :
  (forall ctx, LatePoolingCodeDecoder.context self = Some ctx ->
     shape ctx = (B * W)%nat :: rest_ctx /\ wf ctx) ->
  shape (LatePoolingCodeDecoder.h self) = 2%nat :: (B * W)%nat :: rest_h ->
  wf (LatePoolingCodeDecoder.h self) ->
  shape (LatePoolingCodeDecoder.c self) = 2%nat :: (B * W)%nat :: rest_c ->
  wf (LatePoolingCodeDecoder.c self) ->
  (1 <= B)%nat -> (1 <= numel rest_ctx)%nat -> (1 <= numel rest_h)%nat ->
  (1 <= numel rest_c)%nat ->
  in_range B W (as_tuple ix) ->
  exists s',
    LatePoolingCodeDecoder.select_for_beams self (Z.of_nat B) ix = Ok s' /\
    LatePoolingCodeDecoder.pairs_per_example s'
    = LatePoolingCodeDecoder.pairs_per_example self /\
    shape (LatePoolingCodeDecoder.h s')
    = 2%nat :: length (as_tuple ix) :: rest_h /\
    shape (LatePoolingCodeDecoder.c s')
    = 2%nat :: length (as_tuple ix) :: rest_c /\
    (forall j p l, as_tuple ix !! j = Some p -> (l < 2)%nat ->
       row1 (LatePoolingCodeDecoder.h s') l j
       = row1 (LatePoolingCodeDecoder.h self) l (offset_of W p) /\
       row1 (LatePoolingCodeDecoder.c s') l j
       = row1 (LatePoolingCodeDecoder.c self) l (offset_of W p)) /\
    match LatePoolingCodeDecoder.context self with
    | None => LatePoolingCodeDecoder.context s' = None
    | Some ctx =>
        exists ctx',
          LatePoolingCodeDecoder.context s' = Some ctx' /\
          shape ctx' = length (as_tuple ix) :: rest_ctx /\
          forall j p, as_tuple ix !! j = Some p ->
            row ctx' j = row ctx (offset_of W p)
    end.
Proof.
  intros Hctx Hsh Hwh Hsc Hwc HB Hrx Hrh Hrc Hix.
  destruct (gather_layers _ B W rest_h (as_tuple ix) Hsh Hwh HB Hrh Hix)
    as (h' & Eh & Sh & _ & Rh).
  destruct (gather_layers _ B W rest_c (as_tuple ix) Hsc Hwc HB Hrc Hix)
    as (c' & Ec & Sc & _ & Rc).
  unfold LatePoolingCodeDecoder.select_for_beams. rewrite Eh, Ec.
  destruct (LatePoolingCodeDecoder.context self) as [ctx |].
  - destruct (Hctx ctx eq_refl) as [Hsx Hwx].
    destruct (gather_field ctx B W rest_ctx (as_tuple ix) Hsx Hwx HB Hrx Hix)
      as (x' & _ & Ex & Sx & _ & Rx).
    apply bind_Ok in Ex as (v & Ev & Ex).
    rewrite Ev. cbn [mbind result_bind Py.bind].
    rewrite Ex. cbn [mbind result_bind Py.bind].
    eexists. split; [reflexivity |].
    cbn [LatePoolingCodeDecoder.pairs_per_example LatePoolingCodeDecoder.h
         LatePoolingCodeDecoder.c LatePoolingCodeDecoder.context].
    split; [reflexivity |]. split; [exact Sh |]. split; [exact Sc |]. split.
    + intros j p l Hj Hl. split; [apply Rh | apply Rc]; assumption.
    + exists x'. split; [reflexivity |]. split; [exact Sx | exact Rx].
  - cbn [mbind result_bind Py.bind].
    eexists. split; [reflexivity |].
    cbn [LatePoolingCodeDecoder.pairs_per_example LatePoolingCodeDecoder.h
         LatePoolingCodeDecoder.c LatePoolingCodeDecoder.context].
    split; [reflexivity |]. split; [exact Sh |]. split; [exact Sc |]. split.
    + intros j p l Hj Hl. split; [apply Rh | apply Rc]; assumption.
    + reflexivity.
Qed.

(** The state of [Examples] is well formed. *)
Lemma beam_state_wf :
  (forall ctx, LatePoolingCodeDecoder.context Examples.beam_state = Some ctx ->
     shape ctx = [2 * 2; 1; 512]%nat /\ wf ctx) /\
  wf (LatePoolingCodeDecoder.h Examples.beam_state) /\
  wf (LatePoolingCodeDecoder.c Examples.beam_state).
Proof.
  split; [| split].
  - intros ctx Hc. injection Hc as <-.
    split; [reflexivity | vm_compute; reflexivity].
  - vm_compute. reflexivity.
  - vm_compute. reflexivity.
Qed.

Lemma code_state_select_for_beams_witness :
  exists s' ctx',
    LatePoolingCodeDecoder.select_for_beams Examples.beam_state 2
      Examples.beam_indices = Ok s' /\
    LatePoolingCodeDecoder.pairs_per_example s' = 1 /\
    shape (LatePoolingCodeDecoder.h s') = [2; 3; 1; 256]%nat /\
    shape (LatePoolingCodeDecoder.c s') = [2; 3; 1; 256]%nat /\
    LatePoolingCodeDecoder.context s' = Some ctx' /\
    shape ctx' = [3; 1; 512]%nat /\
    row ctx' 1
    = row (Tensor [4; 1; 512]%nat (map Z.of_nat (seq 0 (4 * 512)))) 1.
Proof.
  assert (Hin : in_range 2 2 (as_tuple Examples.beam_indices)).
  { repeat constructor; cbn; lia. }
  destruct beam_state_wf as (Wx & Wh & Wc).
  destruct (code_state_select_for_beams Examples.beam_state 2%nat 2%nat
              [1; 512]%nat [1; 256]%nat [1; 256]%nat Examples.beam_indices
              Wx eq_refl Wh eq_refl Wc)
    as (s' & H1 & H2 & H3 & H4 & _ & ctx' & H5 & H6 & H7).
  - lia.
  - cbn; lia.
  - cbn; lia.
  - cbn; lia.
  - exact Hin.
  - exists s', ctx'.
    split; [exact H1 |]. split; [exact H2 |]. split; [exact H3 |].
    split; [exact H4 |]. split; [exact H5 |]. split; [exact H6 |].
    exact (H7 1%nat (0, 1)%Z eq_refl).
Defined.

Lemma trace_state_select_for_beams_witness :
  exists s' arr',
    TraceDecoderState.select_for_beams Examples.trace_state 3
      ([0; 2; 2; 1], [0; 0; 0; 0]) Examples.trace_store
    = (Ok s', <[TraceDecoderState.field s' := arr']> Examples.trace_store) /\
    (TraceDecoderState.field s' ∉ dom Examples.trace_store) /\
    shape arr' = [4; 2]%nat /\
    row arr' 1 = [30; 31].
Proof.
  assert (Hin : in_range 3 1 (as_tuple ([0; 2; 2; 1], [0; 0; 0; 0]))).
  { repeat constructor; cbn; lia. }
  destruct (trace_state_select_for_beams Examples.trace_state
              Examples.trace_store
              (Tensor [3; 2]%nat [10; 11; 20; 21; 30; 31]) 3%nat 1%nat
              [2]%nat [1]%nat [1]%nat ([0; 2; 2; 1], [0; 0; 0; 0])
              eq_refl eq_refl eq_refl eq_refl eq_refl eq_refl eq_refl
              ltac:(lia) ltac:(cbn; lia) ltac:(cbn; lia) ltac:(cbn; lia) Hin)
    as (s' & arr' & H1 & H2 & H3 & _ & _ & H6).
  exists s', arr'. split; [exact H1 |]. split; [exact H2 |].
  split; [exact H3 |].
  destruct (H6 1%nat (2, 0) eq_refl) as [Hrow _]. exact Hrow.
Defined.

(** ** The batch dimension of the code decoder's states *)

Section InvariantFacts.
Context {A : Type}.
Local Close Scope string_scope.



Lemma zeros_shape (z : A) (s : list nat) :
  zeros z (map Z.of_nat s) = Ok (Tensor s (replicate (numel s) z)).
Proof.
  unfold zeros.
  rewrite existsb_of_nat by (intros n; apply Z.ltb_ge; lia).
  rewrite to_nat_of_nat_list. reflexivity.
Qed.

End InvariantFacts.




(** ** Shapes through concatenation, slicing and views *)

Section ShapeFacts.
Context {A : Type}.
Local Close Scope string_scope.
Local Open Scope nat_scope.

Lemma numel_take_drop (d : nat) (s : list nat) :
  numel s = numel (take d s) * numel (drop d s).
Proof. rewrite <- numel_app, take_drop. reflexivity. Qed.

Lemma numel_drop_S (d : nat) (s : list nat) :
  d < length s -> numel (drop d s) = dim s d * numel (drop (S d) s).
Proof.
  revert s. induction d as [| d IH]; intros [| n s] Hd; cbn in Hd; try lia.
  - reflexivity.
  - cbn [drop dim nth]. apply IH. lia.
Qed.

(** [torch.cat((x, y), dim=d)] of two tensors that agree outside axis [d]. *)
Lemma cat2_shape (d : nat) (x y : tensor A) :
  d < length (shape x) -> d < length (shape y) ->
  take d (shape x) = take d (shape y) ->
  drop (S d) (shape x) = drop (S d) (shape y) ->
  wf x -> wf y ->
  exists r,
    cat2 d x y = Ok r /\
    shape r = take d (shape x) ++ (dim (shape x) d + dim (shape y) d)
                :: drop (S d) (shape x) /\
    wf r.
Proof.
  intros Hdx Hdy Ht Hd Hwx Hwy. unfold cat2, shape_eqb.
  destruct (Nat.ltb_spec d (length (shape x))); [| lia].
  rewrite !bool_decide_eq_true_2 by assumption. cbn [andb].
  eexists. split; [reflexivity |]. split; [reflexivity |].
  unfold wf in *. cbn [shape data].
  set (outer := numel (take d (shape x))).
  set (cx := numel (drop d (shape x))). set (cy := numel (drop d (shape y))).
  assert (Hlx : length (data x) = outer * cx)
    by (rewrite Hwx; apply numel_take_drop).
  assert (Hly : length (data y) = outer * cy)
    by (rewrite Hwy, (numel_take_drop d (shape y)), <- Ht; reflexivity).
  rewrite (length_concat_uniform (cx + cy)).
  - rewrite length_map, length_seq, numel_app, numel_cons.
    fold outer. unfold cx, cy.
    rewrite (numel_drop_S d (shape x)), (numel_drop_S d (shape y)), <- Hd
      by assumption.
    lia.
  - apply Forall_forall. intros b Hb. apply list_elem_of_In in Hb.
    apply in_map_iff in Hb as (o & <- & Ho). apply in_seq in Ho.
    rewrite length_app, !length_chunk; [reflexivity | |].
    + rewrite Hly. apply Nat.mul_le_mono_r. lia.
    + rewrite Hlx. apply Nat.mul_le_mono_r. lia.
Qed.

Lemma expand_pairs_shape (t : tensor A) (n w p : nat) :
  shape t = [n; w] -> wf t ->
  exists r,
    expand_pairs t (Z.of_nat p) = Ok r /\ shape r = [n; p; w] /\ wf r.
Proof.
  intros Hs Hwf. unfold expand_pairs. rewrite Hs.
  destruct (Z.ltb_spec (Z.of_nat p) (-1)); [lia |].
  destruct (Z.eqb_spec (Z.of_nat p) (-1)); [lia |].
  rewrite Nat2Z.id.
  eexists. split; [reflexivity |]. split; [reflexivity |].
  unfold wf in *. cbn [shape data]. rewrite Hs, !numel_cons, numel_nil in Hwf.
  rewrite !numel_cons, numel_nil.
  rewrite (length_concat_uniform (p * w)).
  - rewrite length_map, length_seq. lia.
  - apply Forall_forall. intros b Hb. apply list_elem_of_In in Hb.
    apply in_map_iff in Hb as (i & <- & Hi). apply in_seq in Hi.
    rewrite (length_concat_uniform w).
    + rewrite length_replicate. reflexivity.
    + apply Forall_replicate. apply length_chunk. rewrite Hwf. nia.
Qed.

Lemma slice_rows_shape (t : tensor A) (n : nat) (rest : list nat)
  (offset bs : nat) :
  shape t = n :: rest -> wf t -> offset + bs <= n ->
  exists r,
    slice_rows t offset bs = Ok r /\ shape r = bs :: rest /\ wf r.
Proof.
  intros Hs Hwf Hb. unfold slice_rows. rewrite Hs.
  rewrite !Nat.min_l by lia.
  replace (offset + bs - offset) with bs by lia.
  eexists. split; [reflexivity |]. split; [reflexivity |].
  unfold wf in *. cbn [shape data]. rewrite Hs, numel_cons in Hwf.
  rewrite numel_cons, length_take, length_drop, Hwf. nia.
Qed.

Lemma view_full (t : tensor A) (s : list nat) :
  numel s = numel (shape t) ->
  view t (map Z.of_nat s) = Ok (Tensor s (data t)).
Proof.
  intros Hs. unfold view. rewrite infer_shape_full by exact Hs. reflexivity.
Qed.


(** A view with one inferred axis, whose length [q] is known. *)
Lemma view_infer (t : tensor A) (pre post : list nat) (q : nat) :
  numel (shape t) = numel pre * q * numel post ->
  numel pre * numel post <> 0 -> wf t ->
  exists r,
    view t (map Z.of_nat pre ++ (-1)%Z :: map Z.of_nat post) = Ok r /\
    shape r = pre ++ q :: post /\ data r = data t /\ wf r.
Proof.
  intros Hn Hk Hwf.
  assert (Hq : numel (shape t) = q * (numel pre * numel post)) by lia.
  rewrite view_hole; [| exact Hk | rewrite Hq; apply Nat.Div0.mod_mul].
  rewrite Hq, Nat.div_mul by exact Hk.
  eexists. split; [reflexivity |]. split; [reflexivity |].
  split; [reflexivity |].
  unfold wf in *. cbn [shape data]. rewrite Hwf, numel_app, numel_cons. lia.
Qed.

Lemma view_full_wf (t : tensor A) (s : list nat) :
  numel s = numel (shape t) -> wf t ->
  exists r,
    view t (map Z.of_nat s) = Ok r /\ shape r = s /\ data r = data t /\ wf r.
Proof.
  intros Hs Hwf. rewrite view_full by exact Hs.
  eexists. split; [reflexivity |]. split; [reflexivity |].
  split; [reflexivity |]. unfold wf in *. cbn [shape data]. lia.
Qed.

End ShapeFacts.

(** ** MultiEmbedding *)

Section MultiEmbeddingFacts.
Context {A : Type}.
Local Close Scope string_scope.
Local Open Scope nat_scope.

Import MultiEmbedding.

(** Column [i] of a 2-D tensor of indices. *)
Lemma select1_column (inputs : tensor Z) (n k i : nat) :
  shape inputs = [n; k] -> wf inputs -> i < k ->
  select1 inputs (Z.of_nat i)
  = Ok (Tensor [n] (map (fun r => entry inputs r i) (seq 0 n))).
Proof.
  intros Hs Hwf Hi. unfold select1. rewrite Hs.
  rewrite norm_index_in_range by lia. cbn [mbind result_bind Py.bind].
  rewrite Nat2Z.id, numel_nil. f_equal. f_equal.
  unfold wf in Hwf. rewrite Hs, !numel_cons, numel_nil in Hwf.
  assert (Hall : forall r, r < n ->
            chunk 1 (r * k + i) (data inputs) = [entry inputs r i]).
  { intros r Hr. unfold entry, chunk. rewrite Hs. cbn [dim nth].
    rewrite Nat.mul_1_r.
    assert (Hlt : r * k + i < length (data inputs)) by nia.
    destruct (lookup_lt_is_Some_2 _ _ Hlt) as (x & Hx).
    rewrite Hx. cbn [default].
    rewrite (drop_S _ x _ Hx). reflexivity. }
  rewrite (map_ext_in _ (fun r => [entry inputs r i]))
    by (intros r Hr; apply in_seq in Hr; apply Hall; lia).
  generalize (seq 0 n). intros l. induction l as [| r l IH]; [reflexivity |].
  cbn [map concat app]. rewrite IH. reflexivity.
Qed.

Lemma traverse_lookup_indices (size : nat) (l : list Z) :
  Forall (fun i => (0 <= i < Z.of_nat size)%Z) l ->
  traverse (fun i => if ((0 <=? i) && (i <? Z.of_nat size))%Z
                     then Ok (Z.to_nat i) else Raise RuntimeError) l
  = Ok (map Z.to_nat l).
Proof.
  induction 1 as [| i l Hi _ IH]; [reflexivity |].
  cbn [traverse].
  destruct (Z.leb_spec 0 i); [| lia]. destruct (Z.ltb_spec i (Z.of_nat size));
    [| lia].
  cbn [andb mbind result_bind Py.bind]. rewrite IH. reflexivity.
Qed.

(** An embedding applied to a vector of indices in range: one row of the
    weight per index. *)
Lemma embedding_rows (w : tensor A) (size d : nat) (l : list Z) :
  shape w = [size; d] -> wf w ->
  Forall (fun i => (0 <= i < Z.of_nat size)%Z) l ->
  exists e,
    embedding w (Tensor [length l] l) = Ok e /\
    shape e = [length l; d] /\ wf e /\
    forall r x, l !! r = Some x -> row e r = row w (Z.to_nat x).
Proof.
  intros Hs Hwf Hl. unfold embedding. rewrite Hs. cbn [shape data].
  rewrite (traverse_lookup_indices size l Hl). cbn [mbind result_bind Py.bind].
  unfold wf in Hwf. rewrite Hs, !numel_cons, numel_nil in Hwf.
  assert (Hall : Forall (fun b => length b = d)
                   (map (fun k => chunk d k (data w)) (map Z.to_nat l))).
  { apply Forall_forall. intros b Hb. apply list_elem_of_In in Hb.
    apply in_map_iff in Hb as (k & <- & Hk).
    apply in_map_iff in Hk as (i & <- & Hi).
    apply list_elem_of_In in Hi. rewrite Forall_forall in Hl.
    specialize (Hl i Hi). apply length_chunk. nia. }
  eexists. split; [reflexivity |]. split; [reflexivity |]. split.
  - unfold wf. cbn [shape data app]. rewrite !numel_cons, numel_nil.
    rewrite (length_concat_uniform d) by exact Hall.
    rewrite !length_map. lia.
  - intros r x Hr. unfold row. cbn [shape data app tail].
    rewrite Hs. cbn [tail]. rewrite !numel_cons, numel_nil, Nat.mul_1_r.
    apply (chunk_concat d); [exact Hall |].
    change (map ?f ?l) with (f <$> l).
    rewrite !list_lookup_fmap, Hr. reflexivity.
Qed.

(** [torch.cat((x, y), dim=1)] of two matrices of [n] rows. *)
Lemma cat2_1_rows (x y : tensor A) (n a b : nat) :
  shape x = [n; a] -> shape y = [n; b] -> wf x -> wf y ->
  exists r,
    cat2 1 x y = Ok r /\ shape r = [n; a + b] /\ wf r /\
    forall i, i < n -> row r i = row x i ++ row y i.
Proof.
  intros Hx Hy Wx Wy.
  destruct (cat2_shape 1 x y) as (r & Er & Sr & Wr);
    rewrite ?Hx, ?Hy; cbn [length take drop]; try lia; try reflexivity;
    try assumption.
  rewrite Hx, Hy in Sr. cbn [take drop dim nth app] in Sr.
  exists r. split; [exact Er |]. split; [exact Sr |]. split; [exact Wr |].
  intros i Hi. unfold cat2 in Er.
  destruct ((1 <? length (shape x)) && _ && _); [| discriminate].
  injection Er as <-. unfold row. cbn [shape data tail].
  rewrite Hx, Hy. cbn [take drop tail app dim nth].
  rewrite !numel_cons, numel_nil, !Nat.mul_1_r.
  unfold wf in Wx, Wy. rewrite Hx, !numel_cons, numel_nil in Wx.
  rewrite Hy, !numel_cons, numel_nil in Wy.
  apply (chunk_concat (a + b)).
  - apply Forall_forall. intros c Hc. apply list_elem_of_In in Hc.
    apply in_map_iff in Hc as (o & <- & Ho). apply in_seq in Ho.
    rewrite length_app, !length_chunk by nia. reflexivity.
  - change (map ?f ?l) with (f <$> l).
    rewrite list_lookup_fmap, lookup_seq_lt by exact Hi. reflexivity.
Qed.

(** [torch.cat] along axis 1 onto [acc]: the rows side by side. *)
Lemma cat_onto_1_rows (n : nat) (vs : list (tensor A)) :
  forall (acc : tensor A) (a : nat),
    shape acc = [n; a] -> wf acc ->
    Forall (fun v => shape v = [n; width v] /\ wf v) vs ->
    exists out,
      cat_onto 1 acc vs = Ok out /\
      shape out = [n; a + sum_list (map width vs)] /\ wf out /\
      forall r, r < n ->
        row out r = row acc r ++ concat (map (fun v => row v r) vs).
Proof.
  induction vs as [| v vs IH]; intros acc a Hs Hw Hall.
  - exists acc. cbn [cat_onto map concat sum_list sum_list_with].
    rewrite Nat.add_0_r. split; [reflexivity |]. split; [exact Hs |].
    split; [exact Hw |]. intros r _. rewrite app_nil_r. reflexivity.
  - apply Forall_cons in Hall as [[Sv Wv] Hall].
    destruct (cat2_1_rows acc v n a (width v) Hs Sv Hw Wv)
      as (r1 & E1 & S1 & W1 & R1).
    destruct (IH r1 (a + width v) S1 W1 Hall) as (out & E & S & W & R).
    exists out. cbn [cat_onto]. rewrite E1. cbn [mbind result_bind Py.bind].
    split; [exact E |]. split; [| split; [exact W |]].
    + rewrite S. cbn [map].
      change (sum_list (width v :: map width vs))
        with (width v + sum_list (map width vs)).
      f_equal. f_equal. lia.
    + intros r Hr. rewrite (R r Hr), (R1 r Hr). cbn [map concat].
      rewrite <- app_assoc. reflexivity.
Qed.

(** The list comprehension of [forward]: embedding [j] looks the rows of
    its weight up at column [i0 + j]. *)
Lemma forward_values (inputs : tensor Z) (n k : nat) (embs : list (tensor A)) :
  shape inputs = [n; k] -> wf inputs ->
  forall i0 : nat,
    i0 + length embs <= k ->
    Forall (fun w => shape w = [dim0 w; width w] /\ wf w) embs ->
    (forall j w r, embs !! j = Some w -> r < n ->
       (0 <= entry inputs r (i0 + j) < Z.of_nat (dim0 w))%Z) ->
    exists values,
      traverse (fun '(i, embedding_i) =>
                  column ← select1 inputs (Z.of_nat i);
                  embedding embedding_i column)
        (zip (seq i0 (length embs)) embs) = Ok values /\
      Forall (fun v => shape v = [n; width v] /\ wf v) values /\
      map width values = map width embs /\
      forall r, r < n ->
        map (fun v => row v r) values
        = imap (fun j w => row w (Z.to_nat (entry inputs r (i0 + j)))) embs.
Proof.
  intros Hs Hwf. induction embs as [| w embs IH]; intros i0 Hk Hall Hrange.
  - exists []. cbn. repeat split; try constructor. 
  - apply Forall_cons in Hall as [[Sw Ww] Hall]. cbn [length] in Hk.
    cbn [length seq zip zip_with traverse].
    rewrite (select1_column inputs n k i0 Hs Hwf) by lia.
    cbn [mbind result_bind Py.bind].
    set (col := map (fun r => entry inputs r i0) (seq 0 n)).
    assert (Hlen : length col = n) by (unfold col; rewrite length_map, length_seq; reflexivity).
    assert (Hcol : Forall (fun i => (0 <= i < Z.of_nat (dim0 w))%Z) col).
    { apply Forall_forall. intros x Hx. apply list_elem_of_In in Hx.
      apply in_map_iff in Hx as (r & <- & Hr). apply in_seq in Hr.
      specialize (Hrange 0 w r eq_refl ltac:(lia)).
      rewrite Nat.add_0_r in Hrange. exact Hrange. }
    destruct (embedding_rows w (dim0 w) (width w) col Sw Ww Hcol)
      as (e & Ee & Se & We & Re).
    rewrite Hlen in Ee, Se. rewrite Ee. cbn [mbind result_bind Py.bind].
    assert (Hrange' : forall j w' r, embs !! j = Some w' -> r < n ->
              (0 <= entry inputs r (S i0 + j) < Z.of_nat (dim0 w'))%Z).
    { intros j w' r Hj Hr. specialize (Hrange (S j) w' r Hj Hr).
      replace (S i0 + j) with (i0 + S j) by lia. exact Hrange. }
    destruct (IH (S i0) ltac:(lia) Hall Hrange')
      as (values & Ev & Hv & Hw & Hr).
    rewrite Ev. cbn [mbind result_bind Py.bind].
    assert (Hwe : width e = width w) by (unfold width; rewrite Se; reflexivity).
    exists (e :: values). split; [reflexivity |]. split; [| split].
    + constructor; [| exact Hv]. rewrite Hwe. split; assumption.
    + cbn [map]. rewrite Hwe, Hw. reflexivity.
    + intros r Hlt. cbn [map]. rewrite imap_cons. f_equal.
      * rewrite Nat.add_0_r. apply Re. unfold col.
        change (map ?f ?l) with (f <$> l).
        rewrite list_lookup_fmap, lookup_seq_lt by exact Hlt. reflexivity.
      * rewrite (Hr r Hlt). apply imap_ext. intros j w' _. cbn [compose].
        replace (S i0 + j) with (i0 + S j) by lia. reflexivity.
Qed.

Lemma chunk_zip_with (f : A -> A -> A) (sz i : nat) (l1 l2 : list A) :
  chunk sz i (zip_with f l1 l2) = zip_with f (chunk sz i l1) (chunk sz i l2).
Proof. unfold chunk. rewrite zip_with_drop, zip_with_take. reflexivity. Qed.

Lemma chunk_foldl_zip_with (f : A -> A -> A) (sz i : nat) (ds : list (list A)) :
  forall z,
    chunk sz i (foldl (zip_with f) z ds)
    = foldl (zip_with f) (chunk sz i z) (map (chunk sz i) ds).
Proof.
  induction ds as [| x ds IH]; intros z; [reflexivity |].
  cbn [foldl map]. rewrite IH, chunk_zip_with. reflexivity.
Qed.

Lemma chunk_replicate (sz i n : nat) (z : A) :
  i < n -> chunk sz i (replicate (n * sz) z) = replicate sz z.
Proof.
  intros Hi. unfold chunk. rewrite drop_replicate, take_replicate.
  f_equal. nia.
Qed.

Lemma chunks_of_concat (sz : nat) (ls : list (list A)) :
  Forall (fun l => length l = sz) ls ->
  map (fun i => chunk sz i (concat ls)) (seq 0 (length ls)) = ls.
Proof.
  intros Hall. apply list_eq. intros i.
  change (map ?f ?l) with (f <$> l). rewrite list_lookup_fmap.
  destruct (ls !! i) as [x |] eqn:E.
  - rewrite lookup_seq_lt by (eapply lookup_lt_Some; exact E).
    cbn. f_equal. apply chunk_concat; assumption.
  - rewrite lookup_seq_ge by (apply lookup_ge_None; exact E). reflexivity.
Qed.

End MultiEmbeddingFacts.

(** X13.  [MultiEmbedding.forward] on a matrix of indices with [n] rows and
    at least as many columns as there are embeddings (one or more), each
    index inside its embedding: with the combiner [cat] the output has [n]
    rows and the widths of the embeddings added up, and row [r] is the rows
    that the indices [inputs[r, 0]], [inputs[r, 1]], ... name in the weights
    of the embeddings, side by side; with the combiner [sum], for embeddings
    of one width [d], the output is [n x d] and row [r] is the sum of those
    rows.  Columns past the number of embeddings are not read. *)
Theorem multi_embedding_forward {A : Type} (zero : A) (add : A -> A -> A)
  (self : MultiEmbedding.t A) (inputs : tensor Z) (n k : nat) :
  shape inputs = [n; k] -> wf inputs ->
  (1 <= length (MultiEmbedding.embeddings self))%nat ->
  (length (MultiEmbedding.embeddings self) <= k)%nat ->
  Forall (fun w => shape w = [dim0 w; MultiEmbedding.width w] /\ wf w)
    (MultiEmbedding.embeddings self) ->
  (forall j w r, MultiEmbedding.embeddings self !! j = Some w -> (r < n)%nat ->
     0 <= MultiEmbedding.entry inputs r j < Z.of_nat (dim0 w)) ->
  match MultiEmbedding.combine self with
  | MultiEmbedding._cat =>
      exists out,
        MultiEmbedding.forward zero add self inputs = Ok out /\
        shape out
        = [n; sum_list (map MultiEmbedding.width
                          (MultiEmbedding.embeddings self))] /\
        forall r, (r < n)%nat ->
          row out r
          = concat (imap (fun j w =>
                            row w (Z.to_nat (MultiEmbedding.entry inputs r j)))
                      (MultiEmbedding.embeddings self))
  | MultiEmbedding._sum =>
      forall d,
        Forall (fun w => MultiEmbedding.width w = d)
          (MultiEmbedding.embeddings self) ->
        exists out,
          MultiEmbedding.forward zero add self inputs = Ok out /\
          shape out = [n; d] /\
          forall r, (r < n)%nat ->
            row out r
            = foldl (zip_with add) (replicate d zero)
                (imap (fun j w =>
                         row w (Z.to_nat (MultiEmbedding.entry inputs r j)))
                   (MultiEmbedding.embeddings self))
  end.
Proof.
  intros Hs Hwf H1 Hk Hall Hrange.
  destruct (forward_values inputs n k (MultiEmbedding.embeddings self)
              Hs Hwf 0%nat ltac:(lia) Hall Hrange)
    as (values & Ev & Hv & Hw & Hr).
  cbn [Nat.add] in Hr.
  unfold MultiEmbedding.forward. rewrite Ev. cbn [mbind result_bind Py.bind].
  assert (Hlen : length values = length (MultiEmbedding.embeddings self))
    by (rewrite <- (length_map MultiEmbedding.width values), Hw;
        apply length_map).
  destruct values as [| v vs]; [cbn [length] in Hlen; lia |].
  destruct (MultiEmbedding.combine self).
  - (* sum *)
    intros d Hd.
    assert (Hvd : Forall (fun u => shape u = [n; d] /\ wf u) (v :: vs)).
    { assert (Hwd : Forall (fun x => x = d) (map MultiEmbedding.width (v :: vs))).
      { rewrite Hw. apply Forall_fmap. exact Hd. }
      apply Forall_fmap in Hwd. rewrite Forall_forall in Hv, Hwd.
      apply Forall_forall. intros u Hu. destruct (Hv u Hu) as [Su Wu].
      specialize (Hwd u Hu). cbn in Hwd. rewrite Hwd in Su. auto. }
    unfold MultiEmbedding.sum_values, MultiEmbedding.stack.
    pose proof Hvd as Hvd'. apply Forall_cons in Hvd' as [[Sv Wv] Hvs].
    assert (Hshapes : forallb (fun u => shape_eqb (shape u) (shape v)) vs = true).
    { apply forallb_forall. intros u Hu. apply list_elem_of_In in Hu.
      rewrite Forall_forall in Hvs. destruct (Hvs u Hu) as [Su _].
      unfold shape_eqb. apply bool_decide_eq_true_2. congruence. }
    rewrite Hshapes. cbn [mbind result_bind Py.bind].
    unfold MultiEmbedding.sum_dim0. cbn [shape data]. rewrite Sv.
    eexists. split; [reflexivity |]. split; [reflexivity |].
    intros r Hlt. unfold row at 1. cbn [shape data tail].
    rewrite !numel_cons, numel_nil, !Nat.mul_1_r.
    assert (Hdata : Forall (fun l => length l = (n * d)%nat)
                      (map data (v :: vs))).
    { apply Forall_fmap. rewrite Forall_forall in Hvd. apply Forall_forall.
      intros u Hu. destruct (Hvd u Hu) as [Su Wu]. cbn.
      unfold wf in Wu. rewrite Wu, Su, !numel_cons, numel_nil. lia. }
    rewrite <- (length_map data (v :: vs)).
    rewrite (chunks_of_concat (n * d)) by exact Hdata.
    rewrite chunk_foldl_zip_with, chunk_replicate by exact Hlt.
    f_equal. rewrite <- (Hr r Hlt), map_map.
    apply map_ext_in. intros u Hu. apply list_elem_of_In in Hu.
    rewrite Forall_forall in Hvd. destruct (Hvd u Hu) as [Su _].
    unfold row. rewrite Su. cbn [tail].
    rewrite numel_cons, numel_nil, Nat.mul_1_r. reflexivity.
  - (* cat *)
    unfold MultiEmbedding.cat_values. cbn [cat].
    apply Forall_cons in Hv as [[Sv Wv] Hvs].
    destruct (cat_onto_1_rows n vs v (MultiEmbedding.width v) Sv Wv Hvs)
      as (out & E & S & W & R).
    exists out. split; [exact E |]. split.
    + rewrite S, <- Hw. reflexivity.
    + intros r Hlt. rewrite (R r Hlt), <- (Hr r Hlt). reflexivity.
Qed.

Lemma multi_embedding_forward_witness :
  (exists out,
     MultiEmbedding.forward 0 Z.add
       (MultiEmbedding.Build_t MoreExamples.cat_embeddings MultiEmbedding._cat)
       MoreExamples.small_inputs = Ok out /\
     shape out = [2; 3]%nat /\
     forall r, (r < 2)%nat ->
       row out r
       = concat (imap (fun j w =>
                         row w (Z.to_nat
                                  (MultiEmbedding.entry
                                     MoreExamples.small_inputs r j)))
                   MoreExamples.cat_embeddings)) /\
  (exists out,
     MultiEmbedding.forward 0 Z.add
       (MultiEmbedding.Build_t MoreExamples.sum_embeddings MultiEmbedding._sum)
       MoreExamples.small_inputs = Ok out /\
     shape out = [2; 2]%nat /\
     forall r, (r < 2)%nat ->
       row out r
       = foldl (zip_with Z.add) (replicate 2 0)
           (imap (fun j w =>
                    row w (Z.to_nat
                             (MultiEmbedding.entry
                                MoreExamples.small_inputs r j)))
              MoreExamples.sum_embeddings)).
Proof.
  assert (Hrange : forall embs : list (tensor Z),
             Forall (fun w => dim0 w = 2%nat) embs ->
             forall j w r, embs !! j = Some w -> (r < 2)%nat -> (j < 2)%nat ->
               0 <= MultiEmbedding.entry MoreExamples.small_inputs r j
               < Z.of_nat (dim0 w)).
  { intros embs Hall j w r Hj Hr Hj2.
    rewrite Forall_forall in Hall.
    rewrite (Hall w (list_elem_of_lookup_2 _ _ _ Hj)).
    destruct r as [| [| r]]; [| | lia];
      (destruct j as [| [| j]]; [| | lia]); vm_compute;
      (split; [discriminate | reflexivity]). }
  split.
  - apply (multi_embedding_forward 0 Z.add
             (MultiEmbedding.Build_t MoreExamples.cat_embeddings
                MultiEmbedding._cat)
             MoreExamples.small_inputs 2 2).
    + reflexivity.
    + reflexivity.
    + cbn. lia.
    + cbn. lia.
    + repeat constructor.
    + intros j w r Hj Hr.
      apply (Hrange MoreExamples.cat_embeddings); [repeat constructor | exact Hj | exact Hr |].
      apply lookup_lt_Some in Hj. exact Hj.
  - apply (multi_embedding_forward 0 Z.add
             (MultiEmbedding.Build_t MoreExamples.sum_embeddings
                MultiEmbedding._sum)
             MoreExamples.small_inputs 2 2).
    + reflexivity.
    + reflexivity.
    + cbn. lia.
    + cbn. lia.
    + repeat constructor.
    + intros j w r Hj Hr.
      apply (Hrange MoreExamples.sum_embeddings); [repeat constructor | exact Hj | exact Hr |].
      apply lookup_lt_Some in Hj. exact Hj.
    + repeat constructor.
Defined.

Section MultiEmbeddingErrors.
Context {A : Type}.
Local Close Scope string_scope.
Local Open Scope nat_scope.

Import MultiEmbedding.

Lemma traverse_lookup_fails (size : nat) (l : list Z) (x : Z) :
  x ∈ l -> ~ (0 <= x < Z.of_nat size)%Z ->
  traverse (fun i => if ((0 <=? i) && (i <? Z.of_nat size))%Z
                     then Ok (Z.to_nat i) else Raise RuntimeError) l
  = Raise RuntimeError.
Proof.
  induction l as [| i l IH]; intros Hx Hout; [inversion Hx |].
  cbn [traverse].
  destruct ((0 <=? i) && (i <? Z.of_nat size))%Z eqn:E;
    [| reflexivity].
  cbn [mbind result_bind Py.bind].
  apply elem_of_cons in Hx as [-> | Hx].
  - exfalso. apply Hout. apply andb_true_iff in E as [E1 E2].
    apply Z.leb_le in E1. apply Z.ltb_lt in E2. lia.
  - rewrite (IH Hx Hout). reflexivity.
Qed.

Lemma traverse_lookup_outcome (size : nat) (l : list Z) (e : exn) :
  traverse (fun i => if ((0 <=? i) && (i <? Z.of_nat size))%Z
                     then Ok (Z.to_nat i) else Raise RuntimeError) l
  = Raise e -> e = RuntimeError.
Proof.
  induction l as [| x l IH]; [discriminate |].
  cbn [traverse].
  destruct ((0 <=? x) && (x <? Z.of_nat size))%Z.
  - cbn [mbind result_bind Py.bind].
    match goal with
    | |- context [traverse ?f l] => destruct (traverse f l) eqn:E'
    end; [discriminate |].
    cbn [mbind result_bind Py.bind]. intros [= <-]. apply IH. reflexivity.
  - cbn [mbind result_bind Py.bind]. intros [= <-]. reflexivity.
Qed.

(** One round of the list comprehension of [forward], on a column that the
    matrix of indices has and a weight that is a matrix, returns or raises
    [RuntimeError]. *)
Lemma forward_round_outcome (inputs : tensor Z) (n k i : nat) (w : tensor A)
  (size d : nat) :
  shape inputs = [n; k] -> wf inputs -> i < k -> shape w = [size; d] ->
  (exists v, (column ← select1 inputs (Z.of_nat i); embedding w column) = Ok v)
  \/ (column ← select1 inputs (Z.of_nat i); embedding w column)
     = Raise RuntimeError.
Proof.
  intros Hs Hwf Hi Hw. rewrite (select1_column inputs n k i Hs Hwf Hi).
  cbn [mbind result_bind Py.bind]. unfold embedding. rewrite Hw.
  cbn [shape data].
  match goal with
  | |- context [traverse ?f ?l] => destruct (traverse f l) as [ks | e] eqn:E
  end.
  - left. eexists. reflexivity.
  - right. cbn [mbind result_bind Py.bind]. f_equal.
    eapply traverse_lookup_outcome, E.
Qed.

(** A round that raises, after rounds that return or raise the same
    exception, makes the list comprehension raise it. *)
Lemma forward_values_fail (e : exn) (inputs : tensor Z)
  (embs : list (tensor A)) :
  forall (i0 j : nat) (w : tensor A),
    embs !! j = Some w ->
    (forall j' w', j' < j -> embs !! j' = Some w' ->
       (exists v, (column ← select1 inputs (Z.of_nat (i0 + j'));
                   embedding w' column) = Ok v)
       \/ (column ← select1 inputs (Z.of_nat (i0 + j'));
           embedding w' column) = Raise e) ->
    (column ← select1 inputs (Z.of_nat (i0 + j)); embedding w column)
    = Raise e ->
    traverse (fun '(i, embedding_i) =>
                column ← select1 inputs (Z.of_nat i);
                embedding embedding_i column)
      (zip (seq i0 (length embs)) embs) = Raise e.
Proof.
  induction embs as [| w0 embs IH]; intros i0 j w Hj Hbefore Hfail;
    [discriminate |].
  cbn [length seq zip zip_with traverse].
  destruct j as [| j].
  - injection Hj as ->. rewrite Nat.add_0_r in Hfail. rewrite Hfail.
    reflexivity.
  - destruct (Hbefore 0 w0 ltac:(lia) eq_refl) as [(v & E) | E];
      rewrite Nat.add_0_r in E; rewrite E; [| reflexivity].
    cbn [mbind result_bind Py.bind].
    rewrite (IH (S i0) j w Hj); [reflexivity | |].
    + intros j' w' Hlt Hj'.
      replace (S i0 + j') with (i0 + S j') by lia.
      apply Hbefore; [lia | exact Hj'].
    + replace (S i0 + j) with (i0 + S j) by lia. exact Hfail.
Qed.

(** A round on a column of indices in range returns. *)
Lemma forward_round_returns (inputs : tensor Z) (n k i : nat) (w : tensor A) :
  shape inputs = [n; k] -> wf inputs -> i < k ->
  shape w = [dim0 w; width w] -> wf w ->
  (forall r, r < n -> (0 <= entry inputs r i < Z.of_nat (dim0 w))%Z) ->
  exists v, (column ← select1 inputs (Z.of_nat i); embedding w column) = Ok v.
Proof.
  intros Hs Hwf Hi Sw Ww Hrange.
  rewrite (select1_column inputs n k i Hs Hwf Hi).
  cbn [mbind result_bind Py.bind].
  set (col := map (fun r => entry inputs r i) (seq 0 n)).
  assert (Hlen : length col = n)
    by (unfold col; rewrite length_map, length_seq; reflexivity).
  assert (Hcol : Forall (fun x => (0 <= x < Z.of_nat (dim0 w))%Z) col).
  { apply Forall_forall. intros x Hx. apply list_elem_of_In in Hx.
    apply in_map_iff in Hx as (r & <- & Hr). apply in_seq in Hr.
    apply Hrange. lia. }
  destruct (embedding_rows w (dim0 w) (width w) col Sw Ww Hcol)
    as (e & Ee & _).
  rewrite Hlen in Ee. exists e. exact Ee.
Qed.

End MultiEmbeddingErrors.

(** X14.  The errors of [MultiEmbedding.forward], for a matrix of indices
    with [k] columns and embeddings whose weights are matrices: without
    embeddings both combiners raise [RuntimeError]; an index outside its
    embedding, in a column that is read, raises [RuntimeError], the failed
    lookup of the embedding; with more embeddings than columns and every
    index of the [k] columns inside its embedding the call raises
    [IndexError], for the column that is not there; and the combiner [sum]
    raises [RuntimeError] when an embedding has another width than the
    first, all indices being in range. *)
Theorem multi_embedding_forward_errors {A : Type} (zero : A)
  (add : A -> A -> A) (self : MultiEmbedding.t A) (inputs : tensor Z)
  (n k : nat) :
  shape inputs = [n; k] -> wf inputs ->
  Forall (fun w => shape w = [dim0 w; MultiEmbedding.width w] /\ wf w)
    (MultiEmbedding.embeddings self) ->
  (MultiEmbedding.embeddings self = [] ->
   MultiEmbedding.forward zero add self inputs = Raise RuntimeError) /\
  (forall j w r,
     MultiEmbedding.embeddings self !! j = Some w -> (j < k)%nat ->
     (r < n)%nat ->
     ~ (0 <= MultiEmbedding.entry inputs r j < Z.of_nat (dim0 w)) ->
     MultiEmbedding.forward zero add self inputs = Raise RuntimeError) /\
  ((k < length (MultiEmbedding.embeddings self))%nat ->
   (forall j w r, MultiEmbedding.embeddings self !! j = Some w ->
      (j < k)%nat -> (r < n)%nat ->
      0 <= MultiEmbedding.entry inputs r j < Z.of_nat (dim0 w)) ->
   MultiEmbedding.forward zero add self inputs = Raise IndexError) /\
  (forall w0 rest w,
     MultiEmbedding.combine self = MultiEmbedding._sum ->
     MultiEmbedding.embeddings self = w0 :: rest -> w ∈ rest ->
     MultiEmbedding.width w <> MultiEmbedding.width w0 ->
     (length (MultiEmbedding.embeddings self) <= k)%nat ->
     (forall j w r, MultiEmbedding.embeddings self !! j = Some w ->
        (r < n)%nat ->
        0 <= MultiEmbedding.entry inputs r j < Z.of_nat (dim0 w)) ->
     MultiEmbedding.forward zero add self inputs = Raise RuntimeError).
Proof.
  intros Hs Hwf Hall.
  split; [| split; [| split]].
  - intros He. unfold MultiEmbedding.forward. rewrite He.
    cbn [length seq zip zip_with traverse mbind result_bind Py.bind].
    destruct (MultiEmbedding.combine self); reflexivity.
  - intros j w r Hj Hjk Hr Hout. unfold MultiEmbedding.forward.
    rewrite (forward_values_fail RuntimeError inputs _ 0%nat j w Hj);
      [reflexivity | |].
    + intros j' w' Hlt Hj'. cbn [Nat.add].
      rewrite Forall_forall in Hall.
      destruct (Hall w' (list_elem_of_lookup_2 _ _ _ Hj')) as [Sw' _].
      apply (forward_round_outcome inputs n k j' w' _ _ Hs Hwf ltac:(lia) Sw').
    + cbn [Nat.add].
      rewrite (select1_column inputs n k j Hs Hwf Hjk).
      cbn [mbind result_bind Py.bind]. unfold MultiEmbedding.embedding.
      rewrite Forall_forall in Hall.
      destruct (Hall w (list_elem_of_lookup_2 _ _ _ Hj)) as [Sw _].
      rewrite Sw. cbn [shape data].
      rewrite (traverse_lookup_fails (dim0 w) _
                 (MultiEmbedding.entry inputs r j));
        [reflexivity | | exact Hout].
      apply list_elem_of_In, in_map_iff. exists r. split; [reflexivity |].
      apply in_seq. lia.
  - intros Hk Hrange. unfold MultiEmbedding.forward.
    destruct (lookup_lt_is_Some_2 _ _ Hk) as (w & Hw).
    rewrite (forward_values_fail IndexError inputs _ 0%nat k w Hw);
      [reflexivity | |].
    + intros j' w' Hlt Hj'. cbn [Nat.add]. left.
      rewrite Forall_forall in Hall.
      destruct (Hall w' (list_elem_of_lookup_2 _ _ _ Hj')) as [Sw' Ww'].
      apply (forward_round_returns inputs n k j' w' Hs Hwf Hlt Sw' Ww').
      intros r Hr. apply (Hrange j' w' r Hj' Hlt Hr).
    + unfold MultiEmbedding.select1. rewrite Hs. unfold norm_index.
      destruct (Z.ltb_spec (Z.of_nat (0 + k)) (Z.of_nat k)); [lia |].
      destruct (Z.ltb_spec (Z.of_nat (0 + k)) 0); [lia |].
      rewrite !andb_false_r. reflexivity.
  - intros w0 rest w Hsum He Hw Hne Hk Hrange.
    destruct (forward_values inputs n k (MultiEmbedding.embeddings self)
                Hs Hwf 0%nat ltac:(lia) Hall Hrange)
      as (values & Ev & Hv & Hwd & _).
    unfold MultiEmbedding.forward. rewrite Ev, Hsum.
    cbn [mbind result_bind Py.bind].
    rewrite He in Hwd. destruct values as [| v vs]; [discriminate |].
    cbn [map] in Hwd. injection Hwd as Hv0 Hvs.
    unfold MultiEmbedding.sum_values, MultiEmbedding.stack.
    assert (Hf : forallb (fun u => shape_eqb (shape u) (shape v)) vs = false).
    { apply not_true_is_false. intros Ht. rewrite forallb_forall in Ht.
      apply list_elem_of_In, (in_map MultiEmbedding.width) in Hw.
      rewrite <- Hvs in Hw. apply in_map_iff in Hw as (u & Hu & Hin).
      specialize (Ht u Hin). unfold shape_eqb in Ht.
      apply bool_decide_eq_true_1 in Ht.
      apply Hne. rewrite <- Hu, <- Hv0. unfold MultiEmbedding.width.
      rewrite Ht. reflexivity. }
    rewrite Hf. reflexivity.
Qed.

Lemma multi_embedding_forward_errors_witness :
  MultiEmbedding.forward 0 Z.add
    (MultiEmbedding.Build_t [] MultiEmbedding._cat) MoreExamples.small_inputs
  = Raise RuntimeError /\
  MultiEmbedding.forward 0 Z.add
    (MultiEmbedding.Build_t [Tensor [1; 2]%nat [10; 11]] MultiEmbedding._cat)
    MoreExamples.small_inputs
  = Raise RuntimeError /\
  MultiEmbedding.forward 0 Z.add
    (MultiEmbedding.Build_t
       (MoreExamples.cat_embeddings ++ MoreExamples.sum_embeddings)
       MultiEmbedding._cat) MoreExamples.small_inputs
  = Raise IndexError /\
  MultiEmbedding.forward 0 Z.add
    (MultiEmbedding.Build_t MoreExamples.cat_embeddings MultiEmbedding._sum)
    MoreExamples.small_inputs
  = Raise RuntimeError.
Proof.
  split; [| split; [| split]].
  - apply (multi_embedding_forward_errors 0 Z.add
             (MultiEmbedding.Build_t [] MultiEmbedding._cat)
             MoreExamples.small_inputs 2 2 eq_refl eq_refl);
      [constructor | reflexivity].
  - apply (multi_embedding_forward_errors 0 Z.add
             (MultiEmbedding.Build_t [Tensor [1; 2]%nat [10; 11]]
                MultiEmbedding._cat)
             MoreExamples.small_inputs 2 2 eq_refl eq_refl
             ltac:(repeat constructor))
      with (j := 0%nat) (w := Tensor [1; 2]%nat [10; 11]) (r := 0%nat);
      [reflexivity | lia | lia | vm_compute; intros [_ H]; discriminate H].
  - apply (multi_embedding_forward_errors 0 Z.add
             (MultiEmbedding.Build_t
                (MoreExamples.cat_embeddings ++ MoreExamples.sum_embeddings)
                MultiEmbedding._cat)
             MoreExamples.small_inputs 2 2 eq_refl eq_refl);
      [repeat constructor | cbn; lia |].
    intros j w r Hj Hjk Hr.
    destruct r as [| [| r]]; [| | lia];
      (destruct j as [| [| j]]; [| | lia]);
      injection Hj as <-; vm_compute; (split; [discriminate | reflexivity]).
  - apply (multi_embedding_forward_errors 0 Z.add
             (MultiEmbedding.Build_t MoreExamples.cat_embeddings
                MultiEmbedding._sum)
             MoreExamples.small_inputs 2 2 eq_refl eq_refl
             ltac:(repeat constructor))
      with (w0 := Tensor [2; 2]%nat [10; 11; 20; 21])
           (rest := [Tensor [2; 1]%nat [5; 6]])
           (w := Tensor [2; 1]%nat [5; 6]).
    + reflexivity.
    + reflexivity.
    + apply elem_of_cons. left. reflexivity.
    + discriminate.
    + cbn. lia.
    + intros j w r Hj Hr.
      destruct r as [| [| r]]; [| | lia];
        (destruct j as [| [| j]]; [| | discriminate Hj]);
        injection Hj as <-; vm_compute; (split; [discriminate | reflexivity]).
Defined.

Section MultiEmbeddingInit.
Context {A : Type}.
Local Close Scope string_scope.
Local Open Scope nat_scope.

Lemma traverse_length {X Y} (f : X -> result Y) (l : list X) (ys : list Y) :
  traverse f l = Ok ys -> length ys = length l.
Proof.
  revert ys. induction l as [| x l IH]; intros ys H.
  - injection H as <-. reflexivity.
  - cbn [traverse] in H. apply bind_Ok in H as (y & _ & H).
    apply bind_Ok in H as (ys' & E & H). injection H as <-.
    cbn [length]. rewrite (IH ys' E). reflexivity.
Qed.

Lemma traverse_total {X Y} (f : X -> result Y) (l : list X) :
  (forall x, is_ok (f x)) -> is_ok (traverse f l).
Proof.
  intros Hf. induction l as [| x l IH]; [exact I |].
  cbn [traverse]. specialize (Hf x). destruct (f x); [| contradiction].
  cbn [mbind result_bind Py.bind].
  destruct (traverse f l); [exact I | contradiction].
Qed.

End MultiEmbeddingInit.

(** X15.  [MultiEmbedding.__init__] pairs [sizes] with [dims]: the module it
    returns has as many embeddings as the shorter list, the rest of the
    longer one being dropped, and its combiner is the one named, [sum] or
    [cat].  Another name raises [ValueError], after the embeddings were
    created. *)
Theorem multi_embedding_init {A : Type}
  (new_embedding : Z -> Z -> result (tensor A)) (sizes dims : list Z)
  (combiner : string) :
  (forall self,
     MultiEmbedding.__init__ new_embedding sizes dims combiner = Ok self ->
     length (MultiEmbedding.embeddings self)
     = Nat.min (length sizes) (length dims) /\
     (combiner = "sum" /\ MultiEmbedding.combine self = MultiEmbedding._sum \/
      combiner = "cat" /\ MultiEmbedding.combine self = MultiEmbedding._cat)) /\
  ((forall size dim, is_ok (new_embedding size dim)) ->
   combiner <> "sum" -> combiner <> "cat" ->
   MultiEmbedding.__init__ new_embedding sizes dims combiner
   = Raise ValueError).
Proof.
  unfold MultiEmbedding.__init__. split.
  - intros self H. apply bind_Ok in H as (embs & E & H).
    apply traverse_length in E.
    change (zip sizes dims) with (zip_with pair sizes dims) in E.
    rewrite length_zip_with in E.
    destruct (String.eqb_spec combiner "sum") as [-> | Hs].
    + injection H as <-. cbn. auto.
    + destruct (String.eqb_spec combiner "cat") as [-> | Hc];
        [| discriminate].
      injection H as <-. cbn. auto.
  - intros Htotal Hs Hc.
    pose proof (traverse_total (fun '(size, dim) => new_embedding size dim)
                  (zip sizes dims)) as Hok.
    destruct (traverse _ (zip sizes dims)) as [embs | e].
    + cbn [mbind result_bind Py.bind].
      apply String.eqb_neq in Hs, Hc. rewrite Hs, Hc. reflexivity.
    + exfalso. apply Hok. intros [size dim]. apply Htotal.
Qed.

Lemma multi_embedding_init_witness :
  (forall self,
     MultiEmbedding.__init__
       (fun size dim => Ok (Tensor [Z.to_nat size; Z.to_nat dim]
                              (replicate (Z.to_nat size * Z.to_nat dim) 0)))
       [2; 2; 2; 2] [64; 64; 64] "cat" = Ok self ->
     length (MultiEmbedding.embeddings self) = 3%nat) /\
  MultiEmbedding.__init__
    (fun size dim => Ok (Tensor [Z.to_nat size; Z.to_nat dim]
                           (replicate (Z.to_nat size * Z.to_nat dim) 0)))
    [2; 2; 2; 2] [64; 64; 64; 64] "mean" = Raise ValueError.
Proof.
  split.
  - intros self H.
    destruct (multi_embedding_init
                (fun size dim =>
                   Ok (Tensor [Z.to_nat size; Z.to_nat dim]
                         (replicate (Z.to_nat size * Z.to_nat dim) 0)))
                [2; 2; 2; 2] [64; 64; 64] "cat") as [Hlen _].
    destruct (Hlen self H) as [E _]. exact E.
  - apply (multi_embedding_init
             (fun size dim =>
                Ok (Tensor [Z.to_nat size; Z.to_nat dim]
                      (replicate (Z.to_nat size * Z.to_nat dim) 0)))
             [2; 2; 2; 2] [64; 64; 64; 64] "mean");
      [intros; exact I | discriminate | discriminate].
Defined.

(** ** One step of the code decoder *)

Section StepFacts.
Context {A : Type}.
Local Close Scope string_scope.
Local Open Scope nat_scope.

Import LatePoolingCodeDecoder.

(** [maybe_concat((emb, io, ctx), dim=2)] of tensors of [n x p] rows. *)
Lemma dec_input_shape (with_io : bool) (n p : nat) (emb ctx : tensor A)
  (io : option (tensor A)) :
  shape emb = [n; p; 256] -> wf emb -> shape ctx = [n; p; 512] -> wf ctx ->
  match io with
  | Some t => with_io = true /\ shape t = [n; p; 512] /\ wf t
  | None => with_io = false
  end ->
  exists r,
    karel_modules.maybe_concat [Some emb; io; Some ctx] 2 = Ok (Some r) /\
    shape r = [n; p; decoder_input_size with_io] /\ wf r.
Proof.
  intros Hse Hwe Hsc Hwc Hio.
  destruct io as [t |].
  - destruct Hio as (-> & Hst & Hwt).
    change (karel_modules.maybe_concat [Some emb; Some t; Some ctx] 2)
      with (r ← (acc ← cat2 2 emb t; acc' ← cat2 2 acc ctx; Ok acc');
            Ok (Some r)).
    destruct (cat2_shape 2 emb t) as (r1 & E1 & S1 & W1);
      rewrite ?Hse, ?Hst; cbn [length take drop]; try lia; try reflexivity;
      try assumption.
    rewrite E1. cbn [mbind result_bind Py.bind].
    rewrite Hse, Hst in S1. cbn [take drop dim nth app] in S1.
    destruct (cat2_shape 2 r1 ctx) as (r2 & E2 & S2 & W2);
      rewrite ?S1, ?Hsc; cbn [length take drop]; try lia; try reflexivity;
      try assumption.
    rewrite E2. cbn [mbind result_bind Py.bind].
    rewrite S1, Hsc in S2. cbn [take drop dim nth app] in S2.
    exists r2. split; [reflexivity |]. split; [exact S2 | exact W2].
  - subst with_io.
    change (karel_modules.maybe_concat [Some emb; None; Some ctx] 2)
      with (r ← (acc ← cat2 2 emb ctx; Ok acc); Ok (Some r)).
    destruct (cat2_shape 2 emb ctx) as (r1 & E1 & S1 & W1);
      rewrite ?Hse, ?Hsc; cbn [length take drop]; try lia; try reflexivity;
      try assumption.
    rewrite E1. cbn [mbind result_bind Py.bind].
    rewrite Hse, Hsc in S1. cbn [take drop dim nth app] in S1.
    exists r1. split; [reflexivity |]. split; [exact S1 | exact W1].
Qed.


Lemma decoder_input_size_pos (with_io : bool) : 1 <= decoder_input_size with_io.
Proof. unfold decoder_input_size. lia. Qed.

(** One decoding step on a state and a memory of [n] rows: it returns, the
    new state has [n] rows again and the logits have one row per example. *)
Lemma compute_next_token_logits_rows (self : t A) (with_io : bool)
  (vocab n p len : nat) (state : State A) (memory : Memory A)
  (emb : tensor A) :
  layers_accept (weights self) (decoder_input_size with_io) vocab ->
  trace_attention self <> None ->
  state_rows n p state -> memory_rows with_io n p len memory ->
  shape emb = [n; p; 256] -> wf emb -> 1 <= p -> 1 <= len ->
  exists state' logits,
    compute_next_token_logits self state memory emb = Ok (state', logits) /\
    state_rows n p state' /\ shape logits = [n; vocab] /\ wf logits.
Proof.
  intros (_ & Hdec & Hatt & Hout) Hta
    (Hp & (ctx & Hctx & Hsctx & Hwctx) & Hsh & Hwh & Hsc & Hwc)
    (Hio & tr & Htr & Hsm & Hwm & Hsk & Hwk) Hse Hwe H1p H1l.
  pose proof (decoder_input_size_pos with_io) as Hdin.
  set (din := decoder_input_size with_io) in *.
  unfold compute_next_token_logits. rewrite Hctx, Htr, Hp.
  destruct (dec_input_shape with_io n p emb ctx (io memory)
              Hse Hwe Hsctx Hwctx Hio) as (di & Edi & Sdi & Wdi).
  fold din in Sdi. rewrite Edi.
  cbn [mbind result_bind Py.bind getattr].
  assert (Hld : last_dim di = Ok (Z.of_nat din))
    by (unfold last_dim; rewrite Sdi; reflexivity).
  rewrite Hld. cbn [mbind result_bind Py.bind].
  (* dec_input.view(-1, din) *)
  destruct (view_infer di [] [din] (n * p)) as (di2 & E2 & S2 & _ & W2);
    [rewrite Sdi, !numel_cons, !numel_nil; lia
    | rewrite !numel_cons, !numel_nil; lia | exact Wdi |].
  cbn [map app] in E2, S2. rewrite E2. cbn [mbind result_bind Py.bind].
  (* flatten(state.h, 1), flatten(state.c, 1) *)
  destruct (view_infer (h state) [2] [256] (n * p)) as (h0 & Eh & Sh & _ & Wh0);
    [rewrite Hsh, !numel_cons, !numel_nil; lia
    | rewrite !numel_cons, !numel_nil; lia | exact Hwh |].
  destruct (view_infer (c state) [2] [256] (n * p)) as (c0 & Ec & Sc & _ & Wc0);
    [rewrite Hsc, !numel_cons, !numel_nil; lia
    | rewrite !numel_cons, !numel_nil; lia | exact Hwc |].
  cbn [map app] in Sh, Sc.
  assert (Fh : karel_modules.flatten (h state) 1 = Ok h0)
    by (unfold karel_modules.flatten; rewrite Hsh; exact Eh).
  assert (Fc : karel_modules.flatten (c state) 1 = Ok c0)
    by (unfold karel_modules.flatten; rewrite Hsc; exact Ec).
  rewrite Fh, Fc. cbn [mbind result_bind Py.bind].
  (* the LSTM *)
  destruct (Hdec (unsqueeze0 di2) h0 c0 (n * p))
    as (o & h1 & c1 & Ed & So & Wo & Sh1 & Wh1 & Sc1 & Wc1);
    [cbn [unsqueeze0 shape]; rewrite S2; reflexivity
    | unfold wf in *; cbn [unsqueeze0 shape data]; rewrite numel_cons; lia
    | exact Sh | exact Wh0 | exact Sc | exact Wc0 |].
  rewrite Ed. cbn [mbind result_bind Py.bind].
  (* view_as *)
  destruct (view_full_wf h1 [2; n; p; 256]) as (h1' & Eh1 & Sh1' & _ & Wh1');
    [rewrite Sh1, !numel_cons, !numel_nil; lia | exact Wh1 |].
  destruct (view_full_wf c1 [2; n; p; 256]) as (c1' & Ec1 & Sc1' & _ & Wc1');
    [rewrite Sc1, !numel_cons, !numel_nil; lia | exact Wc1 |].
  assert (Vh : view_as h1 (h state) = Ok h1')
    by (unfold view_as; rewrite Hsh; exact Eh1).
  assert (Vc : view_as c1 (c state) = Ok c1')
    by (unfold view_as; rewrite Hsc; exact Ec1).
  rewrite Vh, Vc. cbn [mbind result_bind Py.bind].
  (* the attention over the trace *)
  destruct (trace_attention self) as [att |]; [| contradiction].
  cbn [mbind result_bind Py.bind getattr].
  destruct (view_infer (MaskedMemory.memory tr) [] [len; 512] (n * p))
    as (m0 & Em & Sm & _ & Wm);
    [rewrite Hsm, !numel_cons, !numel_nil; lia
    | rewrite !numel_cons, !numel_nil; lia | exact Hwm |].
  destruct (view_infer (MaskedMemory.attn_mask tr) [] [len] (n * p))
    as (k0 & Ek & Sk & _ & Wk);
    [rewrite Hsk, !numel_cons, !numel_nil; lia
    | rewrite !numel_cons, !numel_nil; lia | exact Hwk |].
  cbn [map app] in Sm, Sk.
  assert (Fm : karel_modules.flatten (MaskedMemory.memory tr) 0 = Ok m0)
    by (unfold karel_modules.flatten; rewrite Hsm; exact Em).
  assert (Fk : karel_modules.flatten (MaskedMemory.attn_mask tr) 0 = Ok k0)
    by (unfold karel_modules.flatten; rewrite Hsk; exact Ek).
  rewrite Fm, Fk. cbn [mbind result_bind Py.bind].
  assert (Sq : shape (squeeze0 o) = [n * p; 256])
    by (unfold squeeze0; rewrite So; reflexivity).
  assert (Wq : wf (squeeze0 o)).
  { unfold wf in *. unfold squeeze0. rewrite So. cbn [shape data].
    rewrite Wo, So, !numel_cons. lia. }
  destruct (Hatt (squeeze0 o) m0 k0 (n * p) len Sq Wq Sm Wm Sk Wk)
    as (nc & Enc & Snc & Wnc).
  rewrite Enc. cbn [mbind result_bind Py.bind].
  (* emb_for_logits *)
  change (karel_modules.maybe_concat [Some nc; Some (squeeze0 o)] 1)
    with (r ← (acc ← cat2 1 nc (squeeze0 o); Ok acc); Ok (Some r)).
  destruct (cat2_shape 1 nc (squeeze0 o)) as (e & Ee & Se & We);
    rewrite ?Snc, ?Sq; cbn [length take drop]; try lia; try reflexivity;
    try assumption.
  rewrite Snc, Sq in Se. cbn [take drop dim nth app] in Se.
  rewrite Ee. cbn [mbind result_bind Py.bind getattr].
  (* pooling and projection *)
  destruct (pool_rows (emax (weights self)) p n 768 e Se We H1p ltac:(lia))
    as (pooled & Epool & Spool & Wpool & _).
  rewrite Epool. cbn [mbind result_bind Py.bind].
  destruct (Hout pooled n Spool Wpool) as (lg & Eout & Slg & Wlg).
  rewrite Eout. cbn [mbind result_bind Py.bind].
  (* the new context *)
  assert (Hln : last_dim nc = Ok 512%Z)
    by (unfold last_dim; rewrite Snc; reflexivity).
  rewrite Hln. cbn [mbind result_bind Py.bind].
  destruct (view_infer nc [] [p; 512] n) as (ctx' & Ectx & Sctx & _ & Wctx);
    [rewrite Snc, !numel_cons, !numel_nil; lia
    | rewrite !numel_cons, !numel_nil; lia | exact Wnc |].
  cbn [map app] in Ectx, Sctx.
  change (Z.of_nat 512) with 512%Z in Ectx.
  rewrite Ectx. cbn [mbind result_bind Py.bind].
  eexists _, _. split; [reflexivity |]. split; [| split; assumption].
  unfold state_rows. cbn [pairs_per_example context h c].
  split; [reflexivity |]. split; [exists ctx'; auto |]. auto.
Qed.

End StepFacts.

(** ** Teacher-forced decoding *)

Section LoopFacts.
Context {A : Type}.
Local Close Scope string_scope.
Local Open Scope nat_scope.

Import LatePoolingCodeDecoder.

Lemma slice0_shape {X} (t : tensor X) (n : nat) (rest : list nat) (bs : nat) :
  shape t = n :: rest -> wf t -> bs <= n ->
  exists r, slice0 t (Z.of_nat bs) = Ok r /\ shape r = bs :: rest /\ wf r.
Proof.
  intros Hs Hwf Hb.
  destruct (slice0_rows t n rest (Z.of_nat bs) Hs Hwf ltac:(lia))
    as (r & E & S & W & _).
  rewrite Nat2Z.id in S. exists r. auto.
Qed.

Lemma slice1_shape {X} (t : tensor X) (n0 n1 : nat) (rest : list nat)
  (bs : nat) :
  shape t = n0 :: n1 :: rest -> wf t -> bs <= n1 ->
  exists r, slice1 t (Z.of_nat bs) = Ok r /\ shape r = n0 :: bs :: rest /\ wf r.
Proof.
  intros Hs Hwf Hb.
  destruct (slice1_rows t n0 n1 rest (Z.of_nat bs) Hs Hwf ltac:(lia))
    as (r & E & S & W & _).
  rewrite Nat2Z.id in S. exists r. auto.
Qed.

Lemma truncate_state_rows (cur bs p : nat) (s : State A) :
  state_rows cur p s -> bs <= cur ->
  exists s', truncate s (Z.of_nat bs) = Ok s' /\ state_rows bs p s'.
Proof.
  intros (Hp & (ctx & Hctx & Hsctx & Hwctx) & Hsh & Hwh & Hsc & Hwc) Hb.
  destruct (slice0_shape ctx cur [p; 512] bs Hsctx Hwctx Hb)
    as (ctx' & E0 & S0 & W0).
  destruct (slice1_shape (h s) 2 cur [p; 256] bs Hsh Hwh Hb)
    as (h' & E1 & S1 & W1).
  destruct (slice1_shape (c s) 2 cur [p; 256] bs Hsc Hwc Hb)
    as (c' & E2 & S2 & W2).
  unfold truncate. rewrite Hctx, E0, E1, E2.
  eexists. split; [reflexivity |].
  unfold state_rows. cbn [pairs_per_example context h c].
  split; [exact Hp |]. split; [exists ctx'; auto |]. auto.
Qed.

Lemma truncate_memory_rows (with_io : bool) (B bs p len : nat)
  (full : Memory A) :
  memory_rows with_io B p len full -> bs <= B ->
  exists io' tr tr',
    trace full = Some tr /\
    match io full with
    | Some t => exists t', slice0 t (Z.of_nat bs) = Ok t' /\ io' = Some t'
    | None => io' = None
    end /\
    MaskedMemory.apply (fun X t => slice0 t (Z.of_nat bs)) tr = Ok tr' /\
    memory_rows with_io bs p len (Build_Memory io' (Some tr')).
Proof.
  intros (Hio & tr & Htr & Hsm & Hwm & Hsk & Hwk) Hb.
  destruct (slice0_shape (MaskedMemory.memory tr) B [p; len; 512] bs
              Hsm Hwm Hb) as (m' & Em & Sm & Wm).
  destruct (slice0_shape (MaskedMemory.attn_mask tr) B [p; len] bs
              Hsk Hwk Hb) as (k' & Ek & Sk & Wk).
  assert (Happ : MaskedMemory.apply (fun X t => slice0 t (Z.of_nat bs)) tr
                 = Ok (MaskedMemory.Build_t m' k')).
  { unfold MaskedMemory.apply. rewrite Em, Ek. reflexivity. }
  destruct (io full) as [t |] eqn:Eio.
  - destruct Hio as (Hw & Hst & Hwt).
    destruct (slice0_shape t B [p; 512] bs Hst Hwt Hb) as (t' & Et & St & Wt).
    exists (Some t'), tr, (MaskedMemory.Build_t m' k').
    split; [exact Htr |]. split; [exists t'; auto |]. split; [exact Happ |].
    unfold memory_rows. cbn [io trace]. split; [auto |].
    eexists. split; [reflexivity |]. cbn. auto.
  - exists None, tr, (MaskedMemory.Build_t m' k').
    split; [exact Htr |]. split; [reflexivity |]. split; [exact Happ |].
    unfold memory_rows. cbn [io trace]. split; [exact Hio |].
    eexists. split; [reflexivity |]. cbn. auto.
Qed.


Lemma code_state_init (self : t A) (B p : nat) :
  use_trace_memory self = true ->
  exists state,
    init_state self (Z.of_nat B) (Z.of_nat p) = Ok state /\
    state_rows B p state.
Proof.
  intros Huse. unfold init_state, karel_modules.lstm_init. rewrite Huse.
  change [Z.of_nat B; Z.of_nat p; 512%Z]
    with (map Z.of_nat [B; p; 512]).
  change ((2%Z :: [Z.of_nat B; Z.of_nat p]) ++ [256%Z])%list
    with (map Z.of_nat [2; B; p; 256]).
  rewrite !zeros_shape. cbn [mbind result_bind Py.bind].
  eexists. split; [reflexivity |].
  unfold state_rows. cbn [pairs_per_example context h c].
  split; [reflexivity |]. split.
  - eexists. split; [reflexivity |]. split; [reflexivity |].
    unfold wf. cbn [shape data]. apply length_replicate.
  - split; [reflexivity |]. split; [unfold wf; apply length_replicate |].
    split; [reflexivity |]. unfold wf. apply length_replicate.
Qed.

Lemma cat_onto_rows (vocab : nat) (steps : list (tensor A)) :
  forall (sizes : list nat) (acc : tensor A) (a : nat),
    shape acc = [a; vocab] -> wf acc ->
    Forall2 (fun bs l => shape l = [bs; vocab] /\ wf l) sizes steps ->
    exists r,
      cat_onto 0 acc steps = Ok r /\
      shape r = [a + sum_list sizes; vocab] /\ wf r.
Proof.
  induction steps as [| l steps IH]; intros sizes acc a Hs Hwf Hall.
  - inversion Hall; subst. exists acc. rewrite Nat.add_0_r. auto.
  - inversion Hall as [| bs l' sizes' steps' [Hsl Hwl] Hall']; subst.
    destruct (cat2_shape 0 acc l) as (r1 & E1 & S1 & W1);
      rewrite ?Hs, ?Hsl; cbn [length take drop]; try lia; try reflexivity;
      try assumption.
    rewrite Hs, Hsl in S1. cbn [take drop dim nth app] in S1.
    destruct (IH sizes' r1 (a + bs) S1 W1 Hall') as (r & E & S & W).
    exists r. cbn [cat_onto]. rewrite E1. cbn [mbind result_bind Py.bind].
    split; [exact E |]. split; [| exact W].
    rewrite S. change (sum_list (bs :: sizes')) with (bs + sum_list sizes').
    f_equal. lia.
Qed.

Lemma traverse_norm_index (n : nat) (l : list Z) :
  Forall (fun i => (0 <= i < Z.of_nat n)%Z) l ->
  traverse (norm_index n) l = Ok (map Z.to_nat l).
Proof.
  induction 1 as [| i l Hi _ IH]; [reflexivity |].
  cbn [traverse]. rewrite norm_index_in_range by exact Hi.
  cbn [mbind result_bind Py.bind]. rewrite IH. reflexivity.
Qed.

(** [t[l]] for a list of row numbers. *)
Lemma index_list_shape {X} (t : tensor X) (n : nat) (rest : list nat)
  (l : list Z) :
  shape t = n :: rest -> wf t ->
  Forall (fun i => (0 <= i < Z.of_nat n)%Z) l ->
  exists r, index_list t l = Ok r /\ shape r = length l :: rest /\ wf r.
Proof.
  intros Hs Hwf Hl. unfold index_list. rewrite Hs.
  rewrite (traverse_norm_index n l Hl). cbn [mbind result_bind Py.bind].
  eexists. split; [reflexivity |]. split; [reflexivity |].
  unfold wf in *. cbn [shape data]. rewrite Hs, numel_cons in Hwf.
  rewrite numel_cons, (length_concat_uniform (numel rest)).
  - rewrite !length_map. reflexivity.
  - apply Forall_forall. intros b Hb. apply list_elem_of_In in Hb.
    apply in_map_iff in Hb as (k & <- & Hk).
    apply in_map_iff in Hk as (i & <- & Hi).
    apply list_elem_of_In in Hi. rewrite Forall_forall in Hl.
    specialize (Hl i Hi). apply length_chunk. rewrite Hwf.
    apply Nat.mul_le_mono_r. lia.
Qed.

(** The stand-in layers of [Examples] are layers as [layers_accept] asks. *)
Lemma fit_rows_shape (w : nat) (t : tensor Z) :
  shape (Examples.fit_rows w t) = [dim0 t; w] /\ wf (Examples.fit_rows w t).
Proof.
  split; [reflexivity |]. unfold wf, Examples.fit_rows. cbn [shape data].
  rewrite !numel_cons, numel_nil, (length_concat_uniform w).
  - rewrite length_map, length_seq. lia.
  - apply Forall_forall. intros b Hb. apply list_elem_of_In in Hb.
    apply in_map_iff in Hb as (i & <- & _).
    rewrite length_take, length_app, length_replicate. lia.
Qed.

(** The weight of the stand-in embedding is a matrix of [vocab] rows. *)
Lemma embed_weight_shape (vocab w : nat) :
  shape (Examples.embed_weight vocab w) = [vocab; w] /\
  wf (Examples.embed_weight vocab w).
Proof.
  split; [reflexivity |]. unfold wf, Examples.embed_weight. cbn [shape data].
  rewrite !numel_cons, numel_nil, (length_concat_uniform w).
  - rewrite length_map, length_seq. lia.
  - apply Forall_forall. intros b Hb. apply list_elem_of_In in Hb.
    apply in_map_iff in Hb as (i & <- & _). apply length_replicate.
Qed.

(** The stand-in embedding looks up the tokens of its vocabulary. *)
Lemma embed_accepts (vocab w : nat) (tokens : list Z) :
  tokens_below vocab tokens ->
  exists e,
    Examples.embed vocab w tokens = Ok e /\
    shape e = [length tokens; w] /\ wf e.
Proof.
  intros Htok. destruct (embed_weight_shape vocab w) as [Sw Ww].
  destruct (embedding_rows (Examples.embed_weight vocab w) vocab w tokens
              Sw Ww Htok) as (e & Ee & Se & We & _).
  exists e. auto.
Qed.

Lemma code_weights_accept (din vocab : nat) :
  layers_accept (Examples.code_weights vocab) din vocab.
Proof.
  unfold layers_accept, Examples.code_weights.
  cbn [code_embed_fn decoder_fn trace_attention_fn out_fn].
  split; [| split; [| split]].
  - intros tokens Htok. apply embed_accepts, Htok.
  - intros x h0 c0 n Hx _ Hh Wh Hc Wc. unfold Examples.lstm. rewrite Hx.
    eexists _, _, _. split; [reflexivity |].
    destruct (fit_rows_shape 256 (squeeze0 x)) as [S W].
    assert (Hd : dim0 (squeeze0 x) = n).
    { unfold squeeze0, dim0. rewrite Hx. reflexivity. }
    rewrite Hd in S.
    split; [cbn [unsqueeze0 shape]; rewrite S; reflexivity |].
    split; [| auto].
    unfold wf in *. cbn [unsqueeze0 shape data]. rewrite W, S, !numel_cons. lia.
  - intros query mem mask n len Hq _ _ _ _ _. eexists. split; [reflexivity |].
    destruct (fit_rows_shape 512 query) as [S W].
    unfold dim0 in S. rewrite Hq in S. auto.
  - intros x n Hx _. eexists. split; [reflexivity |].
    destruct (fit_rows_shape vocab x) as [S W].
    unfold dim0 in S. rewrite Hx in S. auto.
Qed.

End LoopFacts.

(** ** The constructor of the code decoder *)

Section UsageFacts.

Lemma list_mem_elem_of (x : string) (l : list string) :
  list_mem x l = true <-> x ∈ l.
Proof.
  unfold list_mem. rewrite existsb_exists. split.
  - intros (y & Hy & E). apply String.eqb_eq in E. subst y.
    apply list_elem_of_In. exact Hy.
  - intros H. exists x. split; [apply list_elem_of_In; exact H |].
    apply String.eqb_refl.
Qed.

Lemma list_remove_perm (x : string) (l : list string) :
  x ∈ l -> l ≡ₚ x :: list_remove x l.
Proof.
  induction l as [| y l IH]; intros H; [inversion H |].
  cbn [list_remove]. destruct (String.eqb x y) eqn:E.
  - apply String.eqb_eq in E. subst y. reflexivity.
  - apply String.eqb_neq in E. apply elem_of_cons in H as [H | H]; [congruence |].
    rewrite (IH H) at 1. apply Permutation_swap.
Qed.

(** What [set_pop] does to a list: a value that is there goes once, and the
    call tells whether it was there. *)
Lemma set_pop_list_spec (l l' : list string) (x : string) (b : bool) :
  karel_modules.set_pop_list l x = (b, l') ->
  (b = true /\ x ∈ l /\ (l ≡ₚ x :: l')) \/ (b = false /\ (x ∉ l) /\ l' = l).
Proof.
  unfold karel_modules.set_pop_list. destruct (list_mem x l) eqn:E.
  - intros [= <- <-]. left. apply list_mem_elem_of in E.
    split; [reflexivity |]. split; [exact E | apply list_remove_perm, E].
  - intros [= <- <-]. right. split; [reflexivity |]. split; [| reflexivity].
    intros H. apply list_mem_elem_of in H. congruence.
Qed.

End UsageFacts.

(** X6.  [LatePoolingCodeDecoder.__init__] returns exactly when
    [num_placeholders] is 0 and [karel_trace_usage], split at the commas,
    names each of [memory], [state] and [none] at most once and nothing
    else, with [state] only beside [none].  The decoder it returns never
    uses the trace state, and uses the trace memory (and has the attention
    over the trace) exactly when [memory] is named and [none] is not. *)
Theorem code_decoder_init_usage {A : Type}
  (w : LatePoolingCodeDecoder.Weights A) (vocab_size : Z) (args : Args) :
  (is_ok (LatePoolingCodeDecoder.__init__ w vocab_size args) <->
   num_placeholders args = 0 /\
   NoDup (Py.split "," (karel_trace_usage args)) /\
   (forall u, u ∈ Py.split "," (karel_trace_usage args) ->
      u = "memory" \/ u = "state" \/ u = "none") /\
   ("state" ∈ Py.split "," (karel_trace_usage args) ->
    "none" ∈ Py.split "," (karel_trace_usage args))) /\
  (forall self,
     LatePoolingCodeDecoder.__init__ w vocab_size args = Ok self ->
     LatePoolingCodeDecoder.use_trace_state self = false /\
     (LatePoolingCodeDecoder.use_trace_memory self = true <->
      "memory" ∈ Py.split "," (karel_trace_usage args) /\
      "none" ∉ Py.split "," (karel_trace_usage args)) /\
     (LatePoolingCodeDecoder.trace_attention self <> None <->
      LatePoolingCodeDecoder.use_trace_memory self = true) /\
     LatePoolingCodeDecoder.use_io_embed self
     = negb (String.eqb (karel_io_enc args) "none")).
Proof.
  unfold LatePoolingCodeDecoder.__init__.
  set (usage := Py.split "," (karel_trace_usage args)).
  destruct (karel_modules.set_pop_list usage "memory") as [b1 l1] eqn:E1.
  destruct (karel_modules.set_pop_list l1 "state") as [b2 l2] eqn:E2.
  destruct (karel_modules.set_pop_list l2 "none") as [b3 l3] eqn:E3.
  apply set_pop_list_spec in E1, E2, E3.
  assert (Hne : "memory" <> "state" /\ "memory" <> "none" /\ "state" <> "none")
    by (repeat split; discriminate).
  destruct Hne as (Hms & Hmn & Hsn).
  (* where the three names are, in terms of the whole list *)
  assert (Hstate : "state" ∈ usage <-> b2 = true).
  { destruct E1 as [(_ & _ & P1) | (_ & _ & ->)];
      destruct E2 as [(-> & I2 & _) | (-> & I2 & _)];
      rewrite ?P1, ?elem_of_cons; split; intros; try tauto; try discriminate.
    destruct H as [H | H]; [congruence | tauto]. }
  assert (Hnone : "none" ∈ usage <-> b3 = true).
  { destruct E1 as [(_ & _ & P1) | (_ & _ & ->)];
      destruct E2 as [(_ & _ & P2) | (_ & _ & ->)];
      destruct E3 as [(-> & I3 & _) | (-> & I3 & _)];
      rewrite ?P1, ?P2, ?elem_of_cons; split; intros H; try tauto;
        try discriminate;
      repeat (destruct H as [H | H]; [congruence |]); tauto. }
  assert (Hmem : "memory" ∈ usage <-> b1 = true).
  { destruct E1 as [(-> & I1 & _) | (-> & I1 & _)]; split; intros; try tauto;
      discriminate. }
  assert (Hperm : usage ≡ₚ (if b1 then ["memory"] else [])
                           ++ (if b2 then ["state"] else [])
                           ++ (if b3 then ["none"] else []) ++ l3).
  { destruct E1 as [(-> & _ & P1) | (-> & _ & ->)];
      destruct E2 as [(-> & _ & P2) | (-> & _ & ->)];
      destruct E3 as [(-> & _ & P3) | (-> & _ & ->)];
      cbn [app]; rewrite ?P1, ?P2, ?P3; reflexivity. }
  assert (Hl3 : NoDup usage ->
                (forall u, u ∈ usage ->
                   u = "memory" \/ u = "state" \/ u = "none") -> l3 = []).
  { intros Hnd Hsub. destruct l3 as [| u l3']; [reflexivity | exfalso].
    assert (Hu : u ∈ usage)
      by (rewrite Hperm, !elem_of_app, elem_of_cons; auto).
    rewrite Hperm in Hnd.
    destruct (Hsub u Hu) as [-> | [-> | ->]].
    - assert (b1 = true) by (apply Hmem; exact Hu). subst b1.
      cbn [app] in Hnd. apply NoDup_cons in Hnd as [Hnd _]. apply Hnd.
      rewrite !elem_of_app, elem_of_cons. auto.
    - assert (b2 = true) by (apply Hstate; exact Hu). subst b2.
      apply NoDup_app in Hnd as (_ & _ & Hnd). cbn [app] in Hnd.
      apply NoDup_cons in Hnd as [Hnd _]. apply Hnd.
      rewrite !elem_of_app, elem_of_cons. auto.
    - assert (b3 = true) by (apply Hnone; exact Hu). subst b3.
      apply NoDup_app in Hnd as (_ & _ & Hnd).
      apply NoDup_app in Hnd as (_ & _ & Hnd). cbn [app] in Hnd.
      apply NoDup_cons in Hnd as [Hnd _]. apply Hnd.
      rewrite elem_of_cons. auto. }
  split.
  - split.
    + (* it returns: the conditions hold *)
      destruct (num_placeholders args =? 0) eqn:Ep; [| intros []].
      apply Z.eqb_eq in Ep. cbn [assert mbind result_bind Py.bind].
      destruct l3 as [| u l3']; [| intros []].
      cbn [assert mbind result_bind Py.bind].
      destruct (negb (if b3 then false else b2)) eqn:Est; [| intros []].
      intros _. split; [exact Ep |]. rewrite app_nil_r in Hperm.
      split; [| split].
      * rewrite Hperm. destruct b1, b2, b3; cbn [app];
          repeat (apply NoDup_cons; split;
                    [rewrite ?elem_of_cons, ?elem_of_nil; intuition discriminate |]);
          apply NoDup_nil_2.
      * intros u. rewrite Hperm, !elem_of_app.
        destruct b1, b2, b3; rewrite ?elem_of_cons, ?elem_of_nil; tauto.
      * rewrite Hstate, Hnone. destruct b2, b3; try discriminate; auto.
    + (* the conditions hold: it returns *)
      intros (Ep & Hnd & Hsub & Hsn').
      apply Z.eqb_eq in Ep. rewrite Ep.
      cbn [assert mbind result_bind Py.bind].
      rewrite (Hl3 Hnd Hsub). cbn [assert mbind result_bind Py.bind].
      rewrite Hstate, Hnone in Hsn'.
      destruct b2, b3; cbn; auto. discriminate (Hsn' eq_refl).
  - intros self.
    destruct (num_placeholders args =? 0); [| discriminate].
    cbn [assert mbind result_bind Py.bind].
    destruct l3 as [| u l3']; [| discriminate].
    cbn [assert mbind result_bind Py.bind].
    destruct (negb (if b3 then false else b2)) eqn:Est; [| discriminate].
    cbn [assert mbind result_bind Py.bind]. intros [= <-].
    cbn [LatePoolingCodeDecoder.use_trace_state
         LatePoolingCodeDecoder.use_trace_memory
         LatePoolingCodeDecoder.trace_attention
         LatePoolingCodeDecoder.use_io_embed].
    split; [destruct b3, b2; try discriminate; reflexivity |].
    split; [| split; [| reflexivity]].
    + rewrite Hmem. split.
      * intros H. destruct b3; [discriminate |]. split; [exact H |].
        intros Hn. apply Hnone in Hn. discriminate.
      * intros [-> Hn]. destruct b3; [| reflexivity].
        exfalso. apply Hn, Hnone. reflexivity.
    + destruct (if b3 then false else b1); split; intros H; congruence.
Qed.

(** ** The constructor of the trace encoder *)

Section TraceEncoderOptions.

(** The options of [karel_trace_enc], what follows the first colon, against
    the two flags popped from them and the options left. *)
Lemma options_pops (opts o1 o2 : gset string) (i c : bool) :
  karel_modules.set_pop opts "interleave" = (i, o1) ->
  karel_modules.set_pop o1 "concat" = (c, o2) ->
  ((xorb i c = true /\ o2 = ∅ /\ i = true) <-> opts = {[ "interleave" ]}) /\
  ((xorb i c = true /\ o2 = ∅ /\ i = false) <-> opts = {[ "concat" ]}).
Proof.
  unfold karel_modules.set_pop.
  assert (Hne : "interleave" <> "concat") by discriminate.
  assert (Hone : forall (s : gset string) (x : string),
             x ∈ s -> s ∖ {[ x ]} = ∅ -> s = {[ x ]}).
  { intros s x Hx He. apply set_eq. intros y. rewrite elem_of_singleton. split.
    - intros Hy. destruct (decide (y = x)) as [-> | Hn]; [reflexivity |].
      exfalso. assert (Hin : y ∈ s ∖ {[ x ]}).
      { apply elem_of_difference. split; [exact Hy |].
        rewrite elem_of_singleton. exact Hn. }
      rewrite He in Hin. exact (not_elem_of_empty y Hin).
    - intros ->. exact Hx. }
  assert (Hdiff : forall x : string, ({[ x ]} : gset string) ∖ {[ x ]} = ∅).
  { intros x. apply set_eq. intros y.
    rewrite elem_of_difference, elem_of_singleton, elem_of_empty. tauto. }
  assert (Hin : forall (s : gset string) (x y : string),
             s = {[ y ]} -> x ∈ s -> x = y).
  { intros s x y -> H. apply elem_of_singleton in H. exact H. }
  destruct (decide ("interleave" ∈ opts)) as [Hi | Hi]; intros [= <- <-];
    destruct (decide ("concat" ∈ _)) as [Hc | Hc]; intros [= <- <-];
    cbn [xorb]; (split; split).
  - intros (? & _); discriminate.
  - intros He. exfalso. apply elem_of_difference in Hc as [Hc _].
    apply Hne. symmetry. exact (Hin _ _ _ He Hc).
  - intros (? & _); discriminate.
  - intros He. exfalso. apply Hne. exact (Hin _ _ _ He Hi).
  - intros (_ & He & _). exact (Hone _ _ Hi He).
  - intros ->. rewrite Hdiff. auto.
  - intros (_ & _ & ?); discriminate.
  - intros He. exfalso. apply Hne. exact (Hin _ _ _ He Hi).
  - intros (_ & _ & ?); discriminate.
  - intros He. exfalso. apply Hi. rewrite He. apply elem_of_singleton.
    reflexivity.
  - intros (_ & He & _). exact (Hone _ _ Hc He).
  - intros ->. rewrite Hdiff. auto.
  - intros (? & _); discriminate.
  - intros He. exfalso. apply Hi. rewrite He. apply elem_of_singleton.
    reflexivity.
  - intros (? & _); discriminate.
  - intros He. exfalso. apply Hc. rewrite He. apply elem_of_singleton.
    reflexivity.
Qed.

Lemma make_grid_encoder_cases (args : Args) :
  (exists gl,
     IndividualTraceEncoder.make_grid_encoder args = Ok gl /\
     (karel_trace_grid_enc args = "lgrl" \/
      karel_trace_grid_enc args = "presnet" \/
      karel_trace_grid_enc args = "none") /\
     ((karel_trace_grid_enc args = "none" /\ gl = none_fn) \/
      (karel_trace_grid_enc args <> "none" /\ is_none_fn gl = false))) \/
  (IndividualTraceEncoder.make_grid_encoder args = Raise ValueError /\
   ~ (karel_trace_grid_enc args = "lgrl" \/
      karel_trace_grid_enc args = "presnet" \/
      karel_trace_grid_enc args = "none")).
Proof.
  unfold IndividualTraceEncoder.make_grid_encoder.
  destruct (String.eqb_spec (karel_trace_grid_enc args) "lgrl") as [e | n1];
    [left; eexists; split; [reflexivity |]; rewrite e; split; [auto |];
     right; split; [discriminate | reflexivity] |].
  destruct (String.eqb_spec (karel_trace_grid_enc args) "presnet") as [e | n2];
    [left; eexists; split; [reflexivity |]; rewrite e; split; [auto |];
     right; split; [discriminate | reflexivity] |].
  destruct (String.eqb_spec (karel_trace_grid_enc args) "none") as [e | n3];
    [left; eexists; split; [reflexivity |]; rewrite e; split; [auto |];
     left; split; reflexivity |].
  right. split; [reflexivity | tauto].
Qed.

Lemma make_cond_embed_cases (args : Args) :
  (exists cl,
     IndividualTraceEncoder.make_cond_embed args = Ok cl /\
     (karel_trace_cond_enc args = "sum" \/
      karel_trace_cond_enc args = "none") /\
     ((karel_trace_cond_enc args = "none" /\ cl = none_fn) \/
      (karel_trace_cond_enc args <> "none" /\ is_none_fn cl = false))) \/
  (IndividualTraceEncoder.make_cond_embed args = Raise TypeError /\
   karel_trace_cond_enc args = "concat") \/
  (IndividualTraceEncoder.make_cond_embed args = Raise ValueError /\
   ~ (karel_trace_cond_enc args = "concat" \/
      karel_trace_cond_enc args = "sum" \/
      karel_trace_cond_enc args = "none")).
Proof.
  unfold IndividualTraceEncoder.make_cond_embed.
  destruct (String.eqb_spec (karel_trace_cond_enc args) "concat") as [e | n1];
    [right; left; split; [reflexivity | exact e] |].
  destruct (String.eqb_spec (karel_trace_cond_enc args) "sum") as [e | n2];
    [left; eexists; split; [reflexivity |]; rewrite e; split; [auto |];
     right; split; [discriminate | reflexivity] |].
  destruct (String.eqb_spec (karel_trace_cond_enc args) "none") as [e | n3];
    [left; eexists; split; [reflexivity |]; rewrite e; split; [auto |];
     left; split; reflexivity |].
  right. right. split; [reflexivity | tauto].
Qed.

Lemma make_action_embed_cases (args : Args) :
  (karel_trace_action_enc args = "emb" /\
   karel_trace_action_enc args <> "none" /\
   exists l, IndividualTraceEncoder.make_action_embed args = Some l /\
             is_none_fn l = false) \/
  (karel_trace_action_enc args <> "emb" /\
   karel_trace_action_enc args = "none" /\
   IndividualTraceEncoder.make_action_embed args = Some none_fn) \/
  (karel_trace_action_enc args <> "emb" /\
   karel_trace_action_enc args <> "none" /\
   IndividualTraceEncoder.make_action_embed args = None).
Proof.
  unfold IndividualTraceEncoder.make_action_embed.
  destruct (String.eqb_spec (karel_trace_action_enc args) "emb") as [e | n1];
    [left; rewrite e; repeat split; try discriminate; eauto |].
  destruct (String.eqb_spec (karel_trace_action_enc args) "none") as [e | n2];
    [right; left; rewrite e; repeat split; discriminate |].
  do 2 right. auto.
Qed.

End TraceEncoderOptions.

(** X7.  [IndividualTraceEncoder.__init__] returns exactly for these
    arguments: a grid encoding among [lgrl], [presnet], [none]; a condition
    encoding among [sum], [none] (for [concat] the embeddings are asked for
    with the width [256 / 4], a float, and are not built); after the first
    colon of
    [karel_trace_enc], the one option [interleave] or the one option
    [concat]; with [interleave], the action encoding [emb] and a grid or a
    condition encoding that is not [none]; with [concat], the action
    encoding [emb], or the action encoding [none] and a grid or a condition
    encoding that is not [none].  The encoder it returns interleaves exactly
    when the option was [interleave]. *)
Theorem trace_encoder_init_accepts (args : Args) :
  (is_ok (IndividualTraceEncoder.__init__ args) <->
   (karel_trace_grid_enc args = "lgrl" \/
    karel_trace_grid_enc args = "presnet" \/
    karel_trace_grid_enc args = "none") /\
   (karel_trace_cond_enc args = "sum" \/
    karel_trace_cond_enc args = "none") /\
   ((list_to_set (tail (Py.split ":" (karel_trace_enc args)))
     = ({[ "interleave" ]} : gset string) /\
     karel_trace_action_enc args = "emb" /\
     (karel_trace_grid_enc args <> "none" \/
      karel_trace_cond_enc args <> "none")) \/
    (list_to_set (tail (Py.split ":" (karel_trace_enc args)))
     = ({[ "concat" ]} : gset string) /\
     (karel_trace_action_enc args = "emb" \/
      karel_trace_action_enc args = "none" /\
      (karel_trace_grid_enc args <> "none" \/
       karel_trace_cond_enc args <> "none"))))) /\
  (forall e,
     IndividualTraceEncoder.__init__ args = Ok e ->
     (IndividualTraceEncoder.interleave e = true <->
      list_to_set (tail (Py.split ":" (karel_trace_enc args)))
      = ({[ "interleave" ]} : gset string))).
Proof.
  unfold IndividualTraceEncoder.__init__.
  set (opts := list_to_set (tail (Py.split ":" (karel_trace_enc args)))).
  destruct (karel_modules.set_pop opts "interleave") as [i o1] eqn:E1.
  destruct (karel_modules.set_pop o1 "concat") as [c o2] eqn:E2.
  destruct (options_pops opts o1 o2 i c E1 E2) as [HI HC].
  clear E1 E2. clearbody opts.
  destruct (make_grid_encoder_cases args)
    as [(gl & -> & Hgv & Hg) | (-> & Hgv)];
    cbn [mbind result_bind Py.bind is_ok];
    [| split; [split; [intros [] | intros (H & _); exact (Hgv H)]
              | intros e; discriminate]].
  destruct (make_cond_embed_cases args)
    as [(cl & -> & Hcv & Hc) | [(-> & Hcv) | (-> & Hcv)]];
    cbn [mbind result_bind Py.bind is_ok];
    [| split; [split; [intros []
                      | intros (_ & H & _); rewrite Hcv in H;
                        destruct H as [H | H]; discriminate H]
              | intros e; discriminate]
     | split; [split; [intros [] | intros (_ & H & _); apply Hcv; tauto]
              | intros e; discriminate]].
  destruct (bool_decide (o2 = ∅)) eqn:Eo;
    [apply bool_decide_eq_true in Eo | apply bool_decide_eq_false in Eo];
    destruct i, c; cbn [xorb] in HI, HC;
    (first [ assert (HI' : opts = {[ "interleave" ]}) by (apply HI; auto)
           | assert (HI' : opts <> {[ "interleave" ]})
               by (intros HH; apply HI in HH; destruct HH as (? & ? & ?);
                   (discriminate || contradiction)) ]);
    (first [ assert (HC' : opts = {[ "concat" ]}) by (apply HC; auto)
           | assert (HC' : opts <> {[ "concat" ]})
               by (intros HH; apply HC in HH; destruct HH as (? & ? & ?);
                   (discriminate || contradiction)) ]);
    clear HI HC;
    cbn [xorb andb negb assert mbind result_bind Py.bind is_ok];
    try (split; [split; [intros []
                        | intros (_ & _ & [(H & _) | (H & _)]); contradiction]
                | intros e; discriminate]).
  - (* the option is [interleave] *)
    destruct (make_action_embed_cases args)
      as [(Ha1 & Ha2 & al & -> & Hal) | [(Ha1 & Ha2 & ->) | (Ha1 & Ha2 & ->)]];
      cbn [getattr mbind result_bind Py.bind is_ok is_none_fn negb assert];
      rewrite ?Hal;
      cbn [getattr mbind result_bind Py.bind is_ok is_none_fn negb assert];
      try (split; [split; [intros [] | intros (_ & _ & Hm); tauto]
                  | intros e; discriminate]).
    destruct Hg as [(Hg & ->) | (Hg & Hgl)], Hc as [(Hc & ->) | (Hc & Hcl)];
      rewrite ?Hgl, ?Hcl;
      cbn [getattr mbind result_bind Py.bind is_ok is_none_fn negb assert];
      rewrite ?Hgl, ?Hcl;
      cbn [getattr mbind result_bind Py.bind is_ok is_none_fn negb assert];
      (split; [split; [first [ intros _; split; [exact Hgv |];
                               split; [exact Hcv | tauto]
                             | intros [] ]
                      | first [ intros _; exact I
                              | intros (_ & _ & Hm); tauto ] ]
              | intros e;
                first [ discriminate
                      | intros [= <-]; cbn [IndividualTraceEncoder.interleave];
                        split; [intros _; exact HI' | reflexivity] ]]).
  - (* the option is [concat] *)
    destruct (make_action_embed_cases args)
      as [(Ha1 & Ha2 & al & -> & Hal) | [(Ha1 & Ha2 & ->) | (Ha1 & Ha2 & ->)]];
      cbn [getattr mbind result_bind Py.bind is_ok is_none_fn negb assert];
      try (split; [split; [intros [] | intros (_ & _ & Hm); tauto]
                  | intros e; discriminate]);
      unfold IndividualTraceEncoder.concat_input_size;
      (destruct Hg as [(Hg & ->) | (Hg & Hgl)], Hc as [(Hc & ->) | (Hc & Hcl)];
       rewrite ?Hgl, ?Hcl, ?Hal;
       cbn [is_none_fn negb];
       match goal with
       | |- context [negb (?a =? 0)] =>
           let v := eval vm_compute in (negb (a =? 0)) in
           change (negb (a =? 0)) with v
       end;
       cbn [getattr mbind result_bind Py.bind is_ok assert];
       (split; [split; [first [ intros _; split; [exact Hgv |];
                                split; [exact Hcv | tauto]
                              | intros [] ]
                       | first [ intros _; exact I
                               | intros (_ & _ & Hm); tauto ] ]
               | intros e;
                 first [ discriminate
                       | intros [= <-]; cbn [IndividualTraceEncoder.interleave];
                         split; [discriminate | intros HH; contradiction] ]])).
Qed.

(** ** Action ids outside the vocabulary *)

Section UnknownAction.
Context {A : Type}.
Local Open Scope nat_scope.

Lemma id_to_action_above (a : Z) : (6 < a)%Z -> id_to_action !! a = None.
Proof.
  intros Ha. destruct (id_to_action !! a) as [name |] eqn:E; [| reflexivity].
  apply id_to_action_spec in E.
  repeat destruct E as [(_ & E) | E]; try destruct E as (_ & E); lia.
Qed.

(** The loop over the beams stops with [KeyError] at the first id that is
    not an action, and such an id among the paired tokens is enough. *)
Lemma advance_beams_unknown (self : TraceDecoder.t A) (l : loc) (m : nat) :
  forall (token : list Z) (i0 : nat) σ (j : nat) (a : Z),
    token !! j = Some a -> j < m -> (6 < a)%Z ->
    exists σ',
      TraceDecoder.advance_beams self l (zip (seq i0 m) token) σ
      = (Raise KeyError, σ').
Proof.
  induction m as [| m IH]; intros token i0 σ j a Hj Hm Ha; [lia |].
  destruct token as [| b token]; [discriminate |].
  cbn [seq zip zip_with TraceDecoder.advance_beams].
  unfold Store.bind at 1. unfold TraceDecoder.advance_beam.
  destruct j as [| j].
  - injection Hj as ->.
    assert (Hlt : (a <? 2)%Z = false) by (apply Z.ltb_ge; lia).
    rewrite Hlt. unfold Store.bind, Store.lift.
    rewrite (id_to_action_above a Ha). eexists. reflexivity.
  - cbn [lookup list_lookup] in Hj.
    destruct (b <? 2)%Z.
    + cbn. exact (IH token (S i0) σ j a Hj ltac:(lia) Ha).
    + unfold Store.bind, Store.lift, Store.read, Store.write.
      destruct (id_to_action !! b) as [name |].
      * exact (IH token (S i0) _ j a Hj ltac:(lia) Ha).
      * eexists. reflexivity.
Qed.

End UnknownAction.

(** X8.  [TraceDecoder.decode_token] with a grid encoder, on a token tensor
    that gives some beam of the field array an id above 6: the call raises
    [KeyError] from the lookup in [id_to_action], before any layer is
    applied, and every array the store held before the call is as it was
    (the world step works on a copy). *)
Theorem decode_token_unknown_action_raises {A : Type}
  (self : TraceDecoder.t A) (token : list Z) (state : TraceDecoderState.t A)
  (memory : TraceDecoder.Memory A) (σ : gmap loc (tensor A))
  (arr : tensor A) (n : nat) (rest : list nat) (j : nat) (a : Z) :
  TraceDecoder.grid_encoder self <> None ->
  σ !! TraceDecoderState.field state = Some arr ->
  shape arr = n :: rest ->
  token !! j = Some a -> (j < n)%nat -> 6 < a ->
  exists σ',
    TraceDecoder.decode_token self token state memory σ
    = (Raise KeyError, σ') /\
    forall l, l ∈ dom σ -> σ' !! l = σ !! l.
Proof.
  intros Henc Hl Hs Hj Hn Ha.
  assert (Hg : exists σ',
             TraceDecoder.advance_grids self token state σ
             = (Raise KeyError, σ')).
  { unfold TraceDecoder.advance_grids.
    destruct (TraceDecoder.grid_encoder self) as [enc |]; [| contradiction].
    unfold Store.bind at 1 2. unfold Store.read at 1. unfold Store.alloc.
    rewrite (lookup_total_correct _ _ _ Hl), Hs.
    destruct (advance_beams_unknown self (fresh (dom σ)) n token 0%nat
                (<[fresh (dom σ) := arr]> σ) j a Hj Hn Ha) as (σ1 & E).
    unfold Store.bind at 1. rewrite E. eexists. reflexivity. }
  destruct Hg as (σ' & Hg). exists σ'. split.
  - unfold TraceDecoder.decode_token, Store.bind. rewrite Hg. reflexivity.
  - exact (proj1 (advance_grids_frame self token state σ _ σ' Hg)).
Qed.

Lemma decode_token_unknown_action_raises_witness :
  exists σ',
    TraceDecoder.decode_token (Examples.trace_decoder (Some LGRLGridEncoder))
      [2; 7; 0] Examples.trace_state Examples.trace_memory_value
      Examples.trace_store
    = (Raise KeyError, σ') /\
    forall l, l ∈ dom Examples.trace_store ->
      σ' !! l = Examples.trace_store !! l.
Proof.
  apply (decode_token_unknown_action_raises
           (Examples.trace_decoder (Some LGRLGridEncoder)) [2; 7; 0]
           Examples.trace_state Examples.trace_memory_value
           Examples.trace_store
           (Tensor [3; 2]%nat [10; 11; 20; 21; 30; 31]) 3 [2%nat] 1 7).
  - discriminate.
  - reflexivity.
  - reflexivity.
  - reflexivity.
  - lia.
  - lia.
Defined.

(** ** Truncating twice, and selecting every beam *)

Section ComposeFacts.
Context {A : Type}.
Local Close Scope string_scope.
Local Open Scope nat_scope.

(** Two tensors with two leading axes are equal when their blocks are. *)
Lemma tensor_eq_rows1 (t1 t2 : tensor A) (n0 n1 : nat) (rest : list nat) :
  shape t1 = n0 :: n1 :: rest -> shape t2 = n0 :: n1 :: rest ->
  wf t1 -> wf t2 ->
  (forall l j, l < n0 -> j < n1 -> row1 t1 l j = row1 t2 l j) -> t1 = t2.
Proof.
  intros H1 H2 W1 W2 Hrows.
  destruct t1 as [s1 d1], t2 as [s2 d2]. cbn [shape] in H1, H2. subst s1 s2.
  f_equal.
  assert (E : Tensor (n0 * n1 :: rest) d1 = Tensor (n0 * n1 :: rest) d2).
  { apply (tensor_eq_rows _ _ (n0 * n1) rest); try reflexivity.
    - unfold wf in *. cbn [shape data] in *. rewrite !numel_cons in *. lia.
    - unfold wf in *. cbn [shape data] in *. rewrite !numel_cons in *. lia.
    - intros i Hi. unfold row. cbn [shape data tail].
      assert (Hn1 : n1 <> 0) by (intros ->; lia).
      specialize (Hrows (i / n1) (i mod n1)).
      unfold row1 in Hrows. cbn [shape data drop dim nth] in Hrows.
      rewrite (Nat.mul_comm (i / n1) n1), <- Nat.div_mod_eq in Hrows.
      apply Hrows.
      + apply Nat.Div0.div_lt_upper_bound. lia.
      + apply Nat.mod_upper_bound. exact Hn1. }
  injection E as E. exact E.
Qed.

End ComposeFacts.

(** X9.  [State.truncate] composes: on a state of [n] rows with a context,
    truncating to [m] rows and then to [k <= m] rows gives the state that
    truncating to [k] rows at once gives, and truncating to [n] rows gives
    the state back. *)
Theorem truncate_composes {A : Type}
  (s : LatePoolingCodeDecoder.State A) (ctx : tensor A) (n layers : nat)
  (rest_ctx rest_h rest_c : list nat) (k m : Z) :
  LatePoolingCodeDecoder.context s = Some ctx ->
  shape ctx = n :: rest_ctx -> wf ctx ->
  shape (LatePoolingCodeDecoder.h s) = layers :: n :: rest_h ->
  wf (LatePoolingCodeDecoder.h s) ->
  shape (LatePoolingCodeDecoder.c s) = layers :: n :: rest_c ->
  wf (LatePoolingCodeDecoder.c s) ->
  0 <= k <= m -> m <= Z.of_nat n ->
  (exists s1 s2,
     LatePoolingCodeDecoder.truncate s m = Ok s1 /\
     LatePoolingCodeDecoder.truncate s1 k = Ok s2 /\
     LatePoolingCodeDecoder.truncate s k = Ok s2) /\
  LatePoolingCodeDecoder.truncate s (Z.of_nat n) = Ok s.
Proof.
  intros Hctx Hsc Hwc Hsh Hwh Hscc Hwcc Hk Hm.
  destruct s as [pp ctx0 h c]. cbn [LatePoolingCodeDecoder.context
    LatePoolingCodeDecoder.h LatePoolingCodeDecoder.c] in *. subst ctx0.
  unfold LatePoolingCodeDecoder.truncate.
  cbn [LatePoolingCodeDecoder.context LatePoolingCodeDecoder.h
       LatePoolingCodeDecoder.c LatePoolingCodeDecoder.pairs_per_example].
  split.
  - (* to [m], then to [k] *)
    destruct (slice0_rows ctx n rest_ctx m Hsc Hwc ltac:(lia))
      as (ctx1 & E0 & S0 & W0 & R0).
    destruct (slice1_rows h layers n rest_h m Hsh Hwh ltac:(lia))
      as (h1 & Eh & Sh & Wh & Rh).
    destruct (slice1_rows c layers n rest_c m Hscc Hwcc ltac:(lia))
      as (c1 & Ec & Sc & Wc & Rc).
    destruct (slice0_rows ctx1 _ rest_ctx k S0 W0 ltac:(lia))
      as (ctx2 & E0' & S0' & W0' & R0').
    destruct (slice1_rows h1 layers _ rest_h k Sh Wh ltac:(lia))
      as (h2 & Eh' & Sh' & Wh' & Rh').
    destruct (slice1_rows c1 layers _ rest_c k Sc Wc ltac:(lia))
      as (c2 & Ec' & Sc' & Wc' & Rc').
    destruct (slice0_rows ctx n rest_ctx k Hsc Hwc ltac:(lia))
      as (ctx3 & E03 & S03 & W03 & R03).
    destruct (slice1_rows h layers n rest_h k Hsh Hwh ltac:(lia))
      as (h3 & Eh3 & Sh3 & Wh3 & Rh3).
    destruct (slice1_rows c layers n rest_c k Hscc Hwcc ltac:(lia))
      as (c3 & Ec3 & Sc3 & Wc3 & Rc3).
    rewrite E0, Eh, Ec, E03, Eh3, Ec3. cbn [mbind result_bind Py.bind].
    eexists _, _. split; [reflexivity |].
    cbn [LatePoolingCodeDecoder.context LatePoolingCodeDecoder.h
         LatePoolingCodeDecoder.c LatePoolingCodeDecoder.pairs_per_example].
    rewrite E0', Eh', Ec'. cbn [mbind result_bind Py.bind].
    split; [reflexivity |].
    assert (ctx3 = ctx2) as ->.
    { apply (tensor_eq_rows _ _ (Z.to_nat k) rest_ctx); try assumption.
      intros j Hj. rewrite R03, R0' by exact Hj. symmetry. apply R0. lia. }
    assert (h3 = h2) as ->.
    { apply (tensor_eq_rows1 _ _ layers (Z.to_nat k) rest_h); try assumption.
      intros l j Hl Hj. rewrite Rh3, Rh' by assumption. symmetry.
      apply Rh; [exact Hl | lia]. }
    assert (c3 = c2) as ->.
    { apply (tensor_eq_rows1 _ _ layers (Z.to_nat k) rest_c); try assumption.
      intros l j Hl Hj. rewrite Rc3, Rc' by assumption. symmetry.
      apply Rc; [exact Hl | lia]. }
    reflexivity.
  - (* to [n] *)
    destruct (slice0_rows ctx n rest_ctx (Z.of_nat n) Hsc Hwc ltac:(lia))
      as (ctx1 & E0 & S0 & W0 & R0).
    destruct (slice1_rows h layers n rest_h (Z.of_nat n) Hsh Hwh ltac:(lia))
      as (h1 & Eh & Sh & Wh & Rh).
    destruct (slice1_rows c layers n rest_c (Z.of_nat n) Hscc Hwcc ltac:(lia))
      as (c1 & Ec & Sc & Wc & Rc).
    rewrite E0, Eh, Ec. cbn [mbind result_bind Py.bind].
    rewrite Nat2Z.id in *.
    assert (ctx1 = ctx) as ->
      by (apply (tensor_eq_rows _ _ n rest_ctx); assumption).
    assert (h1 = h) as ->
      by (apply (tensor_eq_rows1 _ _ layers n rest_h); assumption).
    assert (c1 = c) as ->
      by (apply (tensor_eq_rows1 _ _ layers n rest_c); assumption).
    reflexivity.
Qed.

Lemma truncate_composes_witness :
  (exists s1 s2,
     LatePoolingCodeDecoder.truncate Examples.beam_state 3 = Ok s1 /\
     LatePoolingCodeDecoder.truncate s1 1 = Ok s2 /\
     LatePoolingCodeDecoder.truncate Examples.beam_state 1 = Ok s2) /\
  LatePoolingCodeDecoder.truncate Examples.beam_state 4
  = Ok Examples.beam_state.
Proof.
  apply (truncate_composes Examples.beam_state
           (Tensor [4; 1; 512]%nat (map Z.of_nat (seq 0 (4 * 512))))
           4 2 [1; 512]%nat [1; 256]%nat [1; 256]%nat 1 3).
  - reflexivity.
  - reflexivity.
  - vm_compute. reflexivity.
  - reflexivity.
  - vm_compute. reflexivity.
  - reflexivity.
  - vm_compute. reflexivity.
  - lia.
  - lia.
Defined.

Section AllBeams.
Context {A : Type}.
Local Close Scope string_scope.
Local Open Scope nat_scope.

Lemma as_tuple_all_beams (B W j : nat) :
  j < B * W ->
  as_tuple (all_beams B W) !! j = Some (Z.of_nat (j / W), Z.of_nat (j mod W)).
Proof.
  intros Hj. unfold as_tuple, all_beams. cbn [fst snd].
  change (zip ?a ?b) with (zip_with pair a b).
  rewrite lookup_zip_with.
  change (map ?f ?l) with (f <$> l).
  rewrite !list_lookup_fmap, lookup_seq_lt by exact Hj. reflexivity.
Qed.

Lemma length_all_beams (B W : nat) : length (as_tuple (all_beams B W)) = B * W.
Proof.
  unfold as_tuple, all_beams. cbn [fst snd].
  change (zip ?a ?b) with (zip_with pair a b).
  rewrite length_zip_with, !length_map, length_seq. lia.
Qed.

Lemma all_beams_in_range (B W : nat) : in_range B W (as_tuple (all_beams B W)).
Proof.
  unfold in_range. apply Forall_lookup. intros j p Hp.
  assert (Hj : j < B * W).
  { rewrite <- (length_all_beams B W). eapply lookup_lt_Some. exact Hp. }
  rewrite (as_tuple_all_beams B W j Hj) in Hp. injection Hp as <-.
  cbn [fst snd].
  assert (HW : W <> 0) by (intros ->; lia).
  pose proof (Nat.mod_upper_bound j W HW).
  assert (j / W < B) by (apply Nat.Div0.div_lt_upper_bound; lia).
  lia.
Qed.

Lemma offset_all_beams (W j : nat) :
  offset_of W (Z.of_nat (j / W), Z.of_nat (j mod W)) = j.
Proof.
  unfold offset_of. cbn [fst snd]. rewrite !Nat2Z.id.
  rewrite (Nat.mul_comm (j / W) W). symmetry. apply Nat.div_mod_eq.
Qed.

End AllBeams.

(** X10.  Selecting every beam in its place copies the state:
    [TraceDecoderState.select_for_beams] with the index tensor that names
    every (example, beam) in the example-major order returns a state whose
    [h] and [c] are the old ones and whose field array is a new array of
    the store with the contents of the old one; the old array stays.
    [LatePoolingCodeDecoder.State.select_for_beams] on a state without
    context returns the state itself. *)
Theorem select_every_beam_copies_the_state {A : Type} (B W : nat) :
  (1 <= B)%nat ->
  (forall (self : TraceDecoderState.t A) (σ : gmap loc (tensor A))
     (arr : tensor A) (rest_f rest_h rest_c : list nat),
     σ !! TraceDecoderState.field self = Some arr ->
     shape arr = (B * W)%nat :: rest_f -> wf arr ->
     shape (TraceDecoderState.h self) = 2%nat :: (B * W)%nat :: rest_h ->
     wf (TraceDecoderState.h self) ->
     shape (TraceDecoderState.c self) = 2%nat :: (B * W)%nat :: rest_c ->
     wf (TraceDecoderState.c self) ->
     (1 <= numel rest_f)%nat -> (1 <= numel rest_h)%nat ->
     (1 <= numel rest_c)%nat ->
     exists l,
       TraceDecoderState.select_for_beams self (Z.of_nat B) (all_beams B W) σ
       = (Ok (TraceDecoderState.Build_t l (TraceDecoderState.h self)
                (TraceDecoderState.c self)),
          <[l := arr]> σ) /\
       l ∉ dom σ) /\
  (forall (s : LatePoolingCodeDecoder.State A) (rest_h rest_c : list nat),
     LatePoolingCodeDecoder.context s = None ->
     shape (LatePoolingCodeDecoder.h s) = 2%nat :: (B * W)%nat :: rest_h ->
     wf (LatePoolingCodeDecoder.h s) ->
     shape (LatePoolingCodeDecoder.c s) = 2%nat :: (B * W)%nat :: rest_c ->
     wf (LatePoolingCodeDecoder.c s) ->
     (1 <= numel rest_h)%nat -> (1 <= numel rest_c)%nat ->
     LatePoolingCodeDecoder.select_for_beams s (Z.of_nat B) (all_beams B W)
     = Ok s).
Proof.
  intros HB.
  pose proof (all_beams_in_range B W) as Hix.
  pose proof (length_all_beams B W) as Hlen.
  assert (Hlayers : forall (t : tensor A) (rest : list nat),
             shape t = 2%nat :: (B * W)%nat :: rest -> wf t ->
             (1 <= numel rest)%nat ->
             (v ← view t (2 :: Z.of_nat B :: -1
                            :: map Z.of_nat (drop 2 (shape t)));
              index_tuple 1 v (as_tuple (all_beams B W))) = Ok t).
  { intros t rest Hs Hw Hr.
    destruct (gather_layers t B W rest _ Hs Hw HB Hr Hix)
      as (r & Er & Sr & Wr & Rr).
    rewrite Er. f_equal. rewrite Hlen in Sr.
    apply (tensor_eq_rows1 _ _ 2 (B * W) rest); try assumption.
    intros l j Hl Hj.
    rewrite (Rr l j _ Hl (as_tuple_all_beams B W j Hj)).
    rewrite offset_all_beams. reflexivity. }
  split.
  - intros self σ arr rest_f rest_h rest_c Hl Hsf Hwf Hsh Hwh Hsc Hwc
      Hrf Hrh Hrc.
    destruct (gather_field arr B W rest_f _ Hsf Hwf HB Hrf Hix)
      as (f' & Ef & _ & Sf & Wf & Rf).
    assert (f' = arr) as ->.
    { rewrite Hlen in Sf.
      apply (tensor_eq_rows _ _ (B * W)%nat rest_f); try assumption.
      intros j Hj. rewrite (Rf j _ (as_tuple_all_beams B W j Hj)).
      rewrite offset_all_beams. reflexivity. }
    exists (fresh (dom σ)). split; [| apply is_fresh].
    unfold TraceDecoderState.select_for_beams.
    erewrite store_bind_eq by reflexivity.
    rewrite (lookup_total_correct _ _ _ Hl).
    erewrite store_bind_eq by (unfold Store.lift; rewrite Ef; reflexivity).
    erewrite store_bind_eq by reflexivity.
    erewrite store_bind_eq
      by (unfold Store.lift; rewrite (Hlayers _ rest_h Hsh Hwh Hrh);
          reflexivity).
    erewrite store_bind_eq
      by (unfold Store.lift; rewrite (Hlayers _ rest_c Hsc Hwc Hrc);
          reflexivity).
    reflexivity.
  - intros s rest_h rest_c Hctx Hsh Hwh Hsc Hwc Hrh Hrc.
    unfold LatePoolingCodeDecoder.select_for_beams.
    rewrite Hctx, (Hlayers _ rest_h Hsh Hwh Hrh), (Hlayers _ rest_c Hsc Hwc Hrc).
    cbn [mbind result_bind Py.bind]. destruct s as [pp ctx h c].
    cbn [LatePoolingCodeDecoder.context] in Hctx. subst ctx. reflexivity.
Qed.

Lemma select_every_beam_copies_the_state_witness :
  (exists l,
     TraceDecoderState.select_for_beams Examples.trace_state 3
       (all_beams 3 1) Examples.trace_store
     = (Ok (TraceDecoderState.Build_t l
              (TraceDecoderState.h Examples.trace_state)
              (TraceDecoderState.c Examples.trace_state)),
        <[l := Tensor [3; 2]%nat [10; 11; 20; 21; 30; 31]]>
          Examples.trace_store) /\
     l ∉ dom Examples.trace_store) /\
  LatePoolingCodeDecoder.select_for_beams Examples.small_state 1
    (all_beams 1 1) = Ok Examples.small_state.
Proof.
  destruct (select_every_beam_copies_the_state (A := Z) 3 1 ltac:(lia))
    as [Htrace _].
  destruct (select_every_beam_copies_the_state (A := Z) 1 1 ltac:(lia))
    as [_ Hcode].
  split.
  - apply (Htrace Examples.trace_state Examples.trace_store
             (Tensor [3; 2]%nat [10; 11; 20; 21; 30; 31])
             [2%nat] [1%nat] [1%nat]);
      try reflexivity; cbn; lia.
  - apply (Hcode Examples.small_state [1; 1]%nat [1; 1]%nat);
      try reflexivity; cbn; lia.
Defined.

(** ** The memory of the code decoder *)

Section MemoryFacts.
Context {A : Type}.
Local Close Scope string_scope.
Local Open Scope nat_scope.

Lemma infer_shape_full_ne (e : exn) (total : nat) (s : list nat) :
  numel s <> total -> infer_shape e total (map Z.of_nat s) = Raise e.
Proof.
  intros Hs. unfold infer_shape.
  rewrite existsb_of_nat by (intros n; apply Z.ltb_ge; lia).
  rewrite (filter_of_nat_all (fun d => negb (d =? -1)%Z))
    by (intros n; destruct (Z.eqb_spec (Z.of_nat n) (-1)); [lia | reflexivity]).
  rewrite (filter_of_nat_none (fun d => (d =? -1)%Z))
    by (intros n; destruct (Z.eqb_spec (Z.of_nat n) (-1)); [lia | reflexivity]).
  rewrite !to_nat_of_nat_list. cbn [length].
  apply Nat.eqb_neq in Hs. rewrite Hs. reflexivity.
Qed.

(** [t.view(B, p, *t.shape[1:])] of a tensor of [rows] rows. *)
Lemma view_pairs {X} (t : tensor X) (B p rows : nat) (rest : list nat) :
  shape t = rows :: rest ->
  (rows = B * p ->
   view t (Z.of_nat B :: Z.of_nat p :: map Z.of_nat (tail (shape t)))
   = Ok (Tensor (B :: p :: rest) (data t))) /\
  (rows <> B * p -> 1 <= numel rest ->
   view t (Z.of_nat B :: Z.of_nat p :: map Z.of_nat (tail (shape t)))
   = Raise RuntimeError).
Proof.
  intros Hs. rewrite Hs. cbn [tail].
  change (Z.of_nat B :: Z.of_nat p :: map Z.of_nat rest)
    with (map Z.of_nat (B :: p :: rest)).
  split.
  - intros ->. apply view_full. rewrite Hs, !numel_cons. lia.
  - intros Hne Hr. unfold view. rewrite infer_shape_full_ne; [reflexivity |].
    rewrite Hs, !numel_cons. nia.
Qed.

End MemoryFacts.

(** X11.  [prepare_memory] passes [io_embed] on as it is.  Without the trace
    memory (the decoder does not use it, or none is given) the memory has no
    trace and nothing can fail.  With it, the padded trace of [rows] rows and
    its mask are regrouped by example, to [B x p x ...], exactly when
    [rows = B * p]: the elements stay in place, so the traces of example [i]
    are the rows [i * p .. i * p + p - 1]; for another number of rows (of a
    trace that is not empty) the call raises [RuntimeError]. *)
Theorem prepare_memory_groups_by_example {A : Type}
  (self : LatePoolingCodeDecoder.t A) (B p : nat)
  (io_embed : option (tensor A)) :
  (forall trace_memory,
     LatePoolingCodeDecoder.use_trace_memory self = false \/
     trace_memory = None ->
     LatePoolingCodeDecoder.prepare_memory self (Z.of_nat B) (Z.of_nat p)
       io_embed trace_memory
     = Ok (LatePoolingCodeDecoder.Build_Memory io_embed None)) /\
  (forall (tm : tensor A) (mask : tensor bool) (rows : nat)
     (rest_m rest_k : list nat),
     LatePoolingCodeDecoder.use_trace_memory self = true ->
     shape tm = rows :: rest_m -> shape mask = rows :: rest_k ->
     (rows = (B * p)%nat ->
      exists tm' mask',
        LatePoolingCodeDecoder.prepare_memory self (Z.of_nat B) (Z.of_nat p)
          io_embed (Some (tm, mask))
        = Ok (LatePoolingCodeDecoder.Build_Memory io_embed
                (Some (MaskedMemory.Build_t tm' mask'))) /\
        shape tm' = B :: p :: rest_m /\ data tm' = data tm /\
        shape mask' = B :: p :: rest_k /\ data mask' = data mask /\
        forall i k, row1 tm' i k = row tm (i * p + k) /\
                    row1 mask' i k = row mask (i * p + k)) /\
     (rows <> (B * p)%nat -> (1 <= numel rest_m)%nat ->
      LatePoolingCodeDecoder.prepare_memory self (Z.of_nat B) (Z.of_nat p)
        io_embed (Some (tm, mask))
      = Raise RuntimeError)).
Proof.
  unfold LatePoolingCodeDecoder.prepare_memory. split.
  - intros trace_memory [-> | ->]; [reflexivity |].
    destruct (LatePoolingCodeDecoder.use_trace_memory self); reflexivity.
  - intros tm mask rows rest_m rest_k -> Hsm Hsk.
    destruct (view_pairs tm B p rows rest_m Hsm) as [Hm_ok Hm_ne].
    destruct (view_pairs mask B p rows rest_k Hsk) as [Hk_ok _].
    split.
    + intros Hrows. rewrite (Hm_ok Hrows), (Hk_ok Hrows).
      cbn [mbind result_bind Py.bind].
      eexists _, _. split; [reflexivity |].
      cbn [shape data]. repeat (split; [reflexivity |]).
      intros i k. unfold row1, row. cbn [shape data drop dim nth].
      rewrite Hsm, Hsk. split; reflexivity.
    + intros Hne Hr. rewrite (Hm_ne Hne Hr). reflexivity.
Qed.

Lemma prepare_memory_groups_by_example_witness :
  LatePoolingCodeDecoder.prepare_memory Examples.memory_decoder 2 1 None
    (Some Examples.trace_memory)
  = Ok (LatePoolingCodeDecoder.Build_Memory None
          (Some (MaskedMemory.Build_t
                   (Tensor [2; 1; 3; 512]%nat (data (fst Examples.trace_memory)))
                   (Tensor [2; 1; 3]%nat (data (snd Examples.trace_memory)))))) /\
  LatePoolingCodeDecoder.prepare_memory Examples.memory_decoder 3 1 None
    (Some Examples.trace_memory)
  = Raise RuntimeError /\
  LatePoolingCodeDecoder.prepare_memory Examples.small_decoder 3 1 None
    (Some Examples.trace_memory)
  = Ok (LatePoolingCodeDecoder.Build_Memory None None).
Proof.
  split; [| split].
  - destruct (prepare_memory_groups_by_example Examples.memory_decoder 2 1 None)
      as [_ H].
    destruct (H (fst Examples.trace_memory) (snd Examples.trace_memory)
                2%nat [3; 512]%nat [3%nat] eq_refl eq_refl eq_refl)
      as [Hok _].
    destruct (Hok eq_refl) as (tm' & mask' & E & S1 & D1 & S2 & D2 & _).
    change (Some Examples.trace_memory)
      with (Some (fst Examples.trace_memory, snd Examples.trace_memory)).
    change (Z.of_nat 2) with 2 in E. change (Z.of_nat 1) with 1 in E.
    rewrite E. destruct tm', mask'. cbn [shape data] in *. subst.
    reflexivity.
  - destruct (prepare_memory_groups_by_example Examples.memory_decoder 3 1 None)
      as [_ H].
    destruct (H (fst Examples.trace_memory) (snd Examples.trace_memory)
                2%nat [3; 512]%nat [3%nat] eq_refl eq_refl eq_refl)
      as [_ Hne].
    apply Hne; [discriminate | cbn; lia].
  - destruct (prepare_memory_groups_by_example Examples.small_decoder 3 1 None)
      as [H _].
    apply (H (Some Examples.trace_memory)). left. reflexivity.
Defined.

(** ** One beam-search step of the code decoder *)

Section TokenStep.
Context {A : Type}.
Local Close Scope string_scope.
Local Open Scope nat_scope.

Lemma cat2_rows_differ (d : nat) (x y : tensor A) :
  take d (shape x) <> take d (shape y) -> cat2 d x y = Raise RuntimeError.
Proof.
  intros Hne. unfold cat2, shape_eqb.
  rewrite (bool_decide_eq_false_2 _ Hne), andb_false_r. reflexivity.
Qed.

End TokenStep.

(** X12.  [LatePoolingCodeDecoder.decode_token], the step of the beam
    search, with the trace memory: for a decoder that has its trace
    attention, a state and a memory of [n] rows and [p >= 1] pairs, layers
    that accept their inputs and tokens of the vocabulary, [n] tokens give a
    state of [n] rows again and [n] rows of logits, one per token; another
    number of tokens raises [RuntimeError], from the concatenation of the
    token embeddings with the state. *)
Theorem decode_token_one_row_per_token {A : Type}
  (self : LatePoolingCodeDecoder.t A) (with_io : bool)
  (vocab n p len : nat) (token : list Z)
  (state : LatePoolingCodeDecoder.State A)
  (memory : LatePoolingCodeDecoder.Memory A) :
  LatePoolingCodeDecoder.layers_accept (LatePoolingCodeDecoder.weights self)
    (LatePoolingCodeDecoder.decoder_input_size with_io) vocab ->
  LatePoolingCodeDecoder.trace_attention self <> None ->
  tokens_below vocab token ->
  LatePoolingCodeDecoder.state_rows n p state ->
  LatePoolingCodeDecoder.memory_rows with_io n p len memory ->
  (1 <= p)%nat -> (1 <= len)%nat ->
  (length token = n ->
   exists state' logits,
     LatePoolingCodeDecoder.decode_token self token state memory
     = Ok (state', logits) /\
     LatePoolingCodeDecoder.state_rows n p state' /\
     shape logits = [n; vocab] /\ wf logits) /\
  (length token <> n ->
   LatePoolingCodeDecoder.decode_token self token state memory
   = Raise RuntimeError).
Proof.
  intros Hlayers Hta Htok Hstate Hmem H1p H1l.
  pose proof Hlayers as (Hembed & _).
  unfold LatePoolingCodeDecoder.decode_token.
  destruct (Hembed token Htok) as (e & Ee & Se & We). rewrite Ee.
  cbn [mbind result_bind Py.bind].
  pose proof Hstate as (Hp & (ctx & Hctx & Hsctx & Hwctx) & _).
  rewrite Hp.
  destruct (expand_pairs_shape e (length token) 256 p Se We)
    as (emb & Eemb & Semb & Wemb).
  rewrite Eemb. cbn [mbind result_bind Py.bind]. split.
  - intros Hn. rewrite Hn in Semb.
    exact (compute_next_token_logits_rows self with_io vocab n p len state
             memory emb Hlayers Hta Hstate Hmem Semb Wemb H1p H1l).
  - intros Hn. unfold LatePoolingCodeDecoder.compute_next_token_logits.
    rewrite Hctx. destruct Hmem as (Hio & _).
    destruct (LatePoolingCodeDecoder.io memory) as [t |].
    + destruct Hio as (_ & St & _).
      change (karel_modules.maybe_concat [Some emb; Some t; Some ctx] 2)
        with (r ← (acc ← cat2 2 emb t; acc' ← cat2 2 acc ctx; Ok acc');
              Ok (Some r)).
      rewrite cat2_rows_differ; [reflexivity |].
      rewrite Semb, St. cbn [take]. congruence.
    + change (karel_modules.maybe_concat [Some emb; None; Some ctx] 2)
        with (r ← (acc ← cat2 2 emb ctx; Ok acc); Ok (Some r)).
      rewrite cat2_rows_differ; [reflexivity |].
      rewrite Semb, Hsctx. cbn [take]. congruence.
Qed.

Lemma decode_token_one_row_per_token_witness :
  (exists state' logits,
     LatePoolingCodeDecoder.decode_token Examples.memory_decoder [3; 4]
       MoreExamples.memory_state MoreExamples.grouped_memory
     = Ok (state', logits) /\
     LatePoolingCodeDecoder.state_rows 2 1 state' /\
     shape logits = [2; 8]%nat /\ wf logits) /\
  LatePoolingCodeDecoder.decode_token Examples.memory_decoder [3]
    MoreExamples.memory_state MoreExamples.grouped_memory
  = Raise RuntimeError.
Proof.
  assert (Hstate : LatePoolingCodeDecoder.state_rows 2 1
                     MoreExamples.memory_state).
  { unfold LatePoolingCodeDecoder.state_rows. split; [reflexivity |].
    split; [eexists; split; [reflexivity |]; split; [reflexivity |];
            vm_compute; reflexivity |].
    split; [reflexivity |]. split; [vm_compute; reflexivity |].
    split; [reflexivity | vm_compute; reflexivity]. }
  assert (Hmem : LatePoolingCodeDecoder.memory_rows false 2 1 3
                   MoreExamples.grouped_memory).
  { unfold LatePoolingCodeDecoder.memory_rows. split; [reflexivity |].
    eexists. split; [reflexivity |]. split; [reflexivity |].
    split; [vm_compute; reflexivity |]. split; [reflexivity |].
    vm_compute. reflexivity. }
  assert (Hta : LatePoolingCodeDecoder.trace_attention Examples.memory_decoder
                <> None) by discriminate.
  split.
  - apply (decode_token_one_row_per_token Examples.memory_decoder false 8 2 1
             3 [3; 4] MoreExamples.memory_state MoreExamples.grouped_memory
             (code_weights_accept _ 8) Hta
             ltac:(repeat constructor; lia) Hstate Hmem);
      [lia | lia | reflexivity].
  - apply (decode_token_one_row_per_token Examples.memory_decoder false 8 2 1
             3 [3] MoreExamples.memory_state MoreExamples.grouped_memory
             (code_weights_accept _ 8) Hta
             ltac:(repeat constructor; lia) Hstate Hmem);
      [lia | lia | discriminate].
Defined.

(** ** Teacher-forced decoding of traces *)

Section TraceForwardFacts.
Context {A : Type}.
Local Close Scope string_scope.
Local Open Scope nat_scope.

Lemma norm_index_any (n : nat) (i : Z) :
  (- Z.of_nat n <= i < Z.of_nat n)%Z ->
  exists k, norm_index n i = Ok k /\ k < n.
Proof.
  intros Hi. unfold norm_index.
  destruct (Z.leb_spec 0 i), (Z.ltb_spec i (Z.of_nat n)); cbn [andb];
    try lia.
  - eexists. split; [reflexivity | lia].
  - destruct (Z.leb_spec (- Z.of_nat n) i); [| lia].
    destruct (Z.ltb_spec i 0); [| lia]. cbn [andb].
    eexists. split; [reflexivity | lia].
Qed.

Lemma norm_index_outside (n : nat) (i : Z) :
  ~ (- Z.of_nat n <= i < Z.of_nat n)%Z -> norm_index n i = Raise IndexError.
Proof.
  intros Hi. unfold norm_index.
  destruct (Z.leb_spec 0 i), (Z.ltb_spec i (Z.of_nat n)); cbn [andb];
    try lia;
    destruct (Z.leb_spec (- Z.of_nat n) i), (Z.ltb_spec i 0); cbn [andb];
    try lia; reflexivity.
Qed.

Lemma traverse_norm_index_any (n : nat) (l : list Z) :
  Forall (fun i => (- Z.of_nat n <= i < Z.of_nat n)%Z) l ->
  exists ks, traverse (norm_index n) l = Ok ks /\
             length ks = length l /\ Forall (fun k => k < n) ks.
Proof.
  induction 1 as [| i l Hi _ (ks & E & Hlen & Hks)].
  - exists []. repeat split; constructor.
  - destruct (norm_index_any n i Hi) as (k & Ek & Hk).
    exists (k :: ks). cbn [traverse]. rewrite Ek, E.
    cbn [mbind result_bind Py.bind length]. split; [reflexivity |].
    split; [congruence | constructor; assumption].
Qed.

Lemma traverse_norm_index_outside (n : nat) (l : list Z) (x : Z) :
  x ∈ l -> ~ (- Z.of_nat n <= x < Z.of_nat n)%Z ->
  traverse (norm_index n) l = Raise IndexError.
Proof.
  induction l as [| i l IH]; intros Hx Hout; [inversion Hx |].
  cbn [traverse].
  destruct (norm_index n i) as [k | e] eqn:E.
  - cbn [mbind result_bind Py.bind].
    apply elem_of_cons in Hx as [-> | Hx].
    + rewrite (norm_index_outside n i Hout) in E. discriminate.
    + rewrite (IH Hx Hout). reflexivity.
  - unfold norm_index in E.
    destruct ((0 <=? i) && (i <? Z.of_nat n))%Z; [discriminate |].
    destruct ((- Z.of_nat n <=? i) && (i <? 0))%Z; [discriminate |].
    injection E as <-. reflexivity.
Qed.

(** [t[l]] for a list of row numbers, negative ones counting from the
    end. *)
Lemma index_list_any (t : tensor A) (n : nat) (rest : list nat) (l : list Z) :
  shape t = n :: rest -> wf t ->
  Forall (fun i => (- Z.of_nat n <= i < Z.of_nat n)%Z) l ->
  exists r, index_list t l = Ok r /\ shape r = length l :: rest /\ wf r.
Proof.
  intros Hs Hwf Hl. unfold index_list. rewrite Hs.
  destruct (traverse_norm_index_any n l Hl) as (ks & E & Hlen & Hks).
  rewrite E. cbn [mbind result_bind Py.bind].
  eexists. split; [reflexivity |]. split; [reflexivity |].
  unfold wf in *. cbn [shape data]. rewrite Hs, numel_cons in Hwf.
  rewrite numel_cons, (length_concat_uniform (numel rest)).
  - rewrite length_map, Hlen. reflexivity.
  - apply Forall_forall. intros b Hb. apply list_elem_of_In in Hb.
    apply in_map_iff in Hb as (k & <- & Hk).
    apply list_elem_of_In in Hk. rewrite Forall_forall in Hks.
    specialize (Hks k Hk). apply length_chunk. rewrite Hwf.
    apply Nat.mul_le_mono_r. lia.
Qed.

Lemma index_list_outside (t : tensor A) (n : nat) (rest : list nat)
  (l : list Z) (x : Z) :
  shape t = n :: rest -> x ∈ l ->
  ~ (- Z.of_nat n <= x < Z.of_nat n)%Z ->
  index_list t l = Raise IndexError.
Proof.
  intros Hs Hx Hout. unfold index_list. rewrite Hs.
  rewrite (traverse_norm_index_outside n l x Hx Hout). reflexivity.
Qed.

(** The sizes [TraceDecoder.__init__] builds the layers with. *)
Lemma trace_decoder_built (w : TraceDecoder.Weights A) (args : Args)
  (self : TraceDecoder.t A) :
  TraceDecoder.__init__ w args = Ok self ->
  TraceDecoder.weights self = w /\
  out_width (TraceDecoder.action_embed self) = 256 /\
  in_width (TraceDecoder.decoder self)
  = 256 + match TraceDecoder.grid_encoder self with
          | Some enc => out_width enc
          | None => 0
          end + 512 /\
  out_width (TraceDecoder.decoder self) = 256 /\
  in_width (TraceDecoder.out self) = 256 /\
  out_width (TraceDecoder.out self) = 7 /\
  ((karel_trace_grid_enc args = "none")%string <->
   TraceDecoder.grid_encoder self = None) /\
  num_embeddings (TraceDecoder.action_embed self) = 7.
Proof.
  unfold TraceDecoder.__init__.
  destruct (String.eqb_spec (karel_trace_grid_enc args) "lgrl") as [E1 | N1].
  - cbn [mbind result_bind Py.bind]. intros [= <-]. cbn.
    repeat split; try reflexivity; try discriminate.
    rewrite E1. discriminate.
  - destruct (String.eqb_spec (karel_trace_grid_enc args) "presnet")
      as [E2 | N2].
    + cbn [mbind result_bind Py.bind]. intros [= <-]. cbn.
      repeat split; try reflexivity; try discriminate.
      rewrite E2. discriminate.
    + destruct (String.eqb_spec (karel_trace_grid_enc args) "none")
        as [E3 | N3]; [| discriminate].
      cbn [mbind result_bind Py.bind]. intros [= <-]. cbn.
      repeat split; try reflexivity; auto.
Qed.

End TraceForwardFacts.

(** X16.  [TraceDecoder.forward] of a decoder [__init__] built, with layers
    that accept inputs of the widths they were built for, on [N] packed
    actions of the 7 known, [N] packed grids and an io embedding of [B]
    rows: with one index per action, each naming a row of the io embedding,
    the call returns [N] rows of logits over the 7 actions and the packed
    target actions as labels, so the width [__init__] gave the LSTM is the
    width of the concatenated input, with and without a grid encoder.  With
    an index outside [-B, B) the call does not return; another number of
    indices raises [RuntimeError], from the concatenation. *)
Theorem trace_decoder_forward_rows {A : Type}
  (decoder_packed : tensor A -> list nat -> result (tensor A))
  (w : TraceDecoder.Weights A) (args : Args) (self : TraceDecoder.t A)
  (io_embed : tensor A) (trace_grids : PackedSequencePlus (tensor A))
  (input_actions output_actions : PackedSequencePlus (list Z))
  (io_embed_indices : list Z) (B N : nat) (rest : list nat) :
  TraceDecoder.__init__ w args = Ok self ->
  TraceDecoder_layers_accept decoder_packed self ->
  tokens_below 7 (ps_data input_actions) ->
  shape io_embed = [B; 512%nat] -> wf io_embed ->
  length (ps_data input_actions) = N ->
  shape (ps_data trace_grids) = N :: rest -> wf (ps_data trace_grids) ->
  (length io_embed_indices = N ->
   Forall (fun i => - Z.of_nat B <= i < Z.of_nat B) io_embed_indices ->
   exists logits,
     TraceDecoder_forward decoder_packed self io_embed trace_grids
       input_actions output_actions io_embed_indices
     = Ok (logits, ps_data output_actions) /\
     shape logits = [N; 7%nat] /\ wf logits) /\
  (forall i, i ∈ io_embed_indices ->
     ~ (- Z.of_nat B <= i < Z.of_nat B) ->
     ~ is_ok (TraceDecoder_forward decoder_packed self io_embed trace_grids
                input_actions output_actions io_embed_indices)) /\
  (length io_embed_indices <> N ->
   Forall (fun i => - Z.of_nat B <= i < Z.of_nat B) io_embed_indices ->
   TraceDecoder_forward decoder_packed self io_embed trace_grids
     input_actions output_actions io_embed_indices
   = Raise RuntimeError).
Proof.
  intros Hinit (Hact & Hgrid & _ & Hdec & Hout) Htok Hsio Hwio Hlen Hsg Hwg.
  destruct (trace_decoder_built w args self Hinit)
    as (_ & Wact & Wdec & Wdo & Wout & Wlog & _ & Wnum).
  rewrite Wdec, Wdo in Hdec. rewrite Wout, Wlog in Hout.
  rewrite Wact, Wnum in Hact.
  unfold TraceDecoder_forward, PackedSequencePlus_apply.
  destruct (Hact (ps_data input_actions) Htok) as (e & Ee & Se & We).
  rewrite Hlen in Se. rewrite Ee.
  cbn [mbind result_bind Py.bind ps_data batch_sizes orig_to_sort].
  destruct (TraceDecoder.grid_encoder self) as [enc |] eqn:Eenc.
  - destruct (Hgrid enc _ N rest eq_refl Hsg Hwg) as (g & Eg & Sg & Wg).
    rewrite Eg.
    cbn [mbind result_bind Py.bind ps_data batch_sizes orig_to_sort].
    assert (Henc : out_width enc = 256%nat).
    { unfold TraceDecoder.__init__ in Hinit.
      destruct (String.eqb (karel_trace_grid_enc args) "lgrl");
        [cbn in Hinit; injection Hinit as <-; cbn in Eenc;
         injection Eenc as <-; reflexivity |].
      destruct (String.eqb (karel_trace_grid_enc args) "presnet");
        [cbn in Hinit; injection Hinit as <-; cbn in Eenc;
         injection Eenc as <-; reflexivity |].
      destruct (String.eqb (karel_trace_grid_enc args) "none");
        [cbn in Hinit; injection Hinit as <-; discriminate Eenc
        | discriminate Hinit]. }
    rewrite Henc in Sg, Hdec.
    destruct (cat2_1_rows e g N 256%nat 256%nat Se Sg We Wg)
      as (eg & Eeg & Seg & Weg & _).
    split; [| split].
    + intros Hn Hix.
      destruct (index_list_any io_embed B [512%nat] _ Hsio Hwio Hix)
        as (io & Eio & Sio & Wio).
      rewrite Hn in Sio. rewrite Eio.
      cbn [mbind result_bind Py.bind cat cat_onto]. rewrite Eeg.
      cbn [mbind result_bind Py.bind].
      destruct (cat2_1_rows eg io N _ 512%nat Seg Sio Weg Wio)
        as (x & Ex & Sx & Wx & _).
      rewrite Ex. cbn [mbind result_bind Py.bind ps_data batch_sizes].
      destruct (Hdec x (batch_sizes input_actions) N Sx Wx)
        as (o & Eo & So & Wo).
      rewrite Eo. cbn [mbind result_bind Py.bind].
      destruct (Hout o N So Wo) as (lg & Elg & Slg & Wlg).
      rewrite Elg. cbn [mbind result_bind Py.bind].
      exists lg. auto.
    + intros i Hi Hout'.
      rewrite (index_list_outside io_embed B [512%nat] _ i Hsio Hi Hout').
      exact id.
    + intros Hn Hix.
      destruct (index_list_any io_embed B [512%nat] _ Hsio Hwio Hix)
        as (io & Eio & Sio & Wio).
      rewrite Eio. cbn [mbind result_bind Py.bind cat cat_onto]. rewrite Eeg.
      cbn [mbind result_bind Py.bind].
      rewrite (cat2_rows_differ 1 eg io); [reflexivity |].
      rewrite Seg, Sio. cbn [take]. congruence.
  - rewrite Nat.add_0_r in Hdec. split; [| split].
    + intros Hn Hix.
      destruct (index_list_any io_embed B [512%nat] _ Hsio Hwio Hix)
        as (io & Eio & Sio & Wio).
      rewrite Hn in Sio. rewrite Eio.
      cbn [mbind result_bind Py.bind cat cat_onto].
      destruct (cat2_1_rows e io N _ 512%nat Se Sio We Wio)
        as (x & Ex & Sx & Wx & _).
      rewrite Ex. cbn [mbind result_bind Py.bind ps_data batch_sizes].
      destruct (Hdec x (batch_sizes input_actions) N Sx Wx)
        as (o & Eo & So & Wo).
      rewrite Eo. cbn [mbind result_bind Py.bind].
      destruct (Hout o N So Wo) as (lg & Elg & Slg & Wlg).
      rewrite Elg. cbn [mbind result_bind Py.bind].
      exists lg. auto.
    + intros i Hi Hout'.
      rewrite (index_list_outside io_embed B [512%nat] _ i Hsio Hi Hout').
      exact id.
    + intros Hn Hix.
      destruct (index_list_any io_embed B [512%nat] _ Hsio Hwio Hix)
        as (io & Eio & Sio & Wio).
      rewrite Eio. cbn [mbind result_bind Py.bind cat cat_onto].
      rewrite (cat2_rows_differ 1 e io); [reflexivity |].
      rewrite Se, Sio. cbn [take]. congruence.
Qed.

(** The stand-in layers of [Examples] are layers as
    [TraceDecoder_layers_accept] asks, for a grid encoder of width 256. *)
Lemma trace_weights_accept (enc : option layer) :
  (forall e, enc = Some e -> out_width e = 256%nat) ->
  TraceDecoder_layers_accept MoreExamples.packed_lstm
    (Examples.trace_decoder enc).
Proof.
  intros Henc.
  unfold TraceDecoder_layers_accept, Examples.trace_decoder,
    Examples.trace_weights.
  cbn [TraceDecoder.weights TraceDecoder.action_embed_fn
       TraceDecoder.grid_encoder_fn TraceDecoder.decoder_fn
       TraceDecoder.out_fn TraceDecoder.action_embed TraceDecoder.decoder
       TraceDecoder.out TraceDecoder.grid_encoder].
  split; [| split; [| split; [| split]]].
  - intros tokens Htok. apply embed_accepts, Htok.
  - intros e fields n rest He Hs _. eexists. split; [reflexivity |].
    destruct (fit_rows_shape 256 fields) as [S W].
    unfold dim0 in S. rewrite Hs in S. cbn [hd] in S.
    split; [| exact W]. rewrite S, (Henc e He). reflexivity.
  - intros x h0 c0 n Hx _ Hh Wh Hc Wc. unfold Examples.lstm. rewrite Hx.
    eexists _, _, _. split; [reflexivity |].
    destruct (fit_rows_shape 256 (squeeze0 x)) as [S W].
    assert (Hd : dim0 (squeeze0 x) = n)
      by (unfold squeeze0, dim0; rewrite Hx; reflexivity).
    rewrite Hd in S.
    split; [cbn [unsqueeze0 shape]; rewrite S; reflexivity |].
    split; [| auto].
    unfold wf in *. cbn [unsqueeze0 shape data]. rewrite W, S, !numel_cons. lia.
  - intros x sizes n Hx _. unfold MoreExamples.packed_lstm.
    eexists. split; [reflexivity |].
    destruct (fit_rows_shape 256 x) as [S W].
    unfold dim0 in S. rewrite Hx in S. auto.
  - intros x n Hx _. eexists. split; [reflexivity |].
    destruct (fit_rows_shape 7 x) as [S W].
    unfold dim0 in S. rewrite Hx in S. auto.
Qed.

Lemma trace_decoder_forward_rows_witness :
  (exists logits,
     TraceDecoder_forward MoreExamples.packed_lstm
       (Examples.trace_decoder (Some LGRLGridEncoder)) MoreExamples.io_embed
       MoreExamples.packed_grids MoreExamples.packed_input_actions
       MoreExamples.packed_output_actions [0; 1; -1]
     = Ok (logits, [2; 1; 1]) /\
     shape logits = [3; 7]%nat /\ wf logits) /\
  ~ is_ok (TraceDecoder_forward MoreExamples.packed_lstm
             (Examples.trace_decoder None) MoreExamples.io_embed
             MoreExamples.packed_grids MoreExamples.packed_input_actions
             MoreExamples.packed_output_actions [0; 1; 2]) /\
  TraceDecoder_forward MoreExamples.packed_lstm
    (Examples.trace_decoder None) MoreExamples.io_embed
    MoreExamples.packed_grids MoreExamples.packed_input_actions
    MoreExamples.packed_output_actions [0; 1]
  = Raise RuntimeError.
Proof.
  assert (Hlgrl : forall e, Some LGRLGridEncoder = Some e ->
                            out_width e = 256%nat)
    by (intros e [= <-]; reflexivity).
  assert (Hnone : forall e, @None layer = Some e -> out_width e = 256%nat)
    by (intros e [=]).
  assert (Htok : tokens_below 7
                   (ps_data MoreExamples.packed_input_actions))
    by (repeat constructor; lia).
  split; [| split].
  - apply (trace_decoder_forward_rows MoreExamples.packed_lstm
             Examples.trace_weights
             (Examples.trace_enc_args "lgrl" "none" "none")
             (Examples.trace_decoder (Some LGRLGridEncoder))
             MoreExamples.io_embed MoreExamples.packed_grids
             MoreExamples.packed_input_actions
             MoreExamples.packed_output_actions [0; 1; -1] 2 3 [2%nat]
             eq_refl (trace_weights_accept _ Hlgrl) Htok eq_refl eq_refl
             eq_refl eq_refl eq_refl);
      [reflexivity | repeat constructor; lia].
  - apply (trace_decoder_forward_rows MoreExamples.packed_lstm
             Examples.trace_weights
             (Examples.trace_enc_args "none" "none" "none")
             (Examples.trace_decoder None)
             MoreExamples.io_embed MoreExamples.packed_grids
             MoreExamples.packed_input_actions
             MoreExamples.packed_output_actions [0; 1; 2] 2 3 [2%nat]
             eq_refl (trace_weights_accept _ Hnone) Htok eq_refl eq_refl
             eq_refl eq_refl eq_refl) with (i := 2);
      [apply elem_of_cons; right; apply elem_of_cons; right;
       apply elem_of_cons; left; reflexivity | lia].
  - apply (trace_decoder_forward_rows MoreExamples.packed_lstm
             Examples.trace_weights
             (Examples.trace_enc_args "none" "none" "none")
             (Examples.trace_decoder None)
             MoreExamples.io_embed MoreExamples.packed_grids
             MoreExamples.packed_input_actions
             MoreExamples.packed_output_actions [0; 1] 2 3 [2%nat]
             eq_refl (trace_weights_accept _ Hnone) Htok eq_refl eq_refl
             eq_refl eq_refl eq_refl);
      [discriminate | repeat constructor; lia].
Defined.

(** ** One step of a trace decoder as built *)

Section TraceStepFacts.
Context {A : Type}.
Local Close Scope string_scope.
Local Open Scope nat_scope.

(** The numeric part of [decode_token] on [n] beams, for layers that accept
    their inputs and the widths of [__init__]. *)
Lemma decode_step_rows
  (decoder_packed : tensor A -> list nat -> result (tensor A))
  (self : TraceDecoder.t A) (token : list Z) (n : nat)
  (grid_embed : option (tensor A)) (io_embed h c : tensor A) :
  TraceDecoder_layers_accept decoder_packed self ->
  tokens_below (num_embeddings (TraceDecoder.action_embed self)) token ->
  out_width (TraceDecoder.action_embed self) = 256 ->
  in_width (TraceDecoder.decoder self)
  = 256 + match grid_embed with Some _ => 256 | None => 0 end + 512 ->
  out_width (TraceDecoder.decoder self) = 256 ->
  in_width (TraceDecoder.out self) = 256 ->
  length token = n ->
  match grid_embed with
  | Some g => shape g = [n; 256] /\ wf g
  | None => True
  end ->
  shape io_embed = [n; 512] -> wf io_embed ->
  shape h = [2; n; 256] -> wf h -> shape c = [2; n; 256] -> wf c ->
  exists h' c' logits,
    TraceDecoder.decode_step self token grid_embed io_embed h c
    = Ok (h', c', logits) /\
    shape h' = [2; n; 256] /\ wf h' /\ shape c' = [2; n; 256] /\ wf c' /\
    shape logits = [n; out_width (TraceDecoder.out self)] /\ wf logits.
Proof.
  intros (Hact & _ & Hdec & _ & Hout) Htok Wact Wdec Wdo Wout Hlen Hg Hsio
    Hwio Hsh Hwh Hsc Hwc.
  rewrite Wact in Hact. rewrite Wdo in Hdec. rewrite Wout in Hout.
  unfold TraceDecoder.decode_step.
  destruct (Hact token Htok) as (e & Ee & Se & We). rewrite Hlen in Se.
  rewrite Ee. cbn [mbind result_bind Py.bind].
  assert (Hin : exists x,
             karel_modules.maybe_concat [Some e; grid_embed; Some io_embed] 1
             = Ok (Some x) /\
             shape x = [n; in_width (TraceDecoder.decoder self)] /\ wf x).
  { rewrite Wdec. destruct grid_embed as [g |].
    - destruct Hg as [Sg Wg].
      change (karel_modules.maybe_concat [Some e; Some g; Some io_embed] 1)
        with (r ← (acc ← cat2 1 e g; acc' ← cat2 1 acc io_embed; Ok acc');
              Ok (Some r)).
      destruct (cat2_1_rows e g n 256 256 Se Sg We Wg)
        as (eg & Eeg & Seg & Weg & _).
      rewrite Eeg. cbn [mbind result_bind Py.bind].
      destruct (cat2_1_rows eg io_embed n _ 512 Seg Hsio Weg Hwio)
        as (x & Ex & Sx & Wx & _).
      rewrite Ex. cbn [mbind result_bind Py.bind]. eauto.
    - change (karel_modules.maybe_concat [Some e; None; Some io_embed] 1)
        with (r ← (acc ← cat2 1 e io_embed; Ok acc); Ok (Some r)).
      destruct (cat2_1_rows e io_embed n 256 512 Se Hsio We Hwio)
        as (x & Ex & Sx & Wx & _).
      rewrite Ex. cbn [mbind result_bind Py.bind].
      rewrite Nat.add_0_r. eauto. }
  destruct Hin as (x & Ex & Sx & Wx). rewrite Ex.
  cbn [mbind result_bind Py.bind getattr].
  destruct (Hdec (unsqueeze0 x) h c n)
    as (o & h1 & c1 & Ed & So & Wo & Sh1 & Wh1 & Sc1 & Wc1);
    [cbn [unsqueeze0 shape]; rewrite Sx; reflexivity
    | unfold wf in *; cbn [unsqueeze0 shape data]; rewrite numel_cons; lia
    | exact Hsh | exact Hwh | exact Hsc | exact Hwc |].
  rewrite Ed. cbn [mbind result_bind Py.bind].
  assert (Sq : shape (squeeze0 o) = [n; 256])
    by (unfold squeeze0; rewrite So; reflexivity).
  assert (Wq : wf (squeeze0 o)).
  { unfold wf in *. unfold squeeze0. rewrite So. cbn [shape data].
    rewrite Wo, So, !numel_cons. lia. }
  destruct (Hout (squeeze0 o) n Sq Wq) as (lg & Elg & Slg & Wlg).
  rewrite Elg. cbn [mbind result_bind Py.bind].
  eexists _, _, _. split; [reflexivity |].
  rewrite Sh1, Sc1. auto 10.
Qed.

End TraceStepFacts.

(** X17.  [TraceDecoder.decode_token] of a decoder [__init__] built, with
    layers that accept inputs of the widths they were built for and a
    runtime that updates the array in place: for [n] beams (a field array of
    [n] rows, [n] tokens among the 7 action ids, an io embedding of [n] rows and
    LSTM states of [n] rows) the call returns [n] rows of logits over the 7
    actions and LSTM states of [n] rows, with and without a grid encoder;
    the width [__init__] gave the LSTM is the width of the concatenated
    input of the step. *)
Theorem trace_decoder_step_rows {A : Type}
  (decoder_packed : tensor A -> list nat -> result (tensor A))
  (w : TraceDecoder.Weights A) (args : Args) (self : TraceDecoder.t A)
  (token : list Z) (state : TraceDecoderState.t A)
  (memory : TraceDecoder.Memory A) (σ : gmap loc (tensor A))
  (arr : tensor A) (n : nat) (rest : list nat) :
  TraceDecoder.__init__ w args = Ok self ->
  TraceDecoder_layers_accept decoder_packed self ->
  (forall (name : string) (field : tensor A),
     length (data (TraceDecoder.karel_runtime (TraceDecoder.weights self)
                     name field)) = length (data field)) ->
  σ !! TraceDecoderState.field state = Some arr ->
  shape arr = n :: rest -> wf arr ->
  length token = n -> tokens_below 7 token ->
  shape (TraceDecoder.value memory) = [n; 512%nat] ->
  wf (TraceDecoder.value memory) ->
  shape (TraceDecoderState.h state) = [2%nat; n; 256%nat] ->
  wf (TraceDecoderState.h state) ->
  shape (TraceDecoderState.c state) = [2%nat; n; 256%nat] ->
  wf (TraceDecoderState.c state) ->
  exists state' logits σ',
    TraceDecoder.decode_token self token state memory σ
    = (Ok (state', logits), σ') /\
    shape logits = [n; 7%nat] /\ wf logits /\
    shape (TraceDecoderState.h state') = [2%nat; n; 256%nat] /\
    shape (TraceDecoderState.c state') = [2%nat; n; 256%nat].
Proof.
  intros Hinit Hlayers Hkr Hl Hs Hwf Hlen Hbelow Hsio Hwio Hsh Hwh Hsc Hwc.
  destruct (trace_decoder_built w args self Hinit)
    as (_ & Wact & Wdec & Wdo & Wout & Wlog & _ & Wnum).
  assert (Htok : forall a, a ∈ token -> a <= 6).
  { intros a Ha. unfold tokens_below in Hbelow. rewrite Forall_forall in Hbelow.
    specialize (Hbelow a Ha). lia. }
  rewrite <- Wnum in Hbelow.
  assert (Henc : forall enc, TraceDecoder.grid_encoder self = Some enc ->
                             out_width enc = 256%nat).
  { intros enc Eenc. unfold TraceDecoder.__init__ in Hinit.
    destruct (String.eqb (karel_trace_grid_enc args) "lgrl");
      [cbn in Hinit; injection Hinit as <-; cbn in Eenc;
       injection Eenc as <-; reflexivity |].
    destruct (String.eqb (karel_trace_grid_enc args) "presnet");
      [cbn in Hinit; injection Hinit as <-; cbn in Eenc;
       injection Eenc as <-; reflexivity |].
    destruct (String.eqb (karel_trace_grid_enc args) "none");
      [cbn in Hinit; injection Hinit as <-; discriminate Eenc
      | discriminate Hinit]. }
  assert (Hg : exists fields ge σ1,
             TraceDecoder.advance_grids self token state σ
             = (Ok (fields, ge), σ1) /\
             match ge with
             | Some g => TraceDecoder.grid_encoder self <> None /\
                         shape g = [n; 256%nat] /\ wf g
             | None => TraceDecoder.grid_encoder self = None
             end).
  { unfold TraceDecoder.advance_grids.
    destruct (TraceDecoder.grid_encoder self) as [enc |] eqn:Eenc;
      [| eexists _, _, _; split; reflexivity].
    erewrite store_bind_eq by reflexivity.
    erewrite store_bind_eq by reflexivity.
    rewrite (lookup_total_correct _ _ _ Hl), Hs.
    destruct (advance_beams_total self (fresh (dom σ)) n token 0%nat
                (<[fresh (dom σ) := arr]> σ) Htok) as (σ1 & Hadv).
    erewrite store_bind_eq by exact Hadv.
    erewrite store_bind_eq by reflexivity.
    cbv beta.
    destruct (advance_beams_rows self (fresh (dom σ)) n rest Hkr n token
                0%nat arr _ _ (lookup_insert_eq _ _ _) Hs Hwf
                ltac:(lia) Hadv)
      as (arr' & -> & Hs' & Hwf' & _).
    rewrite lookup_total_insert_eq.
    destruct Hlayers as (_ & Hgrid & _).
    destruct (Hgrid enc arr' n rest Eenc Hs' Hwf') as (g & Eg & Sg & Wg).
    rewrite (Henc enc eq_refl) in Sg.
    erewrite store_bind_eq by (unfold Store.lift; rewrite Eg; reflexivity).
    eexists _, _, _. split; [reflexivity |].
    split; [discriminate | auto]. }
  destruct Hg as (fields & ge & σ1 & Hg & Hge).
  assert (Wdec' : in_width (TraceDecoder.decoder self)
                  = (256 + match ge with Some _ => 256 | None => 0 end
                     + 512)%nat).
  { rewrite Wdec. destruct ge as [g |].
    - destruct Hge as (Hne & _).
      destruct (TraceDecoder.grid_encoder self) as [enc |] eqn:Eenc;
        [| contradiction].
      rewrite (Henc enc eq_refl). reflexivity.
    - rewrite Hge. reflexivity. }
  destruct (decode_step_rows decoder_packed self token n ge
              (TraceDecoder.value memory) (TraceDecoderState.h state)
              (TraceDecoderState.c state) Hlayers Hbelow Wact Wdec' Wdo Wout
              Hlen)
    as (h' & c' & lg & Estep & Sh' & _ & Sc' & _ & Slg & Wlg);
    try assumption.
  { destruct ge as [g |]; [tauto | exact I]. }
  unfold TraceDecoder.decode_token.
  erewrite store_bind_eq by exact Hg. cbv beta iota.
  erewrite store_bind_eq by (unfold Store.lift; rewrite Estep; reflexivity).
  rewrite Wlog in Slg.
  eexists _, _, _. split; [reflexivity |]. auto.
Qed.

Lemma trace_decoder_step_rows_witness :
  exists state' logits σ',
    TraceDecoder.decode_token (Examples.trace_decoder (Some LGRLGridEncoder))
      [2; 3; 0] MoreExamples.step_state MoreExamples.step_memory
      Examples.trace_store
    = (Ok (state', logits), σ') /\
    shape logits = [3; 7]%nat /\ wf logits /\
    shape (TraceDecoderState.h state') = [2; 3; 256]%nat /\
    shape (TraceDecoderState.c state') = [2; 3; 256]%nat.
Proof.
  apply (trace_decoder_step_rows MoreExamples.packed_lstm
           Examples.trace_weights
           (Examples.trace_enc_args "lgrl" "none" "none")
           (Examples.trace_decoder (Some LGRLGridEncoder))
           [2; 3; 0] MoreExamples.step_state MoreExamples.step_memory
           Examples.trace_store
           (Tensor [3; 2]%nat [10; 11; 20; 21; 30; 31]) 3 [2%nat] eq_refl).
  - apply trace_weights_accept. intros e [= <-]. reflexivity.
  - intros name field. apply toy_runtime_in_place.
  - reflexivity.
  - reflexivity.
  - reflexivity.
  - reflexivity.
  - repeat constructor; lia.
  - reflexivity.
  - vm_compute. reflexivity.
  - reflexivity.
  - vm_compute. reflexivity.
  - reflexivity.
  - vm_compute. reflexivity.
Defined.

(** ** CodeFromTraces *)

(** X18.  [CodeFromTraces.__init__]: an io encoding other than [lgrl] and
    [none] raises [ValueError] whatever the other arguments are.  In a model
    it returns, the trace encoder and the code decoder are the ones their
    own constructors build from the same arguments; there is no trace
    encoder exactly when [karel_trace_enc] is [none]; and the decoder was
    built for an io embedding exactly when there is an io encoder, so
    [encode] gives [None] for the io embedding exactly when the decoder's
    LSTM has no room for one. *)
Theorem code_from_traces_init {A G : Type}
  (w : CodeFromTraces.Weights A G) (vocab_size : Z)
  (cargs : CodeFromTraces.CodeArgs) :
  (karel_io_enc (CodeFromTraces.args cargs) <> "lgrl" ->
   karel_io_enc (CodeFromTraces.args cargs) <> "none" ->
   CodeFromTraces.__init__ w vocab_size cargs = Raise ValueError) /\
  (forall self,
     CodeFromTraces.__init__ w vocab_size cargs = Ok self ->
     LatePoolingCodeDecoder.__init__ (CodeFromTraces.decoder_weights w)
       vocab_size (CodeFromTraces.args cargs)
     = Ok (CodeFromTraces.decoder self) /\
     String.prefix "latepool" (CodeFromTraces.karel_code_dec cargs) = true /\
     match CodeFromTraces.trace_encoder self with
     | Some e =>
         IndividualTraceEncoder.__init__ (CodeFromTraces.args cargs) = Ok e /\
         String.prefix "indiv" (karel_trace_enc (CodeFromTraces.args cargs))
         = true
     | None => karel_trace_enc (CodeFromTraces.args cargs) = "none"
     end /\
     (LatePoolingCodeDecoder.use_io_embed (CodeFromTraces.decoder self) = true
      <-> CodeFromTraces.io_encoder self = CodeFromTraces.LGRLTaskEncoder) /\
     forall input_grids output_grids trace_grids conds actions interleave
            io_embed trace_memory,
       CodeFromTraces.encode self input_grids output_grids trace_grids conds
         actions interleave = Ok (io_embed, trace_memory) ->
       (io_embed = None <->
        LatePoolingCodeDecoder.use_io_embed (CodeFromTraces.decoder self)
        = false) /\
       (trace_memory = None <->
        karel_trace_enc (CodeFromTraces.args cargs) = "none")).
Proof.
  unfold CodeFromTraces.__init__. split.
  - intros H1 H2. apply String.eqb_neq in H1, H2. rewrite H1, H2. reflexivity.
  - intros self H.
    apply bind_Ok in H as (io & Hio & H).
    apply bind_Ok in H as (te & Hte & H).
    apply bind_Ok in H as (dec & Hdec & H).
    injection H as <-.
    cbn [CodeFromTraces.decoder CodeFromTraces.trace_encoder
         CodeFromTraces.io_encoder].
    destruct (String.prefix "latepool" (CodeFromTraces.karel_code_dec cargs));
      [| discriminate].
    assert (Huse : LatePoolingCodeDecoder.use_io_embed dec
                   = negb (String.eqb
                             (karel_io_enc (CodeFromTraces.args cargs))
                             "none")).
    { unfold LatePoolingCodeDecoder.__init__ in Hdec.
      apply bind_Ok in Hdec as (u1 & _ & Hdec).
      destruct (karel_modules.set_pop_list _ "memory") as [b1 l1].
      destruct (karel_modules.set_pop_list l1 "state") as [b2 l2].
      destruct (karel_modules.set_pop_list l2 "none") as [b3 l3].
      apply bind_Ok in Hdec as (u2 & _ & Hdec).
      apply bind_Ok in Hdec as (u3 & _ & Hdec).
      injection Hdec as <-. reflexivity. }
    assert (Hio' : LatePoolingCodeDecoder.use_io_embed dec = true
                   <-> io = CodeFromTraces.LGRLTaskEncoder).
    { rewrite Huse.
      destruct (String.eqb_spec (karel_io_enc (CodeFromTraces.args cargs))
                  "lgrl") as [E | N].
      - injection Hio as <-. rewrite E. cbn. tauto.
      - destruct (String.eqb (karel_io_enc (CodeFromTraces.args cargs))
                    "none"); [| discriminate].
        injection Hio as <-. cbn. split; discriminate. }
    assert (Hte' : match te with
                   | Some e =>
                       IndividualTraceEncoder.__init__
                         (CodeFromTraces.args cargs) = Ok e /\
                       String.prefix "indiv"
                         (karel_trace_enc (CodeFromTraces.args cargs)) = true
                   | None =>
                       karel_trace_enc (CodeFromTraces.args cargs) = "none"
                   end).
    { destruct (String.prefix "indiv"
                  (karel_trace_enc (CodeFromTraces.args cargs))) eqn:Ep.
      - apply bind_Ok in Hte as (e & He & Hte). injection Hte as <-.
        split; [exact He | reflexivity].
      - destruct (String.eqb_spec
                    (karel_trace_enc (CodeFromTraces.args cargs)) "none")
          as [E | N]; [| discriminate].
        injection Hte as <-. exact E. }
    split; [exact Hdec |]. split; [reflexivity |]. split; [exact Hte' |].
    split; [exact Hio' |].
    intros ig og tg conds actions il io_embed trace_memory Henc.
    unfold CodeFromTraces.encode in Henc.
    cbn [CodeFromTraces.io_encoder CodeFromTraces.trace_encoder
         CodeFromTraces.weights] in Henc.
    apply bind_Ok in Henc as (ie & Hie & Henc).
    apply bind_Ok in Henc as (tm & Htm & Henc).
    injection Henc as <- <-. split.
    + destruct io.
      * apply bind_Ok in Hie as (e & _ & Hie). injection Hie as <-.
        split; [discriminate |]. intros Hf.
        assert (Ht : LatePoolingCodeDecoder.use_io_embed dec = true)
          by (apply Hio'; reflexivity).
        congruence.
      * injection Hie as <-. split; [| reflexivity]. intros _.
        destruct (LatePoolingCodeDecoder.use_io_embed dec); [| reflexivity].
        assert (Hc : CodeFromTraces.io_none_fn = CodeFromTraces.LGRLTaskEncoder)
          by (apply Hio'; reflexivity).
        discriminate Hc.
    + destruct te as [e |].
      * apply bind_Ok in Htm as (m & _ & Htm). injection Htm as <-.
        destruct Hte' as [_ Hp]. split; [discriminate |].
        intros E. rewrite E in Hp. discriminate Hp.
      * injection Htm as <-. split; [intros _; exact Hte' | reflexivity].
Qed.

(** ** The code decoder on concrete inputs *)

(** C2.  [truncate] on a state whose context is [None] raises [TypeError]:
    it subscripts the context without the test for [None] that
    [select_for_beams] makes.  Such a state is what [init_state] gives when
    the trace memory is off. *)
Theorem truncate_without_context_raises :
  (forall (A : Type) (pairs_per_example : Z) (h c : tensor A) (k : Z),
     LatePoolingCodeDecoder.truncate
       (LatePoolingCodeDecoder.Build_State pairs_per_example None h c) k
     = Raise TypeError) /\
  (self ← LatePoolingCodeDecoder.__init__ (Examples.code_weights 8) 8
            (Examples.args_with "none");
   state ← LatePoolingCodeDecoder.init_state self 2 1;
   LatePoolingCodeDecoder.truncate state 1) = Raise TypeError.
Proof.
  split.
  - intros. reflexivity.
  - vm_compute. reflexivity.
Qed.

(** C5.  Teacher-forced decoding of two sequences of lengths 3 and 2 with
    the trace memory off raises [TypeError] at the third timestep, where the
    batch shrinks from 2 to 1 and the state is truncated; no logits are
    returned.  With the trace memory on, the same batch gives 5 rows of
    logits and the packed targets as labels. *)
Theorem forward_without_trace_raises_when_batch_shrinks :
  (self ← LatePoolingCodeDecoder.__init__ (Examples.code_weights 8) 8
            (Examples.args_with "none");
   LatePoolingCodeDecoder.forward self 2 1 None None
     Examples.input_code Examples.output_code) = Raise TypeError /\
  (self ← LatePoolingCodeDecoder.__init__ (Examples.code_weights 8) 8
            (Examples.args_with "memory");
   '(logits, labels) ← LatePoolingCodeDecoder.forward self 2 1 None
                          (Some Examples.trace_memory)
                          Examples.input_code Examples.output_code;
   Ok (shape logits, labels)) = Ok ([5; 8]%nat, [5; 7; 6; 1; 1]).
Proof.
  split; vm_compute; reflexivity.
Qed.


(** ** The first rows of a state and of a memory *)

Section FirstRows.
Context {A : Type}.
Local Close Scope string_scope.
Local Open Scope nat_scope.

Import LatePoolingCodeDecoder.

(** [t[:n]] of a tensor of [n] rows is the tensor. *)
Lemma slice0_all {X} (t : tensor X) (n : nat) (rest : list nat) :
  shape t = n :: rest -> wf t -> slice0 t (Z.of_nat n) = Ok t.
Proof.
  intros Hs Hwf.
  destruct (slice0_rows t n rest (Z.of_nat n) Hs Hwf ltac:(lia))
    as (t' & E & S & W & R).
  rewrite Nat2Z.id in S, R. rewrite E. f_equal.
  apply (tensor_eq_rows t' t n rest); assumption.
Qed.

(** [t[:, :n]] of a tensor of [n] rows is the tensor. *)
Lemma slice1_all {X} (t : tensor X) (n0 n1 : nat) (rest : list nat) :
  shape t = n0 :: n1 :: rest -> wf t -> slice1 t (Z.of_nat n1) = Ok t.
Proof.
  intros Hs Hwf.
  destruct (slice1_rows t n0 n1 rest (Z.of_nat n1) Hs Hwf ltac:(lia))
    as (t' & E & S & W & R).
  rewrite Nat2Z.id in S, R. rewrite E. f_equal.
  apply (tensor_eq_rows1 t' t n0 n1 rest); assumption.
Qed.

(** On a state with a context, the first rows are what [truncate] gives. *)
Lemma State_first_rows_truncate (s : State A) (k : nat) :
  context s <> None -> State_first_rows s k = truncate s (Z.of_nat k).
Proof.
  intros Hctx. unfold State_first_rows, truncate.
  destruct (context s) as [ctx |]; [| contradiction].
  destruct (slice0 ctx (Z.of_nat k)); reflexivity.
Qed.

(** The first [n] rows of a state of [n] rows are the state. *)
Lemma State_first_rows_all (n p : nat) (s : State A) :
  state_rows n p s -> State_first_rows s n = Ok s.
Proof.
  intros (Hp & (ctx & Hctx & Sctx & Wctx) & Sh & Wh & Sc & Wc).
  unfold State_first_rows. rewrite Hctx.
  rewrite (slice0_all ctx n _ Sctx Wctx).
  rewrite (slice1_all (h s) 2 n _ Sh Wh), (slice1_all (c s) 2 n _ Sc Wc).
  cbn [mbind result_bind Py.bind]. destruct s as [pp x hh cc].
  cbn [pairs_per_example context h c] in *. subst x. reflexivity.
Qed.

Lemma State_first_rows_all_plain (n p : nat) (s : State A) :
  plain_state_rows n p s -> State_first_rows s n = Ok s.
Proof.
  intros (Hp & Hctx & Sh & Wh & Sc & Wc).
  unfold State_first_rows. rewrite Hctx.
  rewrite (slice1_all (h s) 2 n _ Sh Wh), (slice1_all (c s) 2 n _ Sc Wc).
  cbn [mbind result_bind Py.bind]. destruct s as [pp x hh cc].
  cbn [pairs_per_example context h c] in *. subst x. reflexivity.
Qed.

(** The first [n] rows of a memory of [n] rows are the memory. *)
Lemma Memory_first_rows_all (with_io : bool) (n p len : nat) (m : Memory A) :
  memory_rows with_io n p len m -> Memory_first_rows m n = Ok m.
Proof.
  intros (Hio & tr & Htr & Sm & Wm & Sk & Wk).
  unfold Memory_first_rows, MaskedMemory.apply. rewrite Htr.
  rewrite (slice0_all _ n _ Sm Wm), (slice0_all _ n _ Sk Wk).
  destruct m as [io0 tr0]. cbn [io trace] in *. subst tr0.
  destruct tr as [mem mask]. cbn [MaskedMemory.memory MaskedMemory.attn_mask].
  destruct io0 as [t |].
  - destruct Hio as (_ & St & Wt). rewrite (slice0_all t n _ St Wt).
    reflexivity.
  - reflexivity.
Qed.

Lemma Memory_first_rows_all_plain (with_io : bool) (n p : nat)
  (m : Memory A) :
  plain_memory_rows with_io n p m -> Memory_first_rows m n = Ok m.
Proof.
  intros (Hio & Htr).
  unfold Memory_first_rows. rewrite Htr.
  destruct m as [io0 tr0]. cbn [io trace] in *. subst tr0.
  destruct io0 as [t |].
  - destruct Hio as (_ & St & Wt). rewrite (slice0_all t n _ St Wt).
    reflexivity.
  - reflexivity.
Qed.

(** The first [bs] rows of a memory of [B] rows are a memory of [bs]
    rows. *)
Lemma Memory_first_rows_rows (with_io : bool) (B bs p len : nat)
  (m : Memory A) :
  memory_rows with_io B p len m -> bs <= B ->
  exists m',
    Memory_first_rows m bs = Ok m' /\ memory_rows with_io bs p len m'.
Proof.
  intros Hm Hb.
  destruct (truncate_memory_rows with_io B bs p len m Hm Hb)
    as (io' & tr & tr' & Htr & Hio' & Happ & Hrows).
  unfold Memory_first_rows. rewrite Htr, Happ.
  destruct (io m) as [t |].
  - destruct Hio' as (t' & Et & ->). rewrite Et.
    eexists. split; [reflexivity | exact Hrows].
  - subst io'. eexists. split; [reflexivity | exact Hrows].
Qed.

End FirstRows.

(** ** Teacher-forced decoding with the trace memory *)

Section TeacherForcingFacts.
Context {A : Type}.
Local Close Scope string_scope.
Local Open Scope nat_scope.

Import LatePoolingCodeDecoder.

(** One timestep of [forward] on a state of [cur] rows and the memory cut
    to [cur] rows, for a batch size [bs] that does not exceed [cur]: the
    step decodes the rows [offset .. offset + bs) of the input from the
    first [bs] rows of the state and of the memory, whether the loop has
    just cut them or had cut them before. *)
Lemma forward_step_teacher (self : t A) (with_io : bool)
  (vocab B cur bs last_bs p len rows offset : nat)
  (full : Memory A) (input_data : tensor A) (memory : Memory A)
  (state : State A) :
  layers_accept (weights self) (decoder_input_size with_io) vocab ->
  trace_attention self <> None ->
  memory_rows with_io B p len full ->
  Memory_first_rows full cur = Ok memory -> state_rows cur p state ->
  shape input_data = [rows; 256] -> wf input_data -> offset + bs <= rows ->
  bs <= cur -> cur <= B -> (last_bs <= bs -> cur = bs) ->
  1 <= p -> 1 <= len ->
  exists tokens emb state_t memory_t state' logits_for_t,
    slice_rows input_data offset bs = Ok tokens /\
    expand_pairs tokens (Z.of_nat p) = Ok emb /\
    State_first_rows state bs = Ok state_t /\
    Memory_first_rows full bs = Ok memory_t /\
    compute_next_token_logits self state_t memory_t emb
    = Ok (state', logits_for_t) /\
    forward_step self (Z.of_nat p) (io full) (trace full) input_data
      offset last_bs bs memory state = Ok (memory_t, state', logits_for_t) /\
    state_rows bs p state' /\
    shape logits_for_t = [bs; vocab] /\ wf logits_for_t.
Proof.
  intros Hlayers Hta Hfull Hinv Hstate Hsd Hwd Hoff Hbs Hcur Hlast H1p H1l.
  destruct (slice_rows_shape input_data rows [256] offset bs Hsd Hwd Hoff)
    as (sl & Esl & Ssl & Wsl).
  destruct (expand_pairs_shape sl bs 256 p Ssl Wsl)
    as (emb & Eemb & Semb & Wemb).
  destruct (Memory_first_rows_rows with_io B bs p len full Hfull
              ltac:(lia)) as (memory_t & Emt & Hmt).
  destruct (truncate_state_rows cur bs p state Hstate Hbs)
    as (state_t & Etr & Hst).
  assert (Hctx : context state <> None).
  { destruct Hstate as (_ & (ctx & -> & _) & _). discriminate. }
  assert (Est : State_first_rows state bs = Ok state_t)
    by (rewrite State_first_rows_truncate by exact Hctx; exact Etr).
  destruct (compute_next_token_logits_rows self with_io vocab bs p len
              state_t memory_t emb Hlayers Hta Hst Hmt Semb Wemb H1p H1l)
    as (state' & lg & Estep & Hstate' & Slg & Wlg).
  exists sl, emb, state_t, memory_t, state', lg.
  repeat (split; [assumption |]).
  split; [| auto].
  unfold forward_step. rewrite Esl. cbn [mbind result_bind Py.bind].
  rewrite Eemb. cbn [mbind result_bind Py.bind].
  destruct (Nat.ltb_spec bs last_bs) as [Hlt | Hge].
  - (* the batch shrinks: the loop cuts the memory and the state *)
    rewrite Etr.
    destruct (truncate_memory_rows with_io B bs p len full Hfull
                ltac:(lia)) as (io' & tr & tr' & Htr & Hio' & Happ & _).
    unfold Memory_first_rows in Emt, Hinv.
    rewrite Htr, Happ in Emt. rewrite Htr in Hinv. rewrite Htr, Happ.
    destruct (io full) as [t |].
    + destruct Hio' as (t' & Et & _). rewrite Et in Emt |- *.
      cbn [mbind result_bind Py.bind] in Emt |- *.
      injection Emt as <-. rewrite Estep. reflexivity.
    + cbn [mbind result_bind Py.bind] in Emt, Hinv |- *.
      assert (Hio : io memory = None).
      { apply bind_Ok in Hinv as (x & _ & Hinv).
        cbn [mbind result_bind Py.bind] in Hinv. injection Hinv as <-.
        reflexivity. }
      rewrite Hio. cbn [mbind result_bind Py.bind].
      injection Emt as <-. rewrite Estep. reflexivity.
  - (* the batch keeps its size: they are cut already *)
    specialize (Hlast Hge). subst cur.
    rewrite Hinv in Emt. injection Emt as ->.
    rewrite (State_first_rows_all bs p state Hstate) in Est.
    injection Est as ->.
    cbn [mbind result_bind Py.bind]. rewrite Estep. reflexivity.
Qed.

(** The loop of [forward] from a timestep on, for batch sizes that never
    grow: it is the teacher-forced decoding of the timesteps that remain. *)
Lemma forward_loop_teacher (self : t A) (with_io : bool)
  (vocab B p len rows : nat) (full : Memory A) (input_data : tensor A) :
  layers_accept (weights self) (decoder_input_size with_io) vocab ->
  trace_attention self <> None ->
  memory_rows with_io B p len full ->
  shape input_data = [rows; 256] -> wf input_data ->
  1 <= p -> 1 <= len ->
  forall (sizes : list nat) (offset cur last_bs : nat) (memory : Memory A)
    (state : State A) (logits : list (tensor A)),
    Memory_first_rows full cur = Ok memory -> state_rows cur p state ->
    cur <= B -> shrinking cur sizes ->
    (forall bs, head sizes = Some bs -> last_bs <= bs -> cur = bs) ->
    offset + sum_list sizes <= rows ->
    exists steps,
      forward_loop self (Z.of_nat p) (io full) (trace full) input_data
        sizes offset last_bs memory state logits = Ok (logits ++ steps) /\
      Forall2 (fun bs l => shape l = [bs; vocab] /\ wf l) sizes steps /\
      teacher_forced self (Z.of_nat p) full input_data offset state sizes
        steps.
Proof.
  intros Hlayers Hta Hfull Hsd Hwd H1p H1l.
  induction sizes as [| bs sizes IH];
    intros offset cur last_bs memory state logits Hinv Hstate Hcur Hshr
      Hlast Hrows.
  - exists []. rewrite app_nil_r.
    split; [reflexivity |]. split; [constructor | exact I].
  - destruct Hshr as [Hbs Hshr].
    change (sum_list (bs :: sizes)) with (bs + sum_list sizes) in Hrows.
    destruct (forward_step_teacher self with_io vocab B cur bs last_bs p len
                rows offset full input_data memory state Hlayers Hta Hfull
                Hinv Hstate Hsd Hwd ltac:(lia) Hbs Hcur
                (Hlast bs eq_refl) H1p H1l)
      as (tokens & emb & state_t & memory_t & state' & lg & E1 & E2 & E3
          & E4 & E5 & Estep & Hstate' & Slg & Wlg).
    cbn [forward_loop]. rewrite Estep. cbn [mbind result_bind Py.bind].
    destruct (IH (offset + bs) bs bs memory_t state' (logits ++ [lg])
                E4 Hstate' ltac:(lia) Hshr)
      as (steps & Eloop & Hsteps & Hteach).
    { intros bs' Hhd Hle'. destruct sizes as [| b sizes']; [discriminate Hhd |].
      injection Hhd as ->. destruct Hshr as [Hle _]. lia. }
    { lia. }
    exists (lg :: steps). rewrite Eloop, <- app_assoc.
    split; [reflexivity |]. split; [constructor; auto |].
    cbn [teacher_forced].
    exists tokens, emb, state_t, memory_t, state'. auto 10.
Qed.

End TeacherForcingFacts.

(** X5.  Teacher-forced decoding with the trace memory on.  For a decoder
    with its trace attention, whose layers accept their inputs, input tokens
    of the vocabulary, [B] examples with [p >= 1] pairs each, a padded trace
    memory of [B * p] rows, and a packed input whose batch sizes start at
    [B] and never grow: [forward] returns; the labels are the packed
    targets; the logits are those of [decode_sequence], that is the logits
    of the timesteps concatenated in order, where the timestep of batch size
    [bs] decodes the [bs] rows of the embedded packed input that follow the
    rows of the timesteps before it, from the first [bs] rows of the state
    the timestep before it left (the initial state for the first) and the
    first [bs] rows of the prepared memory in the sorted order of the
    batch; so the logits have [sum(batch_sizes)] rows of the width of the
    vocabulary, row [i] for packed position [i]. *)
Theorem forward_gives_one_row_per_packed_token {A : Type}
  (self : LatePoolingCodeDecoder.t A) (vocab B p len : nat)
  (io_embed : option (tensor A)) (trace : tensor A) (mask : tensor bool)
  (input_code output_code : PackedSequencePlus (list Z))
  (sizes : list nat) :
  LatePoolingCodeDecoder.use_trace_memory self = true ->
  LatePoolingCodeDecoder.trace_attention self <> None ->
  LatePoolingCodeDecoder.layers_accept (LatePoolingCodeDecoder.weights self)
    (LatePoolingCodeDecoder.decoder_input_size
       (match io_embed with Some _ => true | None => false end)) vocab ->
  tokens_below vocab (ps_data input_code) ->
  (1 <= p)%nat -> (1 <= len)%nat ->
  match io_embed with
  | Some t => shape t = [B; p; 512%nat] /\ wf t
  | None => True
  end ->
  shape trace = [(B * p)%nat; len; 512%nat] -> wf trace ->
  shape mask = [(B * p)%nat; len] -> wf mask ->
  batch_sizes input_code = B :: sizes ->
  LatePoolingCodeDecoder.shrinking B sizes ->
  length (ps_data input_code) = sum_list (B :: sizes) ->
  length (orig_to_sort input_code) = B ->
  Forall (fun i => 0 <= i < Z.of_nat B) (orig_to_sort input_code) ->
  exists logits,
    LatePoolingCodeDecoder.forward self (Z.of_nat B) (Z.of_nat p) io_embed
      (Some (trace, mask)) input_code output_code
    = Ok (logits, ps_data output_code) /\
    decode_sequence self (Z.of_nat B) (Z.of_nat p) io_embed
      (Some (trace, mask)) input_code logits /\
    shape logits = [sum_list (batch_sizes input_code); vocab].
Proof.
  intros Huse Hta Hlayers Htok H1p H1l Hio Hst Hwt Hsm Hwm Hsizes Hshr Hlen
    Hperm Hsort.
  set (with_io := match io_embed with Some _ => true | None => false end) in *.
  pose proof Hlayers as (Hembed & _).
  destruct (Hembed (ps_data input_code) Htok) as (e & Ee & Se & We).
  destruct (code_state_init self B p Huse) as (state & Einit & Hstate).
  (* prepare_memory *)
  destruct (view_full_wf trace [B; p; len; 512%nat])
    as (tm & Etm & Stm & _ & Wtm);
    [rewrite Hst, !numel_cons, !numel_nil; lia | exact Hwt |].
  destruct (view_full_wf mask [B; p; len]) as (km & Ekm & Skm & _ & Wkm);
    [rewrite Hsm, !numel_cons, !numel_nil; lia | exact Hwm |].
  assert (Hprep : LatePoolingCodeDecoder.prepare_memory self (Z.of_nat B)
                    (Z.of_nat p) io_embed (Some (trace, mask))
                  = Ok (LatePoolingCodeDecoder.Build_Memory io_embed
                          (Some (MaskedMemory.Build_t tm km)))).
  { unfold LatePoolingCodeDecoder.prepare_memory. rewrite Huse, Hst, Hsm.
    cbn [tail].
    change (Z.of_nat B :: Z.of_nat p :: map Z.of_nat [len; 512%nat])
      with (map Z.of_nat [B; p; len; 512%nat]).
    change (Z.of_nat B :: Z.of_nat p :: map Z.of_nat [len])
      with (map Z.of_nat [B; p; len]).
    rewrite Etm, Ekm. reflexivity. }
  (* the memory in sorted order *)
  assert (Hio2 : exists io2,
             match io_embed with
             | Some io => s ← index_list io (orig_to_sort input_code); Ok (Some s)
             | None => Ok None
             end = Ok io2 /\
             match io2 with
             | Some t => with_io = true /\ shape t = [B; p; 512%nat] /\ wf t
             | None => with_io = false
             end).
  { destruct io_embed as [t |].
    - destruct Hio as [Hs0 Hw0].
      destruct (index_list_shape t B [p; 512%nat] _ Hs0 Hw0 Hsort)
        as (r & Er & Sr & Wr).
      rewrite Er. exists (Some r). split; [reflexivity |].
      rewrite Hperm in Sr. auto.
    - exists None. split; reflexivity. }
  destruct Hio2 as (io2 & Eio2 & Hio2).
  destruct (index_list_shape tm B [p; len; 512%nat] _ Stm Wtm Hsort)
    as (tm2 & Etm2 & Stm2 & Wtm2).
  destruct (index_list_shape km B [p; len] _ Skm Wkm Hsort)
    as (km2 & Ekm2 & Skm2 & Wkm2).
  rewrite Hperm in Stm2, Skm2.
  set (full := LatePoolingCodeDecoder.Build_Memory io2
                 (Some (MaskedMemory.Build_t tm2 km2))).
  assert (Hfull : LatePoolingCodeDecoder.memory_rows with_io B p len full).
  { unfold LatePoolingCodeDecoder.memory_rows, full.
    cbn [LatePoolingCodeDecoder.io LatePoolingCodeDecoder.trace].
    split; [exact Hio2 |]. eexists. split; [reflexivity |]. cbn. auto. }
  assert (Hsorted : Memory_rows_at
                      (LatePoolingCodeDecoder.Build_Memory io_embed
                         (Some (MaskedMemory.Build_t tm km)))
                      (orig_to_sort input_code) = Ok full).
  { unfold Memory_rows_at, MaskedMemory.apply.
    cbn [LatePoolingCodeDecoder.io LatePoolingCodeDecoder.trace
         MaskedMemory.memory MaskedMemory.attn_mask].
    rewrite Eio2, Etm2, Ekm2. reflexivity. }
  (* the loop over the timesteps *)
  rewrite Hlen in Se.
  destruct (forward_loop_teacher self with_io vocab B p len
              (sum_list (B :: sizes)) full e Hlayers Hta Hfull Se We H1p H1l
              (B :: sizes) 0%nat B 0%nat full state []
              (Memory_first_rows_all with_io B p len full Hfull) Hstate
              ltac:(lia) (conj (le_n B) Hshr))
    as (steps & Eloop & Hsteps & Hteach).
  { intros bs [= <-] _. reflexivity. }
  { lia. }
  cbn [app] in Eloop.
  inversion Hsteps as [| bs lg1 sizes' steps' [Slg1 Wlg1] Hsteps' E1 E2].
  subst bs sizes' steps.
  destruct (cat_onto_rows vocab steps' sizes lg1 B Slg1 Wlg1 Hsteps')
    as (logits & Ecat & Scat & Wcat).
  exists logits. split; [| split].
  - unfold LatePoolingCodeDecoder.forward, PackedSequencePlus_apply.
    rewrite Ee.
    cbn [mbind result_bind Py.bind ps_data batch_sizes orig_to_sort].
    rewrite Einit. cbn [mbind result_bind Py.bind]. rewrite Hprep.
    cbn [mbind result_bind Py.bind LatePoolingCodeDecoder.io
         LatePoolingCodeDecoder.trace].
    rewrite Eio2. cbn [mbind result_bind Py.bind].
    unfold MaskedMemory.apply.
    cbn [MaskedMemory.memory MaskedMemory.attn_mask].
    rewrite Etm2, Ekm2. cbn [mbind result_bind Py.bind].
    fold full. rewrite Hsizes.
    change io2 with (LatePoolingCodeDecoder.io full) at 1.
    change (Some (MaskedMemory.Build_t tm2 km2))
      with (LatePoolingCodeDecoder.trace full) at 1.
    rewrite Eloop. cbn [mbind result_bind Py.bind cat]. rewrite Ecat.
    reflexivity.
  - exists e, state,
      (LatePoolingCodeDecoder.Build_Memory io_embed
         (Some (MaskedMemory.Build_t tm km))), full, (lg1 :: steps').
    rewrite Hsizes. auto 10.
  - rewrite Scat, Hsizes. reflexivity.
Qed.

Lemma forward_gives_one_row_per_packed_token_witness :
  exists logits,
    LatePoolingCodeDecoder.forward Examples.memory_decoder 2 1 None
      (Some Examples.trace_memory) Examples.input_code Examples.output_code
    = Ok (logits, [5; 7; 6; 1; 1]) /\
    decode_sequence Examples.memory_decoder 2 1 None
      (Some Examples.trace_memory) Examples.input_code logits /\
    shape logits = [5; 8]%nat.
Proof.
  apply (forward_gives_one_row_per_packed_token Examples.memory_decoder
           8 2 1 3 None (fst Examples.trace_memory)
           (snd Examples.trace_memory) Examples.input_code
           Examples.output_code [2; 1]%nat).
  - reflexivity.
  - discriminate.
  - apply code_weights_accept.
  - repeat constructor; lia.
  - lia.
  - lia.
  - exact I.
  - reflexivity.
  - vm_compute. reflexivity.
  - reflexivity.
  - vm_compute. reflexivity.
  - reflexivity.
  - cbn. lia.
  - reflexivity.
  - reflexivity.
  - repeat constructor; cbn; lia.
Defined.

(** ** The code decoder as built *)

Section BuiltFacts.
Context {A : Type}.
Local Close Scope string_scope.
Local Open Scope nat_scope.

Import LatePoolingCodeDecoder.

(** The sizes [__init__] builds the layers with. *)
Lemma code_decoder_built (w : Weights A) (vocab_size : Z) (args : Args)
  (self : t A) :
  __init__ w vocab_size args = Ok self ->
  weights self = w /\
  out_width (code_embed self) = 256 /\
  in_width (decoder self)
  = 256 + (if use_io_embed self then 512 else 0)
    + (if use_trace_memory self then 512 else 0) /\
  out_width (decoder self) = 256 /\
  in_width (out self) = 256 + (if use_trace_memory self then 512 else 0) /\
  out_width (out self) = Z.to_nat vocab_size /\
  trace_attention self
  = (if use_trace_memory self then Some (SimpleSDPAttention 256 512)
     else None).
Proof.
  unfold __init__. intros H.
  apply bind_Ok in H as (u1 & _ & H).
  destruct (karel_modules.set_pop_list _ "memory"%string) as [b1 l1].
  destruct (karel_modules.set_pop_list l1 "state"%string) as [b2 l2].
  destruct (karel_modules.set_pop_list l2 "none"%string) as [b3 l3].
  apply bind_Ok in H as (u2 & _ & H).
  apply bind_Ok in H as (u3 & _ & H).
  injection H as <-.
  cbn [weights code_embed decoder out use_io_embed use_trace_memory
       trace_attention out_width in_width].
  split; [reflexivity |]. split; [reflexivity |].
  split; [destruct (negb _), (if b3 then false else b1); reflexivity |].
  split; [reflexivity |].
  split; [destruct (if b3 then false else b1); reflexivity |].
  split; reflexivity.
Qed.

(** The vocabulary [__init__] builds the embedding for. *)
Lemma code_decoder_vocabulary (w : Weights A) (vocab_size : Z) (args : Args)
  (self : t A) :
  __init__ w vocab_size args = Ok self ->
  num_embeddings (code_embed self) = Z.to_nat vocab_size.
Proof.
  unfold __init__. intros H.
  apply bind_Ok in H as (u1 & _ & H).
  destruct (karel_modules.set_pop_list _ "memory"%string) as [b1 l1].
  destruct (karel_modules.set_pop_list l1 "state"%string) as [b2 l2].
  destruct (karel_modules.set_pop_list l2 "none"%string) as [b3 l3].
  apply bind_Ok in H as (u2 & _ & H).
  apply bind_Ok in H as (u3 & _ & H).
  injection H as <-. reflexivity.
Qed.

(** One decoding step without trace memory on a state and a memory of [n]
    rows: it returns, the new state has [n] rows again and no context, and
    the logits have one row per example. *)
Lemma compute_next_token_logits_plain (self : t A) (with_io : bool)
  (vocab n p : nat) (state : State A) (memory : Memory A) (emb : tensor A) :
  CodeDecoder_layers_accept self ->
  in_width (decoder self) = 256 + (if with_io then 512 else 0) ->
  out_width (decoder self) = 256 -> in_width (out self) = 256 ->
  out_width (out self) = vocab ->
  plain_state_rows n p state -> plain_memory_rows with_io n p memory ->
  shape emb = [n; p; 256] -> wf emb -> 1 <= p ->
  exists state' logits,
    compute_next_token_logits self state memory emb = Ok (state', logits) /\
    plain_state_rows n p state' /\ shape logits = [n; vocab] /\ wf logits.
Proof.
  intros (_ & Hdec & _ & Hout) Wdec Wdo Wout Wlog
    (Hp & Hctx & Hsh & Hwh & Hsc & Hwc) (Hio & Htr) Hse Hwe H1p.
  cbv zeta in Hdec, Hout.
  rewrite Wdec, Wdo in Hdec. rewrite Wout, Wlog in Hout.
  set (din := 256 + (if with_io then 512 else 0)) in *.
  unfold compute_next_token_logits. rewrite Hctx, Htr, Hp.
  assert (Hin : exists di,
             karel_modules.maybe_concat [Some emb; io memory; None] 2
             = Ok (Some di) /\ shape di = [n; p; din] /\ wf di).
  { destruct (io memory) as [t |].
    - destruct Hio as (-> & Hst & Hwt).
      change (karel_modules.maybe_concat [Some emb; Some t; None] 2)
        with (r ← (acc ← cat2 2 emb t; Ok acc); Ok (Some r)).
      destruct (cat2_shape 2 emb t) as (r1 & E1 & S1 & W1);
        rewrite ?Hse, ?Hst; cbn [length take drop]; try lia; try reflexivity;
        try assumption.
      rewrite E1. cbn [mbind result_bind Py.bind].
      rewrite Hse, Hst in S1. cbn [take drop dim nth app] in S1.
      exists r1. split; [reflexivity |]. split; [exact S1 | exact W1].
    - subst with_io. exists emb. split; [reflexivity |].
      unfold din. rewrite Nat.add_0_r. split; assumption. }
  destruct Hin as (di & Edi & Sdi & Wdi). rewrite Edi.
  cbn [mbind result_bind Py.bind getattr].
  assert (Hdin : 1 <= din) by (unfold din; lia).
  assert (Hld : last_dim di = Ok (Z.of_nat din))
    by (unfold last_dim; rewrite Sdi; reflexivity).
  rewrite Hld. cbn [mbind result_bind Py.bind].
  destruct (view_infer di [] [din] (n * p)) as (di2 & E2 & S2 & _ & W2);
    [rewrite Sdi, !numel_cons, !numel_nil; lia
    | rewrite !numel_cons, !numel_nil; lia | exact Wdi |].
  cbn [map app] in E2, S2. rewrite E2. cbn [mbind result_bind Py.bind].
  destruct (view_infer (h state) [2] [256] (n * p)) as (h0 & Eh & Sh & _ & Wh0);
    [rewrite Hsh, !numel_cons, !numel_nil; lia
    | rewrite !numel_cons, !numel_nil; lia | exact Hwh |].
  destruct (view_infer (c state) [2] [256] (n * p)) as (c0 & Ec & Sc & _ & Wc0);
    [rewrite Hsc, !numel_cons, !numel_nil; lia
    | rewrite !numel_cons, !numel_nil; lia | exact Hwc |].
  cbn [map app] in Sh, Sc.
  assert (Fh : karel_modules.flatten (h state) 1 = Ok h0)
    by (unfold karel_modules.flatten; rewrite Hsh; exact Eh).
  assert (Fc : karel_modules.flatten (c state) 1 = Ok c0)
    by (unfold karel_modules.flatten; rewrite Hsc; exact Ec).
  rewrite Fh, Fc. cbn [mbind result_bind Py.bind].
  destruct (Hdec (unsqueeze0 di2) h0 c0 (n * p))
    as (o & h1 & c1 & Ed & So & Wo & Sh1 & Wh1 & Sc1 & Wc1);
    [cbn [unsqueeze0 shape]; rewrite S2; reflexivity
    | unfold wf in *; cbn [unsqueeze0 shape data]; rewrite numel_cons; lia
    | exact Sh | exact Wh0 | exact Sc | exact Wc0 |].
  rewrite Ed. cbn [mbind result_bind Py.bind].
  rewrite Sh in Sh1. rewrite Sc in Sc1.
  destruct (view_full_wf h1 [2; n; p; 256]) as (h1' & Eh1 & Sh1' & _ & Wh1');
    [rewrite Sh1, !numel_cons, !numel_nil; lia | exact Wh1 |].
  destruct (view_full_wf c1 [2; n; p; 256]) as (c1' & Ec1 & Sc1' & _ & Wc1');
    [rewrite Sc1, !numel_cons, !numel_nil; lia | exact Wc1 |].
  assert (Vh : view_as h1 (h state) = Ok h1')
    by (unfold view_as; rewrite Hsh; exact Eh1).
  assert (Vc : view_as c1 (c state) = Ok c1')
    by (unfold view_as; rewrite Hsc; exact Ec1).
  rewrite Vh, Vc. cbn [mbind result_bind Py.bind].
  assert (Sq : shape (squeeze0 o) = [n * p; 256])
    by (unfold squeeze0; rewrite So; reflexivity).
  assert (Wq : wf (squeeze0 o)).
  { unfold wf in *. unfold squeeze0. rewrite So. cbn [shape data].
    rewrite Wo, So, !numel_cons. lia. }
  change (karel_modules.maybe_concat [None; Some (squeeze0 o)] 1)
    with (Ok (Some (squeeze0 o)) : result (option (tensor A))).
  cbn [mbind result_bind Py.bind getattr].
  destruct (pool_rows (emax (weights self)) p n 256 (squeeze0 o) Sq Wq H1p
              ltac:(lia))
    as (pooled & Epool & Spool & Wpool & _).
  rewrite Epool. cbn [mbind result_bind Py.bind].
  destruct (Hout pooled n Spool Wpool) as (lg & Eout & Slg & Wlg).
  rewrite Eout. cbn [mbind result_bind Py.bind].
  eexists _, _. split; [reflexivity |]. split; [| split; assumption].
  unfold plain_state_rows. cbn [pairs_per_example context h c]. auto 10.
Qed.

(** [init_state] without trace memory. *)
Lemma code_state_init_plain (self : t A) (B p : nat) :
  use_trace_memory self = false ->
  exists state,
    init_state self (Z.of_nat B) (Z.of_nat p) = Ok state /\
    plain_state_rows B p state.
Proof.
  intros Huse. unfold init_state, karel_modules.lstm_init. rewrite Huse.
  change ((2%Z :: [Z.of_nat B; Z.of_nat p]) ++ [256%Z])%list
    with (map Z.of_nat [2; B; p; 256]).
  rewrite !zeros_shape. cbn [mbind result_bind Py.bind].
  eexists. split; [reflexivity |].
  unfold plain_state_rows. cbn [pairs_per_example context h c].
  split; [reflexivity |]. split; [reflexivity |].
  split; [reflexivity |]. split; [unfold wf; apply length_replicate |].
  split; [reflexivity |]. unfold wf. apply length_replicate.
Qed.

Section PlainLoop.
Variable self : t A.
Variables (with_io : bool) (vocab B p rows : nat).
Variable io_embed : option (tensor A).
Variable input_data : tensor A.

Hypothesis layers : CodeDecoder_layers_accept self.
Hypothesis decoder_in :
  in_width (decoder self) = 256 + (if with_io then 512 else 0).
Hypothesis decoder_out : out_width (decoder self) = 256.
Hypothesis out_in : in_width (out self) = 256.
Hypothesis out_out : out_width (out self) = vocab.
Hypothesis io_rows :
  match io_embed with
  | Some t => shape t = [B; p; 512] /\ wf t
  | None => True
  end.
Hypothesis data_shape : shape input_data = [rows; 256].
Hypothesis data_wf : wf input_data.
Hypothesis pairs : 1 <= p.

(** A timestep of the full batch size: no truncation. *)
Lemma forward_step_plain (offset last_bs : nat) (memory : Memory A)
  (state : State A) :
  plain_memory_rows with_io B p memory -> plain_state_rows B p state ->
  offset + B <= rows -> last_bs <= B ->
  exists tokens emb state' logits_for_t,
    slice_rows input_data offset B = Ok tokens /\
    expand_pairs tokens (Z.of_nat p) = Ok emb /\
    compute_next_token_logits self state memory emb
    = Ok (state', logits_for_t) /\
    forward_step self (Z.of_nat p) io_embed None input_data
      offset last_bs B memory state = Ok (memory, state', logits_for_t) /\
    plain_state_rows B p state' /\
    shape logits_for_t = [B; vocab] /\ wf logits_for_t.
Proof.
  intros Hmem Hstate Hoff Hlast. unfold forward_step.
  destruct (slice_rows_shape input_data rows [256] offset B data_shape
              data_wf Hoff) as (sl & Esl & Ssl & Wsl).
  rewrite Esl. cbn [mbind result_bind Py.bind].
  destruct (expand_pairs_shape sl B 256 p Ssl Wsl)
    as (emb & Eemb & Semb & Wemb).
  rewrite Eemb. cbn [mbind result_bind Py.bind].
  destruct (Nat.ltb_spec B last_bs); [lia |].
  cbn [mbind result_bind Py.bind].
  destruct (compute_next_token_logits_plain self with_io vocab B p state
              memory emb layers decoder_in decoder_out out_in out_out
              Hstate Hmem Semb Wemb pairs)
    as (state' & lg & Estep & Hstate' & Slg & Wlg).
  rewrite Estep. cbn [mbind result_bind Py.bind].
  exists sl, emb, state', lg. auto 10.
Qed.

(** A timestep of a smaller batch size: the truncation raises. *)
Lemma forward_step_plain_shrinks (offset bs : nat) (memory : Memory A)
  (state : State A) :
  plain_state_rows B p state -> offset + bs <= rows -> bs < B ->
  forward_step self (Z.of_nat p) io_embed None input_data
    offset B bs memory state = Raise TypeError.
Proof.
  intros (_ & Hctx & _) Hoff Hbs. unfold forward_step.
  destruct (slice_rows_shape input_data rows [256] offset bs data_shape
              data_wf Hoff) as (sl & Esl & Ssl & Wsl).
  rewrite Esl. cbn [mbind result_bind Py.bind].
  destruct (expand_pairs_shape sl bs 256 p Ssl Wsl)
    as (emb & Eemb & Semb & Wemb).
  rewrite Eemb. cbn [mbind result_bind Py.bind].
  destruct (Nat.ltb_spec bs B); [| lia].
  unfold truncate. rewrite Hctx.
  destruct io_embed as [t |].
  - destruct io_rows as [St Wt].
    destruct (slice0_shape t B [p; 512] bs St Wt ltac:(lia))
      as (t' & Et & _).
    rewrite Et. reflexivity.
  - reflexivity.
Qed.

(** The loop on timesteps of the full batch size: it is the teacher-forced
    decoding of these timesteps. *)
Lemma forward_loop_plain (T : nat) :
  forall (offset last_bs : nat) (memory : Memory A) (state : State A)
    (logits : list (tensor A)),
    plain_memory_rows with_io B p memory -> plain_state_rows B p state ->
    offset + T * B <= rows -> last_bs <= B ->
    exists steps,
      forward_loop self (Z.of_nat p) io_embed None input_data
        (replicate T B) offset last_bs memory state logits
      = Ok (logits ++ steps) /\
      Forall2 (fun bs l => shape l = [bs; vocab] /\ wf l) (replicate T B)
        steps /\
      teacher_forced self (Z.of_nat p) memory input_data offset state
        (replicate T B) steps.
Proof.
  induction T as [| T IH]; intros offset last_bs memory state logits
    Hmem Hstate Hrows Hlast.
  - exists []. rewrite app_nil_r.
    split; [reflexivity |]. split; [constructor | exact I].
  - cbn [replicate forward_loop].
    destruct (forward_step_plain offset last_bs memory state Hmem Hstate
                ltac:(lia) Hlast)
      as (tokens & emb & state' & lg & E1 & E2 & E3 & Estep & Hstate' & Slg
          & Wlg).
    rewrite Estep. cbn [mbind result_bind Py.bind].
    destruct (IH (offset + B) B memory state' (logits ++ [lg]) Hmem Hstate'
                ltac:(lia) ltac:(lia)) as (steps & Eloop & Hsteps & Hteach).
    exists (lg :: steps). rewrite Eloop, <- app_assoc.
    split; [reflexivity |]. split; [constructor; auto |].
    cbn [teacher_forced]. exists tokens, emb, state, memory, state'.
    rewrite (State_first_rows_all_plain B p state Hstate).
    rewrite (Memory_first_rows_all_plain with_io B p memory Hmem).
    auto 10.
Qed.

(** The loop on batch sizes that shrink somewhere. *)
Lemma forward_loop_plain_shrinks (sizes : list nat) :
  forall (offset : nat) (memory : Memory A) (state : State A)
    (logits : list (tensor A)),
    plain_memory_rows with_io B p memory -> plain_state_rows B p state ->
    shrinking B sizes -> ~ Forall (fun bs => bs = B) sizes ->
    offset + sum_list sizes <= rows ->
    forward_loop self (Z.of_nat p) io_embed None input_data
      sizes offset B memory state logits = Raise TypeError.
Proof.
  induction sizes as [| bs sizes IH]; intros offset memory state logits
    Hmem Hstate Hshr Hnot Hrows.
  - exfalso. apply Hnot. constructor.
  - destruct Hshr as [Hbs Hshr].
    change (sum_list (bs :: sizes)) with (bs + sum_list sizes) in Hrows.
    cbn [forward_loop].
    destruct (Nat.eq_dec bs B) as [-> | Hne].
    + destruct (forward_step_plain offset B memory state Hmem Hstate
                  ltac:(lia) ltac:(lia))
        as (_ & _ & state' & lg & _ & _ & _ & Estep & Hstate' & _).
      rewrite Estep. cbn [mbind result_bind Py.bind].
      apply IH; try assumption; [| lia].
      intros Hall. apply Hnot. constructor; [reflexivity | exact Hall].
    + rewrite (forward_step_plain_shrinks offset bs memory state Hstate
                 ltac:(lia) ltac:(lia)).
      reflexivity.
Qed.

End PlainLoop.

Lemma Forall_eq_replicate (B : nat) (sizes : list nat) :
  Forall (fun bs => bs = B) sizes -> sizes = replicate (length sizes) B.
Proof.
  induction 1 as [| bs sizes -> _ IH]; [reflexivity |].
  cbn [length replicate]. f_equal. exact IH.
Qed.

Lemma sum_list_replicate (T B : nat) : sum_list (replicate T B) = T * B.
Proof.
  induction T as [| T IH]; [reflexivity |].
  cbn [replicate]. change (sum_list (B :: replicate T B))
    with (B + sum_list (replicate T B)). rewrite IH. lia.
Qed.

End BuiltFacts.

(** X19.  [LatePoolingCodeDecoder.forward] of a decoder [__init__] built
    without trace memory, with layers that accept inputs of the widths they
    were built for, an io embedding exactly when the decoder was built for
    one, and a packed input whose batch sizes start at [B] and never grow:
    when every timestep has the batch size [B] (sequences of one length) the
    call returns the packed targets and the logits of [decode_sequence],
    that is the logits of the timesteps concatenated in order, each
    timestep decoding the [B] rows of the embedded packed input that follow
    those of the timesteps before it, from the state the timestep before it
    left and the io embedding in the sorted order of the batch, so one row
    of logits per packed token;
    when the batch size shrinks at some timestep the call raises
    [TypeError], from [truncate] on the state without context. *)
Theorem forward_without_trace_memory {A : Type}
  (w : LatePoolingCodeDecoder.Weights A) (vocab_size : Z) (args : Args)
  (self : LatePoolingCodeDecoder.t A) (B p : nat)
  (io_embed : option (tensor A))
  (trace_memory : option (tensor A * tensor bool))
  (input_code output_code : PackedSequencePlus (list Z))
  (sizes : list nat) :
  LatePoolingCodeDecoder.__init__ w vocab_size args = Ok self ->
  LatePoolingCodeDecoder.use_trace_memory self = false ->
  CodeDecoder_layers_accept self ->
  tokens_below (Z.to_nat vocab_size) (ps_data input_code) ->
  (1 <= p)%nat ->
  match io_embed with
  | Some t => LatePoolingCodeDecoder.use_io_embed self = true /\
              shape t = [B; p; 512%nat] /\ wf t
  | None => LatePoolingCodeDecoder.use_io_embed self = false
  end ->
  batch_sizes input_code = B :: sizes ->
  LatePoolingCodeDecoder.shrinking B sizes ->
  length (ps_data input_code) = sum_list (B :: sizes) ->
  length (orig_to_sort input_code) = B ->
  Forall (fun i => 0 <= i < Z.of_nat B) (orig_to_sort input_code) ->
  (Forall (fun bs => bs = B) sizes ->
   exists logits,
     LatePoolingCodeDecoder.forward self (Z.of_nat B) (Z.of_nat p) io_embed
       trace_memory input_code output_code
     = Ok (logits, ps_data output_code) /\
     decode_sequence self (Z.of_nat B) (Z.of_nat p) io_embed trace_memory
       input_code logits /\
     shape logits = [sum_list (B :: sizes); Z.to_nat vocab_size]) /\
  (~ Forall (fun bs => bs = B) sizes ->
   LatePoolingCodeDecoder.forward self (Z.of_nat B) (Z.of_nat p) io_embed
     trace_memory input_code output_code
   = Raise TypeError).
Proof.
  intros Hinit Huse Hlayers Htok H1p Hio Hsizes Hshr Hlen Hperm Hsort.
  destruct (code_decoder_built w vocab_size args self Hinit)
    as (_ & Wemb & Wdec & Wdo & Wout & Wlog & _).
  pose proof (code_decoder_vocabulary w vocab_size args self Hinit) as Wnum.
  rewrite Huse in Wdec, Wout. rewrite !Nat.add_0_r in Wdec, Wout.
  set (with_io := LatePoolingCodeDecoder.use_io_embed self) in *.
  set (vocab := Z.to_nat vocab_size) in *.
  pose proof Hlayers as (Hembed & _). cbv zeta in Hembed.
  rewrite Wemb, Wnum in Hembed.
  unfold LatePoolingCodeDecoder.forward, PackedSequencePlus_apply.
  destruct (Hembed (ps_data input_code) Htok) as (e & Ee & Se & We).
  pose proof Ee as Ee'.
  rewrite Ee. cbn [mbind result_bind Py.bind ps_data batch_sizes orig_to_sort].
  destruct (code_state_init_plain self B p Huse) as (state & Einit & Hstate).
  pose proof Einit as Einit'.
  rewrite Einit. cbn [mbind result_bind Py.bind].
  assert (Hprep : LatePoolingCodeDecoder.prepare_memory self (Z.of_nat B)
                    (Z.of_nat p) io_embed trace_memory
                  = Ok (LatePoolingCodeDecoder.Build_Memory io_embed None)).
  { unfold LatePoolingCodeDecoder.prepare_memory. rewrite Huse. reflexivity. }
  pose proof Hprep as Hprep'. rewrite Hprep.
  cbn [mbind result_bind Py.bind LatePoolingCodeDecoder.io
       LatePoolingCodeDecoder.trace].
  (* the io embedding in sorted order *)
  assert (Hio2 : exists io2,
             match io_embed with
             | Some io => s ← index_list io (orig_to_sort input_code); Ok (Some s)
             | None => Ok None
             end = Ok io2 /\
             match io2 with
             | Some t => with_io = true /\
                         shape t = [B; p; 512%nat] /\ wf t
             | None => with_io = false
             end).
  { destruct io_embed as [t |].
    - destruct Hio as (Hw & Hs0 & Hw0).
      destruct (index_list_shape t B [p; 512%nat] _ Hs0 Hw0 Hsort)
        as (r & Er & Sr & Wr).
      rewrite Er. exists (Some r). split; [reflexivity |].
      rewrite Hperm in Sr. auto.
    - exists None. split; [reflexivity | exact Hio]. }
  destruct Hio2 as (io2 & Eio2 & Hio2).
  assert (Hsorted : Memory_rows_at
                      (LatePoolingCodeDecoder.Build_Memory io_embed None)
                      (orig_to_sort input_code)
                    = Ok (LatePoolingCodeDecoder.Build_Memory io2 None)).
  { unfold Memory_rows_at.
    cbn [LatePoolingCodeDecoder.io LatePoolingCodeDecoder.trace].
    rewrite Eio2. reflexivity. }
  rewrite Eio2.
  cbn [mbind result_bind Py.bind].
  rewrite Hsizes.
  change (sum_list (B :: sizes)) with (B + sum_list sizes)%nat in *.
  rewrite Hlen in Se.
  set (memory := LatePoolingCodeDecoder.Build_Memory io2 None).
  assert (Hmem : plain_memory_rows with_io B p memory).
  { unfold plain_memory_rows, memory.
    cbn [LatePoolingCodeDecoder.io LatePoolingCodeDecoder.trace].
    split; [exact Hio2 | reflexivity]. }
  assert (Hio3 : match io2 with
                 | Some t => shape t = [B; p; 512%nat] /\ wf t
                 | None => True
                 end)
    by (destruct io2; [tauto | exact I]).
  cbn [LatePoolingCodeDecoder.forward_loop].
  destruct (forward_step_plain self with_io vocab B p
              (B + sum_list sizes) io2 e Hlayers Wdec Wdo Wout Wlog
              Se We H1p 0%nat 0%nat memory state Hmem Hstate
              ltac:(lia) ltac:(lia))
    as (tokens1 & emb1 & state1 & lg1 & Etok1 & Eemb1 & Ecomp1 & Estep
        & Hstate1 & Slg1 & Wlg1).
  rewrite Estep. cbn [mbind result_bind Py.bind app]. split.
  - intros Hall. rewrite (Forall_eq_replicate B sizes Hall) in *.
    set (T := length sizes) in *. rewrite sum_list_replicate in *.
    destruct (forward_loop_plain self with_io vocab B p (B + T * B) io2 e
                Hlayers Wdec Wdo Wout Wlog Se We H1p T (0 + B)%nat B memory
                state1 [lg1] Hmem Hstate1 ltac:(lia) ltac:(lia))
      as (steps & Eloop & Hsteps & Hteach).
    rewrite Eloop. cbn [mbind result_bind Py.bind app].
    destruct (cat_onto_rows vocab steps (replicate T B) lg1 B Slg1 Wlg1 Hsteps)
      as (logits & Ecat & Scat & Wcat).
    cbn [cat]. rewrite Ecat. cbn [mbind result_bind Py.bind].
    exists logits. split; [reflexivity |]. split.
    + exists e, state, (LatePoolingCodeDecoder.Build_Memory io_embed None),
        memory, (lg1 :: steps).
      split; [exact Ee' |]. split; [exact Einit' |].
      split; [exact Hprep' |]. split; [exact Hsorted |].
      split; [| exact Ecat].
      rewrite Hsizes. cbn [teacher_forced].
      exists tokens1, emb1, state, memory, state1.
      rewrite (State_first_rows_all_plain B p state Hstate).
      rewrite (Memory_first_rows_all_plain with_io B p memory Hmem).
      auto 10.
    + rewrite Scat, sum_list_replicate. reflexivity.
  - intros Hnot.
    rewrite (forward_loop_plain_shrinks self with_io vocab B p
               (B + sum_list sizes) io2 e Hlayers Wdec Wdo Wout Wlog Hio3
               Se We H1p sizes (0 + B)%nat memory state1 [lg1] Hmem Hstate1
               Hshr Hnot ltac:(lia)).
    reflexivity.
Qed.

(** The stand-in layers of [Examples] are layers as
    [CodeDecoder_layers_accept] asks, for a decoder of their widths. *)
Lemma code_weights_built_accept (self : LatePoolingCodeDecoder.t Z)
  (v : nat) :
  LatePoolingCodeDecoder.weights self = Examples.code_weights v ->
  num_embeddings (LatePoolingCodeDecoder.code_embed self) = v ->
  out_width (LatePoolingCodeDecoder.code_embed self) = 256%nat ->
  out_width (LatePoolingCodeDecoder.decoder self) = 256%nat ->
  out_width (LatePoolingCodeDecoder.out self) = v ->
  (forall att, LatePoolingCodeDecoder.trace_attention self = Some att ->
               out_width att = 512%nat) ->
  CodeDecoder_layers_accept self.
Proof.
  intros Hw Wnum Wemb Wdo Wlog Watt.
  destruct (code_weights_accept 0 v) as (Hembed & _ & Hatt & _).
  unfold CodeDecoder_layers_accept. cbv zeta.
  rewrite Hw, Wnum, Wemb, Wdo, Wlog.
  split; [exact Hembed |]. split; [| split].
  - intros x h0 c0 n Hx _ Hh Wh Hc Wc.
    cbn [Examples.code_weights LatePoolingCodeDecoder.decoder_fn].
    unfold Examples.lstm. rewrite Hx.
    eexists _, _, _. split; [reflexivity |].
    destruct (fit_rows_shape 256 (squeeze0 x)) as [S W].
    assert (Hd : dim0 (squeeze0 x) = n)
      by (unfold squeeze0, dim0; rewrite Hx; reflexivity).
    rewrite Hd in S.
    split; [cbn [unsqueeze0 shape]; rewrite S; reflexivity |].
    split; [| auto].
    unfold wf in *. cbn [unsqueeze0 shape data]. rewrite W, S, !numel_cons.
    lia.
  - intros att query mem mask n len Ha Hq Wq _ _ _ _.
    cbn [Examples.code_weights LatePoolingCodeDecoder.trace_attention_fn].
    eexists. split; [reflexivity |].
    destruct (fit_rows_shape 512 query) as [S W].
    unfold dim0 in S. rewrite Hq in S. cbn [hd] in S.
    rewrite (Watt att Ha). auto.
  - intros x n Hx _.
    cbn [Examples.code_weights LatePoolingCodeDecoder.out_fn].
    eexists. split; [reflexivity |].
    destruct (fit_rows_shape v x) as [S W].
    unfold dim0 in S. rewrite Hx in S. auto.
Qed.

Lemma forward_without_trace_memory_witness :
  (exists logits,
     LatePoolingCodeDecoder.forward Examples.small_decoder 2 1 None None
       MoreExamples.even_input_code MoreExamples.even_output_code
     = Ok (logits, [5; 7; 1; 1]) /\
     decode_sequence Examples.small_decoder 2 1 None None
       MoreExamples.even_input_code logits /\
     shape logits = [4; 8]%nat) /\
  LatePoolingCodeDecoder.forward Examples.small_decoder 2 1 None None
    Examples.input_code Examples.output_code
  = Raise TypeError.
Proof.
  assert (Hacc : CodeDecoder_layers_accept Examples.small_decoder).
  { apply (code_weights_built_accept Examples.small_decoder 8);
      try reflexivity. intros att [=]. }
  split.
  - apply (forward_without_trace_memory (Examples.code_weights 8) 8
             (Examples.args_with "none") Examples.small_decoder 2 1 None None
             MoreExamples.even_input_code MoreExamples.even_output_code
             [2%nat] eq_refl eq_refl Hacc).
    + repeat constructor; lia.
    + lia.
    + reflexivity.
    + reflexivity.
    + cbn. lia.
    + reflexivity.
    + reflexivity.
    + repeat constructor; lia.
    + repeat constructor.
  - apply (forward_without_trace_memory (Examples.code_weights 8) 8
             (Examples.args_with "none") Examples.small_decoder 2 1 None None
             Examples.input_code Examples.output_code
             [2; 1]%nat eq_refl eq_refl Hacc).
    + repeat constructor; lia.
    + lia.
    + reflexivity.
    + reflexivity.
    + cbn. lia.
    + reflexivity.
    + reflexivity.
    + repeat constructor; lia.
    + intros H. apply Forall_cons in H as [_ H].
      apply Forall_cons in H as [H _]. discriminate H.
Defined.

Section BuiltStep.
Context {A : Type}.
Local Close Scope string_scope.
Local Open Scope nat_scope.

Import LatePoolingCodeDecoder.

(** With the trace memory on, layers that accept the widths [__init__]
    built them for are layers as [layers_accept] asks. *)
Lemma layers_accept_of_built (self : t A) (with_io : bool) (vocab : nat) :
  CodeDecoder_layers_accept self ->
  num_embeddings (code_embed self) = vocab ->
  out_width (code_embed self) = 256 ->
  in_width (decoder self) = decoder_input_size with_io ->
  out_width (decoder self) = 256 -> in_width (out self) = 768 ->
  out_width (out self) = vocab ->
  trace_attention self = Some (SimpleSDPAttention 256 512) ->
  layers_accept (weights self) (decoder_input_size with_io) vocab.
Proof.
  intros (Hembed & Hdec & Hatt & Hout) Wnum Wemb Wdec Wdo Wout Wlog Watt.
  cbv zeta in *.
  rewrite Wnum, Wemb in Hembed. rewrite Wdec, Wdo in Hdec.
  rewrite Wout, Wlog in Hout.
  unfold layers_accept. split; [exact Hembed |]. split; [| split].
  - intros x h0 c0 n Hx Wx Hh Wh Hc Wc.
    destruct (Hdec x h0 c0 n Hx Wx Hh Wh Hc Wc)
      as (o & h1 & c1 & E & So & Wo & Sh & Wh1 & Sc & Wc1).
    exists o, h1, c1. rewrite Sh, Sc. auto 10.
  - intros query mem mask n len Hq Wq Hm Wm Hk Wk.
    exact (Hatt _ query mem mask n len Watt Hq Wq Hm Wm Hk Wk).
  - exact Hout.
Qed.

End BuiltStep.

(** X20.  A code decoder as [__init__] builds it decodes a token from its
    initial state, in both configurations: with layers that accept inputs of
    the widths they were built for, tokens of the vocabulary, [p >= 1]
    pairs, and a memory of [n] rows
    that has an io embedding exactly when the decoder was built for one and
    a trace exactly when the decoder uses the trace memory, [decode_token]
    on [init_state(n, p)] and [n] tokens returns [n] rows of logits of width
    [vocab_size] and a state of [n] rows, with a context exactly when the
    decoder uses the trace memory. *)
Theorem code_decoder_as_built_decodes {A : Type}
  (w : LatePoolingCodeDecoder.Weights A) (vocab_size : Z) (args : Args)
  (self : LatePoolingCodeDecoder.t A) (n p len : nat) (token : list Z)
  (memory : LatePoolingCodeDecoder.Memory A) :
  LatePoolingCodeDecoder.__init__ w vocab_size args = Ok self ->
  CodeDecoder_layers_accept self ->
  tokens_below (Z.to_nat vocab_size) token ->
  (1 <= p)%nat -> (1 <= len)%nat ->
  match LatePoolingCodeDecoder.io memory with
  | Some t => LatePoolingCodeDecoder.use_io_embed self = true /\
              shape t = [n; p; 512%nat] /\ wf t
  | None => LatePoolingCodeDecoder.use_io_embed self = false
  end ->
  match LatePoolingCodeDecoder.trace memory with
  | Some tr =>
      LatePoolingCodeDecoder.use_trace_memory self = true /\
      shape (MaskedMemory.memory tr) = [n; p; len; 512%nat] /\
      wf (MaskedMemory.memory tr) /\
      shape (MaskedMemory.attn_mask tr) = [n; p; len] /\
      wf (MaskedMemory.attn_mask tr)
  | None => LatePoolingCodeDecoder.use_trace_memory self = false
  end ->
  length token = n ->
  exists state state' logits,
    LatePoolingCodeDecoder.init_state self (Z.of_nat n) (Z.of_nat p)
    = Ok state /\
    LatePoolingCodeDecoder.decode_token self token state memory
    = Ok (state', logits) /\
    shape logits = [n; Z.to_nat vocab_size] /\ wf logits /\
    shape (LatePoolingCodeDecoder.h state') = [2%nat; n; p; 256%nat] /\
    shape (LatePoolingCodeDecoder.c state') = [2%nat; n; p; 256%nat] /\
    (LatePoolingCodeDecoder.context state' = None <->
     LatePoolingCodeDecoder.use_trace_memory self = false).
Proof.
  intros Hinit Hlayers Htok H1p H1l Hio Htr Hlen.
  destruct (code_decoder_built w vocab_size args self Hinit)
    as (_ & Wemb & Wdec & Wdo & Wout & Wlog & Watt).
  pose proof (code_decoder_vocabulary w vocab_size args self Hinit) as Wnum.
  pose proof Hlayers as (Hembed & _). cbv zeta in Hembed.
  rewrite Wemb, Wnum in Hembed.
  destruct (Hembed token Htok) as (e & Ee & Se & We). rewrite Hlen in Se.
  destruct (expand_pairs_shape e n 256%nat p Se We)
    as (emb & Eemb & Semb & Wemb').
  destruct (LatePoolingCodeDecoder.use_trace_memory self) eqn:Huse.
  - (* with the trace memory *)
    destruct (LatePoolingCodeDecoder.trace memory) as [tr |] eqn:Etr;
      [| discriminate].
    destruct Htr as (_ & Hsm & Hwm & Hsk & Hwk).
    destruct (code_state_init self n p Huse) as (state & Einit & Hstate).
    assert (Hacc : LatePoolingCodeDecoder.layers_accept
                     (LatePoolingCodeDecoder.weights self)
                     (LatePoolingCodeDecoder.decoder_input_size
                        (LatePoolingCodeDecoder.use_io_embed self))
                     (Z.to_nat vocab_size)).
    { apply layers_accept_of_built; assumption. }
    assert (Hta : LatePoolingCodeDecoder.trace_attention self <> None)
      by (rewrite Watt; discriminate).
    assert (Hmem : LatePoolingCodeDecoder.memory_rows
                     (LatePoolingCodeDecoder.use_io_embed self) n p len
                     memory).
    { unfold LatePoolingCodeDecoder.memory_rows. split.
      - destruct (LatePoolingCodeDecoder.io memory); [tauto | exact Hio].
      - exists tr. auto. }
    destruct (compute_next_token_logits_rows self _ (Z.to_nat vocab_size) n p
                len state memory emb Hacc Hta Hstate Hmem Semb Wemb' H1p H1l)
      as (state' & lg & Estep & Hstate' & Slg & Wlg).
    exists state, state', lg. split; [exact Einit |].
    destruct Hstate as (Hp & _).
    destruct Hstate' as (_ & (ctx & Hctx & _) & Sh & _ & Sc & _).
    split; [| split; [exact Slg | split; [exact Wlg |]]].
    + unfold LatePoolingCodeDecoder.decode_token. rewrite Ee, Hp.
      cbn [mbind result_bind Py.bind]. rewrite Eemb. exact Estep.
    + split; [exact Sh |]. split; [exact Sc |].
      rewrite Hctx. split; discriminate.
  - (* without the trace memory *)
    destruct (LatePoolingCodeDecoder.trace memory) as [tr |] eqn:Etr;
      [destruct Htr; discriminate |].
    rewrite !Nat.add_0_r in Wdec, Wout.
    destruct (code_state_init_plain self n p Huse)
      as (state & Einit & Hstate).
    assert (Hmem : plain_memory_rows
                     (LatePoolingCodeDecoder.use_io_embed self) n p memory).
    { unfold plain_memory_rows. split; [| exact Etr].
      destruct (LatePoolingCodeDecoder.io memory); [tauto | exact Hio]. }
    destruct (compute_next_token_logits_plain self _ (Z.to_nat vocab_size)
                n p state memory emb Hlayers Wdec Wdo Wout Wlog Hstate Hmem
                Semb Wemb' H1p)
      as (state' & lg & Estep & Hstate' & Slg & Wlg).
    exists state, state', lg. split; [exact Einit |].
    destruct Hstate as (Hp & _).
    destruct Hstate' as (_ & Hctx & Sh & _ & Sc & _).
    split; [| split; [exact Slg | split; [exact Wlg |]]].
    + unfold LatePoolingCodeDecoder.decode_token. rewrite Ee, Hp.
      cbn [mbind result_bind Py.bind]. rewrite Eemb. exact Estep.
    + split; [exact Sh |]. split; [exact Sc |]. tauto.
Qed.

Lemma code_decoder_as_built_decodes_witness :
  (exists state state' logits,
     LatePoolingCodeDecoder.init_state Examples.memory_decoder 2 1 = Ok state /\
     LatePoolingCodeDecoder.decode_token Examples.memory_decoder [3; 4] state
       MoreExamples.grouped_memory = Ok (state', logits) /\
     shape logits = [2; 8]%nat /\ wf logits /\
     shape (LatePoolingCodeDecoder.h state') = [2; 2; 1; 256]%nat /\
     shape (LatePoolingCodeDecoder.c state') = [2; 2; 1; 256]%nat /\
     (LatePoolingCodeDecoder.context state' = None <->
      LatePoolingCodeDecoder.use_trace_memory Examples.memory_decoder = false)) /\
  (exists state state' logits,
     LatePoolingCodeDecoder.init_state Examples.small_decoder 2 1 = Ok state /\
     LatePoolingCodeDecoder.decode_token Examples.small_decoder [3; 4] state
       (LatePoolingCodeDecoder.Build_Memory None None) = Ok (state', logits) /\
     shape logits = [2; 8]%nat /\ wf logits /\
     shape (LatePoolingCodeDecoder.h state') = [2; 2; 1; 256]%nat /\
     shape (LatePoolingCodeDecoder.c state') = [2; 2; 1; 256]%nat /\
     (LatePoolingCodeDecoder.context state' = None <->
      LatePoolingCodeDecoder.use_trace_memory Examples.small_decoder = false)).
Proof.
  split.
  - apply (code_decoder_as_built_decodes (Examples.code_weights 8) 8
             (Examples.args_with "memory") Examples.memory_decoder 2 1 3
             [3; 4] MoreExamples.grouped_memory eq_refl).
    + apply (code_weights_built_accept Examples.memory_decoder 8);
        try reflexivity. intros att [= <-]. reflexivity.
    + repeat constructor; lia.
    + lia.
    + lia.
    + reflexivity.
    + split; [reflexivity |]. split; [reflexivity |].
      split; [vm_compute; reflexivity |]. split; [reflexivity |].
      vm_compute. reflexivity.
    + reflexivity.
  - apply (code_decoder_as_built_decodes (Examples.code_weights 8) 8
             (Examples.args_with "none") Examples.small_decoder 2 1 1
             [3; 4] (LatePoolingCodeDecoder.Build_Memory None None) eq_refl).
    + apply (code_weights_built_accept Examples.small_decoder 8);
        try reflexivity. intros att [=].
    + repeat constructor; lia.
    + lia.
    + lia.
    + reflexivity.
    + reflexivity.
    + reflexivity.
Defined.

(** ** The widths of the trace encoder, and the errors of its constructor *)

(** X21.  In every trace encoder [IndividualTraceEncoder.__init__] returns,
    the input size the LSTM is built with is the width of what the layers
    give it.  Not interleaved: the widths of the grid encoder, the condition
    embedding and the action embedding added up, [none_fn] counting 0.
    Interleaved: 512, the width of the action embedding, which is also the
    width of the grid encoder and the condition embedding side by side,
    since the one that is alone is followed by a [Linear(256, 512)] and two
    that are both there are left as they are. *)
Theorem trace_encoder_input_width (args : Args) (e : IndividualTraceEncoder.t) :
  IndividualTraceEncoder.__init__ args = Ok e ->
  if IndividualTraceEncoder.interleave e
  then
    in_width (IndividualTraceEncoder.encoder e) = 512%nat /\
    out_width (IndividualTraceEncoder.action_embed e) = 512%nat /\
    (out_width (IndividualTraceEncoder.grid_encoder e)
     + out_width (IndividualTraceEncoder.cond_embed e) = 512)%nat /\
    ((karel_trace_grid_enc args = "none" ->
      exists cond, IndividualTraceEncoder.cond_embed e
                   = Sequential cond (Linear 256 512) /\
                   IndividualTraceEncoder.grid_encoder e = none_fn) /\
     (karel_trace_cond_enc args = "none" ->
      exists grid, IndividualTraceEncoder.grid_encoder e
                   = Sequential grid (Linear 256 512) /\
                   IndividualTraceEncoder.cond_embed e = none_fn))
  else
    in_width (IndividualTraceEncoder.encoder e)
    = (out_width (IndividualTraceEncoder.grid_encoder e)
       + out_width (IndividualTraceEncoder.cond_embed e)
       + out_width (IndividualTraceEncoder.action_embed e))%nat.
Proof.
  unfold IndividualTraceEncoder.__init__,
    IndividualTraceEncoder.make_grid_encoder,
    IndividualTraceEncoder.make_cond_embed,
    IndividualTraceEncoder.make_action_embed.
  destruct (karel_modules.set_pop _ "interleave") as [i o1].
  destruct (karel_modules.set_pop o1 "concat") as [c o2].
  destruct (String.eqb_spec (karel_trace_grid_enc args) "lgrl") as [G1 | G1];
    [| destruct (String.eqb_spec (karel_trace_grid_enc args) "presnet")
         as [G2 | G2];
       [| destruct (String.eqb_spec (karel_trace_grid_enc args) "none")
            as [G3 | G3]; [| discriminate]]];
    (destruct (String.eqb_spec (karel_trace_cond_enc args) "concat")
       as [C1 | C1];
     [| destruct (String.eqb_spec (karel_trace_cond_enc args) "sum")
          as [C2 | C2];
        [| destruct (String.eqb_spec (karel_trace_cond_enc args) "none")
             as [C3 | C3]; [| discriminate]]]);
    cbn [mbind result_bind Py.bind];
    (destruct (xorb i c); [| discriminate]);
    cbn [assert mbind result_bind Py.bind];
    (destruct (bool_decide (o2 = ∅)); [| discriminate]);
    cbn [assert mbind result_bind Py.bind];
    (destruct (String.eqb (karel_trace_action_enc args) "emb");
     [| destruct (String.eqb (karel_trace_action_enc args) "none")]);
    (destruct (i && negb c));
    cbn [getattr assert negb is_none_fn mbind result_bind Py.bind];
    try discriminate;
    intros [= <-];
    cbn [IndividualTraceEncoder.interleave IndividualTraceEncoder.encoder
         IndividualTraceEncoder.action_embed
         IndividualTraceEncoder.grid_encoder
         IndividualTraceEncoder.cond_embed];
    try (vm_compute; reflexivity);
    (split; [reflexivity |]; split; [reflexivity |];
     split; [reflexivity |]; split; intros Hn;
     try (rewrite Hn in *; discriminate);
     try congruence; eexists; split; reflexivity).
Qed.

Lemma trace_encoder_input_width_witness :
  in_width (IndividualTraceEncoder.encoder Examples.encoder_grid_only)
  = (out_width (IndividualTraceEncoder.grid_encoder Examples.encoder_grid_only)
     + out_width (IndividualTraceEncoder.cond_embed Examples.encoder_grid_only)
     + out_width
         (IndividualTraceEncoder.action_embed Examples.encoder_grid_only))%nat.
Proof.
  apply (trace_encoder_input_width
           (Examples.trace_enc_args "lgrl" "none" "none")
           Examples.encoder_grid_only).
  vm_compute. reflexivity.
Defined.

(** X22.  The exceptions of [IndividualTraceEncoder.__init__], in the order
    the constructor meets them: an unknown grid encoding raises
    [ValueError]; then the condition encoding [concat] raises [TypeError],
    because its embeddings are asked for with the width [256 / 4], a float,
    and an unknown condition encoding raises [ValueError]; then options
    after the first colon of [karel_trace_enc] that are not the one option
    [interleave] or the one option [concat] raise [AssertionError]; then an
    action encoding other than [emb] and [none] raises [AttributeError],
    because [self.action_embed] was never assigned; and with [interleave],
    the action encoding [none] raises [AssertionError]. *)
Theorem trace_encoder_init_errors (args : Args) :
  let valid_grid :=
    karel_trace_grid_enc args = "lgrl" \/
    karel_trace_grid_enc args = "presnet" \/
    karel_trace_grid_enc args = "none" in
  let valid_cond :=
    karel_trace_cond_enc args = "sum" \/
    karel_trace_cond_enc args = "none" in
  let options : gset string :=
    list_to_set (tail (Py.split ":" (karel_trace_enc args))) in
  (~ valid_grid -> IndividualTraceEncoder.__init__ args = Raise ValueError) /\
  (valid_grid -> karel_trace_cond_enc args = "concat" ->
   IndividualTraceEncoder.__init__ args = Raise TypeError) /\
  (valid_grid -> karel_trace_cond_enc args <> "concat" -> ~ valid_cond ->
   IndividualTraceEncoder.__init__ args = Raise ValueError) /\
  (valid_grid -> valid_cond ->
   options <> {[ "interleave" ]} -> options <> {[ "concat" ]} ->
   IndividualTraceEncoder.__init__ args = Raise AssertionError) /\
  (valid_grid -> valid_cond ->
   options = {[ "interleave" ]} \/ options = {[ "concat" ]} ->
   karel_trace_action_enc args <> "emb" ->
   karel_trace_action_enc args <> "none" ->
   IndividualTraceEncoder.__init__ args = Raise AttributeError) /\
  (valid_grid -> valid_cond -> options = {[ "interleave" ]} ->
   karel_trace_action_enc args = "none" ->
   IndividualTraceEncoder.__init__ args = Raise AssertionError).
Proof.
  cbv zeta. unfold IndividualTraceEncoder.__init__.
  set (opts := list_to_set (tail (Py.split ":" (karel_trace_enc args)))).
  destruct (karel_modules.set_pop opts "interleave") as [i o1] eqn:E1.
  destruct (karel_modules.set_pop o1 "concat") as [c o2] eqn:E2.
  destruct (options_pops opts o1 o2 i c E1 E2) as [HI HC].
  clear E1 E2. clearbody opts.
  assert (Hmode : (xorb i c = true /\ o2 = ∅) ->
                  opts = {[ "interleave" ]} \/ opts = {[ "concat" ]}).
  { intros [Hx Ho]. destruct i; [left; apply HI | right; apply HC]; auto. }
  destruct (make_grid_encoder_cases args)
    as [(gl & -> & Hgv & Hg) | (-> & Hgv)];
    cbn [mbind result_bind Py.bind];
    [| repeat split; intros; try reflexivity; contradiction].
  split; [intros Hn; contradiction |].
  destruct (make_cond_embed_cases args)
    as [(cl & -> & Hcv & Hc) | [(-> & Hcv) | (-> & Hcv)]];
    cbn [mbind result_bind Py.bind].
  2:{ (* [concat] *)
      split; [reflexivity |].
      split; [intros _ Hn; contradiction |].
      repeat split; intros _ [Hv | Hv]; rewrite Hcv in Hv; discriminate Hv. }
  2:{ (* an unknown encoding *)
      split; [intros _ Hv; exfalso; apply Hcv; tauto |].
      split; [reflexivity |].
      repeat split; intros _ Hv; exfalso; apply Hcv; tauto. }
  split.
  { intros _ Hv. destruct Hcv as [Hcv | Hcv]; rewrite Hcv in Hv;
      discriminate Hv. }
  split; [intros _ _ Hn; contradiction |].
  split; [| split].
  - intros _ _ Hni Hnc.
    destruct (xorb i c) eqn:Ex; [| reflexivity].
    cbn [assert mbind result_bind Py.bind].
    destruct (bool_decide (o2 = ∅)) eqn:Eo; [| reflexivity].
    apply bool_decide_eq_true in Eo.
    destruct (Hmode (conj eq_refl Eo)); contradiction.
  - intros _ _ Hmode' Ha1 Ha2.
    assert (Hpass : xorb i c = true /\ o2 = ∅).
    { destruct Hmode' as [H | H]; [apply HI in H | apply HC in H]; tauto. }
    destruct Hpass as [-> ->].
    cbn [assert mbind result_bind Py.bind].
    rewrite bool_decide_eq_true_2 by reflexivity.
    cbn [assert mbind result_bind Py.bind].
    destruct (make_action_embed_cases args)
      as [(Ha & _) | [(_ & Ha & _) | (_ & _ & ->)]];
      [contradiction | contradiction |].
    destruct (i && negb c); reflexivity.
  - intros _ _ Hopt Ha.
    apply HI in Hopt. destruct Hopt as (Hx & -> & ->).
    rewrite Hx. cbn [assert mbind result_bind Py.bind].
    rewrite bool_decide_eq_true_2 by reflexivity.
    cbn [assert mbind result_bind Py.bind].
    destruct c; [discriminate Hx |]. cbn [andb negb].
    destruct (make_action_embed_cases args)
      as [(Ha' & _) | [(_ & _ & ->) | (_ & Ha' & _)]];
      [rewrite Ha in Ha'; discriminate | reflexivity | contradiction].
Qed.

(** ** Expanding the memory by the beam *)

Section ExpandFacts.
Local Close Scope string_scope.
Local Open Scope nat_scope.

(** [expand(v, k)]: [k] copies of each row, next to each other. *)
Lemma expand_rows {X} (v : tensor X) (n : nat) (rest : list nat) (k : nat) :
  shape v = n :: rest -> wf v ->
  exists r,
    expand v (Z.of_nat k) = Ok r /\ shape r = n * k :: rest /\ wf r /\
    forall i j, i < n -> j < k -> row r (i * k + j) = row v i.
Proof.
  intros Hs Hwf. unfold expand. rewrite Hs.
  destruct (Z.ltb_spec (Z.of_nat k) 0); [lia |]. rewrite Nat2Z.id.
  set (sz := numel rest).
  unfold wf in Hwf. rewrite Hs, numel_cons in Hwf. fold sz in Hwf.
  set (block := fun i => concat (replicate k (chunk sz i (data v)))).
  assert (Hrow : forall i, i < n -> length (chunk sz i (data v)) = sz).
  { intros i Hi. apply length_chunk. rewrite Hwf.
    apply Nat.mul_le_mono_r. lia. }
  assert (Hblock : forall i, i < n -> length (block i) = k * sz).
  { intros i Hi. unfold block. rewrite (length_concat_uniform sz).
    - rewrite length_replicate. reflexivity.
    - apply Forall_replicate. apply Hrow, Hi. }
  assert (Hall : Forall (fun b => length b = k * sz) (map block (seq 0 n))).
  { apply Forall_forall. intros b Hb. apply list_elem_of_In in Hb.
    apply in_map_iff in Hb as (i & <- & Hi). apply in_seq in Hi.
    apply Hblock. lia. }
  eexists. split; [reflexivity |]. split; [reflexivity |]. split.
  - unfold wf. cbn [shape data]. rewrite numel_cons. fold sz. fold block.
    rewrite (length_concat_uniform (k * sz)) by exact Hall.
    rewrite length_map, length_seq. lia.
  - intros i j Hi Hj. unfold row. cbn [shape data tail]. rewrite Hs.
    cbn [tail]. fold sz. fold block.
    rewrite <- (chunk_chunk sz k i j) by exact Hj.
    rewrite (chunk_concat (k * sz) _ i (block i)); [| exact Hall |].
    + unfold block. apply (chunk_concat sz).
      * apply Forall_replicate. apply Hrow, Hi.
      * apply lookup_replicate_2. exact Hj.
    + change (map block (seq 0 n)) with (block <$> seq 0 n).
      rewrite list_lookup_fmap, lookup_seq_lt by exact Hi. reflexivity.
Qed.

End ExpandFacts.

(** X23.  [Memory.expand_by_beam] on a memory whose io embedding and trace,
    where present, have [B] rows: the call returns, what was [None] stays
    [None], and what is there comes back with [B * W] rows, example-major:
    rows [i * W .. i * W + W - 1] are copies of row [i]. *)
Theorem expand_by_beam_copies_rows {A : Type}
  (m : LatePoolingCodeDecoder.Memory A) (B W : nat)
  (rest_io rest_m rest_k : list nat) :
  (forall t, LatePoolingCodeDecoder.io m = Some t ->
     shape t = B :: rest_io /\ wf t) ->
  (forall tr, LatePoolingCodeDecoder.trace m = Some tr ->
     shape (MaskedMemory.memory tr) = B :: rest_m /\
     wf (MaskedMemory.memory tr) /\
     shape (MaskedMemory.attn_mask tr) = B :: rest_k /\
     wf (MaskedMemory.attn_mask tr)) ->
  exists m',
    Memory_expand_by_beam m (Z.of_nat W) = Ok m' /\
    match LatePoolingCodeDecoder.io m, LatePoolingCodeDecoder.io m' with
    | None, None => True
    | Some t, Some t' =>
        shape t' = (B * W)%nat :: rest_io /\ wf t' /\
        forall i j, (i < B)%nat -> (j < W)%nat ->
          row t' (i * W + j) = row t i
    | _, _ => False
    end /\
    match LatePoolingCodeDecoder.trace m, LatePoolingCodeDecoder.trace m' with
    | None, None => True
    | Some tr, Some tr' =>
        shape (MaskedMemory.memory tr') = (B * W)%nat :: rest_m /\
        wf (MaskedMemory.memory tr') /\
        shape (MaskedMemory.attn_mask tr') = (B * W)%nat :: rest_k /\
        wf (MaskedMemory.attn_mask tr') /\
        forall i j, (i < B)%nat -> (j < W)%nat ->
          row (MaskedMemory.memory tr') (i * W + j)
          = row (MaskedMemory.memory tr) i /\
          row (MaskedMemory.attn_mask tr') (i * W + j)
          = row (MaskedMemory.attn_mask tr) i
    | _, _ => False
    end.
Proof.
  intros Hio Htr. unfold Memory_expand_by_beam.
  destruct (LatePoolingCodeDecoder.io m) as [t |].
  - destruct (Hio t eq_refl) as [St Wt].
    destruct (expand_rows t B rest_io W St Wt) as (t' & Et & St' & Wt' & Rt).
    rewrite Et. cbn [mbind result_bind Py.bind].
    destruct (LatePoolingCodeDecoder.trace m) as [tr |].
    + destruct (Htr tr eq_refl) as (Sm & Wm & Sk & Wk).
      destruct (expand_rows _ B rest_m W Sm Wm) as (m1 & Em & Sm' & Wm' & Rm).
      destruct (expand_rows _ B rest_k W Sk Wk) as (k1 & Ek & Sk' & Wk' & Rk).
      unfold MaskedMemory_expand_by_beam, MaskedMemory.apply.
      rewrite Em, Ek. cbn [mbind result_bind Py.bind].
      eexists. split; [reflexivity |].
      cbn [LatePoolingCodeDecoder.io LatePoolingCodeDecoder.trace
           MaskedMemory.memory MaskedMemory.attn_mask].
      split; [auto |]. repeat (split; [assumption |]).
      intros i j Hi Hj. split; [apply Rm | apply Rk]; assumption.
    + cbn [mbind result_bind Py.bind]. eexists. split; [reflexivity |].
      cbn [LatePoolingCodeDecoder.io LatePoolingCodeDecoder.trace]. auto.
  - cbn [mbind result_bind Py.bind].
    destruct (LatePoolingCodeDecoder.trace m) as [tr |].
    + destruct (Htr tr eq_refl) as (Sm & Wm & Sk & Wk).
      destruct (expand_rows _ B rest_m W Sm Wm) as (m1 & Em & Sm' & Wm' & Rm).
      destruct (expand_rows _ B rest_k W Sk Wk) as (k1 & Ek & Sk' & Wk' & Rk).
      unfold MaskedMemory_expand_by_beam, MaskedMemory.apply.
      rewrite Em, Ek. cbn [mbind result_bind Py.bind].
      eexists. split; [reflexivity |].
      cbn [LatePoolingCodeDecoder.io LatePoolingCodeDecoder.trace
           MaskedMemory.memory MaskedMemory.attn_mask].
      split; [exact I |]. repeat (split; [assumption |]).
      intros i j Hi Hj. split; [apply Rm | apply Rk]; assumption.
    + cbn [mbind result_bind Py.bind]. eexists. split; [reflexivity |].
      cbn [LatePoolingCodeDecoder.io LatePoolingCodeDecoder.trace]. auto.
Qed.

Lemma expand_by_beam_copies_rows_witness :
  exists m',
    Memory_expand_by_beam MoreExamples.tiny_memory 3 = Ok m' /\
    match LatePoolingCodeDecoder.io m' with
    | Some t' => shape t' = [6; 1]%nat /\ row t' 4 = [8]
    | None => False
    end /\
    match LatePoolingCodeDecoder.trace m' with
    | Some tr' =>
        shape (MaskedMemory.memory tr') = [6; 2]%nat /\
        row (MaskedMemory.memory tr') 2 = [1; 2] /\
        row (MaskedMemory.attn_mask tr') 5 = [true; false]
    | None => False
    end.
Proof.
  destruct (expand_by_beam_copies_rows MoreExamples.tiny_memory 2 3
              [1%nat] [2%nat] [2%nat])
    as (m' & E & Hio & Htr).
  - intros t [= <-]. split; reflexivity.
  - intros tr [= <-]. repeat split; reflexivity.
  - exists m'. split; [exact E |].
    cbn [LatePoolingCodeDecoder.io LatePoolingCodeDecoder.trace
         MoreExamples.tiny_memory] in Hio, Htr.
    split.
    + destruct (LatePoolingCodeDecoder.io m') as [t' |]; [| contradiction].
      destruct Hio as (S & _ & R). split; [exact S |].
      exact (R 1%nat 1%nat ltac:(lia) ltac:(lia)).
    + destruct (LatePoolingCodeDecoder.trace m') as [tr' |]; [| contradiction].
      destruct Htr as (S1 & _ & _ & _ & R). split; [exact S1 |].
      split.
      * exact (proj1 (R 0%nat 2%nat ltac:(lia) ltac:(lia))).
      * exact (proj2 (R 1%nat 2%nat ltac:(lia) ltac:(lia))).
Defined.

(** ** The decision vector of the code decoder *)

(** C6, amended.  A call of [compute_next_token_logits] that returns has
    taken these steps.  The recurrent output is what the LSTM gives for the
    last token embedding concatenated with the io embedding and the context
    of the state, the pairs merged into the rows.  When the memory has a
    trace, [self.trace_attention] exists and the new context is what it
    gives for the recurrent output as the query and the flattened trace
    memory and mask; [emb_for_logits] is then the new context concatenated
    with the recurrent output along axis 1, context first, and without a
    trace it is the recurrent output alone.  The logits are the output
    projection of the pooled [emb_for_logits].  For
    [pairs_per_example = p >= 1] the pooling of [n * p] rows gives [n] rows,
    row [i] being the elementwise maximum of the rows [i * p .. i * p + p - 1];
    for [p = 1] it gives its input back unchanged; for [p = 0] it raises
    [RuntimeError]. *)
Theorem pooling_is_maximum_over_pairs {A : Type}
  (self : LatePoolingCodeDecoder.t A) (emax : A -> A -> A) :
  (forall state memory last_token_emb state' logits,
     LatePoolingCodeDecoder.compute_next_token_logits self state memory
       last_token_emb = Ok (state', logits) ->
     exists dec_input d flat h0 c0 dec_output h1 c1 emb pooled,
       karel_modules.maybe_concat
         [Some last_token_emb; LatePoolingCodeDecoder.io memory;
          LatePoolingCodeDecoder.context state] 2 = Ok (Some dec_input) /\
       last_dim dec_input = Ok d /\
       view dec_input [-1; d] = Ok flat /\
       karel_modules.flatten (LatePoolingCodeDecoder.h state) 1 = Ok h0 /\
       karel_modules.flatten (LatePoolingCodeDecoder.c state) 1 = Ok c0 /\
       LatePoolingCodeDecoder.decoder_fn (LatePoolingCodeDecoder.weights self)
         (unsqueeze0 flat) (h0, c0) = Ok (dec_output, (h1, c1)) /\
       match LatePoolingCodeDecoder.trace memory with
       | Some tr =>
           exists m mask ctx,
             LatePoolingCodeDecoder.trace_attention self <> None /\
             karel_modules.flatten (MaskedMemory.memory tr) 0 = Ok m /\
             karel_modules.flatten (MaskedMemory.attn_mask tr) 0 = Ok mask /\
             LatePoolingCodeDecoder.trace_attention_fn
               (LatePoolingCodeDecoder.weights self) (squeeze0 dec_output)
               m mask = Ok ctx /\
             cat2 1 ctx (squeeze0 dec_output) = Ok emb
       | None => emb = squeeze0 dec_output
       end /\
       LatePoolingCodeDecoder.pool
         (LatePoolingCodeDecoder.emax (LatePoolingCodeDecoder.weights self))
         (LatePoolingCodeDecoder.pairs_per_example state) emb = Ok pooled /\
       LatePoolingCodeDecoder.out_fn (LatePoolingCodeDecoder.weights self)
         pooled = Ok logits) /\
  (forall (n wc wo : nat) (ctx out : tensor A),
     shape ctx = [n; wc] -> wf ctx -> shape out = [n; wo] -> wf out ->
     exists emb,
       cat2 1 ctx out = Ok emb /\ shape emb = [n; (wc + wo)%nat] /\
       forall i, (i < n)%nat -> row emb i = (row ctx i ++ row out i)%list) /\
  (forall (p n w : nat) (emb : tensor A),
     shape emb = [n * p; w]%nat -> wf emb -> (1 <= p)%nat -> (1 <= w)%nat ->
     exists pooled,
       LatePoolingCodeDecoder.pool emax (Z.of_nat p) emb = Ok pooled /\
       shape pooled = [n; w] /\
       forall i, (i < n)%nat ->
         row pooled i = LatePoolingCodeDecoder.max_over_pairs emax emb p i) /\
  (forall (n w : nat) (emb : tensor A),
     shape emb = [n; w] -> wf emb -> (1 <= w)%nat ->
     LatePoolingCodeDecoder.pool emax 1 emb = Ok emb) /\
  (forall emb : tensor A,
     shape emb <> [] ->
     LatePoolingCodeDecoder.pool emax 0 emb = Raise RuntimeError).
Proof.
  split; [| split; [| split; [| split]]].
  - intros state memory last_token_emb state' logits H.
    eapply compute_next_token_logits_pools, H.
  - intros n wc wo ctx out Hc Wc Ho Wo.
    destruct (cat2_1_rows ctx out n wc wo) as (emb & E & Hs & _ & Hrows);
      try assumption.
    exists emb. auto.
  - intros p n w emb Hs Hwf Hp Hw.
    destruct (pool_rows emax p n w emb Hs Hwf Hp Hw)
      as (pooled & H1 & H2 & _ & H3).
    exists pooled. auto.
  - intros n w emb. apply pool_single.
  - intros emb. apply pool_zero.
Qed.

Lemma pooling_is_maximum_over_pairs_witness :
  (exists state' logits,
     LatePoolingCodeDecoder.compute_next_token_logits Examples.memory_decoder
       MoreExamples.memory_state MoreExamples.grouped_memory
       (Tensor [2; 1; 256]%nat (replicate 256 5 ++ replicate 256 6))
     = Ok (state', logits) /\
     exists dec_input d flat h0 c0 dec_output h1 c1 emb pooled,
       karel_modules.maybe_concat
         [Some (Tensor [2; 1; 256]%nat (replicate 256 5 ++ replicate 256 6));
          LatePoolingCodeDecoder.io MoreExamples.grouped_memory;
          LatePoolingCodeDecoder.context MoreExamples.memory_state] 2
       = Ok (Some dec_input) /\
       last_dim dec_input = Ok d /\
       view dec_input [-1; d] = Ok flat /\
       karel_modules.flatten
         (LatePoolingCodeDecoder.h MoreExamples.memory_state) 1 = Ok h0 /\
       karel_modules.flatten
         (LatePoolingCodeDecoder.c MoreExamples.memory_state) 1 = Ok c0 /\
       Examples.lstm (unsqueeze0 flat) (h0, c0) = Ok (dec_output, (h1, c1)) /\
       (exists m mask ctx,
          LatePoolingCodeDecoder.trace_attention Examples.memory_decoder
          <> None /\
          karel_modules.flatten
            (Tensor [2; 1; 3; 512]%nat (data (fst Examples.trace_memory))) 0
          = Ok m /\
          karel_modules.flatten
            (Tensor [2; 1; 3]%nat (data (snd Examples.trace_memory))) 0
          = Ok mask /\
          Ok (Examples.fit_rows 512 (squeeze0 dec_output)) = Ok ctx /\
          cat2 1 ctx (squeeze0 dec_output) = Ok emb) /\
       LatePoolingCodeDecoder.pool Z.max 1 emb = Ok pooled /\
       Ok (Examples.fit_rows 8 pooled) = Ok logits) /\
  (exists emb,
     cat2 1 (Tensor [2; 1]%nat [7; 8]) (Tensor [2; 2]%nat [1; 2; 3; 4])
     = Ok emb /\
     shape emb = [2; 3]%nat /\
     forall i, (i < 2)%nat ->
       row emb i
       = (row (Tensor [2; 1]%nat [7; 8]) i
          ++ row (Tensor [2; 2]%nat [1; 2; 3; 4]) i)%list) /\
  (exists pooled,
     LatePoolingCodeDecoder.pool Z.max 2 Examples.small_emb = Ok pooled /\
     shape pooled = [2; 3]%nat /\
     forall i, (i < 2)%nat ->
       row pooled i
       = LatePoolingCodeDecoder.max_over_pairs Z.max Examples.small_emb 2 i) /\
  LatePoolingCodeDecoder.pool Z.max 1 Examples.small_emb = Ok Examples.small_emb /\
  LatePoolingCodeDecoder.pool Z.max 0 Examples.small_emb = Raise RuntimeError.
Proof.
  destruct (pooling_is_maximum_over_pairs Examples.memory_decoder Z.max)
    as (Hstep & Hcat & Hmax & Hone & Hzero).
  split; [| split; [| split; [| split]]].
  - assert (E : exists state' logits,
               LatePoolingCodeDecoder.compute_next_token_logits
                 Examples.memory_decoder MoreExamples.memory_state
                 MoreExamples.grouped_memory
                 (Tensor [2; 1; 256]%nat (replicate 256 5 ++ replicate 256 6))
               = Ok (state', logits)).
    { vm_compute. eexists. eexists. reflexivity. }
    destruct E as (state' & logits & E).
    exists state', logits. split; [exact E |].
    exact (Hstep _ _ _ _ _ E).
  - apply (Hcat 2%nat 1%nat 2%nat); reflexivity.
  - apply (Hmax 2%nat 2%nat 3%nat Examples.small_emb);
      [reflexivity | reflexivity | lia | lia].
  - apply (Hone 4%nat 3%nat Examples.small_emb); [reflexivity | reflexivity | lia].
  - apply Hzero. discriminate.
Defined.


(** ** Selecting beams, and the batch dimension of the states *)

(** C1.  [select_for_beams], of [TraceDecoderState] and of
    [LatePoolingCodeDecoder.State], on a state of [B * W] rows and an index
    tensor of [K] columns, each naming an example below [B] and a beam
    below [W]: the call returns a state in which every field that is not
    [None] has [K] rows; row [j] is the source row of beam [indices[1][j]]
    of example [indices[0][j]], at position [indices[0][j] * W +
    indices[1][j]] of the example-major order, so the columns keep their
    order.  The field array of the trace state is a new array of the store,
    which keeps every array it held; the tensors of the result are new
    tensors, given by their elements; a context that is [None] stays
    [None]. *)
Theorem select_for_beams_gathers_rows {A : Type} (B W K : nat)
  (ix : indices) :
  length (fst ix) = K -> length (snd ix) = K ->
  (1 <= B)%nat -> in_range B W (as_tuple ix) ->
  (forall (self : TraceDecoderState.t A) (σ : gmap loc (tensor A))
     (arr : tensor A) (rest_f rest_h rest_c : list nat),
     σ !! TraceDecoderState.field self = Some arr ->
     shape arr = (B * W)%nat :: rest_f -> wf arr ->
     shape (TraceDecoderState.h self) = 2%nat :: (B * W)%nat :: rest_h ->
     wf (TraceDecoderState.h self) ->
     shape (TraceDecoderState.c self) = 2%nat :: (B * W)%nat :: rest_c ->
     wf (TraceDecoderState.c self) ->
     (1 <= numel rest_f)%nat -> (1 <= numel rest_h)%nat ->
     (1 <= numel rest_c)%nat ->
     exists s' arr',
       TraceDecoderState.select_for_beams self (Z.of_nat B) ix σ
       = (Ok s', <[TraceDecoderState.field s' := arr']> σ) /\
       (TraceDecoderState.field s' ∉ dom σ) /\
       shape arr' = K :: rest_f /\
       shape (TraceDecoderState.h s') = 2%nat :: K :: rest_h /\
       shape (TraceDecoderState.c s') = 2%nat :: K :: rest_c /\
       forall j i0 i1, fst ix !! j = Some i0 -> snd ix !! j = Some i1 ->
         row arr' j = row arr (Z.to_nat i0 * W + Z.to_nat i1) /\
         forall l, (l < 2)%nat ->
           row1 (TraceDecoderState.h s') l j
           = row1 (TraceDecoderState.h self) l
               (Z.to_nat i0 * W + Z.to_nat i1) /\
           row1 (TraceDecoderState.c s') l j
           = row1 (TraceDecoderState.c self) l
               (Z.to_nat i0 * W + Z.to_nat i1)) /\
  (forall (self : LatePoolingCodeDecoder.State A)
     (rest_ctx rest_h rest_c : list nat),
     (forall ctx, LatePoolingCodeDecoder.context self = Some ctx ->
        shape ctx = (B * W)%nat :: rest_ctx /\ wf ctx) ->
     shape (LatePoolingCodeDecoder.h self) = 2%nat :: (B * W)%nat :: rest_h ->
     wf (LatePoolingCodeDecoder.h self) ->
     shape (LatePoolingCodeDecoder.c self) = 2%nat :: (B * W)%nat :: rest_c ->
     wf (LatePoolingCodeDecoder.c self) ->
     (1 <= numel rest_ctx)%nat -> (1 <= numel rest_h)%nat ->
     (1 <= numel rest_c)%nat ->
     exists s',
       LatePoolingCodeDecoder.select_for_beams self (Z.of_nat B) ix = Ok s' /\
       LatePoolingCodeDecoder.pairs_per_example s'
       = LatePoolingCodeDecoder.pairs_per_example self /\
       shape (LatePoolingCodeDecoder.h s') = 2%nat :: K :: rest_h /\
       shape (LatePoolingCodeDecoder.c s') = 2%nat :: K :: rest_c /\
       match LatePoolingCodeDecoder.context self with
       | None => LatePoolingCodeDecoder.context s' = None
       | Some ctx =>
           exists ctx',
             LatePoolingCodeDecoder.context s' = Some ctx' /\
             shape ctx' = K :: rest_ctx /\
             forall j i0 i1, fst ix !! j = Some i0 -> snd ix !! j = Some i1 ->
               row ctx' j = row ctx (Z.to_nat i0 * W + Z.to_nat i1)
       end /\
       forall j i0 i1 l,
         fst ix !! j = Some i0 -> snd ix !! j = Some i1 -> (l < 2)%nat ->
         row1 (LatePoolingCodeDecoder.h s') l j
         = row1 (LatePoolingCodeDecoder.h self) l
             (Z.to_nat i0 * W + Z.to_nat i1) /\
         row1 (LatePoolingCodeDecoder.c s') l j
         = row1 (LatePoolingCodeDecoder.c self) l
             (Z.to_nat i0 * W + Z.to_nat i1)).
Proof.
  intros HK0 HK1 HB Hix.
  assert (HK : length (as_tuple ix) = K).
  { unfold as_tuple. rewrite length_zip_with. lia. }
  assert (Hcol : forall j i0 i1,
            fst ix !! j = Some i0 -> snd ix !! j = Some i1 ->
            as_tuple ix !! j = Some (i0, i1)).
  { intros j i0 i1 H0 H1. unfold as_tuple.
    apply lookup_zip_with_Some. exists i0, i1. auto. }
  split.
  - intros self σ arr rest_f rest_h rest_c Hl Hsf Hwf Hsh Hwh Hsc Hwc
      Hrf Hrh Hrc.
    destruct (gather_field arr B W rest_f (as_tuple ix) Hsf Hwf HB Hrf Hix)
      as (f' & Ef & _ & Sf & _ & Rf).
    destruct (gather_layers _ B W rest_h (as_tuple ix) Hsh Hwh HB Hrh Hix)
      as (h' & Eh & Sh & _ & Rh).
    destruct (gather_layers _ B W rest_c (as_tuple ix) Hsc Hwc HB Hrc Hix)
      as (c' & Ec & Sc & _ & Rc).
    rewrite HK in Sf, Sh, Sc.
    exists (TraceDecoderState.Build_t (fresh (dom σ)) h' c'), f'.
    split.
    + unfold TraceDecoderState.select_for_beams.
      erewrite store_bind_eq by reflexivity.
      rewrite (lookup_total_correct _ _ _ Hl).
      erewrite store_bind_eq by (unfold Store.lift; rewrite Ef; reflexivity).
      erewrite store_bind_eq by reflexivity.
      erewrite store_bind_eq by (unfold Store.lift; rewrite Eh; reflexivity).
      erewrite store_bind_eq by (unfold Store.lift; rewrite Ec; reflexivity).
      reflexivity.
    + cbn [TraceDecoderState.field TraceDecoderState.h TraceDecoderState.c].
      split; [apply is_fresh |]. split; [exact Sf |]. split; [exact Sh |].
      split; [exact Sc |]. intros j i0 i1 H0 H1.
      pose proof (Hcol j i0 i1 H0 H1) as Hj.
      split; [exact (Rf j _ Hj) |].
      intros l Hlt. split; [exact (Rh l j _ Hlt Hj) | exact (Rc l j _ Hlt Hj)].
  - intros self rest_ctx rest_h rest_c Hctx Hsh Hwh Hsc Hwc Hrx Hrh Hrc.
    destruct (gather_layers _ B W rest_h (as_tuple ix) Hsh Hwh HB Hrh Hix)
      as (h' & Eh & Sh & _ & Rh).
    destruct (gather_layers _ B W rest_c (as_tuple ix) Hsc Hwc HB Hrc Hix)
      as (c' & Ec & Sc & _ & Rc).
    rewrite HK in Sh, Sc.
    unfold LatePoolingCodeDecoder.select_for_beams. rewrite Eh, Ec.
    destruct (LatePoolingCodeDecoder.context self) as [ctx |].
    + destruct (Hctx ctx eq_refl) as [Hsx Hwx].
      destruct (gather_field ctx B W rest_ctx (as_tuple ix) Hsx Hwx HB Hrx Hix)
        as (x' & _ & Ex & Sx & _ & Rx).
      rewrite HK in Sx.
      apply bind_Ok in Ex as (v & Ev & Ex).
      rewrite Ev. cbn [mbind result_bind Py.bind].
      rewrite Ex. cbn [mbind result_bind Py.bind].
      eexists. split; [reflexivity |].
      cbn [LatePoolingCodeDecoder.pairs_per_example LatePoolingCodeDecoder.h
           LatePoolingCodeDecoder.c LatePoolingCodeDecoder.context].
      split; [reflexivity |]. split; [exact Sh |]. split; [exact Sc |]. split.
      * exists x'. split; [reflexivity |]. split; [exact Sx |].
        intros j i0 i1 H0 H1. exact (Rx j _ (Hcol j i0 i1 H0 H1)).
      * intros j i0 i1 l H0 H1 Hl.
        pose proof (Hcol j i0 i1 H0 H1) as Hj.
        split; [exact (Rh l j _ Hl Hj) | exact (Rc l j _ Hl Hj)].
    + cbn [mbind result_bind Py.bind].
      eexists. split; [reflexivity |].
      cbn [LatePoolingCodeDecoder.pairs_per_example LatePoolingCodeDecoder.h
           LatePoolingCodeDecoder.c LatePoolingCodeDecoder.context].
      split; [reflexivity |]. split; [exact Sh |]. split; [exact Sc |].
      split; [reflexivity |].
      intros j i0 i1 l H0 H1 Hl.
      pose proof (Hcol j i0 i1 H0 H1) as Hj.
      split; [exact (Rh l j _ Hl Hj) | exact (Rc l j _ Hl Hj)].
Qed.

Lemma select_for_beams_gathers_rows_witness :
  (exists s' arr',
     TraceDecoderState.select_for_beams Examples.trace_state 3
       ([0; 2; 2; 1], [0; 0; 0; 0]) Examples.trace_store
     = (Ok s', <[TraceDecoderState.field s' := arr']> Examples.trace_store) /\
     (TraceDecoderState.field s' ∉ dom Examples.trace_store) /\
     shape arr' = [4; 2]%nat /\
     shape (TraceDecoderState.h s') = [2; 4; 1]%nat /\
     row arr' 1 = [30; 31]) /\
  (exists s' ctx',
     LatePoolingCodeDecoder.select_for_beams Examples.beam_state 2
       Examples.beam_indices = Ok s' /\
     LatePoolingCodeDecoder.pairs_per_example s' = 1 /\
     shape (LatePoolingCodeDecoder.h s') = [2; 3; 1; 256]%nat /\
     shape (LatePoolingCodeDecoder.c s') = [2; 3; 1; 256]%nat /\
     LatePoolingCodeDecoder.context s' = Some ctx' /\
     shape ctx' = [3; 1; 512]%nat /\
     row ctx' 2
     = row (Tensor [4; 1; 512]%nat (map Z.of_nat (seq 0 (4 * 512)))) 2).
Proof.
  split.
  - assert (Hin : in_range 3 1 (as_tuple ([0; 2; 2; 1], [0; 0; 0; 0])))
      by (repeat constructor; cbn; lia).
    destruct (select_for_beams_gathers_rows (A := Z) 3 1 4
                ([0; 2; 2; 1], [0; 0; 0; 0]) eq_refl eq_refl ltac:(lia) Hin)
      as [Htrace _].
    destruct (Htrace Examples.trace_state Examples.trace_store
                (Tensor [3; 2]%nat [10; 11; 20; 21; 30; 31])
                [2]%nat [1]%nat [1]%nat
                eq_refl eq_refl eq_refl eq_refl eq_refl eq_refl eq_refl
                ltac:(cbn; lia) ltac:(cbn; lia) ltac:(cbn; lia))
      as (s' & arr' & H1 & H2 & H3 & H4 & _ & H6).
    exists s', arr'. split; [exact H1 |]. split; [exact H2 |].
    split; [exact H3 |]. split; [exact H4 |].
    destruct (H6 1%nat 2 0 eq_refl eq_refl) as [Hrow _]. exact Hrow.
  - assert (Hin : in_range 2 2 (as_tuple Examples.beam_indices))
      by (repeat constructor; cbn; lia).
    destruct (select_for_beams_gathers_rows (A := Z) 2 2 3
                Examples.beam_indices eq_refl eq_refl ltac:(lia) Hin)
      as [_ Hcode].
    destruct beam_state_wf as (Wx & Wh & Wc).
    destruct (Hcode Examples.beam_state [1; 512]%nat [1; 256]%nat
                [1; 256]%nat Wx eq_refl Wh eq_refl Wc)
      as (s' & H1 & H2 & H3 & H4 & (ctx' & H5 & H6 & H7) & _).
    + cbn; lia.
    + cbn; lia.
    + cbn; lia.
    + exists s', ctx'.
      split; [exact H1 |]. split; [exact H2 |]. split; [exact H3 |].
      split; [exact H4 |]. split; [exact H5 |]. split; [exact H6 |].
      exact (H7 2%nat 1 0 eq_refl eq_refl).
Defined.

Section StateInvariant.
Context {A : Type}.
Local Close Scope string_scope.
Local Open Scope nat_scope.

Import LatePoolingCodeDecoder.

(** A state of the decoder has one batch dimension. *)
Lemma decoder_state_batch_dimension (self : t A) (n p : nat) (s : State A) :
  decoder_state self n p s ->
  batch_dimension n s /\ pairs_per_example s = Z.of_nat p.
Proof.
  unfold decoder_state, batch_dimension.
  destruct (use_trace_memory self).
  - intros (Hp & (ctx & Hctx & Sctx & _) & Sh & _ & Sc & _).
    rewrite Sh, Sc. split; [| exact Hp].
    split; [reflexivity |]. split; [reflexivity |].
    intros ctx0 Hc. rewrite Hctx in Hc. injection Hc as <-.
    rewrite Sctx. reflexivity.
  - intros (Hp & Hctx & Sh & _ & Sc & _).
    rewrite Sh, Sc. split; [| exact Hp].
    split; [reflexivity |]. split; [reflexivity |].
    intros ctx0 Hc. rewrite Hctx in Hc. discriminate Hc.
Qed.

(** [select_for_beams] on a state of the decoder. *)
Lemma decoder_state_select (self : t A) (B W p : nat) (s : State A)
  (ix : indices) :
  decoder_state self (B * W) p s -> 1 <= B -> 1 <= p ->
  in_range B W (as_tuple ix) ->
  exists s',
    select_for_beams s (Z.of_nat B) ix = Ok s' /\
    decoder_state self (length (as_tuple ix)) p s'.
Proof.
  unfold decoder_state. intros Hs HB Hp Hix.
  assert (Hh : forall s0 : State A,
            shape (h s0) = [2; B * W; p; 256] -> wf (h s0) ->
            shape (c s0) = [2; B * W; p; 256] -> wf (c s0) ->
            exists h' c',
              (v ← view (h s0) (2%Z :: Z.of_nat B :: (-1)%Z
                                  :: map Z.of_nat (drop 2 (shape (h s0))));
               index_tuple 1 v (as_tuple ix)) = Ok h' /\
              (v ← view (c s0) (2%Z :: Z.of_nat B :: (-1)%Z
                                  :: map Z.of_nat (drop 2 (shape (c s0))));
               index_tuple 1 v (as_tuple ix)) = Ok c' /\
              shape h' = [2; length (as_tuple ix); p; 256] /\ wf h' /\
              shape c' = [2; length (as_tuple ix); p; 256] /\ wf c').
  { intros s0 Sh Wh Sc Wc.
    destruct (gather_layers _ B W [p; 256] (as_tuple ix) Sh Wh HB
                ltac:(rewrite !numel_cons, numel_nil; lia) Hix)
      as (h' & Eh & Sh' & Wh' & _).
    destruct (gather_layers _ B W [p; 256] (as_tuple ix) Sc Wc HB
                ltac:(rewrite !numel_cons, numel_nil; lia) Hix)
      as (c' & Ec & Sc' & Wc' & _).
    exists h', c'. auto 10. }
  unfold select_for_beams.
  destruct (use_trace_memory self).
  - destruct Hs as (Hpp & (ctx & Hctx & Sctx & Wctx) & Sh & Wh & Sc & Wc).
    destruct (Hh s Sh Wh Sc Wc) as (h' & c' & Eh & Ec & Sh' & Wh' & Sc' & Wc').
    destruct (gather_field ctx B W [p; 512] (as_tuple ix) Sctx Wctx HB
                ltac:(rewrite !numel_cons, numel_nil; lia) Hix)
      as (x' & _ & Ex & Sx & Wx & _).
    rewrite Hctx, Eh, Ec.
    apply bind_Ok in Ex as (v & Ev & Ex).
    rewrite Ev. cbn [mbind result_bind Py.bind].
    rewrite Ex. cbn [mbind result_bind Py.bind].
    eexists. split; [reflexivity |].
    unfold state_rows. cbn [pairs_per_example context h c].
    split; [exact Hpp |]. split; [exists x'; auto |]. auto.
  - destruct Hs as (Hpp & Hctx & Sh & Wh & Sc & Wc).
    destruct (Hh s Sh Wh Sc Wc) as (h' & c' & Eh & Ec & Sh' & Wh' & Sc' & Wc').
    rewrite Hctx, Eh, Ec. cbn [mbind result_bind Py.bind].
    eexists. split; [reflexivity |].
    unfold plain_state_rows. cbn [pairs_per_example context h c].
    auto 10.
Qed.

(** A decoding step on a state and a memory of the decoder. *)
Lemma decoder_state_step (w : Weights A) (vocab_size : Z) (args : Args)
  (self : t A) (n p len : nat) (s : State A) (m : Memory A)
  (emb : tensor A) :
  __init__ w vocab_size args = Ok self ->
  CodeDecoder_layers_accept self ->
  decoder_state self n p s -> decoder_memory self n p len m ->
  shape emb = [n; p; 256] -> wf emb -> 1 <= p -> 1 <= len ->
  exists s' logits,
    compute_next_token_logits self s m emb = Ok (s', logits) /\
    decoder_state self n p s' /\
    shape logits = [n; Z.to_nat vocab_size] /\ wf logits.
Proof.
  intros Hinit Hlayers Hs Hm Se We H1p H1l.
  destruct (code_decoder_built w vocab_size args self Hinit)
    as (_ & Wemb & Wdec & Wdo & Wout & Wlog & Watt).
  pose proof (code_decoder_vocabulary w vocab_size args self Hinit) as Wnum.
  unfold decoder_state, decoder_memory in *.
  destruct (use_trace_memory self) eqn:Huse.
  - assert (Hacc : layers_accept (weights self)
                     (decoder_input_size (use_io_embed self))
                     (Z.to_nat vocab_size)).
    { apply layers_accept_of_built; assumption. }
    assert (Hta : trace_attention self <> None)
      by (rewrite Watt; discriminate).
    exact (compute_next_token_logits_rows self _ (Z.to_nat vocab_size) n p
             len s m emb Hacc Hta Hs Hm Se We H1p H1l).
  - rewrite !Nat.add_0_r in Wdec, Wout.
    exact (compute_next_token_logits_plain self _ (Z.to_nat vocab_size) n p
             s m emb Hlayers Wdec Wdo Wout Wlog Hs Hm Se We H1p).
Qed.

End StateInvariant.

(** C7.  The states a [LatePoolingCodeDecoder] works on have [n] rows in
    every field that is not [None], [n] being the batch size of the
    decoding, and [p] pairs per example, and have a context exactly when
    the decoder uses the trace memory.  Every transition takes such states
    to such states and carries [pairs_per_example]:
    - [init_state(B, P)] returns one of [B] rows;
    - [truncate(k)], for [k <= n], gives one of [k] rows whenever it
      returns, and it returns when the decoder uses the trace memory;
    - [select_for_beams(B, indices)] on one of [B * W] rows, for [K] index
      columns in range, returns one of [K] rows;
    - a decode step of a decoder as [__init__] builds it, with layers that
      accept their inputs, on a memory and a token embedding of [n] rows,
      returns one of [n] rows. *)
Theorem state_transitions_keep_batch_dimension {A : Type}
  (w : LatePoolingCodeDecoder.Weights A) (vocab_size : Z) (args : Args)
  (self : LatePoolingCodeDecoder.t A) :
  LatePoolingCodeDecoder.__init__ w vocab_size args = Ok self ->
  CodeDecoder_layers_accept self ->
  (forall (n p : nat) s,
     decoder_state self n p s ->
     LatePoolingCodeDecoder.batch_dimension n s /\
     LatePoolingCodeDecoder.pairs_per_example s = Z.of_nat p) /\
  (forall B P : nat,
     exists s,
       LatePoolingCodeDecoder.init_state self (Z.of_nat B) (Z.of_nat P)
       = Ok s /\
       decoder_state self B P s) /\
  (forall (n p k : nat) s,
     decoder_state self n p s -> (k <= n)%nat ->
     (LatePoolingCodeDecoder.use_trace_memory self = true ->
      is_ok (LatePoolingCodeDecoder.truncate s (Z.of_nat k))) /\
     forall s',
       LatePoolingCodeDecoder.truncate s (Z.of_nat k) = Ok s' ->
       decoder_state self k p s') /\
  (forall (B W p : nat) s (ix : indices),
     decoder_state self (B * W) p s -> (1 <= B)%nat -> (1 <= p)%nat ->
     in_range B W (as_tuple ix) ->
     exists s',
       LatePoolingCodeDecoder.select_for_beams s (Z.of_nat B) ix = Ok s' /\
       decoder_state self (length (as_tuple ix)) p s') /\
  (forall (n p len : nat) s memory last_token_emb,
     decoder_state self n p s -> decoder_memory self n p len memory ->
     shape last_token_emb = [n; p; 256%nat] -> wf last_token_emb ->
     (1 <= p)%nat -> (1 <= len)%nat ->
     exists s' logits,
       LatePoolingCodeDecoder.compute_next_token_logits self s memory
         last_token_emb = Ok (s', logits) /\
       decoder_state self n p s').
Proof.
  intros Hinit Hlayers.
  split; [| split; [| split; [| split]]].
  - intros n p s. apply decoder_state_batch_dimension.
  - intros B P. unfold decoder_state.
    destruct (LatePoolingCodeDecoder.use_trace_memory self) eqn:Huse.
    + apply code_state_init, Huse.
    + apply code_state_init_plain, Huse.
  - intros n p k s Hs Hk. unfold decoder_state in *.
    destruct (LatePoolingCodeDecoder.use_trace_memory self).
    + destruct (truncate_state_rows n k p s Hs Hk) as (s1 & E1 & H1).
      rewrite E1. split; [intros _; exact I |].
      intros s' [= <-]. exact H1.
    + destruct Hs as (_ & Hctx & _).
      unfold LatePoolingCodeDecoder.truncate. rewrite Hctx.
      split; [discriminate |]. intros s' Hn. discriminate Hn.
  - intros B W p s ix. apply decoder_state_select.
  - intros n p len s memory emb Hs Hm Se We H1p H1l.
    destruct (decoder_state_step w vocab_size args self n p len s memory emb
                Hinit Hlayers Hs Hm Se We H1p H1l)
      as (s' & lg & E & Hs' & _).
    exists s', lg. auto.
Qed.

(** The memory of [MoreExamples] is a memory of 2 rows, 1 pair and 3
    steps, and the embedding of two tokens is well formed. *)
Lemma grouped_memory_rows :
  LatePoolingCodeDecoder.memory_rows false 2 1 3 MoreExamples.grouped_memory /\
  wf (Tensor [2; 1; 256]%nat (replicate 512 5)).
Proof.
  split; [| vm_compute; reflexivity].
  unfold LatePoolingCodeDecoder.memory_rows. split; [reflexivity |].
  eexists. split; [reflexivity |]. split; [reflexivity |].
  split; [vm_compute; reflexivity |]. split; [reflexivity |].
  vm_compute. reflexivity.
Qed.

Lemma state_transitions_keep_batch_dimension_witness :
  exists s0 s1 s2 s3 logits,
    LatePoolingCodeDecoder.init_state Examples.memory_decoder 4 1 = Ok s0 /\
    LatePoolingCodeDecoder.batch_dimension 4 s0 /\
    LatePoolingCodeDecoder.select_for_beams s0 2 Examples.beam_indices
    = Ok s1 /\
    LatePoolingCodeDecoder.batch_dimension 3 s1 /\
    LatePoolingCodeDecoder.truncate s1 2 = Ok s2 /\
    LatePoolingCodeDecoder.batch_dimension 2 s2 /\
    LatePoolingCodeDecoder.compute_next_token_logits Examples.memory_decoder
      s2 MoreExamples.grouped_memory
      (Tensor [2; 1; 256]%nat (replicate 512 5)) = Ok (s3, logits) /\
    LatePoolingCodeDecoder.batch_dimension 2 s3 /\
    LatePoolingCodeDecoder.pairs_per_example s3 = 1.
Proof.
  assert (Hacc : CodeDecoder_layers_accept Examples.memory_decoder).
  { apply (code_weights_built_accept Examples.memory_decoder 8);
      try reflexivity. intros att [= <-]. reflexivity. }
  destruct (state_transitions_keep_batch_dimension (Examples.code_weights 8)
              8 (Examples.args_with "memory") Examples.memory_decoder
              eq_refl Hacc)
    as (Hdim & Hinit & Htrunc & Hsel & Hstep).
  destruct grouped_memory_rows as [Hmem Wemb].
  destruct (Hinit 4%nat 1%nat) as (s0 & E0 & D0).
  destruct (Hsel 2%nat 2%nat 1%nat s0 Examples.beam_indices D0
              ltac:(lia) ltac:(lia)
              ltac:(repeat constructor; cbn; lia))
    as (s1 & E1 & D1).
  destruct (Htrunc 3%nat 1%nat 2%nat s1 D1 ltac:(lia)) as [Hret Hkeep].
  specialize (Hret eq_refl).
  destruct (LatePoolingCodeDecoder.truncate s1 (Z.of_nat 2))
    as [s2 |] eqn:E2; [| destruct Hret].
  pose proof (Hkeep s2 eq_refl) as D2.
  destruct (Hstep 2%nat 1%nat 3%nat s2 MoreExamples.grouped_memory
              (Tensor [2; 1; 256]%nat (replicate 512 5)) D2 Hmem eq_refl
              Wemb ltac:(lia) ltac:(lia))
    as (s3 & logits & E3 & D3).
  exists s0, s1, s2, s3, logits.
  split; [exact E0 |]. split; [exact (proj1 (Hdim _ _ _ D0)) |].
  split; [exact E1 |]. split; [exact (proj1 (Hdim _ _ _ D1)) |].
  split; [exact E2 |]. split; [exact (proj1 (Hdim _ _ _ D2)) |].
  split; [exact E3 |]. split; [exact (proj1 (Hdim _ _ _ D3)) |].
  exact (proj2 (Hdim _ _ _ D3)).
Defined.
